(* ===== verification/_CoqProject ===== *)
-Q . S2P
Prelude.v
ByteSpan.v
OrderedMap.v
IntervalSet.v
Gtid.v
GtidSet.v
GtidSetEncoding.v
GtidSetText.v
Util.v
Protocol.v
GtidLog.v
GtidTaggedLog.v
ReaderContext.v
Rewriter.v
Event.v
Backend.v
Wire.v
Messages.v
MessageLaws.v
MiniMysql.v
MiniMysqlLaws.v
S3Client.v
S3Backend.v
Metadata.v
Storage.v
StorageLog.v
StorageDisk.v
StorageLoad.v
Commands.v
Connection.v
ConnectionTrace.v
Config.v
ConfigLaws.v
Factory.v
App.v
RewriteMode.v
RewriteViews.v
Logging.v
Program.v
TestDump.v
Main.v
Delivery.v
Shutdown.v
