(* ===== verification/Prelude.v ===== *)
(** * Percona Binary Log Server: a verification development

    The program (src/src) connects to a MySQL server as a replica, checks the stream of
    binary log events it receives, and stores it, transaction by transaction, in a storage
    that other tools query and purge.  Its parts, from the bottom up:

    - byte spans (util/byte_span_extractors.hpp, util/byte_span_inserters.hpp): integers and
      byte arrays read from and written to a window of a buffer;
    - GTIDs and GTID sets (binsrv/gtids): which transactions are known, with a text form and
      a binary form;
    - events (binsrv/events): headers, payloads and checksums of binary log events, the
      views over them, and the [reader_context], a state machine that follows the stream and
      knows where transactions end;
    - the storage (binsrv/storage.cpp) over a backend (binsrv/basic_storage_backend.cpp,
      binsrv/filesystem_storage_backend.cpp, binsrv/s3_storage_backend.cpp): binlog files, one
      metadata file for each, an index, and a buffer of events that have not been written yet;
    - the connection to the server (easymysql/connection.cpp), over the MySQL client library;
    - the configuration (binsrv/*_config, size_unit, time_unit, util/nv_tuple_from_json.hpp),
      read from a JSON document and validated;
    - the program itself (app.cpp): [main], the loops that open connections and feed events to
      the context and the storage until a signal ends them, the log, and the commands that
      list, search and purge the storage;
    - the protocol of MySQL (src/extra/mysql_protocol): integers, strings, frames and messages,
      with what the capabilities of both sides make of them;
    - a test server (minimysql) that speaks this protocol: it greets a client, checks its
      password, answers a few queries and sends a dump of sample events.

    The models are functions on lists of bytes (byte = [Z] from 0 to 255) that follow the
    statements of the C++ functions; exceptions are values of [error] (class and message),
    reached through the [result] monad for functions without state and the [action] monad
    (Backend.v) for those with state.  An [assert] is a precondition.  Integers are [Z], cut
    to their width ([u8], [u32], [u64]) where the source computes with them.

    ** Files

    - Prelude.v: [error], [result], machine integers, little-endian lists, texts.
    - ByteSpan.v: util/byte_span_*.hpp.  A reader is the list of the remaining bytes, a
      writer a buffer and a position.  Round trips of fixed, packed and variable-length
      integers.
    - OrderedMap.v, IntervalSet.v: what the program uses of [std::map], and of
      [boost::icl::interval_set]; the latter is not under src/ and is a class
      [IntervalSet] with laws, implemented once by sorted lists (IntervalList).
    - Gtid.v: binsrv/gtids/{uuid,tag,gtid}.  [boost::uuids] is the class [BoostUuid].
    - GtidSet.v, GtidSetEncoding.v, GtidSetText.v: binsrv/gtids/gtid_set.  Refinement of the
      set algebra to sets of (UUID, tag, number), round trips of both forms, and that their
      loops end.
    - Util.v: util/semantic_version, util/ctime_timestamp_range,
      binsrv/events/composite_binlog_name.
    - Protocol.v: event codes, common header, footer, post header lengths, and the rotate,
      format description and previous GTIDs payloads of binsrv/events.
    - GtidLog.v, GtidTaggedLog.v: the payloads of the GTID events.
    - ReaderContext.v: event_view and reader_context.  The state machine, the grammar of the
      streams it accepts, positions and transaction boundaries.  zlib is the class [Zlib].
    - Rewriter.v: binsrv/events/rewriter, the changes of an event that is copied to another
      place: new position, checksum, local sequence number, and the iteration that sizes a
      rewritten tagged GTID event.
    - Event.v: binsrv/events/event, events created from their components, and the generators
      of events of app.cpp.
    - Backend.v: the backend interface, as a class of virtual functions with laws
      ([StorageBackendLaws]), and its implementation over a directory whose system calls may
      fail.  The laws tell the bytes that are durable from those of the open stream, and say
      what a failed operation may leave behind; what the storage proves, it proves from them.
    - S3Client.v, S3Backend.v: the S3 backend.  The AWS SDK is a class of requests with laws
      ([S3CrtClientLaws]) and a simulated service that keeps them.  The listing is complete
      whatever the pages are, every write leaves a whole object, the constructor is followed
      through the parts of the URI, and the backend keeps the same laws as the filesystem.
    - Wire.v, Messages.v, MessageLaws.v: the codecs of classic_protocol_codec_*.h.  A message
      lists its fields once; a decoder is an action on the bytes that are left.  The class
      [CodecLaws] is what a codec promises, and every message of Messages.v keeps the promise;
      a frame carries any of them.
    - MiniMysql.v, MiniMysqlLaws.v: minimysql/connection_context, network_io_operations,
      caching_sha2_password_authenticator, sample_event_collection and the [session] of
      network_service.  OpenSSL and the sockets of Boost.Asio are classes.  What is read and
      written is recorded, and a state machine says what the protocol allows.  TestDump.v: the
      dump of the test server goes through App.v into a storage, with the CRC-32 of zlib.
    - Metadata.v: the JSON metadata files.  [boost::json] and [boost::posix_time] are
      classes with laws.
    - Storage.v: the class [storage], every operation; StorageLog.v: an open binlog refines
      a log of transactions; StorageDisk.v: what is on disk, restarts, purges, and the
      invariant of every reachable state; StorageLoad.v: a storage that is constructed is
      consistent with the objects it was constructed from.
    - Commands.v: the command line and the subcommands that list, search and purge.
    - Connection.v, ConnectionTrace.v: easymysql/connection.  The MySQL client library is the
      class [MysqlClient] with laws.  What is called on the library is recorded: a created
      connection was configured as its configuration says, and an automaton says which
      sequences of calls the library allows.
    - Config.v, ConfigLaws.v: the units with their overflow, the enumerations, the extraction
      of a configuration from a document with the path of the element that fails, and the
      validation.  The parser of Boost.JSON is the class [BoostJsonDocument].
    - Factory.v: binsrv/storage_backend_factory, and the constructor of the filesystem backend:
      which backend a configuration makes, and where.
    - App.v: the replication loop, on the packets a server delivers.  That a stream of packets
      becomes whole transactions in a file, and that a lost connection resumes without a gap or
      a repetition.
    - RewriteMode.v, RewriteViews.v: the loop in the rewrite mode, where events are changed
      and files are cut by size.
    - Program.v: the states of the whole program in both modes, over any number of
      connections, restarts and purges.
    - Logging.v: binsrv/basic_logger and what app.cpp logs about the configuration, the
      storage, the connection and the bytes of events.
    - Main.v: [receive_binlog_events] over a connection, the idle loop of the pull mode, and
      [main].  Delivery.v: that this loop refines the loop of App.v, so that what is proved of
      the latter holds of the program.  Shutdown.v: that the program ends after a signal, and
      that it uses the client library by its rules from the first call to the last.

    ** Bounds

    Loops that are not structural take fuel.  The decoder of GTID sets and the text parser
    take the length of their input, the parser of tagged GTID bodies too: every iteration
    consumes a byte.  [process_event_view] takes two rounds: a state hands an event on at most
    once.  The sizing of a tagged body takes the nine iterations of the source.  For each
    there is a theorem that the fuel does not run out ([decode_enough_fuel],
    [parse_enough_fuel], [process_enough_rounds], [tagged_size_fixpoint],
    [parse_tagged_body_nofuel]).  The listing of a bucket takes one request more than there
    are objects: every page but the last has one ([s3_listing_complete]).  The sizing loop of
    the rewriter has the nine iterations of the source and needs at most three
    ([event_size_loop_spec]).  The loops of Main.v may run for ever, and say so when their fuel
    runs out: a run whose signal is seen at the k-th test of the flag needs more fuel than k
    ([shutdown]).  The lines of a dump take the length of the dump.  The decoder of a row takes
    the length of its buffer ([decode_row_nofuel]); the command loop of the test server lasts as
    long as its client, and one that has used up its fuel has read as often
    ([session_protocol]).

    ** Not modelled

    The MySQL client library, the AWS SDK, [boost::urls], [boost::json], [boost::icl],
    [boost::uuids], zlib, OpenSSL, Boost.Asio and [boost::algorithm::unhex] are parameters: they
    are not under src/.  Of the MySQL protocol library, which is a copy of the one of MySQL
    Router, the parts that nothing under src/src calls are left out: compressed frames,
    prepared statements, the binary protocol, session tracking and cloning.  Of the test
    server, the coroutine that accepts connections and starts sessions, and what is printed.
    Also left out are the printing of single decoded events to the log and the masking of a URI
    there. *)

From stdpp Require Export base numbers list strings.
From Stdlib Require Export ZArith Lia.

Local Open Scope Z_scope.

(** ** Errors

    The program reports failures by throwing standard exceptions through
    [util::exception_location().raise<E>(msg)].  A computation that may throw is
    a [result]; the constructor of [error] is the exception class, its argument
    the message.  [terminate] is the call of [std::terminate] when an exception leaves
    a [noexcept] function.  [core_error] is [easymysql::core_error], with the code and the text
    of the client library; [system_error] is [boost::system::system_error], and an
    [error_code] is a code of the protocol library, of [std::errc] or of [boost::asio::error].
    [undefined_behaviour] marks executions that C++ gives no
    meaning to (a violated precondition of a standard-library operation): the
    model never silently continues past one. *)
Inductive error_code :=
  | invalid_input | not_enough_input | missing_nul_term | capability_not_supported
  | statement_id_not_found | field_type_unknown
  | no_buffer_space | protocol_error
  | timed_out | message_size | other_error (value : Z).

#[export] Instance error_code_eq_dec : EqDecision error_code.
Proof. solve_decision. Defined.

Inductive error :=
  | invalid_argument (what : string)
  | logic_error (what : string)
  | runtime_error (what : string)
  | core_error (code : Z) (what : list Z)
  | system_error (code : error_code)
  | bad_alloc
  | out_of_range
  | terminate (what : string)
  | undefined_behaviour (what : string).

#[export] Instance error_eq_dec : EqDecision error.
Proof. solve_decision. Defined.

Inductive result (A : Type) :=
  | Ok (a : A)
  | Err (e : error).
Arguments Ok {A} a.
Arguments Err {A} e.

#[export] Instance result_ret : MRet result := @Ok.
#[export] Instance result_bind : MBind result := λ A B f m,
  match m with Ok a => f a | Err e => Err e end.
#[export] Instance result_fmap : FMap result := λ A B f m,
  match m with Ok a => Ok (f a) | Err e => Err e end.

(** [if (cond) { raise(e); }] *)
Definition raise_if (cond : bool) (e : error) : result unit :=
  if cond then Err e else Ok ().

(** [if (!f(...)) { raise(e); }] for a checked extractor or inserter *)
Definition or_raise {A} (o : option A) (e : error) : result A :=
  match o with Some a => Ok a | None => Err e end.

Definition is_ok {A} (r : result A) : bool :=
  match r with Ok _ => true | Err _ => false end.

Lemma result_bind_ok {A B} (m : result A) (f : A → result B) b :
  m ≫= f = Ok b ↔ ∃ a, m = Ok a ∧ f a = Ok b.
Proof. destruct m; naive_solver. Qed.

Lemma result_bind_err {A B} (m : result A) (f : A → result B) e :
  m ≫= f = Err e ↔ m = Err e ∨ ∃ a, m = Ok a ∧ f a = Err e.
Proof. destruct m as [a|e']; cbn; split; [eauto| intros [?|(?&?&?)]; by simplify_eq | by left; simplify_eq | intros [?|(?&?&?)]; by simplify_eq]. Qed.

Lemma raise_if_err c e e' : raise_if c e = Err e' ↔ c = true ∧ e' = e.
Proof. destruct c; naive_solver. Qed.

Lemma or_raise_err {A} (o : option A) e e' : or_raise o e = Err e' ↔ o = None ∧ e' = e.
Proof. destruct o; naive_solver. Qed.

Lemma result_inj {A} (a b : A) : Ok a = Ok b → a = b.
Proof. by intros [= ->]. Qed.

Lemma raise_if_ok c e u : raise_if c e = Ok u ↔ c = false.
Proof. destruct c, u; naive_solver. Qed.

Lemma or_raise_ok {A} (o : option A) e a : or_raise o e = Ok a ↔ o = Some a.
Proof. destruct o; naive_solver. Qed.

(** A [for] loop whose body may throw. *)
Fixpoint foldM {A B} (f : A → B → result A) (a : A) (l : list B) : result A :=
  match l with
  | [] => Ok a
  | b :: l => a ← f a b; foldM f a l
  end.

Lemma foldM_app {A B} (f : A → B → result A) a l1 l2 :
  foldM f a (l1 ++ l2) = a ← foldM f a l1; foldM f a l2.
Proof.
  revert a. induction l1 as [|b l1 IH]; intros a; cbn; [done|].
  destruct (f a b); cbn; [apply IH | done].
Qed.

(** A loop nested in a loop is a loop over the flattened list. *)
Lemma foldM_nested {A B C} (f : A → B → C → result A) (g : B → list C) a l :
  foldM (λ a b, foldM (λ a c, f a b c) a (g b)) a l =
  foldM (λ a bc, f a bc.1 bc.2) a (mjoin ((λ b, pair b <$> g b) <$> l)).
Proof.
  revert a. induction l as [|b l IH]; intros a; [done|].
  change (mjoin ((λ b, pair b <$> g b) <$> b :: l))
    with ((pair b <$> g b) ++ mjoin ((λ b, pair b <$> g b) <$> l)).
  rewrite foldM_app. cbn [foldM].
  assert (∀ m a, foldM (λ a bc, f a bc.1 bc.2) a (pair b <$> m) = foldM (λ a c, f a b c) a m)
    as ->.
  { induction m as [|c m IHm]; intros a'; [done|]. cbn.
    destruct (f a' b c); cbn; [apply IHm | done]. }
  destruct (foldM (λ a c, f a b c) a (g b)); cbn; [apply IH | done].
Qed.

Lemma foldl_nested {A B C} (f : A → B → C → A) (g : B → list C) a l :
  foldl (λ a b, foldl (λ a c, f a b c) a (g b)) a l =
  foldl (λ a bc, f a bc.1 bc.2) a (mjoin ((λ b, pair b <$> g b) <$> l)).
Proof.
  revert a. induction l as [|b l IH]; intros a; [done|].
  change (mjoin ((λ b, pair b <$> g b) <$> b :: l))
    with ((pair b <$> g b) ++ mjoin ((λ b, pair b <$> g b) <$> l)).
  rewrite foldl_app. simpl. rewrite IH. f_equal.
  generalize (g b) as m, a as a'. induction m as [|c m IHm]; intros a'; [done|].
  simpl. apply IHm.
Qed.

(** ** Machine integers: a w-bit unsigned value is a [Z] in [0, 2^w) *)
Definition wrap (w : Z) (z : Z) : Z := z mod 2 ^ w.
Abbreviation u8 := (wrap 8).
Abbreviation u32 := (wrap 32).
Abbreviation u64 := (wrap 64).

Definition in_width (w z : Z) : Prop := 0 ≤ z < 2 ^ w.
Abbreviation byte_ok := (in_width 8).
Abbreviation bytes_ok := (Forall (in_width 8)).

#[export] Instance in_width_dec w z : Decision (in_width w z).
Proof. unfold in_width. apply _. Defined.

Lemma wrap_bound w z : 0 ≤ w → in_width w (wrap w z).
Proof. intros. apply Z.mod_pos_bound. by apply Z.pow_pos_nonneg. Qed.

Lemma wrap_small w z : in_width w z → wrap w z = z.
Proof. apply Z.mod_small. Qed.

Lemma in_width_mono w w' z : w ≤ w' → in_width w z → in_width w' z.
Proof.
  intros Hw [? Hz]. split; [done|]. eapply Z.lt_le_trans; [done|].
  apply Z.pow_le_mono_r; lia.
Qed.

(** [std::bit_width] and [std::countr_one] of <bit> *)
Definition bit_width (v : Z) : Z := if v =? 0 then 0 else Z.log2 v + 1.

Fixpoint countr_one_aux (fuel : nat) (v : Z) : Z :=
  match fuel with
  | O => 0
  | S fuel => if Z.odd v then 1 + countr_one_aux fuel (Z.shiftr v 1) else 0
  end.
(** of an 8-bit value *)
Definition countr_one (v : Z) : Z := countr_one_aux 8 v.

(** ** Little-endian byte sequences *)
Fixpoint le_combine (l : list Z) : Z :=
  match l with
  | [] => 0
  | b :: l => b + 256 * le_combine l
  end.

Fixpoint le_split (n : nat) (v : Z) : list Z :=
  match n with
  | O => []
  | S n => v mod 256 :: le_split n (v / 256)
  end.

Lemma length_le_split n v : length (le_split n v) = n.
Proof. revert v; induction n; intros; simpl; auto. Qed.

Lemma le_split_bytes n v : bytes_ok (le_split n v).
Proof.
  revert v; induction n; intros; simpl; constructor; auto.
  by apply (wrap_bound 8).
Qed.

Lemma le_combine_split n v : le_combine (le_split n v) = v mod 2 ^ (8 * Z.of_nat n).
Proof.
  revert v; induction n as [|n IH]; intros; simpl; [by rewrite Z.mod_1_r|].
  rewrite IH. replace (8 * Z.of_nat (S n)) with (8 + 8 * Z.of_nat n) by lia.
  rewrite Z.pow_add_r by lia. change (2 ^ 8) with 256.
  rewrite Z.rem_mul_r; [lia | lia | apply Z.pow_pos_nonneg; lia].
Qed.

Lemma le_combine_split_small n v :
  in_width (8 * Z.of_nat n) v → le_combine (le_split n v) = v.
Proof. intros. rewrite le_combine_split. by apply Z.mod_small. Qed.

Lemma le_combine_bound l : bytes_ok l → in_width (8 * Z.of_nat (length l)) (le_combine l).
Proof.
  induction 1 as [|b l Hb _ IH]; [done|]. unfold in_width in *. cbn [length le_combine].
  replace (8 * Z.of_nat (S (length l))) with (8 + 8 * Z.of_nat (length l)) by lia.
  rewrite Z.pow_add_r by lia. nia.
Qed.

Lemma le_split_combine l : bytes_ok l → le_split (length l) (le_combine l) = l.
Proof.
  induction 1 as [|b l Hb _ IH]; [done|]. destruct Hb as [? Hb]. simpl in Hb.
  cbn [length le_combine le_split]. f_equal.
  - rewrite Z.mul_comm, Z_mod_plus_full. by apply Z.mod_small.
  - rewrite Z.mul_comm, Z.div_add, (Z.div_small b) by lia. done.
Qed.

(** ** Text: a [std::string] is the list of its character codes *)
Definition code (c : Ascii.ascii) : Z := Z.of_N (Ascii.N_of_ascii c).
Fixpoint text (s : string) : list Z :=
  match s with
  | EmptyString => []
  | String c s => code c :: text s
  end.

Lemma text_bytes s : bytes_ok (text s).
Proof.
  induction s as [|c s IH]; simpl; constructor; auto.
  unfold code. pose proof (Ascii.N_ascii_bounded c). unfold in_width. simpl. lia.
Qed.

(** ** Tactics *)

(** [lia] with division and modulo by constants. *)
Ltac dlia := Z.to_euclidean_division_equations; lia.

(** Invert a chain of monadic steps in a hypothesis [... = Ok _]. *)
Ltac inv_ok :=
  repeat match goal with
  | H : _ ≫= _ = Ok _ |- _ =>
      apply result_bind_ok in H; destruct H as (? & ? & ?)
  | H : raise_if _ _ = Ok _ |- _ => apply raise_if_ok in H
  | H : or_raise _ _ = Ok _ |- _ => apply or_raise_ok in H
  | H : Ok _ = Ok _ |- _ => injection H as H
  | H : Err _ = Ok _ |- _ => discriminate H
  | H : mret _ = Ok _ |- _ => injection H as H
  | p : _ * _ |- _ => destruct p
  | u : unit |- _ => destruct u
  end; simplify_eq.

(** The same for a hypothesis [... = Err _], with one goal per step that can throw. *)
Ltac inv_err :=
  repeat match goal with
  | H : _ ≫= _ = Err _ |- _ => apply result_bind_err in H as [H|(? & ? & H)]
  | H : raise_if _ _ = Err _ |- _ => apply raise_if_err in H as [? H]
  | H : or_raise _ _ = Err _ |- _ => apply or_raise_err in H as [? H]
  | H : Ok _ = Err _ |- _ => discriminate H
  | p : _ * _ |- _ => destruct p
  | u : unit |- _ => destruct u
  end; inv_ok.

(** Turn boolean comparisons in the context into propositions. *)
Ltac to_prop :=
  repeat match goal with
  | H : _ && _ = true |- _ => apply andb_true_iff in H; destruct H
  | H : _ || _ = false |- _ => apply orb_false_iff in H; destruct H
  | H : negb _ = true |- _ => apply negb_true_iff in H
  | H : negb _ = false |- _ => apply negb_false_iff in H
  | H : (_ =? _) = true |- _ => apply Z.eqb_eq in H
  | H : (_ =? _) = false |- _ => apply Z.eqb_neq in H
  | H : (_ <? _) = true |- _ => apply Z.ltb_lt in H
  | H : (_ <? _) = false |- _ => apply Z.ltb_ge in H
  | H : (_ <=? _) = true |- _ => apply Z.leb_le in H
  | H : (_ <=? _) = false |- _ => apply Z.leb_gt in H
  | H : (_ <? _)%nat = true |- _ => apply Nat.ltb_lt in H
  | H : (_ <? _)%nat = false |- _ => apply Nat.ltb_ge in H
  | H : (_ <=? _)%nat = true |- _ => apply Nat.leb_le in H
  | H : (_ <=? _)%nat = false |- _ => apply Nat.leb_gt in H
  | H : (_ =? _)%nat = true |- _ => apply Nat.eqb_eq in H
  | H : (_ =? _)%nat = false |- _ => apply Nat.eqb_neq in H
  | H : bool_decide _ = true |- _ => apply bool_decide_eq_true in H
  | H : bool_decide _ = false |- _ => apply bool_decide_eq_false in H
  end.

(** ** Fuel

    A loop that is not structural takes the number of iterations it may make; running
    out of them is an error of its own, which the development shows never happens. *)
Definition out_of_fuel : error := undefined_behaviour "out of fuel".
Definition nofuel {A} (r : result A) : Prop := r ≠ Err out_of_fuel.

Lemma nofuel_bind {A B} (m : result A) (f : A → result B) :
  nofuel m → (∀ a, m = Ok a → nofuel (f a)) → nofuel (m ≫= f).
Proof. unfold nofuel. destruct m; cbn; [eauto|congruence]. Qed.
Lemma nofuel_ok {A} (a : A) : nofuel (Ok a).
Proof. done. Qed.
Lemma nofuel_raise_if c e : e ≠ out_of_fuel → nofuel (raise_if c e).
Proof. unfold nofuel. destruct c; cbn; congruence. Qed.
Lemma nofuel_or_raise {A} (o : option A) e : e ≠ out_of_fuel → nofuel (or_raise o e).
Proof. unfold nofuel. destruct o; cbn; congruence. Qed.

Ltac nofuel :=
  repeat first
  [ apply nofuel_ok | apply nofuel_raise_if; discriminate | apply nofuel_or_raise; discriminate
  | assumption | match goal with IH : ∀ _, nofuel _ |- _ => apply IH end
  | apply nofuel_bind; [|intros ? _]
  | match goal with
    | |- nofuel (match ?x with (_, _) => _ end) => destruct x
    | |- nofuel (if ?x then _ else _) => destruct x
    end ].

Create HintDb binlog discriminated.
#[export] Hint Resolve wrap_bound le_split_bytes text_bytes le_combine_bound : binlog.
#[export] Hint Rewrite length_le_split : binlog.
