(* ===== verification/ByteSpan.v ===== *)
(** * Byte spans: fixed, packed and variable-length integers

    Models src/src/util/byte_span_extractors.hpp, byte_span_inserters.hpp and
    byte_span_packed_int_constants.hpp.

    A [const_byte_span &remainder] being read is the list of its bytes; a checked
    extractor returns [None] where the C++ function returns [false] (its
    reference arguments are then unchanged) and [Some (value, remainder')]
    otherwise.  A writable [byte_span] is a position in a shared buffer: two spans
    over the same buffer alias, and [subspan] moves the position.  The templates'
    type parameter [T] is its size in bytes. *)

From S2P Require Import Prelude.

Local Open Scope Z_scope.

(** ** Constants of byte_span_packed_int_constants.hpp *)
Definition packed_int_single_boundary : Z := 251.
Definition packed_int_double_boundary : Z := 2 ^ 16.
Definition packed_int_triple_boundary : Z := 2 ^ 24.
Definition packed_int_max_marker : Z := 251.
Definition packed_int_double_marker : Z := 252.
Definition packed_int_triple_marker : Z := 253.
Definition packed_int_octuple_marker : Z := 254.
Definition packed_int_forbidden_marker : Z := 255.
Definition packed_int_double_size : nat := 2.
Definition packed_int_triple_size : nat := 3.
Definition packed_int_octuple_size : nat := 8.

(** ** Extractors *)
Section extractors.
Implicit Types (remainder : list Z) (n : nat).

(** The unchecked extractor: [memcpy] of [n] bytes into a zero-initialised [T],
    least significant byte first.  Its asserts require [n ≤ size]. *)
Definition extract_fixed_int_from_byte_span n remainder : Z * list Z :=
  (le_combine (take n remainder), drop n remainder).

Definition extract_fixed_int_from_byte_span_checked n remainder
    : option (Z * list Z) :=
  if (length remainder <? n)%nat then None
  else Some (extract_fixed_int_from_byte_span n remainder).

(** Reinterpret a [w]-bit unsigned value as signed ([static_cast<T>]). *)
Definition to_signed (w v : Z) : Z :=
  if v <? 2 ^ (w - 1) then v else v - 2 ^ w.

(** The signed versions do not support partial extraction. *)
Definition extract_fixed_int_signed (sizeof_T : nat) remainder : Z * list Z :=
  let '(v, r) := extract_fixed_int_from_byte_span sizeof_T remainder in
  (to_signed (8 * Z.of_nat sizeof_T) v, r).

Definition extract_fixed_int_signed_checked (sizeof_T n : nat) remainder
    : option (Z * list Z) :=
  if (negb (n =? sizeof_T) || (length remainder <? n))%nat then None
  else Some (extract_fixed_int_signed sizeof_T remainder).

(** [storage_span] of size [n] is filled from the front of the remainder. *)
Definition extract_byte_span_from_byte_span n remainder : list Z * list Z :=
  (take n remainder, drop n remainder).

Definition extract_byte_span_from_byte_span_checked n remainder
    : option (list Z * list Z) :=
  if (length remainder <? n)%nat then None
  else Some (extract_byte_span_from_byte_span n remainder).

Definition extract_byte_array_from_byte_span n remainder : list Z * list Z :=
  (take n remainder, drop n remainder).

Definition extract_byte_array_from_byte_span_checked n remainder
    : option (list Z * list Z) :=
  if (length remainder <? n)%nat then None
  else Some (extract_byte_array_from_byte_span n remainder).

Definition extract_packed_int_from_byte_span_checked remainder
    : option (Z * list Z) :=
  match extract_fixed_int_from_byte_span_checked 1 remainder with
  | None => None
  | Some (first_byte, local_remainder) =>
      if first_byte =? packed_int_max_marker then
        Some (2 ^ 64 - 1, local_remainder)
      else if first_byte =? packed_int_double_marker then
        extract_fixed_int_from_byte_span_checked packed_int_double_size local_remainder
      else if first_byte =? packed_int_triple_marker then
        extract_fixed_int_from_byte_span_checked packed_int_triple_size local_remainder
      else if first_byte =? packed_int_octuple_marker then
        extract_fixed_int_from_byte_span_checked packed_int_octuple_size local_remainder
      else if first_byte =? packed_int_forbidden_marker then None
      else Some (first_byte, local_remainder)
  end.

Definition extract_varlen_int_from_byte_span_checked (sizeof_T : nat) remainder
    : option (Z * list Z) :=
  let T := wrap (8 * Z.of_nat sizeof_T) in
  match extract_fixed_int_from_byte_span_checked 1 remainder with
  | None => None
  | Some (first_byte, local_remainder) =>
      let num_bytes := countr_one first_byte + 1 in
      if Z.of_nat (length remainder) <? num_bytes then None
      else
        let value_cpy := T (Z.shiftr first_byte num_bytes) in
        if num_bytes =? 1 then Some (value_cpy, local_remainder)
        else
          let '(value_tmp, local_remainder) :=
            extract_fixed_int_from_byte_span (Z.to_nat (num_bytes - 1)) local_remainder in
          let value_tmp :=
            if num_bytes <? 8 then u64 (Z.shiftl value_tmp (8 - num_bytes))
            else value_tmp in
          if 2 ^ (8 * Z.of_nat sizeof_T) - 1 <? value_tmp then None
          else Some (Z.lor value_cpy (T value_tmp), local_remainder)
  end.

Definition extract_varlen_int_signed_checked (sizeof_T : nat) remainder
    : option (Z * list Z) :=
  let w := 8 * Z.of_nat sizeof_T in
  match extract_varlen_int_from_byte_span_checked sizeof_T remainder with
  | None => None
  | Some (data_tmp, remainder) =>
      let sign_mask := if Z.land data_tmp 1 =? 0 then 0 else 2 ^ w - 1 in
      let data_tmp := Z.shiftr data_tmp 1 in
      let data_tmp := Z.lxor data_tmp sign_mask in
      Some (to_signed w data_tmp, remainder)
  end.
End extractors.

(** ** Writable spans *)
Record byte_span := mk_span { sp_store : list Z; sp_pos : nat }.

Definition span_size (s : byte_span) : nat := length (sp_store s) - sp_pos s.
Definition subspan (n : nat) (s : byte_span) : byte_span :=
  mk_span (sp_store s) (sp_pos s + n).
(** A span over the whole of a buffer. *)
Definition span_of (buffer : list Z) : byte_span := mk_span buffer 0.

(** [memcpy] into the front of the span, then [subspan] past what was written. *)
Definition write_bytes (bs : list Z) (s : byte_span) : byte_span :=
  mk_span
    (take (sp_pos s) (sp_store s) ++ bs ++ drop (sp_pos s + length bs) (sp_store s))
    (sp_pos s + length bs).

(** ** Inserters *)
Section inserters.
Implicit Types (s : byte_span) (n : nat) (value : Z).

Definition insert_fixed_int_to_byte_span n value s : byte_span :=
  write_bytes (le_split n value) s.

Definition insert_fixed_int_to_byte_span_checked n value s : option byte_span :=
  if (span_size s <? n)%nat then None
  else Some (insert_fixed_int_to_byte_span n value s).

Definition insert_fixed_int_signed (sizeof_T : nat) value s : byte_span :=
  insert_fixed_int_to_byte_span sizeof_T (wrap (8 * Z.of_nat sizeof_T) value) s.

Definition insert_fixed_int_signed_checked (sizeof_T n : nat) value s
    : option byte_span :=
  if (negb (n =? sizeof_T) || (span_size s <? n))%nat then None
  else Some (insert_fixed_int_signed sizeof_T value s).

Definition insert_byte_span_to_byte_span (bs : list Z) s : byte_span :=
  write_bytes bs s.

Definition insert_byte_span_to_byte_span_checked (bs : list Z) s : option byte_span :=
  if (span_size s <? length bs)%nat then None
  else Some (insert_byte_span_to_byte_span bs s).

Definition insert_byte_array_to_byte_span_checked (bs : list Z) s : option byte_span :=
  if (span_size s <? length bs)%nat then None
  else Some (write_bytes bs s).

Definition calculate_packed_int_size value : nat :=
  if value <? packed_int_single_boundary then 1
  else if value <? packed_int_double_boundary then packed_int_double_size + 1
  else if value <? packed_int_triple_boundary then packed_int_triple_size + 1
  else packed_int_octuple_size + 1.

Definition insert_packed_int_to_byte_span_checked value s : option byte_span :=
  if value <? packed_int_single_boundary then
    if (span_size s <? 1)%nat then None
    else Some (insert_fixed_int_to_byte_span 1 value s)
  else if value <? packed_int_double_boundary then
    if (span_size s <? 1 + packed_int_double_size)%nat then None
    else Some (insert_fixed_int_to_byte_span packed_int_double_size value
                 (insert_fixed_int_to_byte_span 1 packed_int_double_marker s))
  else if value <? packed_int_triple_boundary then
    if (span_size s <? 1 + packed_int_triple_size)%nat then None
    else Some (insert_fixed_int_to_byte_span packed_int_triple_size value
                 (insert_fixed_int_to_byte_span 1 packed_int_triple_marker s))
  else
    if (span_size s <? 1 + packed_int_octuple_size)%nat then None
    else Some (insert_fixed_int_to_byte_span packed_int_octuple_size value
                 (insert_fixed_int_to_byte_span 1 packed_int_octuple_marker s)).

(** [w] is the width of the signed type in bits. *)
Definition get_signed_representation_as_unsigned (w value : Z) : Z :=
  let sign_mask := if value <? 0 then 2 ^ w - 1 else 0 in
  let result := wrap w value in
  let result := Z.lxor result sign_mask in
  let result := wrap w (Z.shiftl result 1) in
  Z.lor result (Z.land sign_mask 1).

Definition calculate_varlen_int_size value : Z :=
  Z.shiftr (bit_width value * 575) 12 + 1.

Definition calculate_varlen_int_size_signed (w value : Z) : Z :=
  calculate_varlen_int_size (get_signed_representation_as_unsigned w value).

Definition insert_varlen_int_to_byte_span_checked value s : option byte_span :=
  let num_bytes := calculate_varlen_int_size value in
  if Z.of_nat (span_size s) <? num_bytes then None
  else
    let first_byte :=
      u8 (Z.lor (Z.shiftl 1 (num_bytes - 1) - 1) (u64 (Z.shiftl value num_bytes))) in
    let s := insert_fixed_int_to_byte_span 1 first_byte s in
    if num_bytes =? 1 then Some s
    else
      let value_cpy :=
        if num_bytes <? 8 then Z.shiftr value (8 - num_bytes) else value in
      Some (insert_fixed_int_to_byte_span (Z.to_nat (num_bytes - 1)) value_cpy s).

Definition insert_varlen_int_signed_checked (w value : Z) s : option byte_span :=
  insert_varlen_int_to_byte_span_checked (get_signed_representation_as_unsigned w value) s.
End inserters.

(** ** Lemmas on writable spans *)
Definition span_ok (s : byte_span) : Prop := (sp_pos s ≤ length (sp_store s))%nat.

(** What was written to the buffer between two positions of the same span. *)
Definition written_between (s s' : byte_span) : list Z :=
  drop (sp_pos s) (take (sp_pos s') (sp_store s')).

Section spans.
Implicit Types (s : byte_span) (bs : list Z).

Lemma write_bytes_nil s : write_bytes [] s = s.
Proof.
  destruct s as [st p]; unfold write_bytes; simpl.
  by rewrite Nat.add_0_r, take_drop.
Qed.

Lemma write_bytes_app bs1 bs2 s :
  span_ok s → write_bytes bs2 (write_bytes bs1 s) = write_bytes (bs1 ++ bs2) s.
Proof.
  destruct s as [st p]; unfold span_ok, write_bytes; simpl; intros Hp.
  rewrite length_app. f_equal; [|lia].
  rewrite (app_assoc (take p st)), take_app_length'
    by (rewrite length_app, length_take; lia).
  rewrite <-!app_assoc. do 3 f_equal. rewrite !drop_app_ge by (rewrite ?length_take; lia).
  rewrite length_take, drop_drop. apply (f_equal (λ n, drop n st)). lia.
Qed.

Lemma write_bytes_ok bs s :
  span_ok s → (length bs ≤ span_size s)%nat → span_ok (write_bytes bs s).
Proof.
  destruct s as [st p]; unfold span_ok, span_size, write_bytes; simpl; intros.
  rewrite !length_app, length_take, length_drop. lia.
Qed.

Lemma span_size_write bs s :
  span_ok s → (length bs ≤ span_size s)%nat →
  span_size (write_bytes bs s) = (span_size s - length bs)%nat.
Proof.
  destruct s as [st p]; unfold span_ok, span_size, write_bytes; simpl; intros.
  rewrite !length_app, length_take, length_drop. lia.
Qed.

Lemma length_write_bytes bs s :
  span_ok s → (length bs ≤ span_size s)%nat →
  length (sp_store (write_bytes bs s)) = length (sp_store s).
Proof.
  destruct s as [st p]; unfold span_ok, span_size, write_bytes; simpl; intros.
  rewrite !length_app, length_take, length_drop. lia.
Qed.

Lemma read_back bs s :
  span_ok s →
  drop (sp_pos s) (sp_store (write_bytes bs s)) =
    bs ++ drop (sp_pos (write_bytes bs s)) (sp_store (write_bytes bs s)).
Proof.
  destruct s as [st p]; unfold span_ok, write_bytes; simpl; intros.
  rewrite drop_app_length' by (rewrite length_take; lia). f_equal.
  rewrite !drop_app_ge by (rewrite ?length_take; lia). rewrite length_take.
  replace (p + length bs - p `min` length st - length bs)%nat with 0%nat by lia.
  done.
Qed.

(** Writing past a gap first and filling the gap later, through a second span
    over the same buffer, is writing both parts in order. *)
Lemma write_bytes_late h bs s :
  span_ok s → (length h + length bs ≤ span_size s)%nat →
  sp_store (write_bytes h (mk_span
    (sp_store (write_bytes bs (subspan (length h) s))) (sp_pos s))) =
  sp_store (write_bytes (h ++ bs) s).
Proof.
  destruct s as [st p]; unfold span_ok, span_size, write_bytes, subspan; simpl; intros Hp Hl.
  rewrite length_app, take_app_le by (rewrite length_take; lia).
  rewrite take_take, Nat.min_l, <-!app_assoc by lia. do 2 f_equal.
  rewrite drop_app_length' by (rewrite length_take; lia).
  do 2 f_equal. lia.
Qed.

(** Filling a buffer of exactly the right size leaves just the bytes written. *)
Lemma write_bytes_exact bs buffer :
  length bs = length buffer → sp_store (write_bytes bs (span_of buffer)) = bs.
Proof.
  unfold write_bytes; simpl; intros Hl. rewrite drop_ge by lia.
  by rewrite app_nil_r.
Qed.
End spans.
#[export] Hint Resolve write_bytes_ok : binlog.
#[export] Hint Rewrite write_bytes_nil : binlog.

Lemma extract_fixed_app n v rest :
  in_width (8 * Z.of_nat n) v →
  extract_fixed_int_from_byte_span_checked n (le_split n v ++ rest) = Some (v, rest).
Proof.
  intros. unfold extract_fixed_int_from_byte_span_checked, extract_fixed_int_from_byte_span.
  rewrite length_app, length_le_split.
  destruct (Nat.ltb_spec (n + length rest) n); [lia|].
  rewrite take_app_length', drop_app_length' by (by rewrite length_le_split).
  by rewrite le_combine_split_small.
Qed.

Lemma extract_fixed_some n r v r' :
  extract_fixed_int_from_byte_span_checked n r = Some (v, r') →
  (n ≤ length r)%nat ∧ v = le_combine (take n r) ∧ r' = drop n r.
Proof.
  unfold extract_fixed_int_from_byte_span_checked, extract_fixed_int_from_byte_span.
  destruct (Nat.ltb_spec (length r) n); intros; simplify_eq; auto.
Qed.

Lemma extract_u8_cons b rest :
  extract_fixed_int_from_byte_span_checked 1 (b :: rest) = Some (b, rest).
Proof.
  unfold extract_fixed_int_from_byte_span_checked, extract_fixed_int_from_byte_span.
  cbn. by rewrite drop_0, Z.add_0_r.
Qed.

(** ** Packed integers *)

(** The bytes of a packed integer. *)
Definition packed_bytes (value : Z) : list Z :=
  if value <? packed_int_single_boundary then le_split 1 value
  else if value <? packed_int_double_boundary then
    packed_int_double_marker :: le_split packed_int_double_size value
  else if value <? packed_int_triple_boundary then
    packed_int_triple_marker :: le_split packed_int_triple_size value
  else packed_int_octuple_marker :: le_split packed_int_octuple_size value.

Lemma length_packed_bytes v : length (packed_bytes v) = calculate_packed_int_size v.
Proof.
  unfold packed_bytes, calculate_packed_int_size.
  repeat case_match; simpl; rewrite ?length_le_split; done.
Qed.

Lemma packed_bytes_ok v : bytes_ok (packed_bytes v).
Proof.
  unfold packed_bytes. repeat case_match; try apply le_split_bytes;
    (constructor; [done | apply le_split_bytes]).
Qed.

Lemma insert_packed_spec v s :
  span_ok s →
  insert_packed_int_to_byte_span_checked v s =
    if (span_size s <? calculate_packed_int_size v)%nat then None
    else Some (write_bytes (packed_bytes v) s).
Proof.
  intros Hs.
  assert (∀ n m, (m < 256) → 0 ≤ m →
    insert_fixed_int_to_byte_span n v (insert_fixed_int_to_byte_span 1 m s) =
    write_bytes (m :: le_split n v) s) as Hw.
  { intros. unfold insert_fixed_int_to_byte_span. rewrite write_bytes_app by done.
    simpl. by rewrite Z.mod_small by lia. }
  unfold insert_packed_int_to_byte_span_checked, calculate_packed_int_size, packed_bytes.
  rewrite !Hw by done. repeat (case_match; try done).
Qed.

Lemma extract_packed_app v rest :
  in_width 64 v →
  extract_packed_int_from_byte_span_checked (packed_bytes v ++ rest) = Some (v, rest).
Proof.
  intros [Hv0 Hv]. unfold packed_bytes, extract_packed_int_from_byte_span_checked.
  unfold packed_int_single_boundary, packed_int_double_boundary, packed_int_triple_boundary.
  destruct (Z.ltb_spec v 251).
  { rewrite extract_fixed_app by (unfold in_width; simpl; lia).
    unfold packed_int_max_marker, packed_int_double_marker, packed_int_triple_marker,
      packed_int_octuple_marker, packed_int_forbidden_marker.
    repeat (case_match; to_prop; try lia). done. }
  destruct (Z.ltb_spec v (2 ^ 16)); [|destruct (Z.ltb_spec v (2 ^ 24))];
    cbn [app]; rewrite extract_u8_cons; cbn -[le_split]; apply extract_fixed_app;
    unfold in_width, packed_int_double_size, packed_int_triple_size, packed_int_octuple_size;
    simpl in *; lia.
Qed.

(** ** Variable-length integers *)

(** The bytes of a variable-length integer: the number of trailing one bits of
    the first byte is the number of bytes that follow. *)
Definition varlen_bytes_n (num_bytes value : Z) : list Z :=
  let first_byte :=
    u8 (Z.lor (Z.shiftl 1 (num_bytes - 1) - 1) (u64 (Z.shiftl value num_bytes))) in
  first_byte ::
    (if num_bytes =? 1 then []
     else le_split (Z.to_nat (num_bytes - 1))
            (if num_bytes <? 8 then Z.shiftr value (8 - num_bytes) else value)).
Definition varlen_bytes (value : Z) : list Z :=
  varlen_bytes_n (calculate_varlen_int_size value) value.

Lemma length_varlen_bytes_n n v : 1 ≤ n → Z.of_nat (length (varlen_bytes_n n v)) = n.
Proof.
  intros. unfold varlen_bytes_n. cbn [length].
  case_match; to_prop; [simpl; lia|]. rewrite length_le_split. lia.
Qed.

Lemma bit_width_bound v : in_width 64 v → 0 ≤ bit_width v ≤ 64 ∧ v < 2 ^ bit_width v.
Proof.
  intros [? Hv]. unfold bit_width. destruct (Z.eqb_spec v 0) as [->|]; [done|].
  assert (Z.log2 v < 64) by (apply Z.log2_lt_pow2; lia).
  pose proof (Z.log2_nonneg v). pose proof (Z.log2_spec v). unfold Z.succ in *. lia.
Qed.

(** The magic multiplication yields between 1 and 9 bytes, and [n ≤ 8] bytes
    leave room for the value's bits: 7 per byte. *)
Lemma varlen_size_bound v :
  in_width 64 v →
  1 ≤ calculate_varlen_int_size v ≤ 9 ∧
  (calculate_varlen_int_size v ≤ 8 → v < 2 ^ (7 * calculate_varlen_int_size v)).
Proof.
  intros Hv. destruct (bit_width_bound v Hv) as [Hb Hv'].
  unfold calculate_varlen_int_size. rewrite Z.shiftr_div_pow2 by lia.
  change (2 ^ 12) with 4096.
  split; [dlia|]. intros H8.
  eapply Z.lt_le_trans; [done|]. apply Z.pow_le_mono_r; dlia.
Qed.

Lemma varlen_size_cases (P : Z → Prop) v :
  in_width 64 v →
  (∀ k, 1 ≤ k ≤ 8 → v < 2 ^ (7 * k) → P k) → P 9 →
  P (calculate_varlen_int_size v).
Proof.
  intros Hv H8 H9. destruct (varlen_size_bound v Hv) as [Hn Hlt].
  destruct (decide (calculate_varlen_int_size v = 9)) as [->|]; [done|].
  apply H8; [lia | apply Hlt; lia].
Qed.

Lemma countr_one_ones (k : nat) r fuel :
  (k < fuel)%nat → 0 ≤ r →
  countr_one_aux fuel (2 ^ Z.of_nat k - 1 + 2 ^ Z.of_nat k * 2 * r) = Z.of_nat k.
Proof.
  revert fuel; induction k as [|k IH]; intros [|fuel] Hk Hr; try lia; cbn [countr_one_aux].
  - change (2 ^ Z.of_nat 0 - 1 + 2 ^ Z.of_nat 0 * 2 * r) with (2 * r).
    by rewrite Z.odd_mul.
  - rewrite Nat2Z.inj_succ, Z.pow_succ_r by lia. specialize (IH fuel ltac:(lia) Hr).
    set (q := 2 ^ Z.of_nat k) in *.
    replace (2 * q - 1 + 2 * q * 2 * r) with (1 + 2 * (q - 1 + q * 2 * r)) by ring.
    rewrite Z.odd_add_mul_2, Z.shiftr_div_pow2 by lia. change (2 ^ 1) with 2.
    rewrite (Z.mul_comm 2 (q - 1 + q * 2 * r)), Z.div_add by lia.
    change (1 / 2) with 0. rewrite Z.add_0_l, IH. simpl. lia.
Qed.

(** The first byte of an [n]-byte encoding, [n ≤ 8]. *)
Lemma varlen_first_byte k v :
  1 ≤ k ≤ 8 → 0 ≤ v →
  u8 (Z.lor (Z.shiftl 1 (k - 1) - 1) (u64 (Z.shiftl v k))) =
    2 ^ (k - 1) - 1 + 2 ^ k * (v mod 2 ^ (8 - k)).
Proof.
  intros Hk Hv. unfold wrap.
  assert (k = 1 ∨ k = 2 ∨ k = 3 ∨ k = 4 ∨ k = 5 ∨ k = 6 ∨ k = 7 ∨ k = 8) as Hin by lia.
  rewrite Z.shiftl_mul_pow2, Z.mul_1_l, (Z.shiftl_mul_pow2 v) by lia.
  assert (Z.lor (2 ^ (k - 1) - 1) ((v * 2 ^ k) mod 2 ^ 64) =
    2 ^ (k - 1) - 1 + (v * 2 ^ k) mod 2 ^ 64) as ->.
  { symmetry. rewrite <-Z.add_lor_land. 
    enough (Z.land (2 ^ (k - 1) - 1) ((v * 2 ^ k) mod 2 ^ 64) = 0) by lia.
    rewrite <-Z.land_ones by lia. rewrite Z.land_assoc.
    rewrite Z.sub_1_r, <-Z.ones_equiv. apply Z.bits_inj'. intros i Hi.
    rewrite !Z.land_spec, Z.bits_0, <-(Z.shiftl_mul_pow2 v) by lia.
    destruct (decide (i < k - 1)).
    - rewrite Z.shiftl_spec_low by lia. by rewrite andb_false_r.
    - by rewrite Z.ones_spec_high by lia. }
  clear Hk. destruct_or! Hin; subst k; simpl; dlia.
Qed.

Lemma varlen_bytes_spec v :
  in_width 64 v →
  Z.of_nat (length (varlen_bytes v)) = calculate_varlen_int_size v ∧
  bytes_ok (varlen_bytes v).
Proof.
  intros Hv. destruct (varlen_size_bound v Hv) as [Hn _].
  unfold varlen_bytes. split; [apply length_varlen_bytes_n; lia|].
  constructor; [by apply wrap_bound|]. case_match; [constructor | apply le_split_bytes].
Qed.

Lemma insert_varlen_spec v s :
  in_width 64 v → span_ok s →
  insert_varlen_int_to_byte_span_checked v s =
    if (span_size s <? length (varlen_bytes v))%nat then None
    else Some (write_bytes (varlen_bytes v) s).
Proof.
  intros Hv Hs. destruct (varlen_bytes_spec v Hv) as [Hl _].
  unfold insert_varlen_int_to_byte_span_checked. rewrite <-Hl.
  assert ((Z.of_nat (span_size s) <? Z.of_nat (length (varlen_bytes v))) =
    (span_size s <? length (varlen_bytes v))%nat) as ->.
  { destruct (Nat.ltb_spec (span_size s) (length (varlen_bytes v)));
      [apply Z.ltb_lt | apply Z.ltb_ge]; lia. }
  case_match; [done|]. rewrite Hl. unfold varlen_bytes, varlen_bytes_n.
  unfold insert_fixed_int_to_byte_span. cbn [le_split].
  rewrite (Z.mod_small _ 256) by (apply wrap_bound; lia).
  case_match; [done|]. by rewrite write_bytes_app by done.
Qed.

Lemma countr_one_first_byte k v :
  1 ≤ k ≤ 8 → 0 ≤ v →
  countr_one (2 ^ (k - 1) - 1 + 2 ^ k * (v mod 2 ^ (8 - k))) + 1 = k.
Proof.
  intros Hk Hv. replace k with (Z.of_nat (Z.to_nat (k - 1)) + 1) at 1 2 3 by lia.
  rewrite Z.add_simpl_r, (Z.pow_add_r 2 _ 1) by lia. change (2 ^ 1) with 2.
  unfold countr_one. rewrite countr_one_ones; [lia | lia |].
  apply Z.mod_pos_bound, Z.pow_pos_nonneg; lia.
Qed.

Lemma shiftr_first_byte k r :
  1 ≤ k → 0 ≤ r → Z.shiftr (2 ^ (k - 1) - 1 + 2 ^ k * r) k = r.
Proof.
  intros Hk Hr. rewrite Z.shiftr_div_pow2, Z.mul_comm, Z.div_add by (try apply Z.pow_nonzero; lia).
  rewrite Z.div_small; [lia|].
  pose proof (Z.pow_lt_mono_r 2 (k - 1) k). pose proof (Z.pow_pos_nonneg 2 (k - 1)). lia.
Qed.

Lemma lor_split v m : 0 ≤ m → Z.lor (v mod 2 ^ m) (v / 2 ^ m * 2 ^ m) = v.
Proof.
  intros Hm. rewrite <-Z.shiftl_mul_pow2, <-Z.shiftr_div_pow2, <-Z.land_ones by lia.
  apply Z.bits_inj'. intros i Hi. rewrite Z.lor_spec, Z.land_spec, Z.shiftl_spec by lia.
  destruct (decide (i < m)).
  - by rewrite Z.ones_spec_low, (Z.testbit_neg_r _ (i - m)), andb_true_r, orb_false_r by lia.
  - rewrite Z.ones_spec_high, Z.shiftr_spec, andb_false_r by lia. simpl. f_equal. lia.
Qed.

Section varlen_extract.
Context (sizeof_T : nat) (v : Z) (rest : list Z).
Hypothesis HT : (1 ≤ sizeof_T ≤ 8)%nat.
Hypothesis Hv : in_width (8 * Z.of_nat sizeof_T) v.

Lemma wrap_T_le x : 0 ≤ x ≤ v → wrap (8 * Z.of_nat sizeof_T) x = x.
Proof. intros. apply wrap_small. unfold in_width in *. lia. Qed.

Lemma extract_varlen_short k :
  1 ≤ k ≤ 8 → v < 2 ^ (7 * k) →
  extract_varlen_int_from_byte_span_checked sizeof_T (varlen_bytes_n k v ++ rest) =
    Some (v, rest).
Proof.
  intros Hk Hvk. pose proof (length_varlen_bytes_n k v ltac:(lia)) as Hl.
  unfold extract_varlen_int_from_byte_span_checked, varlen_bytes_n in *.
  rewrite varlen_first_byte in * by (lia || apply Hv).
  cbn [app]. rewrite extract_u8_cons, countr_one_first_byte by (lia || apply Hv).
  match goal with |- (if ?c then _ else _) = _ => replace c with false end; cycle 1.
  { symmetry. apply Z.ltb_ge. rewrite app_comm_cons, length_app. lia. }
  assert (0 ≤ v mod 2 ^ (8 - k) < 2 ^ (8 - k))
    by (apply Z.mod_pos_bound, Z.pow_pos_nonneg; lia).
  rewrite shiftr_first_byte by lia. pose proof (Z.mod_le v (2 ^ (8 - k)) ltac:(apply Hv) ltac:(lia)).
  rewrite wrap_T_le by lia. destruct (Z.eqb_spec k 1) as [->|Hk1].
  { rewrite Z.mod_small; [done|]. unfold in_width in *. simpl in *. lia. }
  assert ((if k <? 8 then Z.shiftr v (8 - k) else v) = v / 2 ^ (8 - k)) as ->.
  { case_match; to_prop; [by rewrite Z.shiftr_div_pow2 by lia|].
    replace k with 8 by lia. by rewrite Z.div_1_r. }
  unfold extract_fixed_int_from_byte_span.
  rewrite take_app_length', drop_app_length' by (by rewrite length_le_split).
  rewrite le_combine_split_small; cycle 1.
  { destruct Hv. split; [apply Z.div_pos; lia|]. apply Z.div_lt_upper_bound; [lia|].
    rewrite <-Z.pow_add_r by lia. eapply Z.lt_le_trans; [exact Hvk|].
    apply Z.pow_le_mono_r; lia. }
  assert (0 ≤ v / 2 ^ (8 - k) * 2 ^ (8 - k) ≤ v) as Hhi.
  { destruct Hv. pose proof (Z.mul_div_le v (2 ^ (8 - k))).
    pose proof (Z.div_pos v (2 ^ (8 - k))). nia. }
  assert ((if k <? 8 then u64 (Z.shiftl (v / 2 ^ (8 - k)) (8 - k)) else v / 2 ^ (8 - k)) =
    v / 2 ^ (8 - k) * 2 ^ (8 - k)) as ->.
  { case_match; to_prop.
    - rewrite Z.shiftl_mul_pow2 by lia. apply wrap_small.
      apply (in_width_mono (8 * Z.of_nat sizeof_T)); [lia|]. unfold in_width in *. lia.
    - replace k with 8 by lia. simpl. lia. }
  destruct (Z.ltb_spec (2 ^ (8 * Z.of_nat sizeof_T) - 1) (v / 2 ^ (8 - k) * 2 ^ (8 - k)));
    [unfold in_width in *; lia|].
  by rewrite wrap_T_le, lor_split by lia.
Qed.

Lemma extract_varlen_long :
  extract_varlen_int_from_byte_span_checked sizeof_T (varlen_bytes_n 9 v ++ rest) =
    Some (v, rest).
Proof.
  unfold extract_varlen_int_from_byte_span_checked, varlen_bytes_n.
  assert (u8 (Z.lor (Z.shiftl 1 (9 - 1) - 1) (u64 (Z.shiftl v 9))) = 255) as ->.
  { unfold wrap. rewrite <-!Z.land_ones by lia. apply Z.bits_inj'. intros i Hi.
    rewrite Z.land_spec, Z.lor_spec. change (Z.shiftl 1 (9 - 1) - 1) with (Z.ones 8).
    change 255 with (Z.ones 8). destruct (Z.testbit (Z.ones 8) i); [done|].
    by rewrite andb_false_r. }
  cbn [app]. rewrite extract_u8_cons. change (countr_one 255 + 1) with 9.
  change (9 =? 1) with false. change (9 <? 8) with false.
  change (Z.to_nat (9 - 1)) with 8%nat. cbv iota.
  match goal with |- (if ?c then _ else _) = _ => replace c with false end; cycle 1.
  { symmetry. apply Z.ltb_ge. cbn [length]. rewrite length_app, length_le_split. lia. }
  unfold extract_fixed_int_from_byte_span.
  rewrite take_app_length', drop_app_length' by (by rewrite length_le_split).
  rewrite le_combine_split_small by (eapply in_width_mono; [|done]; lia).
  destruct (Z.ltb_spec (2 ^ (8 * Z.of_nat sizeof_T) - 1) v); [unfold in_width in *; lia|].
  change (Z.shiftr 255 9) with 0. by rewrite !wrap_T_le, Z.lor_0_l by (destruct Hv; lia).
Qed.

(** Reading back the bytes of a value gives the value, for any unsigned type
    wide enough to hold it. *)
Lemma extract_varlen_app :
  extract_varlen_int_from_byte_span_checked sizeof_T (varlen_bytes v ++ rest) =
    Some (v, rest).
Proof.
  assert (in_width 64 v) as Hv64 by (eapply in_width_mono; [|done]; lia).
  unfold varlen_bytes.
  apply (varlen_size_cases
    (λ n, extract_varlen_int_from_byte_span_checked sizeof_T (varlen_bytes_n n v ++ rest) = _)
    v Hv64); auto using extract_varlen_short, extract_varlen_long.
Qed.
End varlen_extract.

(** ** Signed values *)
Section signed.
Context (w : Z).
Hypothesis Hw : 1 ≤ w.

Lemma lxor_ones x : in_width w x → Z.lxor x (2 ^ w - 1) = 2 ^ w - 1 - x.
Proof.
  intros [Hx0 Hx]. rewrite !Z.sub_1_r, <-Z.ones_equiv.
  enough (x + Z.lxor x (Z.ones w) = Z.ones w) by lia.
  assert (Z.land x (Z.lxor x (Z.ones w)) = 0) as Hl.
  { apply Z.bits_inj'. intros i Hi. rewrite Z.land_spec, Z.lxor_spec, Z.bits_0.
    destruct (decide (i < w)).
    - rewrite Z.ones_spec_low by lia. by destruct (Z.testbit x i).
    - destruct (decide (x = 0)) as [->|]; [by rewrite Z.bits_0|].
      rewrite Z.bits_above_log2; [done|lia|].
      assert (Z.log2 x < w) by (apply Z.log2_lt_pow2; lia). lia. }
  rewrite Z.add_nocarry_lxor by done.
  by rewrite <-Z.lxor_assoc, Z.lxor_nilpotent, Z.lxor_0_l.
Qed.

(** The sign moves to the least significant bit. *)
Lemma signed_representation v :
  - 2 ^ (w - 1) ≤ v < 2 ^ (w - 1) →
  get_signed_representation_as_unsigned w v = if v <? 0 then - 2 * v - 1 else 2 * v.
Proof.
  intros Hv. assert (2 ^ w = 2 * 2 ^ (w - 1)) as Hw2.
  { rewrite <-Z.pow_succ_r by lia. f_equal. lia. }
  pose proof (Z.pow_pos_nonneg 2 (w - 1) ltac:(lia) ltac:(lia)).
  unfold get_signed_representation_as_unsigned.
  destruct (Z.ltb_spec v 0).
  - assert (wrap w v = 2 ^ w + v) as ->.
    { unfold wrap. rewrite <-(Z.mod_small (2 ^ w + v) (2 ^ w)) by lia.
      by rewrite <-Z.add_mod_idemp_l, Z.mod_same, Z.add_0_l by lia. }
    rewrite lxor_ones by (unfold in_width; lia).
    rewrite Z.shiftl_mul_pow2 by lia. change (2 ^ 1) with 2.
    rewrite wrap_small by (unfold in_width; lia).
    assert (Z.land (2 ^ w - 1) 1 = 1) as ->.
    { rewrite (Z.land_ones _ 1), Hw2 by lia.
      replace (2 * 2 ^ (w - 1) - 1) with (1 + (2 ^ (w - 1) - 1) * 2) by lia.
      by rewrite Z_mod_plus_full. }
    replace ((2 ^ w - 1 - (2 ^ w + v)) * 2) with (2 * (- v - 1)) by lia.
    pose proof (Z.add_lor_land (2 * (- v - 1)) 1) as Hl.
    assert (Z.land (2 * (- v - 1)) 1 = 0) as Hl0
      by (rewrite (Z.land_ones _ 1) by lia; change (2 ^ 1) with 2; dlia).
    rewrite Hl0 in Hl. lia.
  - rewrite (wrap_small w v), Z.lxor_0_r by (unfold in_width; lia).
    rewrite Z.shiftl_mul_pow2 by lia. change (2 ^ 1) with 2. rewrite wrap_small by (unfold in_width; lia).
    simpl. rewrite Z.lor_0_r. lia.
Qed.

Lemma signed_representation_width v :
  - 2 ^ (w - 1) ≤ v < 2 ^ (w - 1) →
  in_width w (get_signed_representation_as_unsigned w v).
Proof.
  intros Hv. rewrite signed_representation by done. unfold in_width.
  assert (2 ^ w = 2 * 2 ^ (w - 1)).
  { rewrite <-Z.pow_succ_r by lia. f_equal. lia. }
  case_match; to_prop; lia.
Qed.

Lemma signed_decode v :
  - 2 ^ (w - 1) ≤ v < 2 ^ (w - 1) →
  let u := get_signed_representation_as_unsigned w v in
  to_signed w (Z.lxor (Z.shiftr u 1) (if Z.land u 1 =? 0 then 0 else 2 ^ w - 1)) = v.
Proof.
  intros Hv. cbv zeta. rewrite signed_representation by done.
  assert (2 ^ w = 2 * 2 ^ (w - 1)).
  { rewrite <-Z.pow_succ_r by lia. f_equal. lia. }
  rewrite (Z.land_ones _ 1), Z.shiftr_div_pow2 by lia. change (2 ^ 1) with 2.
  unfold to_signed. destruct (Z.ltb_spec v 0).
  - replace ((-2 * v - 1) mod 2) with 1 by dlia.
    replace ((-2 * v - 1) / 2) with (- v - 1) by dlia. cbn [Z.eqb].
    rewrite lxor_ones by (unfold in_width; lia). case_match; to_prop; lia.
  - replace ((2 * v) mod 2) with 0 by dlia. replace (2 * v / 2) with v by dlia.
    cbn [Z.eqb]. rewrite Z.lxor_0_r. case_match; to_prop; lia.
Qed.
End signed.

Lemma extract_varlen_signed_app (sizeof_T : nat) v rest :
  let w := 8 * Z.of_nat sizeof_T in
  (1 ≤ sizeof_T ≤ 8)%nat → - 2 ^ (w - 1) ≤ v < 2 ^ (w - 1) →
  extract_varlen_int_signed_checked sizeof_T
    (varlen_bytes (get_signed_representation_as_unsigned w v) ++ rest) = Some (v, rest).
Proof.
  cbv zeta. intros HT Hv. unfold extract_varlen_int_signed_checked.
  rewrite extract_varlen_app by (done || (apply signed_representation_width; [lia | done])).
  f_equal. f_equal. apply (signed_decode (8 * Z.of_nat sizeof_T)); [lia | done].
Qed.

(** ** Round trips through a buffer *)

(** What a reader sees at the position where a writer started. *)
Definition reader_at (s s' : byte_span) : list Z := drop (sp_pos s) (sp_store s').

(** a fixed-length integer of [n] bytes written to a span is read back by the
    checked extractor, which stops exactly where the writer stopped; the write
    fails, leaving the span alone, only when fewer than [n] bytes are left. *)
Theorem fixed_int_roundtrip (n : nat) v s :
  in_width (8 * Z.of_nat n) v → span_ok s →
  match insert_fixed_int_to_byte_span_checked n v s with
  | None => (span_size s < n)%nat
  | Some s' =>
      sp_pos s' = (sp_pos s + n)%nat ∧ length (sp_store s') = length (sp_store s) ∧
      take (sp_pos s) (sp_store s') = take (sp_pos s) (sp_store s) ∧
      extract_fixed_int_from_byte_span_checked n (reader_at s s') = Some (v, reader_at s' s')
  end.
Proof.
  intros Hv Hs. unfold insert_fixed_int_to_byte_span_checked.
  destruct (Nat.ltb_spec (span_size s) n); [done|].
  unfold insert_fixed_int_to_byte_span, reader_at. rewrite read_back by done.
  rewrite extract_fixed_app, length_write_bytes
    by (done || rewrite length_le_split; done).
  repeat split; [simpl; by rewrite length_le_split|].
  simpl. rewrite take_app_le, take_take by (rewrite length_take; unfold span_ok in *; lia).
  f_equal. lia.
Qed.

Lemma written_size bs s :
  sp_pos (write_bytes bs s) = (sp_pos s + length bs)%nat.
Proof. done. Qed.

(** packed integers.  Every 64-bit value is written in exactly
    [calculate_packed_int_size] bytes and read back unchanged; insertion fails only
    for lack of room. *)
Theorem packed_int_roundtrip v s :
  in_width 64 v → span_ok s →
  match insert_packed_int_to_byte_span_checked v s with
  | None => (span_size s < calculate_packed_int_size v)%nat
  | Some s' =>
      sp_pos s' = (sp_pos s + calculate_packed_int_size v)%nat ∧
      length (sp_store s') = length (sp_store s) ∧
      extract_packed_int_from_byte_span_checked (reader_at s s') = Some (v, reader_at s' s')
  end.
Proof.
  intros Hv Hs. rewrite insert_packed_spec by done.
  destruct (Nat.ltb_spec (span_size s) (calculate_packed_int_size v)); [done|].
  unfold reader_at. rewrite read_back, extract_packed_app by done.
  rewrite length_write_bytes by (rewrite ?length_packed_bytes; done).
  by rewrite written_size, length_packed_bytes.
Qed.

(** variable-length integers.  Every value of an unsigned type of up to 64 bits
    takes [calculate_varlen_int_size] bytes, between 1 and 9, and is read back
    unchanged by the extractor of that type. *)
Theorem varlen_int_roundtrip (sizeof_T : nat) v s :
  (1 ≤ sizeof_T ≤ 8)%nat → in_width (8 * Z.of_nat sizeof_T) v → span_ok s →
  1 ≤ calculate_varlen_int_size v ≤ 9 ∧
  match insert_varlen_int_to_byte_span_checked v s with
  | None => Z.of_nat (span_size s) < calculate_varlen_int_size v
  | Some s' =>
      Z.of_nat (sp_pos s') = Z.of_nat (sp_pos s) + calculate_varlen_int_size v ∧
      length (sp_store s') = length (sp_store s) ∧
      extract_varlen_int_from_byte_span_checked sizeof_T (reader_at s s') =
        Some (v, reader_at s' s')
  end.
Proof.
  intros HT Hv Hs. assert (in_width 64 v) as Hv64 by (eapply in_width_mono; [|done]; lia).
  split; [by apply varlen_size_bound|].
  destruct (varlen_bytes_spec v Hv64) as [Hl _]. rewrite insert_varlen_spec by done.
  destruct (Nat.ltb_spec (span_size s) (length (varlen_bytes v))); [lia|].
  unfold reader_at. rewrite read_back, extract_varlen_app by done.
  rewrite length_write_bytes, written_size by done. split; [lia | done].
Qed.

(** signed variable-length integers (the sign in the least significant bit)
    round-trip over the whole range of the signed type. *)
Theorem varlen_int_signed_roundtrip (sizeof_T : nat) v s s' :
  let w := 8 * Z.of_nat sizeof_T in
  (1 ≤ sizeof_T ≤ 8)%nat → - 2 ^ (w - 1) ≤ v < 2 ^ (w - 1) → span_ok s →
  insert_varlen_int_signed_checked w v s = Some s' →
  Z.of_nat (sp_pos s') = Z.of_nat (sp_pos s) + calculate_varlen_int_size_signed w v ∧
  extract_varlen_int_signed_checked sizeof_T (reader_at s s') = Some (v, reader_at s' s').
Proof.
  cbv zeta. intros HT Hv Hs. unfold insert_varlen_int_signed_checked, calculate_varlen_int_size_signed.
  pose proof (signed_representation_width (8 * Z.of_nat sizeof_T) ltac:(lia) v Hv) as Hu.
  assert (in_width 64 (get_signed_representation_as_unsigned (8 * Z.of_nat sizeof_T) v))
    as Hu64 by (eapply in_width_mono; [|done]; lia).
  destruct (varlen_bytes_spec _ Hu64) as [Hl _]. rewrite insert_varlen_spec by done.
  case_match; intros; simplify_eq. unfold reader_at.
  rewrite read_back, extract_varlen_signed_app, written_size by done. split; [lia | done].
Qed.

(** A sample buffer of zero bytes for the witnesses. *)
Definition zeros (n : nat) : byte_span := span_of (replicate n 0).

Lemma fixed_int_roundtrip_witness :
  insert_fixed_int_to_byte_span_checked 4 305419896 (zeros 4) = Some (mk_span [120; 86; 52; 18] 4) ∧
  extract_fixed_int_from_byte_span_checked 4 [120; 86; 52; 18] = Some (305419896, []).
Proof.
  split; [reflexivity|].
  apply (fixed_int_roundtrip 4 305419896 (zeros 4)); [by vm_compute | by vm_compute; lia].
Defined.

Lemma packed_int_roundtrip_witness :
  extract_packed_int_from_byte_span_checked [252; 251; 0; 0] = Some (251, [0]).
Proof.
  apply (packed_int_roundtrip 251 (zeros 4)); [by vm_compute | by vm_compute; lia].
Defined.

Lemma varlen_int_roundtrip_witness :
  extract_varlen_int_from_byte_span_checked 8 [1; 2; 0] = Some (128, [0]).
Proof.
  apply (varlen_int_roundtrip 8 128 (zeros 3)); [lia | by vm_compute | by vm_compute; lia].
Defined.

Lemma varlen_int_signed_roundtrip_witness :
  ∃ s', insert_varlen_int_signed_checked 64 (-65) (zeros 3) = Some s' ∧
    extract_varlen_int_signed_checked 8 (sp_store s') = Some (-65, reader_at s' s').
Proof.
  eexists; split; [reflexivity|].
  apply (varlen_int_signed_roundtrip 8 (-65) (zeros 3)); [lia | by vm_compute | | reflexivity].
  unfold span_ok; simpl; lia.
Defined.
