(* ===== verification/OrderedMap.v ===== *)
(** * Ordered maps

    [std::map<K, V>] as the program uses it: [operator[]], [find], [erase] and
    iteration in key order.  A map is the list of its entries in increasing key
    order; the key order is a class, so that the maps keyed by UUID and by tag
    share one development. *)

From Stdlib Require Import Sorting.Sorted.
From S2P Require Import Prelude.

(** The strict order of the keys ([std::less<K>]). *)
Class KeyOrder (K : Type) := key_ltb : K → K → bool.

Class KeyOrderLaws (K : Type) `{KeyOrder K} : Prop := {
  key_ltb_irrefl : ∀ k, key_ltb k k = false;
  key_ltb_trans : ∀ a b c, key_ltb a b = true → key_ltb b c = true → key_ltb a c = true;
  key_ltb_total : ∀ a b, key_ltb a b = false → key_ltb b a = false → a = b
}.

Section ordered_map.
Context {K V : Type} `{KeyOrder K}.
Implicit Types (m : list (K * V)) (k : K) (v : V).

(** [m.find(k)] *)
Fixpoint map_find k m : option V :=
  match m with
  | [] => None
  | (k', v) :: m =>
      if key_ltb k k' then None
      else if key_ltb k' k then map_find k m
      else Some v
  end.

(** [f(m[k])]: the entry is created with the default value [d] when absent. *)
Fixpoint map_update k (d : V) (f : V → V) m : list (K * V) :=
  match m with
  | [] => [(k, f d)]
  | (k', v) :: m =>
      if key_ltb k k' then (k, f d) :: (k', v) :: m
      else if key_ltb k' k then (k', v) :: map_update k d f m
      else (k', f v) :: m
  end.

(** [m.erase(k)] *)
Fixpoint map_erase k m : list (K * V) :=
  match m with
  | [] => []
  | (k', v) :: m =>
      if key_ltb k k' then (k', v) :: m
      else if key_ltb k' k then (k', v) :: map_erase k m
      else m
  end.

Definition key_lt (a b : K) : Prop := key_ltb a b = true.
Definition map_sorted m : Prop := StronglySorted key_lt m.*1.
End ordered_map.

Section ordered_map_laws.
Context {K V : Type} `{KeyOrderLaws K}.
Implicit Types (m : list (K * V)) (k : K) (v : V).

Lemma key_ltb_asym a b : key_ltb a b = true → key_ltb b a = false.
Proof.
  intros Hab. destruct (key_ltb b a) eqn:Hba; [|done].
  pose proof (key_ltb_trans _ _ _ Hab Hba) as Haa.
  by rewrite key_ltb_irrefl in Haa.
Qed.

(** Trichotomy, as the comparison sequence of the functions above sees it. *)
Lemma key_cases k k' :
  (key_ltb k k' = true ∧ key_ltb k' k = false ∧ k ≠ k') ∨
  (key_ltb k k' = false ∧ key_ltb k' k = true ∧ k ≠ k') ∨
  (key_ltb k k' = false ∧ key_ltb k' k = false ∧ k = k').
Proof.
  destruct (key_ltb k k') eqn:E1, (key_ltb k' k) eqn:E2.
  - apply key_ltb_asym in E1. congruence.
  - left. split_and!; try done. intros ->. by rewrite key_ltb_irrefl in E1.
  - right; left. split_and!; try done. intros ->. by rewrite key_ltb_irrefl in E2.
  - right; right. split_and!; try done. by apply key_ltb_total.
Qed.

Lemma map_sorted_cons k v m :
  map_sorted ((k, v) :: m) ↔ Forall (λ p, key_lt k p.1) m ∧ map_sorted m.
Proof.
  unfold map_sorted. rewrite fmap_cons. cbn [fst]. split.
  - intros Hs. apply StronglySorted_inv in Hs as [Hs Hf]. split; [exact (proj1 (Forall_fmap _ _ _) Hf) | done].
  - intros [Hf ?]. constructor; [done|]. by apply Forall_fmap.
Qed.

Lemma map_find_none_lt k m : Forall (λ p, key_lt k p.1) m → map_find k m = None.
Proof. destruct 1 as [|[k' v] m Hk _]; simpl in *; [done|]. by rewrite Hk. Qed.

Lemma map_find_elem k v m : map_sorted m → map_find k m = Some v ↔ (k, v) ∈ m.
Proof.
  induction m as [|[k' v'] m IH]; intros Hs; simpl; [split; [done|by intros ?%not_elem_of_nil]|].
  apply map_sorted_cons in Hs as [Hlt Hs]. rewrite elem_of_cons.
  destruct (key_cases k k') as [(E1 & E2 & Hne)|[(E1 & E2 & Hne)|(E1 & E2 & ->)]];
    rewrite E1, ?E2.
  - split; [done|]. intros [?|Hin]; [congruence|]. rewrite Forall_forall in Hlt.
    specialize (Hlt _ Hin). unfold key_lt in Hlt. simpl in Hlt. congruence.
  - rewrite IH by done. naive_solver.
  - split; [naive_solver|]. intros [?|Hin]; [naive_solver|]. rewrite Forall_forall in Hlt.
    specialize (Hlt _ Hin). unfold key_lt in Hlt. simpl in Hlt. by rewrite key_ltb_irrefl in Hlt.
Qed.

Lemma map_update_lookup_lt k0 k d f m :
  key_lt k0 k → Forall (λ p, key_lt k0 p.1) m →
  Forall (λ p, key_lt k0 p.1) (map_update k d f m).
Proof.
  intros Hk. induction m as [|[k' v'] m IH]; simpl; intros Hf; [by repeat constructor|].
  inversion Hf; subst. repeat case_match; repeat constructor; auto.
Qed.

Lemma map_update_sorted k d f m : map_sorted m → map_sorted (map_update k d f m).
Proof.
  induction m as [|[k' v'] m IH]; intros Hs; simpl; [repeat constructor|].
  apply map_sorted_cons in Hs as [Hlt Hs].
  destruct (key_cases k k') as [(E1 & E2 & Hne)|[(E1 & E2 & Hne)|(E1 & E2 & ->)]];
    rewrite E1, ?E2; rewrite !map_sorted_cons.
  - split_and!; try done. constructor; [done|]. eapply Forall_impl; [done|].
    intros [??] ?. by eapply key_ltb_trans.
  - split; [|by apply IH]. by apply map_update_lookup_lt.
  - done.
Qed.

Lemma map_update_find_eq k d f m :
  map_sorted m → map_find k (map_update k d f m) = Some (f (default d (map_find k m))).
Proof.
  induction m as [|[k' v'] m IH]; intros Hs; simpl; [by rewrite key_ltb_irrefl|].
  apply map_sorted_cons in Hs as [Hlt Hs].
  destruct (key_cases k k') as [(E1 & E2 & Hne)|[(E1 & E2 & Hne)|(E1 & E2 & ->)]];
    rewrite E1, ?E2; simpl; rewrite ?E1, ?E2, ?key_ltb_irrefl; auto.
Qed.

Lemma map_update_find_ne k k' d f m :
  map_sorted m → k' ≠ k → map_find k' (map_update k d f m) = map_find k' m.
Proof.
  induction m as [|[k1 v1] m IH]; intros Hs Hne; simpl.
  - destruct (key_cases k' k) as [(E1 & E2 & ?)|[(E1 & E2 & ?)|(E1 & E2 & ->)]];
      by rewrite ?E1, ?E2.
  - apply map_sorted_cons in Hs as [Hlt Hs].
    destruct (key_cases k k1) as [(E1 & E2 & ?)|[(E1 & E2 & ?)|(E1 & E2 & <-)]];
      rewrite E1, ?E2; simpl; [|by repeat case_match; auto|].
    + destruct (key_cases k' k) as [(F1 & F2 & ?)|[(F1 & F2 & ?)|(F1 & F2 & ->)]];
        rewrite F1, ?F2; [|done|done].
      by rewrite (key_ltb_trans k' k k1).
    + destruct (key_cases k' k) as [(F1 & F2 & ?)|[(F1 & F2 & ?)|(F1 & F2 & ->)]];
        by rewrite F1, ?F2.
Qed.

(** Only the value at the key matters to the update. *)
Lemma map_update_const k d f g m :
  map_sorted m → f (default d (map_find k m)) = g (default d (map_find k m)) →
  map_update k d f m = map_update k d g m.
Proof.
  induction m as [|[k' v'] m IH]; intros Hs Heq; simpl in *; [by rewrite Heq|].
  apply map_sorted_cons in Hs as [_ Hs].
  destruct (key_cases k k') as [(E1 & E2 & ?)|[(E1 & E2 & ?)|(E1 & E2 & ->)]];
    rewrite E1, ?E2 in *; simpl in *; [by rewrite Heq | by rewrite IH | by rewrite Heq].
Qed.

Lemma map_update_compose k d f g m :
  map_update k d g (map_update k d f m) = map_update k d (g ∘ f) m.
Proof.
  induction m as [|[k' v'] m IH]; simpl; [by rewrite key_ltb_irrefl|].
  destruct (key_cases k k') as [(E1 & E2 & ?)|[(E1 & E2 & ?)|(E1 & E2 & ->)]];
    rewrite E1, ?E2; simpl; rewrite ?E1, ?E2, ?key_ltb_irrefl; [done | by rewrite IH | done].
Qed.

Lemma map_update_id_ext k d f g m :
  (∀ v, f v = g v) → map_update k d f m = map_update k d g m.
Proof. intros Heq. induction m as [|[k' v'] m IH]; simpl; by rewrite ?Heq, ?IH. Qed.

Lemma map_erase_lt k0 k m :
  Forall (λ p, key_lt k0 p.1) m → Forall (λ p, key_lt k0 p.1) (map_erase k m).
Proof.
  induction 1 as [|[k' v'] m ? Hf IH]; simpl; [done|].
  repeat case_match; try constructor; auto.
Qed.

Lemma map_erase_sorted k m : map_sorted m → map_sorted (map_erase k m).
Proof.
  induction m as [|[k' v'] m IH]; intros Hs; simpl; [done|].
  pose proof Hs as Hs'. apply map_sorted_cons in Hs as [Hlt Hs].
  repeat case_match; try done. apply map_sorted_cons. split; [by apply map_erase_lt | auto].
Qed.

Lemma map_erase_find_eq k m : map_sorted m → map_find k (map_erase k m) = None.
Proof.
  induction m as [|[k' v'] m IH]; intros Hs; simpl; [done|].
  apply map_sorted_cons in Hs as [Hlt Hs].
  destruct (key_cases k k') as [(E1 & E2 & ?)|[(E1 & E2 & ?)|(E1 & E2 & ->)]];
    rewrite E1, ?E2; simpl; rewrite ?E1, ?E2; auto using map_find_none_lt.
Qed.

Lemma map_erase_find_ne k k' m :
  map_sorted m → k' ≠ k → map_find k' (map_erase k m) = map_find k' m.
Proof.
  induction m as [|[k1 v1] m IH]; intros Hs Hne; simpl; [done|].
  apply map_sorted_cons in Hs as [Hlt Hs].
  destruct (key_cases k k1) as [(E1 & E2 & ?)|[(E1 & E2 & ?)|(E1 & E2 & <-)]];
    rewrite E1, ?E2; simpl; [done | by repeat case_match; auto |].
  destruct (key_cases k' k) as [(F1 & F2 & ?)|[(F1 & F2 & ?)|(F1 & F2 & ->)]];
    rewrite F1, ?F2; [|done|done].
  apply map_find_none_lt. eapply Forall_impl; [done|]. intros [??] ?. by eapply key_ltb_trans.
Qed.

(** Maps are extensional: equal lookups mean equal maps. *)
Lemma map_ext m1 m2 :
  map_sorted m1 → map_sorted m2 → (∀ k, map_find k m1 = map_find k m2) → m1 = m2.
Proof.
  revert m2. induction m1 as [|[k1 v1] m1 IH]; intros [|[k2 v2] m2] Hs1 Hs2 Heq.
  - done.
  - specialize (Heq k2). simpl in Heq. by rewrite key_ltb_irrefl in Heq.
  - specialize (Heq k1). simpl in Heq. by rewrite key_ltb_irrefl in Heq.
  - apply map_sorted_cons in Hs1 as [Hlt1 Hs1]. apply map_sorted_cons in Hs2 as [Hlt2 Hs2].
    pose proof (Heq k1) as Hk1. pose proof (Heq k2) as Hk2. simpl in Hk1, Hk2.
    rewrite key_ltb_irrefl in Hk1, Hk2.
    destruct (key_cases k1 k2) as [(E1 & E2 & ?)|[(E1 & E2 & ?)|(E1 & E2 & ->)]];
      rewrite E1, ?E2 in *; try done. simplify_eq. f_equal. apply IH; try done.
    intros k. specialize (Heq k). simpl in Heq.
    destruct (key_cases k k2) as [(F1 & F2 & ?)|[(F1 & F2 & ?)|(F1 & F2 & ->)]];
      rewrite F1, ?F2 in Heq; try done.
    + rewrite !map_find_none_lt; [done| |]; eapply Forall_impl; try done;
        intros [??] ?; by eapply key_ltb_trans.
    + by rewrite !map_find_none_lt.
Qed.
End ordered_map_laws.

Section map_values.
Context {K V : Type} `{KeyOrderLaws K}.
Implicit Types (m : list (K * V)) (P : V → Prop).

Lemma Forall_map_find P m :
  map_sorted m → Forall (λ p, P p.2) m ↔ ∀ k v, map_find k m = Some v → P v.
Proof.
  intros Hs. rewrite Forall_forall. split.
  - intros Hall k v Hf%map_find_elem; [|done]. by apply (Hall (k, v)).
  - intros Hall [k v] Hin. apply (Hall k v). by apply map_find_elem.
Qed.

Lemma map_update_Forall P k d f m :
  map_sorted m → Forall (λ p, P p.2) m → P (f (default d (map_find k m))) →
  Forall (λ p, P p.2) (map_update k d f m).
Proof.
  intros Hs Hall Hnew. pose proof (map_update_sorted k d f m Hs) as Hs'.
  apply Forall_map_find; [done|]. intros k' v Hf. rewrite Forall_map_find in Hall by done.
  destruct (key_cases k' k) as [(_ & _ & Hne)|[(_ & _ & Hne)|(_ & _ & ->)]].
  - rewrite map_update_find_ne in Hf by done. eauto.
  - rewrite map_update_find_ne in Hf by done. eauto.
  - rewrite map_update_find_eq in Hf by done. by simplify_eq.
Qed.

Lemma map_erase_Forall P k m : Forall (λ p, P p.2) m → Forall (λ p, P p.2) (map_erase k m).
Proof.
  induction 1 as [|[k' v'] m ?? IH]; simpl; [done|]. repeat case_match; try constructor; auto.
Qed.

Lemma map_update_ne_nil k d f m : map_update k d f m ≠ [].
Proof. destruct m as [|[k' v'] m]; simpl; [done|]. by repeat case_match. Qed.

Lemma map_find_nonempty m : map_sorted m → m ≠ [] → ∃ k v, map_find k m = Some v.
Proof.
  destruct m as [|[k v] m]; [done|]. intros _ _. exists k, v. simpl.
  by rewrite key_ltb_irrefl.
Qed.
End map_values.
