(* ===== verification/IntervalSet.v ===== *)
(** * Interval sets

    The GTID set keeps its transaction numbers in a
    [boost::icl::interval_set<gno_t>] (gtid_set.hpp, [gno_container]).  The
    container belongs to Boost, so it is an interface here: the class
    [IntervalSet] has the operations the program calls, [IntervalSetLaws] what
    Boost.Icl documents of them.  Client theorems are proved against the
    interface; [interval_list] at the end is one implementation of it, used by the
    concrete examples. *)

From Stdlib Require Import Sorting.Sorted.
From S2P Require Import Prelude.

Local Open Scope Z_scope.

Class IntervalSet := {
  gno_container : Type;
  (** a default-constructed container *)
  icl_empty : gno_container;
  (** iteration: the half-open intervals [lower, upper) in order *)
  icl_intervals : gno_container → list (Z * Z);
  (** [c.insert(right_open(lower, upper))] and [c.erase(...)] *)
  icl_insert : Z → Z → gno_container → gno_container;
  icl_erase : Z → Z → gno_container → gno_container;
  (** [c += d] and [c -= d] *)
  icl_add : gno_container → gno_container → gno_container;
  icl_subtract : gno_container → gno_container → gno_container;
  (** [icl::contains(c, x)] and [icl::intersects(c, d)] *)
  icl_contains : gno_container → Z → bool;
  icl_intersects : gno_container → gno_container → bool
}.

(** [c.empty()] and [icl::interval_count(c)], in terms of iteration. *)
Definition icl_is_empty `{IntervalSet} (c : gno_container) : bool :=
  bool_decide (icl_intervals c = []).
Definition interval_count `{IntervalSet} (c : gno_container) : nat :=
  length (icl_intervals c).

(** The numbers covered by a list of half-open intervals. *)
Definition covered (l : list (Z * Z)) (x : Z) : Prop :=
  ∃ a b, (a, b) ∈ l ∧ a ≤ x < b.
Definition icl_in `{IntervalSet} (c : gno_container) (x : Z) : Prop :=
  covered (icl_intervals c) x.

(** A joining interval set iterates over non-empty intervals, in increasing order,
    no two of which overlap or touch. *)
Definition separated (p q : Z * Z) : Prop := p.2 < q.1.
Definition canonical (l : list (Z * Z)) : Prop :=
  Forall (λ p, p.1 < p.2) l ∧ StronglySorted separated l.

Class IntervalSetLaws `{IntervalSet} : Prop := {
  icl_canonical : ∀ c, canonical (icl_intervals c);
  (** [operator==] compares the sequences of intervals *)
  icl_ext : ∀ c d, icl_intervals c = icl_intervals d → c = d;
  icl_intervals_empty : icl_intervals icl_empty = [];
  icl_in_insert : ∀ l u c x, icl_in (icl_insert l u c) x ↔ l ≤ x < u ∨ icl_in c x;
  icl_in_erase : ∀ l u c x, icl_in (icl_erase l u c) x ↔ icl_in c x ∧ ¬ l ≤ x < u;
  icl_in_add : ∀ c d x, icl_in (icl_add c d) x ↔ icl_in c x ∨ icl_in d x;
  icl_in_subtract : ∀ c d x, icl_in (icl_subtract c d) x ↔ icl_in c x ∧ ¬ icl_in d x;
  icl_contains_spec : ∀ c x, icl_contains c x = true ↔ icl_in c x;
  icl_intersects_spec : ∀ c d, icl_intersects c d = true ↔ ∃ x, icl_in c x ∧ icl_in d x
}.

(** ** Canonical interval lists are determined by what they cover *)
Section canonical.
Implicit Types (l : list (Z * Z)) (a b x : Z).

Lemma covered_nil x : ¬ covered [] x.
Proof. intros (a & b & Hin & _). by apply not_elem_of_nil in Hin. Qed.

Lemma covered_cons a b l x : covered ((a, b) :: l) x ↔ a ≤ x < b ∨ covered l x.
Proof.
  unfold covered. setoid_rewrite elem_of_cons. split.
  - intros (a' & b' & [?|Hin] & Hx); simplify_eq; eauto 10.
  - intros [Hx|(a' & b' & Hin & Hx)]; eauto 10.
Qed.

Lemma covered_app l1 l2 x : covered (l1 ++ l2) x ↔ covered l1 x ∨ covered l2 x.
Proof.
  induction l1 as [|[a b] l1 IH]; simpl.
  - pose proof (covered_nil x). naive_solver.
  - rewrite !covered_cons, IH. tauto.
Qed.

Lemma canonical_nil : canonical [].
Proof. split; constructor. Qed.

Lemma canonical_cons a b l :
  canonical ((a, b) :: l) ↔ a < b ∧ Forall (λ p, b < p.1) l ∧ canonical l.
Proof.
  unfold canonical. rewrite Forall_cons. simpl. split.
  - intros [[? ?] Hs]. apply StronglySorted_inv in Hs as [??]. done.
  - intros (? & ? & ? & ?). split; [done|]. by constructor.
Qed.

Lemma canonical_after a l x :
  canonical l → Forall (λ p, a < p.1) l → covered l x → a < x.
Proof.
  intros _ Hf (a' & b' & Hin & Hx). rewrite Forall_forall in Hf.
  specialize (Hf _ Hin). simpl in Hf. lia.
Qed.

(** The first interval is maximal: it starts at the least covered number and
    its end is not covered. *)
Lemma canonical_ext l1 l2 :
  canonical l1 → canonical l2 → (∀ x, covered l1 x ↔ covered l2 x) → l1 = l2.
Proof.
  revert l2. induction l1 as [|[a1 b1] l1 IH]; intros [|[a2 b2] l2] Hc1 Hc2 Heq; [done| | |].
  - apply canonical_cons in Hc2 as (? & _). destruct (covered_nil a2).
    apply Heq, covered_cons. lia.
  - apply canonical_cons in Hc1 as (? & _). destruct (covered_nil a1).
    apply Heq, covered_cons. lia.
  - apply canonical_cons in Hc1 as (Hab1 & Hf1 & Hc1).
    apply canonical_cons in Hc2 as (Hab2 & Hf2 & Hc2).
    assert (∀ x, covered l1 x → b1 < x) as Hgt1 by eauto using canonical_after.
    assert (∀ x, covered l2 x → b2 < x) as Hgt2 by eauto using canonical_after.
    setoid_rewrite covered_cons in Heq.
    assert (a1 = a2) as ->.
    { pose proof (proj1 (Heq a1) ltac:(lia)) as [?|?%Hgt2];
      pose proof (proj2 (Heq a2) ltac:(lia)) as [?|?%Hgt1]; lia. }
    assert (b1 = b2) as ->.
    { destruct (Z.lt_trichotomy b1 b2) as [Hlt|[?|Hlt]]; [|done|].
      - pose proof (proj2 (Heq b1) ltac:(lia)) as [?|?%Hgt1]; lia.
      - pose proof (proj1 (Heq b2) ltac:(lia)) as [?|?%Hgt2]; lia. }
    f_equal. apply IH; [done..|]. intros x. split; intros Hx.
    + pose proof (Hgt1 _ Hx). destruct (proj1 (Heq x) (or_intror Hx)); [lia|done].
    + pose proof (Hgt2 _ Hx). destruct (proj2 (Heq x) (or_intror Hx)); [lia|done].
Qed.
End canonical.

Section icl_lemmas.
Context `{IntervalSetLaws}.
Implicit Types c d : gno_container.

(** Containers are extensional sets of numbers. *)
Lemma icl_in_ext c d : (∀ x, icl_in c x ↔ icl_in d x) → c = d.
Proof. intros. apply icl_ext, canonical_ext; auto using icl_canonical. Qed.

Lemma icl_in_empty x : ¬ icl_in icl_empty x.
Proof. unfold icl_in. rewrite icl_intervals_empty. apply covered_nil. Qed.

Lemma icl_is_empty_spec c : icl_is_empty c = true ↔ ∀ x, ¬ icl_in c x.
Proof.
  unfold icl_is_empty, icl_in. rewrite bool_decide_eq_true.
  pose proof (icl_canonical c) as Hc. destruct (icl_intervals c) as [|[a b] l].
  - split; [intros _; apply covered_nil | done].
  - split; [done|]. intros Hn. apply canonical_cons in Hc as [? _].
    destruct (Hn a). apply covered_cons. lia.
Qed.

Lemma icl_is_empty_false c : icl_is_empty c = false ↔ ∃ x, icl_in c x.
Proof.
  split.
  - unfold icl_is_empty, icl_in. rewrite bool_decide_eq_false.
    pose proof (icl_canonical c) as Hc. destruct (icl_intervals c) as [|[a b] l]; [done|].
    intros _. apply canonical_cons in Hc as [? _]. exists a. apply covered_cons. lia.
  - intros [x Hx]. destruct (icl_is_empty c) eqn:E; [|done].
    exfalso. by eapply icl_is_empty_spec.
Qed.

(** Each interval of a container consists of members of it. *)
Lemma icl_interval_in c a b : (a, b) ∈ icl_intervals c → a < b ∧ ∀ x, a ≤ x < b → icl_in c x.
Proof.
  intros Hin. destruct (icl_canonical c) as [Hf _]. rewrite Forall_forall in Hf.
  split; [by apply (Hf (a, b))|]. intros x Hx. by exists a, b.
Qed.

(** Inserting the intervals of a container one after the other, as the decoders
    do, adds exactly what they cover. *)
Definition insert_all (l : list (Z * Z)) c : gno_container :=
  foldl (λ c p, icl_insert p.1 p.2 c) c l.

Lemma icl_in_insert_all l c x :
  icl_in (insert_all l c) x ↔ covered l x ∨ icl_in c x.
Proof.
  revert c. induction l as [|[a b] l IH]; intros c; simpl.
  - pose proof (covered_nil x). naive_solver.
  - rewrite IH, icl_in_insert, covered_cons. simpl. tauto.
Qed.

Lemma insert_all_rebuild c : insert_all (icl_intervals c) icl_empty = c.
Proof.
  apply icl_in_ext. intros x. rewrite icl_in_insert_all.
  pose proof (icl_in_empty x). unfold icl_in in *. naive_solver.
Qed.
End icl_lemmas.

(** ** One implementation: canonical lists of intervals *)
Module IntervalList.
Fixpoint canonical_b (l : list (Z * Z)) : bool :=
  match l with
  | [] => true
  | (a, b) :: l =>
      (a <? b) && match l with [] => true | (c, _) :: _ => b <? c end && canonical_b l
  end.

Fixpoint join (l u : Z) (s : list (Z * Z)) : list (Z * Z) :=
  match s with
  | [] => [(l, u)]
  | (a, b) :: s =>
      if u <? a then (l, u) :: (a, b) :: s
      else if b <? l then (a, b) :: join l u s
      else join (Z.min l a) (Z.max u b) s
  end.
Definition raw_insert (l u : Z) (s : list (Z * Z)) : list (Z * Z) :=
  if l <? u then join l u s else s.

Definition interval (a b : Z) : list (Z * Z) := if a <? b then [(a, b)] else [].
Definition cut (l u : Z) (p : Z * Z) : list (Z * Z) :=
  if l <? u then interval p.1 (Z.min p.2 l) ++ interval (Z.max p.1 u) p.2 else [p].
Definition raw_erase (l u : Z) (s : list (Z * Z)) : list (Z * Z) := mjoin (cut l u <$> s).

Lemma canonical_b_spec l : canonical_b l = true ↔ canonical l.
Proof.
  induction l as [|[a b] l IH].
  { split; [|done]. intros _. split; constructor. }
  cbn [canonical_b]. rewrite canonical_cons, !andb_true_iff, IH, Z.ltb_lt.
  split; [|].
  - intros [[Hab Hh] Hc]. split_and!; try done. destruct l as [|[c d] l]; [constructor|].
    apply Z.ltb_lt in Hh. constructor; [done|]. apply canonical_cons in Hc as (? & Hf & _).
    eapply Forall_impl; [done|]. simpl. intros. lia.
  - intros (? & Hf & ?). split_and!; try done. destruct l as [|[c d] l]; [done|].
    apply Z.ltb_lt. by inversion Hf.
Qed.

Lemma covered_join l u s x : l < u → Forall (λ p, p.1 < p.2) s →
  covered (join l u s) x ↔ l ≤ x < u ∨ covered s x.
Proof.
  revert l u. induction s as [|[a b] s IH]; intros l u Hlu Hf; simpl.
  - by rewrite covered_cons.
  - apply Forall_cons in Hf as [Hab Hf]. simpl in Hab.
    destruct (Z.ltb_spec u a); [by rewrite !covered_cons|].
    destruct (Z.ltb_spec b l); rewrite ?covered_cons, IH by (done || lia);
      rewrite ?covered_cons; [tauto|].
    assert ((Z.min l a ≤ x < Z.max u b) ↔ (l ≤ x < u ∨ a ≤ x < b)) as -> by lia. tauto.
Qed.

Lemma join_after c l u s :
  c < l → Forall (λ p, c < p.1) s → Forall (λ p, c < p.1) (join l u s).
Proof.
  revert l u. induction s as [|[a b] s IH]; intros l u Hl Hf; simpl; [by repeat constructor|].
  apply Forall_cons in Hf as [Ha Hf]. simpl in Ha.
  repeat case_match; repeat constructor; simpl; auto. apply IH; [lia | done].
Qed.

Lemma canonical_join l u s : l < u → canonical s → canonical (join l u s).
Proof.
  revert l u. induction s as [|[a b] s IH]; intros l u Hlu Hc; simpl.
  - split; repeat constructor. done.
  - pose proof Hc as Hc'. apply canonical_cons in Hc as (Hab & Hf & Hc).
    destruct (Z.ltb_spec u a).
    + apply canonical_cons. split_and!; [done| |done]. constructor; [done|].
      eapply Forall_impl; [done|]. simpl. intros. lia.
    + destruct (Z.ltb_spec b l); [|apply IH; [lia|done]].
      apply canonical_cons. split_and!; auto using join_after.
Qed.

Lemma covered_interval a b x : covered (interval a b) x ↔ a ≤ x < b.
Proof.
  unfold interval. case_match; to_prop.
  - rewrite covered_cons. pose proof (covered_nil x). tauto.
  - split; [intros []%covered_nil | lia].
Qed.

Lemma covered_erase l u s x : covered (raw_erase l u s) x ↔ covered s x ∧ ¬ l ≤ x < u.
Proof.
  unfold raw_erase. induction s as [|[a b] s IH]; cbn.
  - pose proof (covered_nil x). naive_solver.
  - rewrite covered_app. fold (cut l u <$> s). unfold mjoin in IH. rewrite IH, covered_cons.
    unfold cut. case_match; to_prop; simpl.
    + rewrite covered_app, !covered_interval.
      assert ((a ≤ x < Z.min b l ∨ Z.max a u ≤ x < b) ↔ a ≤ x < b ∧ ¬ l ≤ x < u) as -> by lia.
      tauto.
    + rewrite covered_cons. pose proof (covered_nil x).
      assert (¬ l ≤ x < u) by lia. tauto.
Qed.

Lemma cut_between l u a b : a < b →
  canonical (cut l u (a, b)) ∧ Forall (λ p, a ≤ p.1 ∧ p.2 ≤ b) (cut l u (a, b)).
Proof.
  intros Hab. unfold cut, interval. simpl.
  repeat case_match; to_prop; simpl;
    rewrite ?canonical_cons, ?Forall_cons, ?Forall_nil; pose proof canonical_nil;
    split_and!; simpl in *; done || lia.
Qed.

Lemma canonical_app l1 l2 c :
  canonical l1 → canonical l2 → Forall (λ p, p.2 ≤ c) l1 → Forall (λ p, c < p.1) l2 →
  canonical (l1 ++ l2).
Proof.
  induction l1 as [|[a b] l1 IH]; [done|]. intros Hc1 Hc2 Hf1 Hf2.
  apply canonical_cons in Hc1 as (? & ? & ?). apply Forall_cons in Hf1 as [Hb Hf1].
  apply canonical_cons. split_and!; auto. apply Forall_app. split; [done|].
  eapply Forall_impl; [done|]. simpl in *. intros. lia.
Qed.

Lemma canonical_erase l u s : canonical s → canonical (raw_erase l u s).
Proof.
  unfold raw_erase. induction s as [|[a b] s IH]; intros Hc; cbn; [done|].
  apply canonical_cons in Hc as (Hab & Hf & Hc). destruct (cut_between l u a b Hab) as [Hcc Hb].
  apply (canonical_app _ _ b); [done|by apply IH| |].
  - eapply Forall_impl; [done|]. naive_solver.
  - apply Forall_forall. intros [x y] Hin. fold (cut l u <$> s) in Hin.
    change (list_join (cut l u <$> s)) with (mjoin (cut l u <$> s)) in Hin.
    apply list_elem_of_join in Hin as (p & Hin & Hp).
    apply list_elem_of_fmap in Hp as ([a' b'] & -> & Hin').
    rewrite Forall_forall in Hf. specialize (Hf _ Hin'). simpl in *.
    destruct Hc as [Hne _]. rewrite Forall_forall in Hne. specialize (Hne _ Hin').
    destruct (cut_between l u a' b' Hne) as [_ Hb']. rewrite Forall_forall in Hb'.
    specialize (Hb' _ Hin). simpl in Hb'. lia.
Qed.

Record t := mk { elems : list (Z * Z); elems_ok : canonical_b elems = true }.

Lemma t_eq (c d : t) : elems c = elems d → c = d.
Proof.
  destruct c as [l Hl], d as [l' Hl']. simpl. intros ->. f_equal.
  apply (proof_irrel Hl Hl').
Qed.

Definition of_list (l : list (Z * Z)) (H : canonical l) : t :=
  mk l (proj2 (canonical_b_spec l) H).
Definition elems_canonical (c : t) : canonical (elems c) :=
  proj1 (canonical_b_spec _) (elems_ok c).

Lemma raw_insert_canonical l u s : canonical s → canonical (raw_insert l u s).
Proof. unfold raw_insert. case_match; to_prop; auto using canonical_join. Qed.

Definition insert (l u : Z) (c : t) : t :=
  of_list (raw_insert l u (elems c)) (raw_insert_canonical l u _ (elems_canonical c)).
Definition erase (l u : Z) (c : t) : t :=
  of_list (raw_erase l u (elems c)) (canonical_erase l u _ (elems_canonical c)).

#[export] Instance interval_list : IntervalSet := {
  gno_container := t;
  icl_empty := mk [] eq_refl;
  icl_intervals := elems;
  icl_insert := insert;
  icl_erase := erase;
  icl_add c d := foldl (λ c p, insert p.1 p.2 c) c (elems d);
  icl_subtract c d := foldl (λ c p, erase p.1 p.2 c) c (elems d);
  icl_contains c x := existsb (λ p, (p.1 <=? x) && (x <? p.2)) (elems c);
  icl_intersects c d :=
    existsb (λ p, existsb (λ q, Z.max p.1 q.1 <? Z.min p.2 q.2) (elems d)) (elems c)
}.

Lemma in_insert l u (c : t) x :
  covered (elems (insert l u c)) x ↔ l ≤ x < u ∨ covered (elems c) x.
Proof.
  simpl. unfold raw_insert. destruct (elems_canonical c) as [Hf _].
  destruct (Z.ltb_spec l u); [by apply covered_join|]. split; [tauto|]. intros [?|?]; [lia|done].
Qed.

#[export] Instance interval_list_laws : IntervalSetLaws.
Proof.
  split; unfold icl_in; simpl.
  - apply elems_canonical.
  - apply t_eq.
  - done.
  - apply in_insert.
  - intros. apply covered_erase.
  - intros c d x. generalize (elems d) as l; intros l. revert c.
    induction l as [|[a b] l IH]; intros c; simpl.
    + pose proof (covered_nil x). tauto.
    + rewrite IH, (in_insert a b c x), covered_cons. tauto.
  - intros c d x. generalize (elems d) as l; intros l. revert c.
    induction l as [|[a b] l IH]; intros c; simpl.
    + pose proof (covered_nil x). tauto.
    + rewrite IH. simpl. rewrite covered_erase, covered_cons. tauto.
  - intros c x. rewrite existsb_exists. unfold covered. setoid_rewrite list_elem_of_In.
    split; [intros ([a b] & ? & ?); to_prop; eauto|].
    intros (a & b & ? & ?). exists (a, b). split; [done|]. simpl.
    apply andb_true_iff. rewrite Z.leb_le, Z.ltb_lt. lia.
  - intros c d. rewrite existsb_exists. setoid_rewrite existsb_exists.
    unfold covered. setoid_rewrite list_elem_of_In. split.
    + intros ([a b] & ? & [a' b'] & ? & Hlt). simpl in Hlt. apply Z.ltb_lt in Hlt.
      exists (Z.max a a'). split; [exists a, b | exists a', b']; (split; [done | lia]).
    + intros (x & (a & b & ? & ?) & (a' & b' & ? & ?)).
      exists (a, b). split; [done|]. exists (a', b'). split; [done|]. simpl.
      apply Z.ltb_lt. lia.
Qed.
End IntervalList.
