(* ===== verification/Gtid.v ===== *)
(** * UUIDs, tags and GTIDs

    Models src/src/binsrv/gtids/common_types.hpp, uuid.{hpp,cpp}, tag.{hpp,cpp} and
    gtid.{hpp,cpp}.

    A UUID is the list of its 16 bytes (the program itself converts
    [boost::uuids::uuid] to and from such arrays); what it asks of Boost.Uuid
    (order, nil test, text) is the class [BoostUuid] with the laws
    [BoostUuidLaws].  A tag is the list of its characters. *)

From S2P Require Import Prelude ByteSpan OrderedMap.

Local Open Scope Z_scope.

(** ** <cctype> in the "C" locale *)
Definition isdigit (c : Z) : bool := (48 <=? c) && (c <=? 57).
Definition isupper (c : Z) : bool := (65 <=? c) && (c <=? 90).
Definition islower (c : Z) : bool := (97 <=? c) && (c <=? 122).
Definition isalpha (c : Z) : bool := isupper c || islower c.
Definition isalnum (c : Z) : bool := isalpha c || isdigit c.
Definition isxdigit (c : Z) : bool :=
  isdigit c || ((65 <=? c) && (c <=? 70)) || ((97 <=? c) && (c <=? 102)).
Definition isspace (c : Z) : bool := (c =? 32) || ((9 <=? c) && (c <=? 13)).

(** ** [std::to_string] of an unsigned 64-bit integer *)
Fixpoint to_string_aux (fuel : nat) (v : Z) (acc : list Z) : list Z :=
  match fuel with
  | O => acc
  | S fuel =>
      if v <? 10 then 48 + v :: acc
      else to_string_aux fuel (v / 10) (48 + v mod 10 :: acc)
  end.
Definition to_string (v : Z) : list Z := to_string_aux 20 v [].

(** ** common_types.hpp *)
Definition uuid_length : nat := 16.
Definition tag_max_length : nat := 32.
Definition min_gno : Z := 1.
Definition max_gno : Z := 2 ^ 63 - 1.

(** ** uuid.hpp, uuid.cpp *)
Definition uuid := list Z.
Definition uuid_ok (u : uuid) : Prop := length u = uuid_length ∧ bytes_ok u.

(** The canonical text of a UUID: lower-case hexadecimal in groups of 8-4-4-4-12
    digits. *)
Definition hex_digit (v : Z) : Z := if v <? 10 then 48 + v else 87 + v.
Definition hex_pair (b : Z) : list Z := [hex_digit (b / 16); hex_digit (b mod 16)].
Definition group_separator : Z := 45. (* '-' *)
Fixpoint uuid_groups (sizes : list nat) (bs : list Z) : list Z :=
  match sizes with
  | [] => []
  | [n] => mjoin (hex_pair <$> take n bs)
  | n :: sizes =>
      mjoin (hex_pair <$> take n bs) ++ group_separator :: uuid_groups sizes (drop n bs)
  end.
Definition uuid_text (u : uuid) : list Z := uuid_groups [4; 2; 2; 2; 6]%nat u.

Class BoostUuid := {
  (** [operator<] of [boost::uuids::uuid] *)
  boost_uuid_ltb : uuid → uuid → bool;
  (** [is_nil()] *)
  boost_uuid_is_nil : uuid → bool;
  (** [boost::uuids::to_string] *)
  boost_uuid_to_string : uuid → list Z;
  (** [boost::uuids::string_generator]; [None] where it throws *)
  boost_uuid_string_generator : list Z → option uuid
}.

#[export] Instance uuid_order `{BoostUuid} : KeyOrder uuid := boost_uuid_ltb.

Class BoostUuidLaws `{BoostUuid} : Prop := {
  boost_uuid_order :: KeyOrderLaws uuid;
  boost_uuid_is_nil_spec : ∀ u, boost_uuid_is_nil u = true ↔ Forall (λ b, b = 0) u;
  boost_uuid_to_string_spec : ∀ u, uuid_ok u → boost_uuid_to_string u = uuid_text u
}.

Section uuid.
Context `{BoostUuid}.

Definition uuid_of_string (value : list Z) : result uuid :=
  or_raise (boost_uuid_string_generator value) (invalid_argument "cannot create uuid").
Definition uuid_is_empty (u : uuid) : bool := boost_uuid_is_nil u.
Definition uuid_str (u : uuid) : list Z := boost_uuid_to_string u.
Definition uuid_calculate_encoded_size : nat := uuid_length.
Definition uuid_encode_to (u : uuid) (destination : byte_span) : result byte_span :=
  or_raise (insert_byte_span_to_byte_span_checked u destination)
    (invalid_argument "cannot encode uuid").
End uuid.

(** ** tag.hpp, tag.cpp *)
Definition tag := list Z.
Definition tag_first_ok (c : Z) : bool := (c =? 95) || isalpha c.
Definition tag_other_ok (c : Z) : bool := (c =? 95) || isalnum c.

(** The loop over the characters after the first one. *)
Fixpoint tag_check_others (l : list Z) : result unit :=
  match l with
  | [] => Ok ()
  | c :: l =>
      _ ← raise_if (negb (tag_other_ok c)) (invalid_argument
            "tag name must include only alphanumeric characters or underscores");
      tag_check_others l
  end.

(** [tag::tag(std::string_view name)] *)
Definition tag_of_name (name : list Z) : result tag :=
  _ ← raise_if (tag_max_length <? length name)%nat
        (invalid_argument "tag name is too long");
  match name with
  | [] => Ok []
  | c :: l =>
      _ ← raise_if (negb (tag_first_ok c))
            (invalid_argument "tag name must start with a letter or an underscore");
      _ ← tag_check_others l;
      Ok name
  end.

Definition tag_is_empty (t : tag) : bool := bool_decide (t = []).

(** [operator<=>] compares the names as [std::string_view]s: lexicographically by
    unsigned character. *)
Fixpoint lex_ltb (a b : list Z) : bool :=
  match a, b with
  | [], [] => false
  | [], _ :: _ => true
  | _ :: _, [] => false
  | x :: a, y :: b => if x <? y then true else if y <? x then false else lex_ltb a b
  end.
#[export] Instance tag_order : KeyOrder tag := lex_ltb.

Definition tag_calculate_encoded_size (t : tag) : Z :=
  calculate_varlen_int_size (Z.of_nat (length t)) + Z.of_nat (length t).

Definition tag_encode_to (t : tag) (destination : byte_span) : result byte_span :=
  remainder ← or_raise
    (insert_varlen_int_to_byte_span_checked (Z.of_nat (length t)) destination)
    (invalid_argument "cannot encode tag length");
  or_raise (insert_byte_span_to_byte_span_checked t remainder)
    (invalid_argument "cannot encode tag data").

(** ** gtid.hpp, gtid.cpp *)
Record gtid := mk_gtid { gtid_uuid : uuid; gtid_tag : tag; gtid_gno : Z }.

(** the default constructor *)
Definition empty_gtid : gtid := mk_gtid (replicate uuid_length 0) [] 0.
Definition component_separator : Z := 58. (* ':' *)

Definition gtid_is_empty (g : gtid) : bool := gtid_gno g =? 0.
Definition gtid_has_tag (g : gtid) : bool := negb (tag_is_empty (gtid_tag g)).

Section gtid.
Context `{BoostUuid}.

Definition validate_components (u : uuid) (t : tag) (gno : Z) : result unit :=
  _ ← raise_if (uuid_is_empty u) (invalid_argument "uuid must not be empty");
  raise_if ((gno <? min_gno) || (max_gno <? gno)) (invalid_argument "gno is out of range").

Definition make_gtid (u : uuid) (t : tag) (gno : Z) : result gtid :=
  _ ← validate_components u t gno; Ok (mk_gtid u t gno).

Definition gtid_str (g : gtid) : list Z :=
  uuid_str (gtid_uuid g) ++
  (if gtid_has_tag g then component_separator :: gtid_tag g else []) ++
  component_separator :: to_string (gtid_gno g).
End gtid.

(** ** Lemmas *)

#[export] Instance tag_order_laws : KeyOrderLaws tag.
Proof.
  split; unfold key_ltb, tag_order.
  - induction k as [|x k IH]; simpl; [done|]. by rewrite Z.ltb_irrefl.
  - induction a as [|x a IH]; intros [|y b] [|z c]; simpl; try done.
    repeat case_match; to_prop; try done; try lia; eauto.
  - induction a as [|x a IH]; intros [|y b]; simpl; try done.
    repeat case_match; to_prop; try done. intros. f_equal; [lia | auto].
Qed.

(** The names accepted by the constructor. *)
Definition tag_ok (t : tag) : Prop :=
  (length t ≤ tag_max_length)%nat ∧
  match t with
  | [] => True
  | c :: l => tag_first_ok c = true ∧ Forall (λ c, tag_other_ok c = true) l
  end.

Lemma tag_check_others_ok l : tag_check_others l = Ok () ↔ Forall (λ c, tag_other_ok c = true) l.
Proof.
  induction l as [|c l IH]; simpl; [done|].
  rewrite Forall_cons, <-IH. destruct (tag_other_ok c); naive_solver.
Qed.

Lemma tag_of_name_iff name t : tag_of_name name = Ok t ↔ t = name ∧ tag_ok name.
Proof.
  unfold tag_of_name, tag_ok. split.
  - intros Hok. inv_ok. to_prop. destruct name as [|c l]; [naive_solver|]. inv_ok. to_prop.
    split_and!; try done. by apply tag_check_others_ok.
  - intros (-> & Hlen & Hch). destruct (Nat.ltb_spec tag_max_length (length name)); [lia|].
    destruct name as [|c l]; [done|]. destruct Hch as [Hc Hl]. cbn. rewrite Hc. cbn.
    apply tag_check_others_ok in Hl. by rewrite Hl.
Qed.

Lemma tag_of_name_err name e : tag_of_name name = Err e → ∃ what, e = invalid_argument what.
Proof.
  assert (∀ l, tag_check_others l = Err e → ∃ what, e = invalid_argument what) as Ho.
  { induction l as [|c l IH]; cbn; [done|]. destruct (negb (tag_other_ok c)); cbn; [|done].
    intros. simplify_eq. eauto. }
  unfold tag_of_name. intros [[_ He]%raise_if_err|(_ & _ & Hk)]%result_bind_err; [eauto|].
  destruct name as [|c l]; [done|].
  apply result_bind_err in Hk as [[_ He]%raise_if_err|(_ & _ & Hk)]; [eauto|].
  apply result_bind_err in Hk as [Hk|(_ & _ & Hk)]; [eauto|done].
Qed.

(** the tag constructor accepts exactly the names of at most 32 characters that
    start with a letter or an underscore and go on with letters, digits and
    underscores (or the empty name), and stores the name unchanged; everything
    else is rejected. *)
Theorem tag_of_name_spec name t : tag_of_name name = Ok t ↔ t = name ∧ tag_ok name.
Proof. apply tag_of_name_iff. Qed.

Lemma tag_other_byte c : tag_other_ok c = true → byte_ok c.
Proof.
  unfold tag_other_ok, isalnum, isalpha, isupper, islower, isdigit, in_width. simpl. lia.
Qed.
Lemma tag_first_other c : tag_first_ok c = true → tag_other_ok c = true.
Proof.
  unfold tag_first_ok, tag_other_ok, isalnum. destruct (c =? 95), (isalpha c); done.
Qed.
Lemma tag_ok_others t : tag_ok t → Forall (λ c, tag_other_ok c = true) t.
Proof. intros [_ Ht]. destruct t as [|c l]; [done|]. destruct Ht. auto using tag_first_other. Qed.
Lemma tag_ok_bytes t : tag_ok t → bytes_ok t.
Proof. intros Ht%tag_ok_others. eapply Forall_impl; [done|]. apply tag_other_byte. Qed.
#[export] Hint Resolve tag_ok_bytes : binlog.

Lemma tag_is_empty_spec t : tag_is_empty t = true ↔ t = [].
Proof. apply bool_decide_eq_true. Qed.

Lemma validate_components_ok `{BoostUuid} u t gno :
  validate_components u t gno = Ok () ↔ uuid_is_empty u = false ∧ min_gno ≤ gno ≤ max_gno.
Proof.
  unfold validate_components. destruct (uuid_is_empty u); simpl; [naive_solver|].
  rewrite raise_if_ok, orb_false_iff, !Z.ltb_ge. naive_solver.
Qed.

(** ** Encoded tags *)
Definition tag_bytes (t : tag) : list Z := varlen_bytes (Z.of_nat (length t)) ++ t.

Section tag_encoding.
Context (t : tag).
Hypothesis Ht : tag_ok t.

Lemma tag_length_width : in_width 64 (Z.of_nat (length t)).
Proof. destruct Ht as [Hl _]. unfold tag_max_length in Hl. unfold in_width. lia. Qed.

Lemma length_tag_bytes : Z.of_nat (length (tag_bytes t)) = tag_calculate_encoded_size t.
Proof.
  unfold tag_bytes, tag_calculate_encoded_size. rewrite length_app.
  destruct (varlen_bytes_spec _ tag_length_width) as [? _]. lia.
Qed.

Lemma tag_encode_to_ok s :
  span_ok s → (length (tag_bytes t) ≤ span_size s)%nat →
  tag_encode_to t s = Ok (write_bytes (tag_bytes t) s).
Proof.
  unfold tag_bytes. rewrite length_app. intros Hs Hl. unfold tag_encode_to.
  rewrite insert_varlen_spec by (done || apply tag_length_width).
  destruct (Nat.ltb_spec (span_size s) (length (varlen_bytes (Z.of_nat (length t)))));
    [lia|]. simpl. unfold insert_byte_span_to_byte_span_checked.
  rewrite span_size_write by (done || lia).
  match goal with |- context [(?a <? ?b)%nat] => destruct (Nat.ltb_spec a b) end; [lia|].
  simpl. unfold insert_byte_span_to_byte_span. by rewrite write_bytes_app.
Qed.

(** Reading the length, then the characters. *)
Lemma tag_bytes_extract rest :
  extract_varlen_int_from_byte_span_checked 8 (tag_bytes t ++ rest) =
    Some (Z.of_nat (length t), t ++ rest).
Proof.
  unfold tag_bytes. rewrite <-app_assoc. apply extract_varlen_app; [lia|].
  apply tag_length_width.
Qed.
End tag_encoding.

Lemma uuid_encode_to_ok `{BoostUuid} u s :
  uuid_ok u → (uuid_length ≤ span_size s)%nat →
  uuid_encode_to u s = Ok (write_bytes u s).
Proof.
  intros [Hl _] Hs. unfold uuid_encode_to, insert_byte_span_to_byte_span_checked.
  rewrite Hl. destruct (Nat.ltb_spec (span_size s) uuid_length); [lia | done].
Qed.

(** ** Decimal text *)
Section decimal.
Implicit Types (v a d : Z) (ds : list Z).

Definition dec_step (a d : Z) : Z := a * 10 + (d - 48).

Lemma to_string_aux_spec fuel v acc :
  (0 < fuel)%nat → 0 ≤ v < 10 ^ Z.of_nat fuel →
  ∃ ds, to_string_aux fuel v acc = ds ++ acc ∧ ds ≠ [] ∧
    Forall (λ d, isdigit d = true) ds ∧ foldl dec_step 0 ds = v.
Proof.
  revert v acc. induction fuel as [|fuel IH]; intros v acc Hfuel Hv; [lia|].
  cbn [to_string_aux]. destruct (Z.ltb_spec v 10).
  - exists [48 + v]. split_and!; try done.
    + constructor; [|done]. unfold isdigit. lia.
    + simpl. unfold dec_step. lia.
  - rewrite Nat2Z.inj_succ, Z.pow_succ_r in Hv by lia.
    destruct fuel as [|fuel]; [simpl in Hv; lia|].
    destruct (IH (v / 10) (48 + v mod 10 :: acc)) as (ds & -> & Hne & Hd & Hval); [lia|dlia|].
    exists (ds ++ [48 + v mod 10]). rewrite <-app_assoc. split_and!; [done| | |].
    + by destruct ds.
    + apply Forall_app. split; [done|]. constructor; [|done]. unfold isdigit. dlia.
    + rewrite foldl_app, Hval. simpl. unfold dec_step. dlia.
Qed.

Lemma to_string_spec v :
  in_width 64 v →
  to_string v ≠ [] ∧ Forall (λ d, isdigit d = true) (to_string v) ∧
  foldl dec_step 0 (to_string v) = v.
Proof.
  intros Hv. destruct (to_string_aux_spec 20 v []) as (ds & Heq & ?); [lia| |].
  - unfold in_width in Hv. simpl in *. lia.
  - unfold to_string. rewrite Heq, app_nil_r. done.
Qed.
End decimal.

(** ** One model of the Boost.Uuid interface

    Lexicographic order, nil test and text as documented; the string generator,
    of which no law is assumed, accepts nothing. *)
Module UuidModel.
#[export] Instance boost_uuid_model : BoostUuid := {
  boost_uuid_ltb := lex_ltb;
  boost_uuid_is_nil := forallb (λ b, b =? 0);
  boost_uuid_to_string := uuid_text;
  boost_uuid_string_generator := λ _, None
}.

#[export] Instance boost_uuid_model_laws : BoostUuidLaws.
Proof.
  split.
  - apply tag_order_laws.
  - intros u. simpl. rewrite forallb_forall, Forall_forall.
    setoid_rewrite list_elem_of_In. setoid_rewrite Z.eqb_eq. done.
  - done.
Qed.

(** 11111111-aaaa-1111-aaaa-111111111111 *)
Definition sample_uuid : uuid :=
  [17; 17; 17; 17; 170; 170; 17; 17; 170; 170; 17; 17; 17; 17; 17; 17].
End UuidModel.
