(* ===== verification/GtidSet.v ===== *)
(** * GTID sets

    Models the class [gtid_set] of src/src/binsrv/gtids/gtid_set.{hpp,cpp}: the
    algebra of sets (this file's first half) and the binary encoding of MySQL
    (second half).  The text grammar is in GtidSetText.v.

    The state [data_] is a [std::map] from UUID to a [std::map] from tag to an
    interval set of transaction numbers.  A member function that changes [*this]
    returns the new state; one that throws returns [Err]. *)

From Stdlib Require Import Sorting.Sorted.
From S2P Require Import Prelude ByteSpan OrderedMap IntervalSet Gtid.

Local Open Scope Z_scope.

Abbreviation gnos_by_tag_container := (list (tag * gno_container)).
Abbreviation gtid_set := (list (uuid * gnos_by_tag_container)).

Section gtid_set.
Context `{IntervalSet} `{BoostUuid}.
Implicit Types (s values : gtid_set) (u : uuid) (t : tag) (gno : Z).

Definition empty_set : gtid_set := [].
Definition is_empty s : bool := bool_decide (s = []).
Definition clear s : gtid_set := [].

Definition contains_tags s : bool :=
  existsb (λ p, existsb (λ q, negb (tag_is_empty q.1)) p.2) s.

Definition contains s (value : gtid) : bool :=
  match map_find (gtid_uuid value) s with
  | None => false
  | Some tagged_gnos =>
      match map_find (gtid_tag value) tagged_gnos with
      | None => false
      | Some gnos => icl_contains gnos (gtid_gno value)
      end
  end.

(** [f(data_[u][t])]: both entries are created when absent. *)
Definition with_gnos u t (f : gno_container → gno_container) s : gtid_set :=
  map_update u [] (map_update t icl_empty f) s.

(** [void add(const uuid &, const tag &, gno_t)] *)
Definition add_gno u t gno s : result gtid_set :=
  _ ← validate_components u t gno;
  Ok (with_gnos u t (icl_insert gno (u64 (gno + 1))) s).

(** [void add(const gtid &)] *)
Definition add_gtid (value : gtid) s : result gtid_set :=
  _ ← raise_if (gtid_is_empty value) (invalid_argument "cannot add an empty gtid");
  Ok (with_gnos (gtid_uuid value) (gtid_tag value)
        (icl_insert (gtid_gno value) (u64 (gtid_gno value + 1))) s).

(** [void add(const gtid_set &)]: [data_[uuid][tag] += gnos] for every entry *)
Definition add_set values s : gtid_set :=
  foldl (λ s p, foldl (λ s q, with_gnos p.1 q.1 (λ c, icl_add c q.2) s) s p.2) s values.

Definition add_interval u t (gno_lower gno_upper : Z) s : result gtid_set :=
  if gno_upper =? gno_lower then add_gno u t gno_lower s
  else
    _ ← raise_if (gno_upper <? gno_lower)
          (invalid_argument "cannot add an interval with invalid bounds");
    _ ← validate_components u t gno_lower;
    Ok (with_gnos u t (icl_insert gno_lower (u64 (gno_upper + 1))) s).

(** [find_gnos]: the iterators it returns denote the entry of [u] and [t]. *)
Definition find_gnos u t s : option gno_container :=
  match map_find u s with
  | None => None
  | Some tagged_gnos => map_find t tagged_gnos
  end.

Definition cleanup_if_empty u t s : gtid_set :=
  match map_find u s with
  | None => s
  | Some tagged_gnos =>
      match map_find t tagged_gnos with
      | None => s
      | Some gnos =>
          if negb (icl_is_empty gnos) then s
          else
            let s := map_update u [] (map_erase t) s in
            if negb (bool_decide (map_erase t tagged_gnos = [])) then s
            else map_erase u s
      end
  end.

(** Find the entry, change it through the iterator, then clean up. *)
Definition subtract_with u t (f : gno_container → gno_container) s : gtid_set :=
  match find_gnos u t s with
  | None => s
  | Some _ => cleanup_if_empty u t (with_gnos u t f s)
  end.

Definition subtract_gno u t gno s : result gtid_set :=
  _ ← validate_components u t gno;
  Ok (subtract_with u t (icl_erase gno (u64 (gno + 1))) s).

Definition subtract_gtid (value : gtid) s : result gtid_set :=
  _ ← raise_if (gtid_is_empty value) (invalid_argument "cannot subtract an empty gtid");
  Ok (subtract_with (gtid_uuid value) (gtid_tag value)
        (icl_erase (gtid_gno value) (u64 (gtid_gno value + 1))) s).

Definition subtract_set values s : gtid_set :=
  foldl (λ s p, foldl (λ s q, subtract_with p.1 q.1 (λ c, icl_subtract c q.2) s) s p.2)
    s values.

Definition subtract_interval u t (gno_lower gno_upper : Z) s : result gtid_set :=
  if gno_upper =? gno_lower then subtract_gno u t gno_lower s
  else
    _ ← raise_if (gno_upper <? gno_lower)
          (invalid_argument "cannot subtract an interval with invalid bounds");
    _ ← validate_components u t gno_lower;
    Ok (subtract_with u t (icl_erase gno_lower (u64 (gno_upper + 1))) s).

(** [bool intersects(const gtid_set &first, const gtid_set &second)] *)
Definition intersects (first second : gtid_set) : bool :=
  existsb (λ p,
    match map_find p.1 first with
    | None => false
    | Some tagged_gnos =>
        existsb (λ q,
          match map_find q.1 tagged_gnos with
          | None => false
          | Some gnos => icl_intersects gnos q.2
          end) p.2
    end) second.

(** [operator+], [operator-] *)
Definition set_plus (first second : gtid_set) : gtid_set := add_set second first.
Definition set_minus (first second : gtid_set) : gtid_set := subtract_set second first.

(** ** The abstract set a [gtid_set] stands for, and its invariant *)
Definition elem s u t gno : Prop :=
  ∃ gnos, find_gnos u t s = Some gnos ∧ icl_in gnos gno.

(** Every entry of both maps is non-empty; both maps are sorted. *)
Definition inner_wf (m : gnos_by_tag_container) : Prop :=
  map_sorted m ∧ Forall (λ q, icl_is_empty q.2 = false) m.
Definition wf s : Prop :=
  map_sorted s ∧ Forall (λ p, p.2 ≠ [] ∧ inner_wf p.2) s.
End gtid_set.


Section gtid_set_laws.
Context `{IntervalSetLaws} `{BoostUuidLaws}.
Implicit Types (s values : gtid_set) (u : uuid) (t : tag) (gno : Z).

(** ** Lookups *)

(** Sortedness alone, which holds also in the middle of a subtraction. *)
Definition sorted2 s : Prop := map_sorted s ∧ Forall (λ p, map_sorted p.2) s.

Lemma wf_sorted s : wf s → map_sorted s.
Proof. by intros [? _]. Qed.

Lemma wf_sorted2 s : wf s → sorted2 s.
Proof.
  intros [? Hall]. split; [done|]. eapply Forall_impl; [done|]. by intros p [_ [? _]].
Qed.

Lemma wf_inner s u m : wf s → map_find u s = Some m → m ≠ [] ∧ inner_wf m.
Proof.
  intros [Hs Hall] Hf. rewrite (Forall_map_find (λ m, m ≠ [] ∧ inner_wf m)) in Hall by done.
  eauto.
Qed.

Lemma inner_sorted s u : sorted2 s → map_sorted (default [] (map_find u s)).
Proof.
  intros [Hs Hall]. destruct (map_find u s) as [m|] eqn:Hf; [|constructor].
  rewrite (Forall_map_find (λ m, map_sorted m)) in Hall by done. eauto.
Qed.

Lemma find_gnos_default u t s : find_gnos u t s = map_find t (default [] (map_find u s)).
Proof. unfold find_gnos. by destruct (map_find u s). Qed.

Lemma find_with_gnos_eq u t f s :
  sorted2 s →
  find_gnos u t (with_gnos u t f s) = Some (f (default icl_empty (find_gnos u t s))).
Proof.
  intros Hs. rewrite !find_gnos_default. unfold with_gnos.
  rewrite map_update_find_eq by apply Hs. simpl.
  by rewrite map_update_find_eq by auto using inner_sorted.
Qed.

Lemma find_with_gnos_ne u t u' t' f s :
  sorted2 s → (u', t') ≠ (u, t) → find_gnos u' t' (with_gnos u t f s) = find_gnos u' t' s.
Proof.
  intros Hs Hne. rewrite !find_gnos_default. unfold with_gnos.
  destruct (decide (u' = u)) as [->|].
  - rewrite map_update_find_eq by apply Hs. simpl.
    rewrite map_update_find_ne; [done | auto using inner_sorted | congruence].
  - by rewrite map_update_find_ne by (done || apply Hs).
Qed.

Lemma with_gnos_const u t f g s :
  sorted2 s →
  f (default icl_empty (find_gnos u t s)) = g (default icl_empty (find_gnos u t s)) →
  with_gnos u t f s = with_gnos u t g s.
Proof.
  intros Hs Heq. rewrite find_gnos_default in Heq. apply map_update_const; [apply Hs|].
  apply map_update_const; [by apply inner_sorted | done].
Qed.

Lemma with_gnos_compose u t f g s :
  with_gnos u t g (with_gnos u t f s) = with_gnos u t (g ∘ f) s.
Proof.
  unfold with_gnos. rewrite map_update_compose. apply map_update_id_ext.
  intros m. simpl. apply map_update_compose.
Qed.

Lemma sorted2_with_gnos u t f s : sorted2 s → sorted2 (with_gnos u t f s).
Proof.
  intros Hs. split; [apply map_update_sorted, Hs|].
  apply (map_update_Forall (λ m, map_sorted m)); [apply Hs | apply Hs |].
  apply map_update_sorted. by apply inner_sorted.
Qed.

Lemma find_gnos_nonempty u t s gnos :
  wf s → find_gnos u t s = Some gnos → icl_is_empty gnos = false.
Proof.
  intros Hwf Hf. rewrite find_gnos_default in Hf.
  destruct (map_find u s) as [m|] eqn:Hm; [|done]. simpl in Hf.
  destruct (wf_inner s u m Hwf Hm) as [_ [Hs Hall]].
  rewrite (Forall_map_find (λ c, icl_is_empty c = false)) in Hall by done. eauto.
Qed.

Lemma elem_default s u t gno :
  elem s u t gno ↔ icl_in (default icl_empty (find_gnos u t s)) gno.
Proof.
  unfold elem. destruct (find_gnos u t s) as [c|]; simpl; [naive_solver|].
  pose proof (icl_in_empty gno). naive_solver.
Qed.

Lemma elem_with_gnos u t f s u' t' gno :
  sorted2 s →
  elem (with_gnos u t f s) u' t' gno ↔
    if decide ((u', t') = (u, t)) then icl_in (f (default icl_empty (find_gnos u t s))) gno
    else elem s u' t' gno.
Proof.
  intros Hwf. rewrite !elem_default. case_decide as Heq.
  - injection Heq as -> ->. by rewrite find_with_gnos_eq.
  - by rewrite find_with_gnos_ne, <-elem_default.
Qed.

(** ** Invariant preservation *)
Lemma wf_empty : wf empty_set.
Proof. split; constructor. Qed.

(** The invariant in terms of lookups. *)
Lemma wf_iff s :
  wf s ↔ sorted2 s ∧ (∀ u m, map_find u s = Some m → m ≠ []) ∧
    (∀ u t c, find_gnos u t s = Some c → icl_is_empty c = false).
Proof.
  split.
  - intros Hwf. split_and!; [by apply wf_sorted2| |].
    + intros u m Hm. by eapply wf_inner.
    + intros u t c. by apply find_gnos_nonempty.
  - intros (Hs2 & Hne & Hc). pose proof Hs2 as [Hs _]. split; [done|].
    apply (Forall_map_find (λ m, m ≠ [] ∧ inner_wf m)); [done|]. intros u m Hm.
    pose proof (inner_sorted s u Hs2) as Hms. rewrite Hm in Hms. simpl in Hms.
    split; [by eapply Hne|]. split; [done|].
    apply (Forall_map_find (λ c, icl_is_empty c = false)); [done|]. intros t c Hf.
    apply (Hc u t). by rewrite find_gnos_default, Hm.
Qed.

Lemma wf_with_gnos u t f s :
  wf s → icl_is_empty (f (default icl_empty (find_gnos u t s))) = false →
  wf (with_gnos u t f s).
Proof.
  intros Hwf Hne. pose proof (wf_sorted2 s Hwf) as Hs2.
  apply wf_iff in Hwf as (_ & Hmne & Hc). apply wf_iff. split_and!.
  - by apply sorted2_with_gnos.
  - intros u' m. unfold with_gnos. destruct (decide (u' = u)) as [->|].
    + rewrite map_update_find_eq by apply Hs2. intros [= <-]. apply map_update_ne_nil.
    + rewrite map_update_find_ne by (done || apply Hs2). eauto.
  - intros u' t' c. destruct (decide ((u', t') = (u, t))) as [Heq|].
    + injection Heq as -> ->. rewrite find_with_gnos_eq by done. by intros [= <-].
    + rewrite find_with_gnos_ne by done. eauto.
Qed.

(** ** Extensionality: [operator==] is equality of the abstract sets *)
Lemma find_gnos_ext s1 s2 u t :
  wf s1 → wf s2 → (∀ u t gno, elem s1 u t gno ↔ elem s2 u t gno) →
  find_gnos u t s1 = find_gnos u t s2.
Proof.
  intros Hwf1 Hwf2 Heq.
  destruct (find_gnos u t s1) as [c1|] eqn:E1, (find_gnos u t s2) as [c2|] eqn:E2; [| | |done].
  - f_equal. apply icl_in_ext. intros x. specialize (Heq u t x).
    rewrite !elem_default, E1, E2 in Heq. done.
  - apply find_gnos_nonempty in E1 as Hne; [|done]. apply icl_is_empty_false in Hne as [x Hx].
    destruct (icl_in_empty x). specialize (Heq u t x). rewrite !elem_default, E1, E2 in Heq.
    by apply Heq.
  - apply find_gnos_nonempty in E2 as Hne; [|done]. apply icl_is_empty_false in Hne as [x Hx].
    destruct (icl_in_empty x). specialize (Heq u t x). rewrite !elem_default, E1, E2 in Heq.
    by apply Heq.
Qed.

Lemma wf_map_find_ext s1 s2 u :
  wf s1 → wf s2 → (∀ t, find_gnos u t s1 = find_gnos u t s2) →
  map_find u s1 = map_find u s2.
Proof.
  intros Hwf1 Hwf2 Heq. setoid_rewrite find_gnos_default in Heq.
  destruct (map_find u s1) as [m1|] eqn:E1, (map_find u s2) as [m2|] eqn:E2; [| | |done].
  - apply wf_inner in E1 as [_ [??]]; [|done]. apply wf_inner in E2 as [_ [??]]; [|done].
    f_equal. by apply map_ext.
  - apply wf_inner in E1 as [Hne [Hs _]]; [|done].
    destruct (map_find_nonempty m1 Hs Hne) as (t & c & Hc). specialize (Heq t).
    simpl in Heq. congruence.
  - apply wf_inner in E2 as [Hne [Hs _]]; [|done].
    destruct (map_find_nonempty m2 Hs Hne) as (t & c & Hc). specialize (Heq t).
    simpl in Heq. congruence.
Qed.

Lemma wf_ext s1 s2 :
  wf s1 → wf s2 → (∀ u t gno, elem s1 u t gno ↔ elem s2 u t gno) → s1 = s2.
Proof.
  intros Hwf1 Hwf2 Heq. apply map_ext; auto using wf_sorted. intros u.
  apply wf_map_find_ext; [done..|]. intros t. by apply find_gnos_ext.
Qed.

(** ** Subtraction *)
Lemma find_cleanup u t u' t' s :
  sorted2 s →
  find_gnos u' t' (cleanup_if_empty u t s) =
    if decide ((u', t') = (u, t)) then
      match find_gnos u t s with
      | Some gnos => if icl_is_empty gnos then None else Some gnos
      | None => None
      end
    else find_gnos u' t' s.
Proof.
  intros [Hs Hin]. unfold cleanup_if_empty. rewrite !find_gnos_default.
  destruct (map_find u s) as [m|] eqn:Hm; simpl; [|by case_decide; simplify_eq; rewrite ?Hm].
  assert (map_sorted m) as Hms by
    (rewrite (Forall_map_find (λ m, map_sorted m)) in Hin by done; eauto).
  destruct (map_find t m) as [c|] eqn:Hc; [|by case_decide; simplify_eq; rewrite ?Hm].
  destruct (icl_is_empty c) eqn:He; simpl;
    [|by case_decide; simplify_eq; rewrite ?Hm].
  case_decide as Heq; simplify_eq.
  - case_match; simpl.
    + rewrite map_update_find_eq, Hm by done. simpl. by apply map_erase_find_eq.
    + by rewrite map_erase_find_eq by (by apply map_update_sorted).
  - destruct (decide (u' = u)) as [->|]; case_match; to_prop; simpl.
    + rewrite map_update_find_eq, Hm by done. simpl.
      apply map_erase_find_ne; [done | congruence].
    + rewrite map_erase_find_eq by (by apply map_update_sorted). simpl. rewrite Hm. simpl.
      rewrite <-(map_erase_find_ne t t' m); [|done|congruence].
      match goal with Hn : map_erase t m = [] |- _ => by rewrite Hn end.
    + by rewrite map_update_find_ne.
    + by rewrite map_erase_find_ne, map_update_find_ne by (by try apply map_update_sorted).
Qed.

Lemma sorted2_cleanup u t s : sorted2 s → sorted2 (cleanup_if_empty u t s).
Proof.
  intros Hs. unfold cleanup_if_empty. repeat (case_match; [|done]). case_match; [done|].
  assert (sorted2 (map_update u [] (map_erase t) s)) as [Hs' Hin'].
  { split; [apply map_update_sorted, Hs|].
    apply (map_update_Forall (λ m, map_sorted m)); [apply Hs | apply Hs |].
    apply map_erase_sorted. by apply inner_sorted. }
  case_match; [done|]. split; [by apply map_erase_sorted|].
  by apply (map_erase_Forall (λ m, map_sorted m)).
Qed.

Lemma cleanup_inner_ne u t s :
  sorted2 s → (∀ u m, map_find u s = Some m → m ≠ []) →
  ∀ u' m, map_find u' (cleanup_if_empty u t s) = Some m → m ≠ [].
Proof.
  intros [Hs _] Hne u' m. unfold cleanup_if_empty.
  repeat (case_match; [|by eauto]). case_match; [by eauto|].
  destruct (decide (u' = u)) as [->|]; case_match; to_prop.
  - rewrite map_update_find_eq by done. simplify_option_eq. naive_solver.
  - by rewrite map_erase_find_eq by (by apply map_update_sorted).
  - rewrite map_update_find_ne by done. eauto.
  - rewrite map_erase_find_ne, map_update_find_ne by (by try apply map_update_sorted). eauto.
Qed.

Lemma find_subtract_with u t f s u' t' :
  wf s →
  find_gnos u' t' (subtract_with u t f s) =
    if decide ((u', t') = (u, t)) then
      match find_gnos u t s with
      | Some gnos => if icl_is_empty (f gnos) then None else Some (f gnos)
      | None => None
      end
    else find_gnos u' t' s.
Proof.
  intros Hwf%wf_sorted2. unfold subtract_with.
  destruct (find_gnos u t s) as [c|] eqn:Hc; [|by case_decide; simplify_eq].
  rewrite find_cleanup by (by apply sorted2_with_gnos).
  case_decide; [|by rewrite find_with_gnos_ne]. by rewrite find_with_gnos_eq, Hc by done.
Qed.

Lemma wf_subtract_with u t f s : wf s → wf (subtract_with u t f s).
Proof.
  intros Hwf. apply wf_iff. split_and!.
  - apply wf_sorted2 in Hwf. unfold subtract_with. case_match; [|done].
    by apply sorted2_cleanup, sorted2_with_gnos.
  - pose proof (wf_sorted2 s Hwf) as Hs2. apply wf_iff in Hwf as (_ & Hne & _).
    unfold subtract_with. case_match; [|done].
    apply cleanup_inner_ne; [by apply sorted2_with_gnos|]. intros u' m.
    unfold with_gnos. destruct (decide (u' = u)) as [->|].
    + rewrite map_update_find_eq by apply Hs2. intros [= <-]. apply map_update_ne_nil.
    + rewrite map_update_find_ne by (done || apply Hs2). eauto.
  - intros u' t' c. rewrite find_subtract_with by done. case_decide; simplify_eq.
    + repeat case_match; naive_solver.
    + by apply find_gnos_nonempty.
Qed.

Lemma elem_subtract_with u t f s u' t' gno :
  wf s → (∀ c x, icl_in (f c) x → icl_in c x) →
  elem (subtract_with u t f s) u' t' gno ↔
    elem s u' t' gno ∧
    ((u', t') = (u, t) → icl_in (f (default icl_empty (find_gnos u t s))) gno).
Proof.
  intros Hwf Hf. unfold elem at 1. rewrite find_subtract_with by done.
  case_decide as Heq; simplify_eq.
  - rewrite elem_default. destruct (find_gnos u t s) as [c|] eqn:Hc; simpl.
    + destruct (icl_is_empty (f c)) eqn:He.
      * rewrite icl_is_empty_spec in He. naive_solver.
      * naive_solver.
    + pose proof (icl_in_empty gno). naive_solver.
  - unfold elem. naive_solver.
Qed.

(** ** Whole-set operations *)
Lemma elem_entry s u t gno :
  wf s → elem s u t gno ↔ ∃ m c, (u, m) ∈ s ∧ (t, c) ∈ m ∧ icl_in c gno.
Proof.
  intros Hwf. unfold elem, find_gnos. split.
  - intros (c & Hf & Hx). destruct (map_find u s) as [m|] eqn:Hm; [|done].
    exists m, c. apply wf_inner in Hm as Hm'; [|done]. destruct Hm' as [_ [Hs _]].
    split_and!; [|by apply map_find_elem|done]. apply map_find_elem; auto using wf_sorted.
  - intros (m & c & Hm & Hc & Hx). apply map_find_elem in Hm; [|by apply wf_sorted].
    apply wf_inner in Hm as Hm'; [|done]. destruct Hm' as [_ [Hs _]].
    exists c. rewrite Hm. split; [by apply map_find_elem|done].
Qed.

Lemma icl_add_nonempty c d : icl_is_empty d = false → icl_is_empty (icl_add c d) = false.
Proof.
  rewrite !icl_is_empty_false. intros [x Hx]. exists x. rewrite icl_in_add. by right.
Qed.

Lemma fold_add_inner u (m : gnos_by_tag_container) s :
  wf s → Forall (λ q, icl_is_empty q.2 = false) m →
  let s' := foldl (λ s q, with_gnos u q.1 (λ c, icl_add c q.2) s) s m in
  wf s' ∧ ∀ u' t' x, elem s' u' t' x ↔
    elem s u' t' x ∨ (u' = u ∧ ∃ c, (t', c) ∈ m ∧ icl_in c x).
Proof.
  intros Hwf Hall. revert s Hwf. induction Hall as [|[t d] m Hd _ IH]; intros s Hwf; simpl.
  { split; [done|]. intros. setoid_rewrite elem_of_nil. naive_solver. }
  destruct (IH (with_gnos u t (λ c, icl_add c d) s)) as [Hwf' Helem].
  { apply wf_with_gnos; [done|]. by apply icl_add_nonempty. }
  split; [done|]. intros u' t' x. rewrite Helem, elem_with_gnos by (by apply wf_sorted2).
  setoid_rewrite elem_of_cons. case_decide as Heq; simplify_eq.
  - rewrite icl_in_add, <-elem_default. simpl in *. naive_solver.
  - naive_solver.
Qed.

Lemma add_set_elem values s :
  wf s → wf values →
  wf (add_set values s) ∧
  ∀ u t x, elem (add_set values s) u t x ↔ elem s u t x ∨ elem values u t x.
Proof.
  intros Hwf Hv. setoid_rewrite (elem_entry values); [|done]. destruct Hv as [_ Hall].
  unfold add_set. revert s Hwf.
  induction Hall as [|[u m] values [_ [_ Hm]] _ IH]; intros s Hwf; simpl.
  { split; [done|]. intros. setoid_rewrite elem_of_nil. naive_solver. }
  destruct (fold_add_inner u m s Hwf Hm) as [Hwf1 Helem1].
  destruct (IH _ Hwf1) as [Hwf2 Helem2]. split; [done|].
  intros u' t' x. rewrite Helem2, Helem1. setoid_rewrite elem_of_cons. naive_solver.
Qed.

Lemma fold_subtract_inner u (m : gnos_by_tag_container) s :
  wf s →
  let s' := foldl (λ s q, subtract_with u q.1 (λ c, icl_subtract c q.2) s) s m in
  wf s' ∧ ∀ u' t' x, elem s' u' t' x ↔
    elem s u' t' x ∧ ¬ (u' = u ∧ ∃ c, (t', c) ∈ m ∧ icl_in c x).
Proof.
  revert s. induction m as [|[t d] m IH]; intros s Hwf; simpl.
  { split; [done|]. intros. setoid_rewrite elem_of_nil. naive_solver. }
  destruct (IH (subtract_with u t (λ c, icl_subtract c d) s)) as [Hwf' Helem];
    [by apply wf_subtract_with|].
  split; [done|]. intros u' t' x. rewrite Helem, elem_subtract_with; [|done|];
    [|intros ??; rewrite icl_in_subtract; tauto].
  rewrite icl_in_subtract. setoid_rewrite elem_of_cons. 
  assert ((u', t') = (u, t) → elem s u' t' x → icl_in (default icl_empty (find_gnos u t s)) x)
    by (intros [= -> ->]; by rewrite elem_default).
  naive_solver.
Qed.

Lemma subtract_set_elem values s :
  wf s → wf values →
  wf (subtract_set values s) ∧
  ∀ u t x, elem (subtract_set values s) u t x ↔ elem s u t x ∧ ¬ elem values u t x.
Proof.
  intros Hwf Hv. setoid_rewrite (elem_entry values); [|done]. clear Hv.
  unfold subtract_set. revert s Hwf. induction values as [|[u m] values IH]; intros s Hwf; simpl.
  { split; [done|]. intros. setoid_rewrite elem_of_nil. naive_solver. }
  destruct (fold_subtract_inner u m s Hwf) as [Hwf1 Helem1].
  destruct (IH _ Hwf1) as [Hwf2 Helem2]. split; [done|].
  intros u' t' x. rewrite Helem2, Helem1. setoid_rewrite elem_of_cons. naive_solver.
Qed.

Lemma contains_elem s g :
  contains s g = true ↔ elem s (gtid_uuid g) (gtid_tag g) (gtid_gno g).
Proof.
  unfold contains, elem, find_gnos. destruct (map_find (gtid_uuid g) s) as [m|]; [|naive_solver].
  destruct (map_find (gtid_tag g) m) as [c|]; [|naive_solver].
  rewrite icl_contains_spec. naive_solver.
Qed.

Lemma intersects_elem first second :
  wf second →
  intersects first second = true ↔ ∃ u t x, elem first u t x ∧ elem second u t x.
Proof.
  intros Hwf. setoid_rewrite (elem_entry second); [|done].
  unfold intersects, elem, find_gnos. rewrite existsb_exists. split.
  - intros ([u m] & Hin & Hex). cbn [fst snd] in Hex.
    destruct (map_find u first) as [m1|] eqn:Hm1; [|done]. apply existsb_exists in Hex as ([t c] & Hc & Hex). simpl in Hex.
    destruct (map_find t m1) as [c1|] eqn:Hc1; [|done].
    apply icl_intersects_spec in Hex as (x & ? & ?).
    exists u, t, x. rewrite Hm1. split; [by eauto|]. exists m, c. by rewrite !list_elem_of_In.
  - intros (u & t & x & (c1 & Hf & Hx) & (m & c & Hm & Hc & Hx')).
    exists (u, m). split; [by apply list_elem_of_In|]. simpl.
    destruct (map_find u first) as [m1|]; [|done]. apply existsb_exists.
    exists (t, c). split; [by apply list_elem_of_In|]. simpl. rewrite Hf.
    apply icl_intersects_spec. eauto.
Qed.

Lemma is_empty_elem s : wf s → is_empty s = true ↔ ∀ u t x, ¬ elem s u t x.
Proof.
  intros Hwf. unfold is_empty. rewrite bool_decide_eq_true. split.
  - intros -> u t x (c & Hc & _). done.
  - intros Hn. apply wf_ext; [done|apply wf_empty|]. intros u t x. split.
    + intros []%Hn.
    + by intros (c & ? & _).
Qed.
End gtid_set_laws.

(** ** The set algebra as a refinement

    A sequence of calls on a [gtid_set] object against the same sequence on an
    abstract set of (UUID, tag, transaction number) triples. *)
Section refinement.
Context `{IntervalSet} `{BoostUuid}.

Inductive set_op :=
  | op_add_gno (u : uuid) (t : tag) (gno : Z)
  | op_add_gtid (value : gtid)
  | op_add_set (values : gtid_set)
  | op_add_interval (u : uuid) (t : tag) (lower upper : Z)
  | op_subtract_gno (u : uuid) (t : tag) (gno : Z)
  | op_subtract_gtid (value : gtid)
  | op_subtract_set (values : gtid_set)
  | op_subtract_interval (u : uuid) (t : tag) (lower upper : Z)
  | op_clear.

Definition apply_op (o : set_op) (s : gtid_set) : result gtid_set :=
  match o with
  | op_add_gno u t gno => add_gno u t gno s
  | op_add_gtid value => add_gtid value s
  | op_add_set values => Ok (add_set values s)
  | op_add_interval u t l h => add_interval u t l h s
  | op_subtract_gno u t gno => subtract_gno u t gno s
  | op_subtract_gtid value => subtract_gtid value s
  | op_subtract_set values => Ok (subtract_set values s)
  | op_subtract_interval u t l h => subtract_interval u t l h s
  | op_clear => Ok (clear s)
  end.

Fixpoint run_ops (ops : list set_op) (s : gtid_set) : result gtid_set :=
  match ops with
  | [] => Ok s
  | o :: ops => s ← apply_op o s; run_ops ops s
  end.

(** Abstract sets and the abstract operations. *)
Definition triples := uuid → tag → Z → Prop.
Definition range (u : uuid) (t : tag) (l h : Z) : triples :=
  λ u' t' x, u' = u ∧ t' = t ∧ l ≤ x ≤ h.
Definition spec_op (o : set_op) (A : triples) : triples := λ u' t' x,
  match o with
  | op_add_gno u t gno => A u' t' x ∨ range u t gno gno u' t' x
  | op_add_gtid g =>
      A u' t' x ∨ range (gtid_uuid g) (gtid_tag g) (gtid_gno g) (gtid_gno g) u' t' x
  | op_add_set values => A u' t' x ∨ elem values u' t' x
  | op_add_interval u t l h => A u' t' x ∨ range u t l h u' t' x
  | op_subtract_gno u t gno => A u' t' x ∧ ¬ range u t gno gno u' t' x
  | op_subtract_gtid g =>
      A u' t' x ∧ ¬ range (gtid_uuid g) (gtid_tag g) (gtid_gno g) (gtid_gno g) u' t' x
  | op_subtract_set values => A u' t' x ∧ ¬ elem values u' t' x
  | op_subtract_interval u t l h => A u' t' x ∧ ¬ range u t l h u' t' x
  | op_clear => False
  end.
Definition spec_ops (ops : list set_op) (A : triples) : triples :=
  foldl (λ A o, spec_op o A) A ops.

(** Arguments a caller can have: set arguments keep the invariant, transaction
    numbers are at most [max_gno] (a [gtid] object holds no other). *)
Definition op_args_ok (o : set_op) : Prop :=
  match o with
  | op_add_gtid g | op_subtract_gtid g => 0 ≤ gtid_gno g ≤ max_gno
  | op_add_set values | op_subtract_set values => wf values
  | op_add_interval _ _ _ h | op_subtract_interval _ _ _ h => h ≤ max_gno
  | _ => True
  end.
End refinement.

Section refinement_proof.
Context `{IntervalSetLaws} `{BoostUuidLaws}.
Implicit Types (s values : gtid_set) (u : uuid) (t : tag) (A : triples).

Definition refines s A : Prop := wf s ∧ ∀ u t x, elem s u t x ↔ A u t x.

Lemma u64_succ h : 0 ≤ h ≤ max_gno → u64 (h + 1) = h + 1.
Proof. unfold max_gno. intros. apply wrap_small. unfold in_width. simpl in *. lia. Qed.

Lemma refines_insert u t l h s A :
  0 ≤ l ≤ h → h ≤ max_gno → refines s A →
  refines (with_gnos u t (icl_insert l (u64 (h + 1))) s)
    (λ u' t' x, A u' t' x ∨ range u t l h u' t' x).
Proof.
  intros Hl Hh [Hwf HA]. rewrite u64_succ by lia. split.
  - apply wf_with_gnos; [done|]. apply icl_is_empty_false. exists l.
    rewrite icl_in_insert. lia.
  - intros u' t' x. rewrite elem_with_gnos by (by apply wf_sorted2).
    rewrite <-HA. unfold range. case_decide as Heq; simplify_eq.
    + rewrite icl_in_insert, <-elem_default.
      assert (l ≤ x < h + 1 ↔ l ≤ x ≤ h) as -> by lia. naive_solver.
    + naive_solver.
Qed.

Lemma refines_erase u t l h s A :
  0 ≤ l ≤ h → h ≤ max_gno → refines s A →
  refines (subtract_with u t (icl_erase l (u64 (h + 1))) s)
    (λ u' t' x, A u' t' x ∧ ¬ range u t l h u' t' x).
Proof.
  intros Hl Hh [Hwf HA]. rewrite u64_succ by lia. split; [by apply wf_subtract_with|].
  intros u' t' x. rewrite elem_subtract_with; [|done|intros ??; rewrite icl_in_erase; tauto].
  rewrite icl_in_erase, <-HA. unfold range.
  assert ((u', t') = (u, t) → elem s u' t' x → icl_in (default icl_empty (find_gnos u t s)) x)
    by (intros [= -> ->]; by rewrite elem_default).
  assert (l ≤ x < h + 1 ↔ l ≤ x ≤ h) as -> by lia. naive_solver.
Qed.

Lemma refines_add_gno u t gno s A s' :
  refines s A → add_gno u t gno s = Ok s' →
  refines s' (λ u' t' x, A u' t' x ∨ range u t gno gno u' t' x).
Proof.
  intros HA Hok. unfold add_gno in Hok. inv_ok.
  match goal with Hv : validate_components _ _ _ = _ |- _ =>
    apply validate_components_ok in Hv as [_ Hv] end.
  unfold min_gno in *. apply refines_insert; [lia..|done].
Qed.

Lemma refines_subtract_gno u t gno s A s' :
  refines s A → subtract_gno u t gno s = Ok s' →
  refines s' (λ u' t' x, A u' t' x ∧ ¬ range u t gno gno u' t' x).
Proof.
  intros HA Hok. unfold subtract_gno in Hok. inv_ok.
  match goal with Hv : validate_components _ _ _ = _ |- _ =>
    apply validate_components_ok in Hv as [_ Hv] end.
  unfold min_gno in *. apply refines_erase; [lia..|done].
Qed.

Lemma refines_op o s A s' :
  op_args_ok o → refines s A → apply_op o s = Ok s' → refines s' (spec_op o A).
Proof.
  intros Hargs HA Hok. destruct o as [u t g|g|v|u t l h|u t g|g|v|u t l h|]; simpl in *.
  - by eapply refines_add_gno.
  - unfold add_gtid, gtid_is_empty in Hok. inv_ok. to_prop. apply refines_insert; [lia..|done].
  - simplify_eq. destruct HA as [Hwf HA]. destruct (add_set_elem v s Hwf Hargs) as [? He].
    split; [done|]. intros. by rewrite He, HA.
  - unfold add_interval in Hok. destruct (Z.eqb_spec h l) as [->|]; [by eapply refines_add_gno|].
    inv_ok. to_prop. match goal with Hv : validate_components _ _ _ = _ |- _ =>
      apply validate_components_ok in Hv as [_ Hv] end.
    unfold min_gno in *. apply refines_insert; [lia..|done].
  - by eapply refines_subtract_gno.
  - unfold subtract_gtid, gtid_is_empty in Hok. inv_ok. to_prop. apply refines_erase; [lia..|done].
  - simplify_eq. destruct HA as [Hwf HA]. destruct (subtract_set_elem v s Hwf Hargs) as [? He].
    split; [done|]. intros. by rewrite He, HA.
  - unfold subtract_interval in Hok.
    destruct (Z.eqb_spec h l) as [->|]; [by eapply refines_subtract_gno|].
    inv_ok. to_prop. match goal with Hv : validate_components _ _ _ = _ |- _ =>
      apply validate_components_ok in Hv as [_ Hv] end.
    unfold min_gno in *. apply refines_erase; [lia..|done].
  - simplify_eq. split; [apply wf_empty|]. intros u t x. split; [|done]. by intros (? & ? & _).
Qed.

Lemma refines_ops ops s A s' :
  Forall op_args_ok ops → refines s A → run_ops ops s = Ok s' → refines s' (spec_ops ops A).
Proof.
  intros Hargs. revert s A. induction Hargs as [|o ops Ho _ IH]; intros s A HA Hrun; cbn in Hrun.
  - by simplify_eq.
  - inv_ok. unfold spec_ops. simpl. eapply IH; [|done]. by eapply refines_op.
Qed.


(** equality of [gtid_set] objects (the defaulted [operator==], which compares
    the maps and the intervals) is equality of the abstract sets. *)
Theorem gtid_set_equality s1 s2 :
  wf s1 → wf s2 → s1 = s2 ↔ ∀ u t gno, elem s1 u t gno ↔ elem s2 u t gno.
Proof. intros. split; [by intros -> | by apply wf_ext]. Qed.

(** C35: the observers compute what the abstract set says: [contains] is
    membership, [intersects] a common element, [is_empty] emptiness, and
    [contains_tags] the presence of a tagged transaction. *)
Theorem gtid_set_observers s1 s2 :
  wf s1 → wf s2 →
  (∀ g, contains s1 g = true ↔ elem s1 (gtid_uuid g) (gtid_tag g) (gtid_gno g)) ∧
  (intersects s1 s2 = true ↔ ∃ u t x, elem s1 u t x ∧ elem s2 u t x) ∧
  (is_empty s1 = true ↔ ∀ u t x, ¬ elem s1 u t x) ∧
  (contains_tags s1 = true ↔ ∃ u t x, t ≠ [] ∧ elem s1 u t x).
Proof.
  intros Hwf1 Hwf2. split_and!; [apply contains_elem | by apply intersects_elem
    | by apply is_empty_elem |].
  setoid_rewrite elem_entry; [|done]. unfold contains_tags.
  rewrite existsb_exists. setoid_rewrite existsb_exists. split.
  - intros ([u m] & Hm & [t c] & Hc & Ht). simpl in *. to_prop.
    apply list_elem_of_In in Hm, Hc. pose proof Hwf1 as [Hs Hall].
    rewrite Forall_forall in Hall. destruct (Hall _ Hm) as [_ [_ Hne]].
    rewrite Forall_forall in Hne. specialize (Hne _ Hc). apply icl_is_empty_false in Hne as [x Hx].
    exists u, t, x. split; [|by eauto]. intros Hnil. apply tag_is_empty_spec in Hnil. congruence.
  - intros (u & t & x & Ht & m & c & Hm & Hc & _). exists (u, m).
    rewrite <-list_elem_of_In. split; [done|]. exists (t, c). rewrite <-list_elem_of_In.
    split; [done|]. simpl. apply negb_true_iff. destruct (tag_is_empty t) eqn:E; [|done].
    by apply tag_is_empty_spec in E.
Qed.

(** which additions and subtractions throw. [add_interval] checks its lower
    bound against the range of transaction numbers and that the bounds are in
    order, but not its upper bound. *)
Theorem add_interval_accepts u t l h s :
  is_ok (add_interval u t l h s) = true ↔
    uuid_is_empty u = false ∧ min_gno ≤ l ≤ max_gno ∧ l ≤ h.
Proof.
  unfold add_interval, add_gno. destruct (Z.eqb_spec h l) as [->|].
  - pose proof (validate_components_ok u t l) as Hv.
    destruct (validate_components u t l) as [[]|]; cbn; [|]; naive_solver lia.
  - destruct (Z.ltb_spec h l); cbn; [split; [done|lia]|].
    pose proof (validate_components_ok u t l) as Hv.
    destruct (validate_components u t l) as [[]|]; cbn; naive_solver lia.
Qed.

(** because the upper bound is not checked, the interval up to 2^64 - 1 is
    accepted, its half-open upper end wraps around to 0 and nothing is added:
    the object then reports itself non-empty while it contains nothing. *)
Theorem add_interval_upper_wraps u t :
  uuid_is_empty u = false →
  ∃ s, add_interval u t 1 (2 ^ 64 - 1) empty_set = Ok s ∧ is_empty s = false ∧
    ¬ wf s ∧ ∀ u' t' x, ¬ elem s u' t' x.
Proof.
  intros Hu. eexists. split.
  { unfold add_interval. cbn. unfold validate_components. rewrite Hu. cbn. reflexivity. }
  assert (∀ u' t' x, ¬ elem (with_gnos u t (icl_insert 1 (u64 (2 ^ 64 - 1 + 1))) empty_set) u' t' x)
    as Hno.
  { intros u' t' x. rewrite elem_with_gnos by (split; constructor). case_decide.
    - change (u64 (2 ^ 64 - 1 + 1)) with 0. rewrite icl_in_insert. cbn.
      pose proof (icl_in_empty x). intros [?|?]; [lia|done].
    - by intros (? & ? & _). }
  split_and!; [done| |done]. intros Hwf. apply is_empty_elem in Hno; [done..].
Qed.
End refinement_proof.

Module GtidSetExamples.
Import IntervalList UuidModel.

Definition sample_ops : list set_op :=
  [op_add_interval sample_uuid [] 1 5; op_add_gno sample_uuid (text "tag1") 7;
   op_subtract_interval sample_uuid [] 2 3; op_add_gno sample_uuid [] 6].


Definition sample_set : gtid_set := with_gnos sample_uuid [] (icl_insert 1 6) empty_set.
Lemma sample_set_wf : wf sample_set.
Proof. apply wf_with_gnos; [apply wf_empty | reflexivity]. Qed.

(** Adding 1 to 3 and then 4 to 5 gives the same object as adding 1 to 5. *)
Lemma gtid_set_equality_witness :
  ∃ s, run_ops [op_add_interval sample_uuid [] 4 5; op_add_interval sample_uuid [] 1 3]
         empty_set = Ok s ∧ s = sample_set.
Proof.
  eexists. split; [reflexivity|].
  assert (wf (with_gnos sample_uuid [] (icl_insert 1 4)
    (with_gnos sample_uuid [] (icl_insert 4 6) empty_set))) as Hwf.
  { apply wf_with_gnos; [apply wf_with_gnos; [apply wf_empty | reflexivity] | reflexivity]. }
  apply (gtid_set_equality _ _ Hwf sample_set_wf). intros u t x.
  unfold elem, find_gnos. simpl. repeat case_match; simplify_eq; try tauto.
  split; intros (c & Hc & Hx); destruct t; try discriminate Hc; injection Hc as Hc; subst c; eexists; (split; [reflexivity | exact Hx]).
Defined.

Lemma gtid_set_observers_witness :
  contains sample_set (mk_gtid sample_uuid [] 5) = true ∧
  elem sample_set sample_uuid [] 5.
Proof.
  split; [reflexivity|].
  apply (proj1 (gtid_set_observers sample_set sample_set sample_set_wf sample_set_wf)
    (mk_gtid sample_uuid [] 5)). reflexivity.
Defined.

Lemma add_interval_upper_wraps_witness :
  ∃ s, add_interval sample_uuid [] 1 (2 ^ 64 - 1) empty_set = Ok s ∧ is_empty s = false.
Proof.
  destruct (add_interval_upper_wraps sample_uuid []) as (s & Hs & He & _); [by vm_compute|].
  exists s. done.
Defined.
End GtidSetExamples.
