(* ===== verification/GtidSetEncoding.v ===== *)
(** * The binary encoding of GTID sets

    Models [gtid_set::calculate_encoded_size], [gtid_set::encode_to], the decoding
    constructor [gtid_set(util::const_byte_span)] and [process_intervals] of
    src/src/binsrv/gtids/gtid_set.cpp.  The encoding is the one MySQL uses in
    PREVIOUS_GTIDS_LOG events and in the COM_BINLOG_DUMP_GTID command. *)

From Stdlib Require Import Sorting.Sorted.
From S2P Require Import Prelude ByteSpan OrderedMap IntervalSet Gtid GtidSet.

Local Open Scope Z_scope.

(** An unchecked insertion or [subspan] past the end of a span has no meaning. *)
Definition insert_fixed_int_unchecked (n : nat) (v : Z) (s : byte_span) : result byte_span :=
  or_raise (insert_fixed_int_to_byte_span_checked n v s)
    (undefined_behaviour "insertion past the end of the span").
Definition subspan_unchecked (n : nat) (s : byte_span) : result byte_span :=
  _ ← raise_if (span_size s <? n)%nat (undefined_behaviour "subspan past the end of the span");
  Ok (subspan n s).

(** ** Headers *)

(** the lambda [header_encoder] of [encode_to] *)
Definition header_encoder (tagged : bool) (number_of_tsids : Z) : result Z :=
  if negb tagged then
    _ ← raise_if (Z.shiftl 1 56 <=? number_of_tsids) (invalid_argument
          "the number of TSIDs in the untagged GTID set being encoded is too large");
    Ok number_of_tsids
  else
    _ ← raise_if (Z.shiftl 1 48 <=? number_of_tsids) (invalid_argument
          "the number of TSIDs in the tagged GTID set being encoded is too large");
    let result := Z.lor (Z.shiftl 1 48) number_of_tsids in
    let result := u64 (Z.shiftl result 8) in
    Ok (Z.lor result 1).

(** the lambda [header_parser] of the decoding constructor *)
Definition header_parser (value : Z) : result (bool * Z) :=
  let gtid_format_field := u8 (Z.shiftr value 56) in
  _ ← raise_if (negb (Z.shiftr gtid_format_field 1 =? 0))
        (invalid_argument "invalid header in the encoded GTID set");
  let tagged_flag := gtid_format_field =? 1 in
  let value := if tagged_flag then Z.shiftr (u64 (Z.shiftl value 8)) 16 else value in
  _ ← raise_if (2 ^ 64 - 1 <? value) (invalid_argument
        "the number of TSIDs in the encoded GTID set is too large");
  Ok (tagged_flag, value).

Section encoding.
Context `{IntervalSet} `{BoostUuid}.
Implicit Types (s : gtid_set) (u : uuid) (t : tag).

(** ** Encoding *)
Definition calculate_encoded_size s : Z :=
  let tagged_flag := contains_tags s in
  foldl (λ result p,
    foldl (λ result q,
      result + Z.of_nat uuid_calculate_encoded_size +
      (if tagged_flag then tag_calculate_encoded_size q.1 else 0) + 8 +
      Z.of_nat (interval_count q.2) * 2 * 8) result p.2) 8 s.

(** the body of the inner loop of [encode_to] *)
Definition encode_tsid (tagged_flag : bool) (st : byte_span * Z) (u : uuid)
    (q : tag * gno_container) : result (byte_span * Z) :=
  let '(remainder, number_of_tsids) := st in
  let '(current_tag, current_gnos) := q in
  remainder ← uuid_encode_to u remainder;
  remainder ← (if tagged_flag then tag_encode_to current_tag remainder else Ok remainder);
  remainder ← insert_fixed_int_unchecked 8 (Z.of_nat (interval_count current_gnos)) remainder;
  remainder ← foldM (λ remainder interval,
      remainder ← insert_fixed_int_unchecked 8 interval.1 remainder;
      insert_fixed_int_unchecked 8 interval.2 remainder)
    remainder (icl_intervals current_gnos);
  Ok (remainder, number_of_tsids + 1).

Definition encode_to s (destination : byte_span) : result byte_span :=
  let tagged_flag := contains_tags s in
  remainder ← subspan_unchecked 8 destination;
  '(remainder, number_of_tsids) ←
    foldM (λ st p, foldM (λ st q, encode_tsid tagged_flag st p.1 q) st p.2)
      (remainder, 0) s;
  header_value ← header_encoder tagged_flag number_of_tsids;
  (* the header goes to the front of the same buffer *)
  let header := mk_span (sp_store remainder) (sp_pos destination) in
  header ← insert_fixed_int_unchecked 8 header_value header;
  Ok (mk_span (sp_store header) (sp_pos remainder)).

(** ** Decoding *)

(** the lambda [tag_parser] *)
Definition tag_parser (source : list Z) : result (list Z * list Z) :=
  '(extracted_tag_length, source) ← or_raise
    (extract_varlen_int_from_byte_span_checked 8 source)
    (invalid_argument "encoded GTID set is too short to extract tag length");
  (* resizing a container of capacity [tag_max_length] *)
  _ ← raise_if (Z.of_nat tag_max_length <? extracted_tag_length) bad_alloc;
  or_raise (extract_byte_span_from_byte_span_checked (Z.to_nat extracted_tag_length) source)
    (invalid_argument "encoded GTID set is too short to extract tag data").

(** the lambda [interval_parser] of [process_intervals] *)
Definition interval_parser (source : list Z) : result (Z * Z * list Z) :=
  '(lower, source) ← or_raise (extract_fixed_int_from_byte_span_checked 8 source)
    (invalid_argument
      "encoded GTID set is too short to extract the lower component of the interval");
  '(upper, source) ← or_raise (extract_fixed_int_from_byte_span_checked 8 source)
    (invalid_argument
      "encoded GTID set is too short to extract the upper component of the interval");
  _ ← raise_if (upper <=? lower) (invalid_argument
    "lower and upper components of the interval in the encoded GTID set do not represent a valid range ");
  Ok (lower, upper, source).


(** the loop of [process_intervals]: [count] iterations left *)
Fixpoint interval_loop (fuel : nat) (count : Z) (remainder : list Z) (gnos : gno_container)
    : result (gno_container * list Z) :=
  if count =? 0 then Ok (gnos, remainder)
  else
    match fuel with
    | O => Err out_of_fuel
    | S fuel =>
        '(lower, upper, remainder) ← interval_parser remainder;
        interval_loop fuel (count - 1) remainder (icl_insert lower upper gnos)
    end.

Definition process_intervals (remainder : list Z) u t s : result (gtid_set * list Z) :=
  '(current_number_of_intervals_raw, remainder) ← or_raise
    (extract_fixed_int_from_byte_span_checked 8 remainder)
    (invalid_argument "encoded GTID set is too short to number of intervals");
  _ ← raise_if (2 ^ 64 - 1 <? current_number_of_intervals_raw) (invalid_argument
    "the number of intervals in the encoded GTID set is too large");
  let gnos := default icl_empty (find_gnos u t s) in
  '(gnos, remainder) ←
    interval_loop (S (length remainder)) current_number_of_intervals_raw remainder gnos;
  Ok (with_gnos u t (λ _, gnos) s, remainder).

(** the loop of the constructor over the TSIDs *)
Fixpoint tsid_loop (fuel : nat) (count : Z) (tagged : bool) (remainder : list Z) s
    : result (gtid_set * list Z) :=
  if count =? 0 then Ok (s, remainder)
  else
    match fuel with
    | O => Err out_of_fuel
    | S fuel =>
        '(current_uuid, remainder) ← or_raise
          (extract_byte_array_from_byte_span_checked uuid_length remainder)
          (invalid_argument "encoded GTID set is too short to extract UUID");
        '(current_tag_raw, remainder) ←
          (if tagged then tag_parser remainder else Ok ([], remainder));
        current_tag ← tag_of_name current_tag_raw;
        '(s, remainder) ← process_intervals remainder current_uuid current_tag s;
        tsid_loop fuel (count - 1) tagged remainder s
    end.

(** [gtid_set(util::const_byte_span portion)] *)
Definition decode (portion : list Z) : result gtid_set :=
  '(header, remainder) ← or_raise (extract_fixed_int_from_byte_span_checked 8 portion)
    (invalid_argument "encoded GTID set is too short to extract header");
  '(tagged, number_of_tsids) ← header_parser header;
  '(s, remainder) ← tsid_loop (S (length remainder)) number_of_tsids tagged remainder empty_set;
  _ ← raise_if (negb (bool_decide (remainder = [])))
        (invalid_argument "extra bytes in the encoded gtid_set");
  Ok s.
End encoding.

(** ** The bytes of an encoded set *)
Section bytes.
Context `{IntervalSet}.
Implicit Types (s : gtid_set) (u : uuid) (t : tag).

Definition interval_bytes (p : Z * Z) : list Z := le_split 8 p.1 ++ le_split 8 p.2.
Definition tsid_bytes (tagged : bool) u (q : tag * gno_container) : list Z :=
  u ++ (if tagged then tag_bytes q.1 else []) ++
  le_split 8 (Z.of_nat (interval_count q.2)) ++ mjoin (interval_bytes <$> icl_intervals q.2).

(** The (UUID, tag, numbers) entries in iteration order. *)
Definition entries s : list (uuid * gnos_by_tag_container * (tag * gno_container)) :=
  mjoin ((λ p, pair p <$> p.2) <$> s).
Definition body_bytes (tagged : bool) s : list Z :=
  mjoin ((λ e, tsid_bytes tagged e.1.1 e.2) <$> entries s).

Definition header_value (tagged : bool) (n : Z) : Z :=
  if tagged then 2 ^ 56 + n * 2 ^ 8 + 1 else n.
Definition encoded s : list Z :=
  le_split 8 (header_value (contains_tags s) (Z.of_nat (length (entries s)))) ++
  body_bytes (contains_tags s) s.

(** What the keys and numbers of a set satisfy when they come from valid GTIDs. *)
Definition keys_ok s : Prop :=
  Forall (λ p, uuid_ok p.1 ∧
    Forall (λ q, tag_ok q.1 ∧ Forall (λ i, in_width 64 i.1 ∧ in_width 64 i.2)
                                (icl_intervals q.2)) p.2) s.

Lemma entries_ok s :
  keys_ok s → Forall (λ e, uuid_ok e.1.1 ∧ tag_ok e.2.1 ∧
    Forall (λ i, in_width 64 i.1 ∧ in_width 64 i.2) (icl_intervals e.2.2)) (entries s).
Proof.
  intros Hk. apply Forall_forall. intros [[u m] [t c]] Hin. unfold entries in Hin.
  apply list_elem_of_join in Hin as (l & Hin & Hl).
  apply list_elem_of_fmap in Hl as ([u' m'] & -> & Hp). cbn in Hin.
  apply list_elem_of_fmap in Hin as (q & Heq & Hq). simplify_eq.
  unfold keys_ok in Hk. rewrite Forall_forall in Hk. destruct (Hk _ Hp) as [Hu Hm].
  rewrite Forall_forall in Hm. destruct (Hm _ Hq). done.
Qed.

Lemma length_interval_bytes l : length (mjoin (interval_bytes <$> l)) = (16 * length l)%nat.
Proof.
  induction l as [|p l IH]; [done|].
  change (mjoin (interval_bytes <$> p :: l))
    with (interval_bytes p ++ mjoin (interval_bytes <$> l)).
  rewrite length_app, IH. unfold interval_bytes. rewrite length_app, !length_le_split.
  cbn [length]. lia.
Qed.

Lemma length_tsid_bytes tagged u q :
  uuid_ok u → tag_ok q.1 →
  Z.of_nat (length (tsid_bytes tagged u q)) =
    Z.of_nat uuid_calculate_encoded_size +
    (if tagged then tag_calculate_encoded_size q.1 else 0) + 8 +
    Z.of_nat (interval_count q.2) * 2 * 8.
Proof.
  intros [Hu _] Ht. unfold tsid_bytes, interval_count.
  rewrite !length_app, length_interval_bytes, length_le_split, Hu.
  unfold uuid_calculate_encoded_size. destruct tagged; cbn [length];
    rewrite <-?(length_tag_bytes q.1 Ht); lia.
Qed.
End bytes.

Section encode_proof.
Context `{IntervalSetLaws} `{BoostUuidLaws}.
Implicit Types (s : gtid_set) (u : uuid) (t : tag).

Lemma insert_fixed_unchecked_ok n v (s : byte_span) :
  (n ≤ span_size s)%nat → insert_fixed_int_unchecked n v s = Ok (write_bytes (le_split n v) s).
Proof.
  intros Hn. unfold insert_fixed_int_unchecked, insert_fixed_int_to_byte_span_checked.
  destruct (Nat.ltb_spec (span_size s) n); [lia | done].
Qed.

Lemma encode_intervals_ok l (s : byte_span) :
  span_ok s → (length (mjoin (interval_bytes <$> l)) ≤ span_size s)%nat →
  foldM (λ remainder interval,
      remainder ← insert_fixed_int_unchecked 8 interval.1 remainder;
      insert_fixed_int_unchecked 8 interval.2 remainder) s l =
    Ok (write_bytes (mjoin (interval_bytes <$> l)) s).
Proof.
  revert s. induction l as [|[a b] l IH]; intros s Hs Hl.
  { cbn. by rewrite write_bytes_nil. }
  rewrite length_interval_bytes in Hl. cbn [length] in Hl. cbn [foldM fst snd].
  rewrite insert_fixed_unchecked_ok by lia. cbn [mbind result_bind].
  rewrite insert_fixed_unchecked_ok
    by (rewrite span_size_write by (rewrite ?length_le_split; done || lia);
        rewrite length_le_split; lia).
  cbn [mbind result_bind]. rewrite write_bytes_app by done.
  change (le_split 8 a ++ le_split 8 b) with (interval_bytes (a, b)).
  assert (length (interval_bytes (a, b)) = 16%nat) as H16
    by (unfold interval_bytes; by rewrite length_app, !length_le_split).
  rewrite IH, write_bytes_app; [done|done| |].
  - apply write_bytes_ok; [done|]. rewrite H16. lia.
  - rewrite span_size_write by (done || lia). rewrite length_interval_bytes, H16. lia.
Qed.

Lemma encode_tsid_ok tagged rem n u t c :
  uuid_ok u → tag_ok t → span_ok rem →
  (length (tsid_bytes tagged u (t, c)) ≤ span_size rem)%nat →
  encode_tsid tagged (rem, n) u (t, c) =
    Ok (write_bytes (tsid_bytes tagged u (t, c)) rem, n + 1).
Proof.
  intros Hu Ht Hs Hl. unfold tsid_bytes in *. cbn [fst snd] in *.
  rewrite !length_app in Hl. pose proof Hu as [Hul _]. rewrite Hul in Hl.
  unfold encode_tsid. rewrite uuid_encode_to_ok by (done || lia). cbn [mbind result_bind].
  assert (span_ok (write_bytes u rem)) as Hs1 by (apply write_bytes_ok; [done|lia]).
  assert (span_size (write_bytes u rem) = (span_size rem - 16)%nat) as Hz1
    by (rewrite span_size_write by (done || lia); unfold uuid_length in *; lia).
  assert ((if tagged then tag_encode_to t (write_bytes u rem) else Ok (write_bytes u rem)) =
    Ok (write_bytes (if tagged then tag_bytes t else []) (write_bytes u rem))) as ->.
  { destruct tagged; [|by rewrite write_bytes_nil].
    apply tag_encode_to_ok; [done..|]. rewrite Hz1. unfold uuid_length in *. lia. }
  set (tb := if tagged then tag_bytes t else []) in *. cbn [mbind result_bind].
  rewrite (write_bytes_app u tb) by done.
  assert (length (u ++ tb) ≤ span_size rem)%nat as Hl2
    by (rewrite length_app; unfold uuid_length in *; lia).
  rewrite length_le_split in Hl.
  rewrite insert_fixed_unchecked_ok
    by (rewrite span_size_write, length_app by done; unfold uuid_length in *; lia).
  cbn [mbind result_bind]. rewrite write_bytes_app by done.
  rewrite encode_intervals_ok; cycle 1.
  { apply write_bytes_ok; [done|]. rewrite !length_app, length_le_split.
    unfold uuid_length in *. lia. }
  { rewrite span_size_write, !length_app, length_le_split; unfold uuid_length in *;
      [lia | done |]. rewrite !length_app, length_le_split. lia. }
  cbn [mbind result_bind]. rewrite write_bytes_app by done. by rewrite <-!app_assoc.
Qed.

Lemma encode_entries_ok tagged l rem n :
  Forall (λ e, uuid_ok e.1.1 ∧ tag_ok e.2.1) l → span_ok rem →
  (length (mjoin ((λ e, tsid_bytes tagged e.1.1 e.2) <$> l)) ≤ span_size rem)%nat →
  foldM (λ st (e : uuid * gnos_by_tag_container * (tag * gno_container)),
      encode_tsid tagged st e.1.1 e.2) (rem, n) l =
    Ok (write_bytes (mjoin ((λ e, tsid_bytes tagged e.1.1 e.2) <$> l)) rem,
        n + Z.of_nat (length l)).
Proof.
  intros Hall. revert rem n. induction Hall as [|[[u m] [t c]] l [Hu Ht] _ IH]; intros rem n Hs Hl.
  { cbn. by rewrite write_bytes_nil, Z.add_0_r. }
  change (mjoin ((λ e, tsid_bytes tagged e.1.1 e.2) <$> (u, m, (t, c)) :: l))
    with (tsid_bytes tagged u (t, c) ++ mjoin ((λ e, tsid_bytes tagged e.1.1 e.2) <$> l)) in *.
  rewrite length_app in Hl. cbn [foldM fst snd].
  rewrite encode_tsid_ok by (done || lia). cbn [mbind result_bind].
  rewrite IH, write_bytes_app; [| done | by apply write_bytes_ok; [|lia] |].
  - f_equal. f_equal. cbn [length]. lia.
  - rewrite span_size_write by (done || lia). lia.
Qed.

Lemma header_encoder_ok tagged n :
  0 ≤ n < 2 ^ 48 → header_encoder tagged n = Ok (header_value tagged n).
Proof.
  intros Hn. unfold header_encoder, header_value. rewrite !Z.shiftl_1_l.
  destruct tagged; cbn [negb].
  - destruct (Z.leb_spec (2 ^ 48) n); [lia|]. cbn [raise_if mbind result_bind]. f_equal.
    assert (Z.lor (2 ^ 48) n = 2 ^ 48 + n) as ->.
    { pose proof (Z.add_lor_land (2 ^ 48) n) as Hl.
      assert (Z.land (2 ^ 48) n = 0) as Hz; [|lia].
      apply Z.bits_inj'. intros i Hi. rewrite Z.land_spec, Z.bits_0, Z.pow2_bits_eqb by lia.
      destruct (Z.eqb_spec 48 i) as [<-|]; [|done]. cbn [andb].
      destruct (decide (n = 0)) as [->|]; [done|].
      apply Z.bits_above_log2; [lia|]. apply Z.log2_lt_pow2; lia. }
    rewrite Z.shiftl_mul_pow2 by lia. rewrite wrap_small by (unfold in_width; simpl in *; lia).
    pose proof (Z.add_lor_land ((2 ^ 48 + n) * 2 ^ 8) 1) as Hl.
    assert (Z.land ((2 ^ 48 + n) * 2 ^ 8) 1 = 0) as Hz
      by (rewrite (Z.land_ones _ 1) by lia; change (2 ^ 1) with 2; simpl; dlia).
    rewrite Hz, Z.add_0_r in Hl. rewrite Hl. simpl. lia.
  - destruct (Z.leb_spec (2 ^ 56) n); [simpl in *; lia|]. done.
Qed.

Lemma header_parser_ok tagged n :
  0 ≤ n < 2 ^ 48 → header_parser (header_value tagged n) = Ok (tagged, n).
Proof.
  intros Hn. unfold header_parser, header_value. destruct tagged.
  - rewrite Z.shiftr_div_pow2 by lia.
    assert ((2 ^ 56 + n * 2 ^ 8 + 1) / 2 ^ 56 = 1) as -> by (simpl in *; dlia).
    change (u8 1) with 1. cbn -[Z.shiftl Z.shiftr Z.pow wrap Z.ltb].
    rewrite Z.shiftl_mul_pow2 by lia.
    assert (u64 ((2 ^ 56 + n * 2 ^ 8 + 1) * 2 ^ 8) = n * 2 ^ 16 + 2 ^ 8) as ->
      by (unfold wrap; simpl in *; dlia).
    rewrite Z.shiftr_div_pow2 by lia.
    assert ((n * 2 ^ 16 + 2 ^ 8) / 2 ^ 16 = n) as -> by (simpl in *; dlia).
    destruct (Z.ltb_spec (2 ^ 64 - 1) n); [simpl in *; lia|]. done.
  - rewrite Z.shiftr_div_pow2, Z.div_small by (simpl in *; lia).
    change (u8 0) with 0. cbn -[Z.pow Z.ltb].
    destruct (Z.ltb_spec (2 ^ 64 - 1) n); [simpl in *; lia|]. done.
Qed.
End encode_proof.

(** ** Encoding fills a buffer of the calculated size *)
Section encode_theorem.
Context `{IntervalSetLaws} `{BoostUuidLaws}.
Implicit Types (s : gtid_set) (u : uuid) (t : tag).

(** The number of (UUID, tag) pairs fits its 48-bit field. *)
Definition tsid_count_ok s : Prop := Z.of_nat (length (entries s)) < 2 ^ 48.

Lemma calculate_encoded_size_spec s :
  keys_ok s → calculate_encoded_size s = Z.of_nat (length (encoded s)).
Proof.
  intros Hk%entries_ok. unfold calculate_encoded_size, encoded, body_bytes.
  rewrite (foldl_nested (λ r (p : uuid * gnos_by_tag_container) (q : tag * gno_container), _)
    (λ p, p.2)).
  change (mjoin ((λ b, pair b <$> b.2) <$> s)) with (entries s).
  rewrite length_app, length_le_split. generalize (contains_tags s) as tagged. intros tagged.
  assert (∀ l a, Forall (λ e : uuid * gnos_by_tag_container * (tag * gno_container),
      uuid_ok e.1.1 ∧ tag_ok e.2.1 ∧
      Forall (λ i, in_width 64 i.1 ∧ in_width 64 i.2) (icl_intervals e.2.2)) l →
    foldl (λ result bc, result + Z.of_nat uuid_calculate_encoded_size +
      (if tagged then tag_calculate_encoded_size bc.2.1 else 0) + 8 +
      Z.of_nat (interval_count bc.2.2) * 2 * 8) a l =
    a + Z.of_nat (length (mjoin ((λ e, tsid_bytes tagged e.1.1 e.2) <$> l)))) as Hsum.
  { induction l as [|[[u m] q] l IH]; intros a Hall; [simpl; lia|].
    apply Forall_cons in Hall as [(Hu & Ht & _) Hall].
    change (mjoin ((λ e, tsid_bytes tagged e.1.1 e.2) <$> (u, m, q) :: l))
      with (tsid_bytes tagged u q ++ mjoin ((λ e, tsid_bytes tagged e.1.1 e.2) <$> l)).
    cbn [foldl fst snd]. rewrite IH by done. rewrite length_app, Nat2Z.inj_add.
    rewrite length_tsid_bytes by done. lia. }
  rewrite Hsum by done. lia.
Qed.

Lemma encode_to_ok s dest :
  keys_ok s → tsid_count_ok s → span_ok dest →
  (length (encoded s) ≤ span_size dest)%nat →
  encode_to s dest = Ok (write_bytes (encoded s) dest).
Proof.
  intros Hk Hn Hs Hl. unfold encode_to, encoded in *. rewrite length_app, length_le_split in Hl.
  unfold subspan_unchecked. destruct (Nat.ltb_spec (span_size dest) 8); [lia|].
  cbn [raise_if mbind result_bind].
  rewrite (foldM_nested (λ st (p : uuid * gnos_by_tag_container) q,
    encode_tsid (contains_tags s) st p.1 q) (λ p, p.2)).
  change (mjoin ((λ b, pair b <$> b.2) <$> s)) with (entries s).
  set (tagged := contains_tags s) in *. 
  assert (span_ok (subspan 8 dest)) by (unfold span_ok, span_size, subspan in *; simpl; lia).
  assert (span_size (subspan 8 dest) = (span_size dest - 8)%nat)
    by (unfold span_size, subspan; simpl; lia).
  rewrite encode_entries_ok; [| |done|unfold body_bytes in *; lia].
  2: { eapply Forall_impl; [by apply entries_ok|]. naive_solver. }
  cbn [mbind result_bind]. rewrite Z.add_0_l, header_encoder_ok by (unfold tsid_count_ok in *; lia).
  cbn [mbind result_bind]. rewrite insert_fixed_unchecked_ok; cycle 1.
  { unfold span_size at 1. cbn [sp_store sp_pos].
    rewrite length_write_bytes by (done || unfold body_bytes in *; lia).
    unfold subspan, span_size in *. simpl. lia. }
  cbn [mbind result_bind]. f_equal. fold (body_bytes tagged s).
  set (h := le_split 8 _). assert (length h = 8%nat) as Hh by apply length_le_split.
  rewrite <-Hh, write_bytes_late by (done || rewrite Hh; lia).
  unfold write_bytes, subspan. cbn [sp_pos sp_store]. f_equal. rewrite length_app. lia.
Qed.

(** ** Decoding *)
Lemma interval_bytes_parse a b rest :
  in_width 64 a → in_width 64 b → a < b →
  interval_parser (interval_bytes (a, b) ++ rest) = Ok (a, b, rest).
Proof.
  intros Ha Hb Hab. unfold interval_parser, interval_bytes. cbn [fst snd].
  rewrite <-app_assoc, extract_fixed_app by done. cbn [or_raise mbind result_bind].
  rewrite extract_fixed_app by done. cbn [or_raise mbind result_bind].
  destruct (Z.leb_spec b a); [lia | done].
Qed.

Lemma interval_loop_bytes l rest gnos fuel :
  Forall (λ i, in_width 64 i.1 ∧ in_width 64 i.2 ∧ i.1 < i.2) l → (length l ≤ fuel)%nat →
  interval_loop fuel (Z.of_nat (length l)) (mjoin (interval_bytes <$> l) ++ rest) gnos =
    Ok (insert_all l gnos, rest).
Proof.
  intros Hall. revert gnos fuel. induction Hall as [|[a b] l (Ha & Hb & Hab) _ IH];
    intros gnos fuel Hf; [by destruct fuel|].
  destruct fuel as [|fuel]; [simpl in Hf; lia|]. cbn [interval_loop].
  destruct (Z.eqb_spec (Z.of_nat (length ((a, b) :: l))) 0); [simpl in *; lia|].
  change (mjoin (interval_bytes <$> (a, b) :: l))
    with (interval_bytes (a, b) ++ mjoin (interval_bytes <$> l)).
  rewrite <-app_assoc, interval_bytes_parse by done. cbn [mbind result_bind].
  replace (Z.of_nat (length ((a, b) :: l)) - 1) with (Z.of_nat (length l)) by (simpl; lia).
  rewrite IH by (simpl in Hf; lia). done.
Qed.

Lemma insert_all_add (c d : gno_container) : insert_all (icl_intervals c) d = icl_add d c.
Proof.
  apply icl_in_ext. intros x. rewrite icl_in_insert_all, icl_in_add.
  unfold icl_in at 2. tauto.
Qed.

Lemma intervals_ok (c : gno_container) :
  Forall (λ i, in_width 64 i.1 ∧ in_width 64 i.2) (icl_intervals c) →
  Forall (λ i, in_width 64 i.1 ∧ in_width 64 i.2 ∧ i.1 < i.2) (icl_intervals c).
Proof.
  intros Hw. destruct (icl_canonical c) as [Hne _]. rewrite Forall_forall in *.
  intros i Hi. destruct (Hw i Hi). auto.
Qed.

Lemma process_intervals_bytes u t (c : gno_container) rest s :
  sorted2 s → Forall (λ i, in_width 64 i.1 ∧ in_width 64 i.2) (icl_intervals c) →
  in_width 64 (Z.of_nat (interval_count c)) →
  process_intervals (le_split 8 (Z.of_nat (interval_count c)) ++
      mjoin (interval_bytes <$> icl_intervals c) ++ rest) u t s =
    Ok (with_gnos u t (λ d, icl_add d c) s, rest).
Proof.
  intros Hs Hw Hn. unfold process_intervals. rewrite extract_fixed_app by done.
  cbn [or_raise mbind result_bind].
  destruct (Z.ltb_spec (2 ^ 64 - 1) (Z.of_nat (interval_count c))); [unfold in_width in *; lia|].
  cbn [raise_if mbind result_bind]. unfold interval_count.
  rewrite interval_loop_bytes; cycle 1.
  { by apply intervals_ok. }
  { rewrite length_app, length_interval_bytes. lia. }
  cbn [mbind result_bind]. do 2 f_equal. apply with_gnos_const; [done|].
  apply insert_all_add.
Qed.

Lemma tag_parser_bytes t rest :
  tag_ok t → tag_parser (tag_bytes t ++ rest) = Ok (t, rest).
Proof.
  intros Ht. unfold tag_parser. rewrite tag_bytes_extract by done.
  cbn [or_raise mbind result_bind]. destruct Ht as [Hl _].
  destruct (Z.ltb_spec (Z.of_nat tag_max_length) (Z.of_nat (length t))); [lia|].
  cbn [raise_if mbind result_bind]. rewrite Nat2Z.id.
  unfold extract_byte_span_from_byte_span_checked, extract_byte_span_from_byte_span.
  rewrite length_app. destruct (Nat.ltb_spec (length t + length rest) (length t)); [lia|].
  simpl. by rewrite take_app_length, drop_app_length.
Qed.

(** What one TSID of the encoding adds to the set being decoded. *)
Definition add_entry s (e : uuid * gnos_by_tag_container * (tag * gno_container)) : gtid_set :=
  with_gnos e.1.1 e.2.1 (λ d, icl_add d e.2.2) s.

Lemma tsid_loop_bytes tagged l rest s fuel :
  Forall (λ e : uuid * gnos_by_tag_container * (tag * gno_container),
    uuid_ok e.1.1 ∧ tag_ok e.2.1 ∧
    Forall (λ i, in_width 64 i.1 ∧ in_width 64 i.2) (icl_intervals e.2.2) ∧
    in_width 64 (Z.of_nat (interval_count e.2.2)) ∧ (tagged = false → e.2.1 = [])) l →
  sorted2 s → (length l ≤ fuel)%nat →
  tsid_loop fuel (Z.of_nat (length l)) tagged
      (mjoin ((λ e, tsid_bytes tagged e.1.1 e.2) <$> l) ++ rest) s =
    Ok (foldl add_entry s l, rest).
Proof.
  intros Hall. revert s fuel.
  induction Hall as [|[[u m] [t c]] l (Hu & Ht & Hw & Hn & Htag) _ IH]; intros s fuel Hs Hf;
    [by destruct fuel|].
  destruct fuel as [|fuel]; [simpl in Hf; lia|]. cbn [fst snd] in *.
  change (mjoin ((λ e, tsid_bytes tagged e.1.1 e.2) <$> (u, m, (t, c)) :: l))
    with (tsid_bytes tagged u (t, c) ++ mjoin ((λ e, tsid_bytes tagged e.1.1 e.2) <$> l)).
  cbn [tsid_loop]. destruct (Z.eqb_spec (Z.of_nat (length ((u, m, (t, c)) :: l))) 0);
    [simpl in *; lia|].
  unfold tsid_bytes at 1. cbn [fst snd]. rewrite <-!app_assoc.
  unfold extract_byte_array_from_byte_span_checked, extract_byte_array_from_byte_span.
  destruct Hu as [Hul _].
  match goal with |- context [(?a <? uuid_length)%nat] =>
    destruct (Nat.ltb_spec a uuid_length) as [Hbad|_] end; [rewrite length_app in Hbad; lia|].
  cbn [or_raise mbind result_bind].
  rewrite take_app_length', drop_app_length' by done.
  match goal with |- context [if tagged then tag_parser ?r else ?o] =>
    assert ((if tagged then tag_parser r else o) =
      Ok (t, le_split 8 (Z.of_nat (interval_count c)) ++
        mjoin (interval_bytes <$> icl_intervals c) ++
        mjoin ((λ e, tsid_bytes tagged e.1.1 e.2) <$> l) ++ rest)) as -> end.
  { destruct tagged; [by apply tag_parser_bytes|]. by rewrite Htag. }
  cbn [mbind result_bind].
  assert (tag_of_name t = Ok t) as -> by (by apply tag_of_name_iff).
  cbn [mbind result_bind]. rewrite process_intervals_bytes by done. cbn [mbind result_bind].
  replace (Z.of_nat (length ((u, m, (t, c)) :: l)) - 1) with (Z.of_nat (length l))
    by (simpl; lia).
  rewrite IH; [done| |simpl in Hf; lia]. by apply sorted2_with_gnos.
Qed.

Lemma add_set_entries values s : add_set values s = foldl add_entry s (entries values).
Proof.
  unfold add_set, add_entry.
  by rewrite (foldl_nested (λ s (p : uuid * gnos_by_tag_container) (q : tag * gno_container),
    with_gnos p.1 q.1 (λ c, icl_add c q.2) s) (λ p, p.2)).
Qed.

Lemma add_set_empty s : wf s → add_set s empty_set = s.
Proof.
  intros Hwf. destruct (add_set_elem s empty_set wf_empty Hwf) as [Hwf' He].
  apply wf_ext; [done..|]. intros u t x. rewrite He. split; [|tauto].
  intros [(? & ? & _)|?]; done.
Qed.

Lemma contains_tags_entries s :
  contains_tags s = false → Forall (λ e, e.2.1 = []) (entries s).
Proof.
  intros Hc. apply Forall_forall. intros [[u m] [t c]] Hin. unfold entries in Hin.
  apply list_elem_of_join in Hin as (l & Hin & Hl).
  apply list_elem_of_fmap in Hl as ([u' m'] & -> & Hp). cbn in Hin.
  apply list_elem_of_fmap in Hin as (q & Heq & Hq). simplify_eq. simpl.
  destruct (tag_is_empty t) eqn:Et; [by apply tag_is_empty_spec|].
  enough (contains_tags s = true) by congruence. unfold contains_tags.
  apply existsb_exists. exists (u', m'). split; [by apply list_elem_of_In|].
  apply existsb_exists. exists (t, c). split; [by apply list_elem_of_In|]. simpl. by rewrite Et.
Qed.

(** Number of intervals per entry: always below 2^64 in memory. *)
Definition counts_ok s : Prop :=
  Forall (λ e, in_width 64 (Z.of_nat (interval_count e.2.2))) (entries s).

Lemma length_entries_bytes tagged l :
  Forall (λ e : uuid * gnos_by_tag_container * (tag * gno_container), uuid_ok e.1.1) l →
  (length l ≤ length (mjoin ((λ e, tsid_bytes tagged e.1.1 e.2) <$> l)))%nat.
Proof.
  induction 1 as [|[[u m] q] l [Hu _] _ IH]; [simpl; lia|].
  change (mjoin ((λ e, tsid_bytes tagged e.1.1 e.2) <$> (u, m, q) :: l))
    with (tsid_bytes tagged u q ++ mjoin ((λ e, tsid_bytes tagged e.1.1 e.2) <$> l)).
  rewrite length_app. unfold tsid_bytes at 1. rewrite length_app. cbn [fst length] in *.
  unfold uuid_length in *. lia.
Qed.

Lemma decode_encoded s :
  wf s → keys_ok s → tsid_count_ok s → counts_ok s → decode (encoded s) = Ok s.
Proof.
  intros Hwf Hk Hn Hc. unfold decode, encoded, body_bytes, tsid_count_ok in *.
  rewrite extract_fixed_app by
    (unfold header_value, in_width; case_match; simpl in *; lia).
  cbn [or_raise mbind result_bind]. rewrite header_parser_ok by lia.
  cbn [mbind result_bind].
  rewrite <-(app_nil_r (mjoin ((λ e, tsid_bytes (contains_tags s) e.1.1 e.2) <$> entries s))).
  pose proof (entries_ok s Hk) as Hke. rewrite tsid_loop_bytes; cycle 1.
  - apply Forall_forall. intros e He. unfold counts_ok in Hc. rewrite Forall_forall in Hc, Hke.
    destruct (Hke e He) as (? & ? & ?). split_and!; auto. intros Ht.
    apply contains_tags_entries in Ht. rewrite Forall_forall in Ht. auto.
  - apply wf_sorted2, wf_empty.
  - rewrite app_nil_r. etrans; [apply length_entries_bytes|apply Nat.le_succ_diag_r].
    eapply Forall_impl; [done|]. naive_solver.
  - cbn [mbind result_bind]. rewrite bool_decide_eq_true_2 by done. simpl.
    by rewrite <-add_set_entries, add_set_empty.
Qed.

(** ** Termination: the fuel given to the loops is enough *)
Lemma extract_fixed_shrinks n r v r' :
  extract_fixed_int_from_byte_span_checked n r = Some (v, r') → length r = (n + length r')%nat.
Proof. intros (? & _ & ->)%extract_fixed_some. rewrite length_drop. lia. Qed.

Lemma interval_parser_shrinks r l h r' :
  interval_parser r = Ok (l, h, r') → length r = (16 + length r')%nat.
Proof.
  unfold interval_parser. intros Hp. inv_ok.
  repeat match goal with Hx : extract_fixed_int_from_byte_span_checked _ _ = _ |- _ =>
    apply extract_fixed_shrinks in Hx end. lia.
Qed.

Lemma interval_parser_fuel r : interval_parser r ≠ Err out_of_fuel.
Proof. unfold interval_parser. intros Hp. inv_err; done. Qed.

Lemma interval_loop_fuel fuel count r gnos :
  (length r < fuel)%nat → interval_loop fuel count r gnos ≠ Err out_of_fuel.
Proof.
  revert count r gnos. induction fuel as [|fuel IH]; intros count r gnos Hl; [lia|].
  cbn. case_match; [done|]. intros Hp. apply result_bind_err in Hp as [Hp|([[a b] r'] & Hp & Hrec)].
  - by apply interval_parser_fuel in Hp.
  - apply interval_parser_shrinks in Hp. by apply IH in Hrec; [|lia].
Qed.

Lemma interval_loop_shrinks fuel count r gnos c r' :
  interval_loop fuel count r gnos = Ok (c, r') → (length r' ≤ length r)%nat.
Proof.
  revert count r gnos. induction fuel as [|fuel IH]; intros count r gnos; cbn; case_match;
    intros Hp; simplify_eq; try done.
  apply result_bind_ok in Hp as ([[a b] r1] & Hp & Hrec).
  apply interval_parser_shrinks in Hp. apply IH in Hrec. lia.
Qed.

Lemma process_intervals_shrinks r u t s s' r' :
  process_intervals r u t s = Ok (s', r') → (8 + length r' ≤ length r)%nat.
Proof.
  unfold process_intervals. intros Hp. apply result_bind_ok in Hp as ([n r1] & Hp & Hk).
  apply or_raise_ok, extract_fixed_shrinks in Hp. apply result_bind_ok in Hk as (_ & _ & Hk).
  apply result_bind_ok in Hk as ([c r2] & Hloop & Hk). simplify_eq.
  apply interval_loop_shrinks in Hloop. lia.
Qed.

Lemma process_intervals_fuel r u t s : process_intervals r u t s ≠ Err out_of_fuel.
Proof.
  unfold process_intervals. intros Hp.
  apply result_bind_err in Hp as [[_ Hp]%or_raise_err|([n r1] & _ & Hk)]; [done|].
  apply result_bind_err in Hk as [[_ Hk]%raise_if_err|(_ & _ & Hk)]; [done|].
  apply result_bind_err in Hk as [Hk|([c r2] & _ & Hk)]; [|done].
  by apply interval_loop_fuel in Hk; [|lia].
Qed.

Lemma tag_parser_shrinks r t r' : tag_parser r = Ok (t, r') → (length r' ≤ length r)%nat.
Proof.
  unfold tag_parser. intros Hp. apply result_bind_ok in Hp as ([n r1] & Hv & Hk).
  apply or_raise_ok in Hv. inv_ok.
  match goal with Hx : extract_byte_span_from_byte_span_checked _ _ = _ |- _ =>
    unfold extract_byte_span_from_byte_span_checked in Hx; case_match; simplify_eq;
    unfold extract_byte_span_from_byte_span in Hx; simplify_eq end.
  rewrite length_drop. enough (length r1 ≤ length r)%nat by lia.
  clear -Hv. unfold extract_varlen_int_from_byte_span_checked in Hv.
  repeat (case_match; simplify_eq); try done;
    match goal with Hx : extract_fixed_int_from_byte_span_checked _ _ = _ |- _ =>
      apply extract_fixed_shrinks in Hx end;
    unfold extract_fixed_int_from_byte_span in *; simplify_eq; rewrite ?length_drop; lia.
Qed.

Lemma tsid_loop_fuel fuel count tagged r s :
  (length r < fuel)%nat → tsid_loop fuel count tagged r s ≠ Err out_of_fuel.
Proof.
  revert count r s. induction fuel as [|fuel IH]; intros count r s Hl; [lia|].
  cbn. case_match; [done|]. intros Hp.
  apply result_bind_err in Hp as [[_ Hp]%or_raise_err|([u r1] & Hp & Hk)]; [done|].
  apply or_raise_ok in Hp.
  unfold extract_byte_array_from_byte_span_checked, extract_byte_array_from_byte_span in Hp.
  destruct (Nat.ltb_spec (length r) uuid_length); simplify_eq.
  apply result_bind_err in Hk as [Hk|([t r2] & Ht & Hk)].
  { destruct tagged; [|done]. unfold tag_parser in Hk. inv_err; done. }
  assert (length r2 ≤ length r - uuid_length)%nat as Hr2.
  { rewrite <-length_drop. destruct tagged; [by apply tag_parser_shrinks in Ht|]. by simplify_eq. }
  apply result_bind_err in Hk as [Hk|(t' & _ & Hk)].
  { by apply tag_of_name_err in Hk as [? ?]. }
  apply result_bind_err in Hk as [Hk|([s' r3] & Hk & Hrec)]; [by apply process_intervals_fuel in Hk|].
  apply process_intervals_shrinks in Hk. apply IH in Hrec; [done|]. unfold uuid_length in *. lia.
Qed.

(** the decoder terminates within its bounds.  Whatever the input, including a
    header that announces 2^56 entries, the loops of the decoding constructor end
    (each iteration consumes input): the fuel of the model is never exhausted. *)
Theorem decode_enough_fuel portion : decode portion ≠ Err out_of_fuel.
Proof.
  unfold decode. intros Hp.
  apply result_bind_err in Hp as [[_ Hp]%or_raise_err|([h r] & _ & Hk)]; [done|].
  apply result_bind_err in Hk as [Hk|([tagged n] & _ & Hk)].
  { unfold header_parser in Hk. inv_err; done. }
  apply result_bind_err in Hk as [Hk|([s r'] & _ & Hk)]; [by apply tsid_loop_fuel in Hk; [|lia]|].
  by inv_err.
Qed.

(** C33: round trip of the binary encoding.  For a set over valid UUIDs and tags,
    [encode_to] fills a buffer of exactly [calculate_encoded_size] bytes, without
    running past its end, and the decoding constructor gives the same object
    back. *)
Theorem encode_decode_roundtrip s buffer :
  wf s → keys_ok s → tsid_count_ok s → counts_ok s →
  Z.of_nat (length buffer) = calculate_encoded_size s →
  ∃ remainder, encode_to s (span_of buffer) = Ok remainder ∧
    span_size remainder = 0%nat ∧
    Z.of_nat (length (sp_store remainder)) = calculate_encoded_size s ∧
    decode (sp_store remainder) = Ok s.
Proof.
  intros Hwf Hk Hn Hc Hl. rewrite calculate_encoded_size_spec in * by done.
  assert (length (encoded s) = length buffer) as Hl' by lia.
  exists (write_bytes (encoded s) (span_of buffer)).
  assert (span_ok (span_of buffer)) by (unfold span_ok; simpl; lia).
  assert (span_size (span_of buffer) = length buffer) by (unfold span_size; simpl; lia).
  rewrite encode_to_ok by (done || lia). split; [done|].
  rewrite span_size_write by (done || lia).
  rewrite write_bytes_exact, decode_encoded by done. split_and!; [lia | lia | done].
Qed.
End encode_theorem.

Module EncodingExamples.
Import IntervalList UuidModel GtidSetExamples.

Lemma encode_decode_roundtrip_witness :
  ∃ remainder, encode_to sample_set (span_of (replicate 48 0)) = Ok remainder ∧
    sp_store remainder =
      [1; 0; 0; 0; 0; 0; 0; 0] ++ sample_uuid ++ [1; 0; 0; 0; 0; 0; 0; 0] ++
      [1; 0; 0; 0; 0; 0; 0; 0] ++ [6; 0; 0; 0; 0; 0; 0; 0] ∧
    decode (sp_store remainder) = Ok sample_set.
Proof.
  destruct (encode_decode_roundtrip sample_set (replicate 48 0)) as (r & Hr & _ & _ & Hd).
  - apply sample_set_wf.
  - repeat constructor; by vm_compute.
  - by vm_compute.
  - repeat constructor; by vm_compute.
  - by vm_compute.
  - exists r. split; [done|]. split; [|done].
    enough (Hok : match encode_to sample_set (span_of (replicate 48 0)) with
      | Ok r => sp_store r = [1; 0; 0; 0; 0; 0; 0; 0] ++ sample_uuid ++ [1; 0; 0; 0; 0; 0; 0; 0] ++
          [1; 0; 0; 0; 0; 0; 0; 0] ++ [6; 0; 0; 0; 0; 0; 0; 0]
      | Err _ => False end) by (rewrite Hr in Hok; exact Hok).
    vm_compute. reflexivity.
Defined.
End EncodingExamples.

(** the decoder accepts an entry with no intervals (and does not check the UUID):
    the object it builds from such input is not empty but contains no GTID, which
    breaks the invariant of the class and, with it, [is_empty] and [operator==]. *)
Theorem decode_accepts_empty_entry `{IntervalSetLaws} `{BoostUuidLaws} :
  ∃ s, decode ([1; 0; 0; 0; 0; 0; 0; 0] ++ replicate 16 0 ++ replicate 8 0) = Ok s ∧
    is_empty s = false ∧ ∀ u t x, ¬ elem s u t x.
Proof.
  eexists. split; [reflexivity|]. split; [done|]. intros u t x (c & Hc & Hx).
  unfold find_gnos in Hc. simpl in Hc. repeat case_match; simplify_eq. simpl in Hc.
  repeat case_match; simplify_eq. by apply icl_in_empty in Hx.
Qed.
