(* ===== verification/GtidSetText.v ===== *)
(** * The text of GTID sets

    Models the class [gtid_set_parser], the parsing constructor
    [gtid_set(std::string_view)] and [gtid_set::str] of
    src/src/binsrv/gtids/gtid_set.cpp, over the character parsers of
    src/src/util/bnf_parser_helpers.hpp.

    A [std::string_view &remainder] is the list of its characters; a parser
    returns what it parsed and the new remainder. *)

From Stdlib Require Import Sorting.Sorted.
From S2P Require Import Prelude ByteSpan OrderedMap IntervalSet Gtid GtidSet GtidSetEncoding.

Local Open Scope Z_scope.

(** ** bnf_parser_helpers.hpp *)
Section bnf.
Implicit Types (remainder : list Z) (expected_character : Z) (predicate : Z → bool).

Definition check_character remainder expected_character : bool :=
  match remainder with
  | [] => false
  | c :: _ => c =? expected_character
  end.

Definition parse_character_ex remainder expected_character : option (Z * list Z) :=
  if negb (check_character remainder expected_character) then None
  else Some (expected_character, drop 1 remainder).

Definition parse_character remainder expected_character : result (Z * list Z) :=
  or_raise (parse_character_ex remainder expected_character)
    (invalid_argument "character does not match the expected one").

Definition check_character_predicate remainder predicate : bool :=
  match remainder with
  | [] => false
  | c :: _ => predicate c
  end.

Definition parse_character_predicate_ex remainder predicate : option (Z * list Z) :=
  match remainder with
  | c :: remainder => if predicate c then Some (c, remainder) else None
  | [] => None
  end.

Definition parse_character_predicate remainder predicate : result (Z * list Z) :=
  or_raise (parse_character_predicate_ex remainder predicate)
    (invalid_argument "character does not satisfy the specified predicate").
End bnf.

(** ** gtid_set_parser *)
Definition uuid_separator : Z := 44.            (* ',' *)
Definition uuid_separator_whitespace : Z := 32. (* ' ' *)
Definition interval_separator : Z := 45.        (* '-' *)

(** [static_cast<T>(static_cast<T>(to_unsigned(character - base)) + shift)] for a
    [T] of [w] bits; the difference is computed in [int]. *)
Definition char_to_value (w character base shift : Z) : Z :=
  wrap w (wrap w (wrap 32 (character - base)) + shift).

Definition parse_hexadecimal (remainder : list Z) : result (Z * list Z) :=
  '(character, remainder) ← parse_character_predicate remainder isxdigit;
  if 97 <=? character then Ok (char_to_value 8 character 97 10, remainder)
  else if 65 <=? character then Ok (char_to_value 8 character 65 10, remainder)
  else Ok (char_to_value 8 character 48 0, remainder).

Definition parse_hexadecimal_pair (remainder : list Z) : result (Z * list Z) :=
  '(result, remainder) ← parse_hexadecimal remainder;
  let result := u8 (Z.shiftl result 4) in
  '(digit, remainder) ← parse_hexadecimal remainder;
  Ok (Z.lor result digit, remainder).

(** the lambda [parse_group] *)
Fixpoint parse_group (count : nat) (remainder : list Z) : result (list Z * list Z) :=
  match count with
  | O => Ok ([], remainder)
  | S count =>
      '(b, remainder) ← parse_hexadecimal_pair remainder;
      '(bs, remainder) ← parse_group count remainder;
      Ok (b :: bs, remainder)
  end.

(** the [while] loop over the remaining groups *)
Fixpoint parse_groups (sizes : list nat) (remainder : list Z) : result (list Z * list Z) :=
  match sizes with
  | [] => Ok ([], remainder)
  | n :: sizes =>
      '(_, remainder) ← parse_character remainder group_separator;
      '(group, remainder) ← parse_group n remainder;
      '(groups, remainder) ← parse_groups sizes remainder;
      Ok (group ++ groups, remainder)
  end.

Definition parse_uuid (remainder : list Z) : result (uuid * list Z) :=
  '(group, remainder) ← parse_group 4 remainder;
  '(groups, remainder) ← parse_groups [2; 2; 2; 6]%nat remainder;
  Ok (group ++ groups, remainder).

Fixpoint parse_tag_loop (buffer remainder : list Z) : list Z * list Z :=
  match remainder with
  | c :: rest =>
      if (length buffer <? tag_max_length)%nat && tag_other_ok c
      then parse_tag_loop (buffer ++ [c]) rest
      else (buffer, remainder)
  | [] => (buffer, [])
  end.

Definition parse_tag (remainder : list Z) : result (tag * list Z) :=
  '(tag_character, remainder) ← parse_character_predicate remainder tag_first_ok;
  let '(buffer, remainder) := parse_tag_loop [tag_character] remainder in
  t ← tag_of_name buffer;
  Ok (t, remainder).

Definition gno_step (result digit : Z) : Z :=
  u64 (u64 (result * 10) + char_to_value 64 digit 48 0).

Fixpoint parse_gno_loop (result : Z) (remainder : list Z) : Z * list Z :=
  match remainder with
  | digit :: rest =>
      if isdigit digit then parse_gno_loop (gno_step result digit) rest
      else (result, remainder)
  | [] => (result, [])
  end.

Definition parse_gno (remainder : list Z) : result (Z * list Z) :=
  '(digit, remainder) ← parse_character_predicate remainder isdigit;
  Ok (parse_gno_loop (u64 (0 + char_to_value 64 digit 48 0)) remainder).

Fixpoint parse_space (remainder : list Z) : list Z :=
  match remainder with
  | c :: rest => if isspace c then parse_space rest else remainder
  | [] => []
  end.

Section parser.
Context `{IntervalSet} `{BoostUuid}.

(** the parser object: the set being built and the current UUID and tag *)
Record parser := mk_parser {
  result_gtids : gtid_set;
  current_uuid : uuid;
  current_tag : tag
}.
Definition set_result (s : gtid_set) (p : parser) : parser :=
  mk_parser s (current_uuid p) (current_tag p).
Definition set_tag (t : tag) (p : parser) : parser :=
  mk_parser (result_gtids p) (current_uuid p) t.

Definition parse_optionally_tagged_interval (p : parser) (remainder : list Z)
    : result (parser * list Z) :=
  '(p, remainder) ←
    (if negb (check_character_predicate remainder isdigit) then
       '(t, remainder) ← parse_tag remainder;
       '(_, remainder) ← parse_character remainder component_separator;
       Ok (set_tag t p, remainder)
     else Ok (p, remainder));
  '(gno_lower, remainder) ← parse_gno remainder;
  match parse_character_ex remainder interval_separator with
  | Some (_, remainder) =>
      '(gno_upper, remainder) ← parse_gno remainder;
      s ← add_interval (current_uuid p) (current_tag p) gno_lower gno_upper (result_gtids p);
      Ok (set_result s p, remainder)
  | None =>
      s ← add_gno (current_uuid p) (current_tag p) gno_lower (result_gtids p);
      Ok (set_result s p, remainder)
  end.

(** Every iteration of the two loops consumes a separator: the length of the
    remainder bounds their number. *)
Fixpoint tagged_intervals_loop (fuel : nat) (p : parser) (remainder : list Z)
    : result (parser * list Z) :=
  match parse_character_ex remainder component_separator with
  | None => Ok (p, remainder)
  | Some (_, remainder) =>
      match fuel with
      | O => Err out_of_fuel
      | S fuel =>
          '(p, remainder) ← parse_optionally_tagged_interval p remainder;
          tagged_intervals_loop fuel p remainder
      end
  end.

Definition parse_optionally_tagged_intervals (p : parser) (remainder : list Z)
    : result (parser * list Z) :=
  '(p, remainder) ← parse_optionally_tagged_interval p remainder;
  tagged_intervals_loop (length remainder) p remainder.

Definition parse_uuid_set (p : parser) (remainder : list Z) : result (parser * list Z) :=
  '(u, remainder) ← parse_uuid remainder;
  let p := mk_parser (result_gtids p) u [] in
  '(_, remainder) ← parse_character remainder component_separator;
  parse_optionally_tagged_intervals p remainder.

Fixpoint gtid_set_loop (fuel : nat) (p : parser) (remainder : list Z)
    : result (parser * list Z) :=
  match parse_character_ex remainder uuid_separator with
  | None => Ok (p, remainder)
  | Some (_, remainder) =>
      match fuel with
      | O => Err out_of_fuel
      | S fuel =>
          let remainder := parse_space remainder in
          '(p, remainder) ← parse_uuid_set p remainder;
          gtid_set_loop fuel p remainder
      end
  end.

Definition parse_gtid_set (p : parser) (remainder : list Z) : result (parser * list Z) :=
  '(p, remainder) ← parse_uuid_set p remainder;
  gtid_set_loop (length remainder) p remainder.

(** [gtid_set_parser::parse]: what is left of the text is not looked at. *)
Definition parser_parse (readable_value : list Z) (s : gtid_set) : result gtid_set :=
  '(p, _) ← parse_gtid_set (mk_parser s (replicate uuid_length 0) []) readable_value;
  Ok (result_gtids p).

(** [gtid_set(std::string_view value)] *)
Definition gtid_set_of_string (value : list Z) : result gtid_set :=
  match value with
  | [] => Ok empty_set
  | _ =>
      match parser_parse value empty_set with
      | Ok s => Ok s
      | Err _ => Err (invalid_argument "cannot parse GTID set")
      end
  end.

(** ** Printing *)

(** the lambda [gno_container_printer] *)
Definition print_interval (i : Z * Z) : list Z :=
  let lower := i.1 in
  let upper := u64 (i.2 - 1) in
  component_separator :: to_string lower ++
  (if negb (upper =? lower) then interval_separator :: to_string upper else []).
Definition print_gnos (gnos : gno_container) : list Z :=
  mjoin (print_interval <$> icl_intervals gnos).

Definition print_tagged (q : tag * gno_container) : list Z :=
  (if negb (tag_is_empty q.1) then component_separator :: q.1 else []) ++ print_gnos q.2.
Definition print_uuid (p : uuid * gnos_by_tag_container) : list Z :=
  uuid_str p.1 ++ mjoin (print_tagged <$> p.2).

Definition str (s : gtid_set) : list Z :=
  match s with
  | [] => []
  | p :: s =>
      print_uuid p ++
      mjoin ((λ p, uuid_separator :: uuid_separator_whitespace :: print_uuid p) <$> s)
  end.
End parser.

(** ** Parsing what was printed *)
Section parse_printed.
Lemma hex_digit_parse v rest :
  0 ≤ v < 16 → parse_hexadecimal (hex_digit v :: rest) = Ok (v, rest).
Proof.
  intros Hv. unfold parse_hexadecimal, parse_character_predicate, hex_digit.
  assert (v = 0 ∨ v = 1 ∨ v = 2 ∨ v = 3 ∨ v = 4 ∨ v = 5 ∨ v = 6 ∨ v = 7 ∨ v = 8 ∨ v = 9 ∨
    v = 10 ∨ v = 11 ∨ v = 12 ∨ v = 13 ∨ v = 14 ∨ v = 15) as Hc by lia.
  destruct_or! Hc; subst v; reflexivity.
Qed.

Lemma hex_pair_parse b rest :
  byte_ok b → parse_hexadecimal_pair (hex_pair b ++ rest) = Ok (b, rest).
Proof.
  intros [Hb0 Hb]. simpl in Hb. unfold parse_hexadecimal_pair, hex_pair. cbn [app].
  rewrite hex_digit_parse by dlia. cbn [mbind result_bind].
  rewrite hex_digit_parse by dlia. cbn [mbind result_bind]. do 2 f_equal.
  rewrite Z.shiftl_mul_pow2 by lia. rewrite wrap_small by (unfold in_width; simpl; dlia).
  change 16 with (2 ^ 4). rewrite Z.lor_comm. by apply lor_split.
Qed.

Lemma group_parse n bs rest :
  length bs = n → bytes_ok bs →
  parse_group n (mjoin (hex_pair <$> bs) ++ rest) = Ok (bs, rest).
Proof.
  intros Hl Hb. revert n Hl. induction Hb as [|b bs Hb _ IH]; intros n <-; [done|].
  cbn [length parse_group].
  change (mjoin (hex_pair <$> b :: bs)) with (hex_pair b ++ mjoin (hex_pair <$> bs)).
  rewrite <-app_assoc, hex_pair_parse by done. cbn [mbind result_bind].
  by rewrite IH.
Qed.

Lemma parse_character_same c rest : parse_character (c :: rest) c = Ok (c, rest).
Proof.
  unfold parse_character, parse_character_ex. simpl. by rewrite Z.eqb_refl, drop_0.
Qed.

Lemma parse_character_ex_same c rest : parse_character_ex (c :: rest) c = Some (c, rest).
Proof. unfold parse_character_ex. simpl. by rewrite Z.eqb_refl, drop_0. Qed.

Lemma groups_parse sizes bs rest :
  sizes ≠ [] → sum_list sizes = length bs → bytes_ok bs →
  parse_groups sizes (group_separator :: uuid_groups sizes bs ++ rest) = Ok (bs, rest).
Proof.
  revert bs. induction sizes as [|n sizes IH]; intros bs Hne Hl Hb; [done|].
  simpl in Hl. cbn [parse_groups]. rewrite parse_character_same. cbn [mbind result_bind].
  assert (length (take n bs) = n) as Hn by (rewrite length_take; lia).
  destruct sizes as [|n' sizes].
  - cbn [uuid_groups]. rewrite group_parse by (done || by apply Forall_take).
    cbn. rewrite app_nil_r, take_ge; [done|]. simpl in Hl. lia.
  - set (l := n' :: sizes) in *.
    change (uuid_groups (n :: l) bs) with (mjoin (hex_pair <$> take n bs) ++
      group_separator :: uuid_groups l (drop n bs)).
    rewrite <-app_assoc, group_parse by (done || by apply Forall_take).
    cbn [mbind result_bind app]. rewrite IH; [|done| |by apply Forall_drop].
    + cbn. by rewrite take_drop.
    + rewrite length_drop. lia.
Qed.

(** The 16 bytes of a UUID, group by group. *)
Lemma uuid_parse u rest : uuid_ok u → parse_uuid (uuid_text u ++ rest) = Ok (u, rest).
Proof.
  intros [Hl Hb]. unfold uuid_length in Hl. unfold parse_uuid, uuid_text.
  change (uuid_groups [4; 2; 2; 2; 6]%nat u) with (mjoin (hex_pair <$> take 4 u) ++
    group_separator :: uuid_groups [2; 2; 2; 6]%nat (drop 4 u)).
  rewrite <-app_assoc, group_parse by (rewrite ?length_take; lia || by apply Forall_take).
  cbn [mbind result_bind app]. rewrite groups_parse; [|done| |by apply Forall_drop].
  - cbn [mbind result_bind]. by rewrite take_drop.
  - rewrite length_drop, Hl. done.
Qed.

(** A character that ends a tag or a number. *)
Definition stops (predicate : Z → bool) (rest : list Z) : Prop :=
  check_character_predicate rest predicate = false.

Lemma tag_loop_parse t rest buffer :
  Forall (λ c, tag_other_ok c = true) t → (length buffer + length t ≤ tag_max_length)%nat →
  stops tag_other_ok rest → parse_tag_loop buffer (t ++ rest) = (buffer ++ t, rest).
Proof.
  intros Ht. revert buffer. induction Ht as [|c t Hc _ IH]; intros buffer Hl Hr.
  - rewrite app_nil_r. cbn [app]. destruct rest as [|c rest]; [done|]. cbn in *.
    unfold stops in Hr. simpl in Hr. by rewrite Hr, andb_false_r.
  - cbn [app parse_tag_loop]. simpl in Hl. rewrite Hc.
    destruct (Nat.ltb_spec (length buffer) tag_max_length); [|lia]. cbn [andb].
    rewrite IH; [by rewrite <-app_assoc | rewrite length_app; simpl; lia | done].
Qed.

Lemma tag_parse t rest :
  tag_ok t → t ≠ [] → stops tag_other_ok rest → parse_tag (t ++ rest) = Ok (t, rest).
Proof.
  intros Ht Hne Hr. destruct t as [|c t]; [done|]. pose proof Ht as [Hl [Hc Ho]].
  unfold parse_tag, parse_character_predicate. cbn [app parse_character_predicate_ex].
  rewrite Hc. cbn [or_raise mbind result_bind].
  rewrite tag_loop_parse by (done || (simpl in *; lia)). cbn [app].
  assert (tag_of_name (c :: t) = Ok (c :: t)) as -> by (by apply tag_of_name_iff). done.
Qed.

Lemma digit_value d : isdigit d = true → char_to_value 64 d 48 0 = d - 48.
Proof.
  unfold isdigit. intros Hd. to_prop. unfold char_to_value.
  rewrite (wrap_small 32) by (unfold in_width; simpl; lia).
  rewrite Z.add_0_r. by rewrite !(wrap_small 64 (d - 48)) by (unfold in_width; simpl; lia).
Qed.

(** The digits accumulate modulo 2^64. *)
Lemma gno_loop_parse ds rest a :
  Forall (λ d, isdigit d = true) ds → stops isdigit rest →
  parse_gno_loop (u64 a) (ds ++ rest) = (u64 (foldl dec_step a ds), rest).
Proof.
  intros Hd Hr. revert a. induction Hd as [|d ds Hd _ IH]; intros a.
  - cbn [app foldl]. destruct rest as [|c rest]; [done|]. cbn. unfold stops in Hr.
    simpl in Hr. by rewrite Hr.
  - cbn [app parse_gno_loop foldl]. rewrite Hd. rewrite <-IH. f_equal.
    unfold gno_step, dec_step, wrap. rewrite digit_value by done.
    rewrite <-(Z.add_mod_idemp_l (a * 10)) by done.
    rewrite <-(Z.mul_mod_idemp_l a 10) by done. by rewrite Z.add_mod_idemp_l by done.
Qed.

Lemma gno_parse v rest :
  in_width 64 v → stops isdigit rest → parse_gno (to_string v ++ rest) = Ok (v, rest).
Proof.
  intros Hv Hr. destruct (to_string_spec v Hv) as (Hne & Hd & Hval).
  destruct (to_string v) as [|d ds]; [done|]. apply Forall_cons in Hd as [Hd Hds].
  unfold parse_gno, parse_character_predicate. cbn [app parse_character_predicate_ex].
  rewrite Hd. cbn [or_raise mbind result_bind]. f_equal.
  rewrite digit_value by done. rewrite gno_loop_parse by done.
  replace (0 + (d - 48)) with (dec_step 0 d) by (unfold dec_step; lia).
  change (foldl dec_step (dec_step 0 d) ds) with (foldl dec_step 0 (d :: ds)).
  by rewrite Hval, wrap_small.
Qed.
End parse_printed.

(** ** The printed form as a list of items

    Between the UUIDs, the text is a sequence of intervals, each introduced by a
    colon; the first interval of a tagged entry carries the tag. *)
Section items.
Context `{IntervalSetLaws} `{BoostUuidLaws}.
Implicit Types (s : gtid_set) (u : uuid) (t : tag) (c : gno_container).

Definition item : Type := option tag * (Z * Z).
Definition interval_body (i : Z * Z) : list Z :=
  to_string i.1 ++
  (if negb (i.2 - 1 =? i.1) then interval_separator :: to_string (i.2 - 1) else []).
Definition item_body (it : item) : list Z :=
  match it.1 with
  | Some t => t ++ component_separator :: interval_body it.2
  | None => interval_body it.2
  end.
Definition print_item (it : item) : list Z := component_separator :: item_body it.
Definition items_of (q : tag * gno_container) : list item :=
  match icl_intervals q.2 with
  | [] => []
  | i :: l => (if tag_is_empty q.1 then None else Some q.1, i) :: (pair None <$> l)
  end.

(** Intervals of transaction numbers that a parsed set can hold. *)
Definition interval_ok (i : Z * Z) : Prop := min_gno ≤ i.1 ∧ i.1 < i.2 ∧ i.2 ≤ max_gno + 1.
Definition item_ok (it : item) : Prop :=
  match it.1 with Some t => tag_ok t ∧ t ≠ [] | None => True end ∧ interval_ok it.2.
(** What may follow an item in the text. *)
Definition item_end (rest : list Z) : Prop :=
  stops isdigit rest ∧ parse_character_ex rest interval_separator = None.

Lemma interval_ok_width i :
  interval_ok i → in_width 64 i.1 ∧ in_width 64 i.2 ∧ in_width 64 (i.2 - 1).
Proof.
  unfold interval_ok, min_gno, max_gno, in_width. intros (? & ? & ?). simpl in *. lia.
Qed.

Lemma print_interval_ok i :
  interval_ok i → print_interval i = component_separator :: interval_body i.
Proof.
  intros (_ & _ & Hi)%interval_ok_width. unfold print_interval, interval_body.
  by rewrite (wrap_small _ (i.2 - 1)).
Qed.

Definition apply_item (p : parser) (it : item) : parser :=
  let t := default (current_tag p) it.1 in
  mk_parser (with_gnos (current_uuid p) t (icl_insert it.2.1 it.2.2) (result_gtids p))
    (current_uuid p) t.

(** The bounds of the interval, once the tag is dealt with. *)
Lemma interval_body_parse p i rest :
  uuid_is_empty (current_uuid p) = false → interval_ok i → item_end rest →
  ('(gno_lower, remainder) ← parse_gno (interval_body i ++ rest);
   match parse_character_ex remainder interval_separator with
   | Some (_, remainder) =>
       '(gno_upper, remainder) ← parse_gno remainder;
       s ← add_interval (current_uuid p) (current_tag p) gno_lower gno_upper (result_gtids p);
       Ok (set_result s p, remainder)
   | None =>
       s ← add_gno (current_uuid p) (current_tag p) gno_lower (result_gtids p);
       Ok (set_result s p, remainder)
   end) = Ok (apply_item p (None, i), rest).
Proof.
  intros Hu Hi Hr. destruct Hr as [Hd Hx].
  destruct (interval_ok_width i Hi) as (Hw1 & Hw2 & Hw3). destruct i as [l h].
  unfold interval_body, apply_item, interval_ok in *. cbn [fst snd default] in *.
  destruct Hi as (Hl & Hlh & Hh).
  assert (validate_components (current_uuid p) (current_tag p) l = Ok ()) as Hv.
  { apply validate_components_ok. split; [done|]. lia. }
  assert (u64 (h - 1 + 1) = h) as Hwr by (rewrite Z.sub_add; by apply wrap_small).
  rewrite <-app_assoc. destruct (Z.eqb_spec (h - 1) l) as [<-|Hne]; cbn [negb app].
  - rewrite gno_parse by done. cbn [mbind result_bind]. rewrite Hx.
    unfold add_gno. rewrite Hv. cbn [mbind result_bind]. by rewrite Hwr.
  - rewrite gno_parse by done. cbn [mbind result_bind].
    rewrite parse_character_ex_same. rewrite gno_parse by done. cbn [mbind result_bind].
    unfold add_interval. rewrite Hv. cbn [mbind result_bind].
    destruct (Z.eqb_spec (h - 1) l); [done|].
    destruct (Z.ltb_spec (h - 1) l); [lia|]. cbn [raise_if mbind result_bind].
    by rewrite Hwr.
Qed.

Lemma interval_body_digit i rest :
  interval_ok i → check_character_predicate (interval_body i ++ rest) isdigit = true.
Proof.
  intros (Hw & _ & _)%interval_ok_width. unfold interval_body.
  destruct (to_string_spec _ Hw) as (Hne & Hd & _).
  destruct (to_string i.1) as [|d ds]; [done|]. by apply Forall_cons in Hd as [Hd _].
Qed.

Lemma tag_first_not_digit ch : tag_first_ok ch = true → isdigit ch = false.
Proof.
  unfold tag_first_ok, isalpha, isupper, islower, isdigit. intros Hc.
  destruct (Z.leb_spec 48 ch), (Z.leb_spec ch 57); to_prop; try done. lia.
Qed.

Lemma item_parse p it rest :
  uuid_is_empty (current_uuid p) = false → item_ok it → item_end rest →
  parse_optionally_tagged_interval p (item_body it ++ rest) = Ok (apply_item p it, rest).
Proof.
  intros Hu [Ht Hi] Hr. unfold parse_optionally_tagged_interval. destruct it as [[t|] i];
    unfold item_body; cbn [fst snd] in *.
  - destruct Ht as [Ht Hne]. rewrite <-app_assoc.
    assert (check_character_predicate (t ++ (component_separator :: interval_body i) ++ rest)
      isdigit = false) as ->.
    { destruct t as [|c t]; [done|]. destruct Ht as [_ [Hc _]]. by apply tag_first_not_digit. }
    cbn [negb]. rewrite tag_parse by done. cbn [mbind result_bind app].
    rewrite parse_character_same. cbn [mbind result_bind].
    by rewrite (interval_body_parse (set_tag t p)).
  - rewrite interval_body_digit by done. cbn [negb mbind result_bind].
    by apply interval_body_parse.
Qed.

(** ** The loop over the items of a UUID *)
Definition set_end (rest : list Z) : Prop :=
  item_end rest ∧ parse_character_ex rest component_separator = None.

Lemma items_end items rest :
  set_end rest → item_end (mjoin (print_item <$> items) ++ rest).
Proof.
  intros [Hr _]. by destruct items as [|it items].
Qed.

Lemma items_loop fuel p items rest :
  uuid_is_empty (current_uuid p) = false → Forall item_ok items → set_end rest →
  (length items ≤ fuel)%nat →
  tagged_intervals_loop fuel p (mjoin (print_item <$> items) ++ rest) =
    Ok (foldl apply_item p items, rest).
Proof.
  intros Hu Hall Hr. revert fuel p Hu.
  induction Hall as [|it items Hit _ IH]; intros fuel p Hu Hf.
  - cbn [foldl fmap list_fmap mjoin list_join app]. destruct Hr as [_ Hr].
    destruct fuel; cbn [tagged_intervals_loop]; by rewrite Hr.
  - destruct fuel as [|fuel]; [simpl in Hf; lia|].
    change (mjoin (print_item <$> it :: items) ++ rest) with
      (component_separator :: (item_body it ++ mjoin (print_item <$> items)) ++ rest).
    cbn [tagged_intervals_loop]. rewrite parse_character_ex_same, <-app_assoc.
    rewrite item_parse by (done || by apply items_end). cbn [mbind result_bind foldl].
    apply IH; [done|]. simpl in Hf. lia.
Qed.

Lemma length_print_items items :
  (length items ≤ length (mjoin (print_item <$> items)))%nat.
Proof.
  induction items as [|it items IH]; [simpl; lia|].
  change (mjoin (print_item <$> it :: items)) with
    (print_item it ++ mjoin (print_item <$> items)).
  rewrite length_app. simpl. lia.
Qed.

(** ** What the items of a UUID add to the set *)
Lemma plain_items u t l s :
  foldl apply_item (mk_parser s u t) (pair None <$> l) =
    mk_parser (match l with [] => s | _ => with_gnos u t (insert_all l) s end) u t.
Proof.
  revert s. induction l as [|i l IH]; intros s; [done|].
  change (foldl apply_item (mk_parser s u t) (pair None <$> i :: l)) with
    (foldl apply_item (mk_parser (with_gnos u t (icl_insert i.1 i.2) s) u t) (pair None <$> l)).
  rewrite IH. destruct l as [|j l]; [done|]. by rewrite with_gnos_compose.
Qed.

Lemma entry_items u t0 q s :
  sorted2 s → icl_is_empty q.2 = false → (q.1 = [] → t0 = []) →
  foldl apply_item (mk_parser s u t0) (items_of q) =
    mk_parser (with_gnos u q.1 (λ d, icl_add d q.2) s) u q.1.
Proof.
  destruct q as [t c]. cbn [fst snd]. intros Hs Hc Ht.
  assert (with_gnos u t (λ d, icl_add d c) s = with_gnos u t (insert_all (icl_intervals c)) s)
    as -> by (apply with_gnos_const; [done|]; by rewrite insert_all_add).
  unfold items_of. cbn [fst snd]. unfold icl_is_empty in Hc.
  destruct (icl_intervals c) as [|i l]; [done|]. cbn [foldl].
  match goal with |- foldl _ ?p _ = _ =>
    assert (p = mk_parser (with_gnos u t (icl_insert i.1 i.2) s) u t) as -> end.
  { destruct (tag_is_empty t) eqn:E; [|done]. apply tag_is_empty_spec in E. by rewrite E, Ht. }
  rewrite plain_items. destruct l; [done|]. by rewrite with_gnos_compose.
Qed.

(** The tag of an entry holds until the next tag: only the first entry of a UUID,
    which is the least in the order of the map, may have the empty one. *)
Lemma entries_items u t0 (m : gnos_by_tag_container) s :
  sorted2 s → map_sorted m → Forall (λ q, icl_is_empty q.2 = false) m →
  (t0 = [] ∨ Forall (λ q, q.1 ≠ []) m) →
  result_gtids (foldl apply_item (mk_parser s u t0) (mjoin (items_of <$> m))) =
    foldl (λ s q, with_gnos u q.1 (λ d, icl_add d q.2) s) s m.
Proof.
  revert t0 s. induction m as [|[t c] m IH]; intros t0 s Hs Hm Hne Ht; [done|].
  apply Forall_cons in Hne as [Hc Hne]. apply map_sorted_cons in Hm as [Hlt Hm].
  change (mjoin (items_of <$> (t, c) :: m)) with (items_of (t, c) ++ mjoin (items_of <$> m)).
  rewrite foldl_app, entry_items; [|done..|].
  - cbn [foldl fst snd]. apply IH; [by apply sorted2_with_gnos | done..|]. right.
    eapply Forall_impl; [exact Hlt|]. intros [t' ?] Hk. cbn in *. intros ->. by destruct t.
  - cbn. intros ->. destruct Ht as [?|Ht]; [done|]. by apply Forall_cons in Ht as [? _].
Qed.

(** ** Sets that have a text *)
Definition text_ok s : Prop :=
  Forall (λ p, uuid_ok p.1 ∧ uuid_is_empty p.1 = false ∧
    Forall (λ q, tag_ok q.1 ∧ Forall interval_ok (icl_intervals q.2)) p.2) s.

Lemma items_of_ok q :
  tag_ok q.1 → Forall interval_ok (icl_intervals q.2) → Forall item_ok (items_of q).
Proof.
  destruct q as [t c]. unfold items_of. cbn [fst snd]. intros Ht Hi.
  destruct (icl_intervals c) as [|i l]; [done|]. apply Forall_cons in Hi as [Hi Hl].
  constructor.
  - split; [|done]. cbn. destruct (tag_is_empty t) eqn:E; [done|]. split; [done|].
    intros ->. by destruct (proj2 (tag_is_empty_spec [])).
  - apply Forall_fmap. eapply Forall_impl; [done|]. intros j Hj. by split.
Qed.

Lemma print_tagged_items q :
  icl_is_empty q.2 = false → Forall interval_ok (icl_intervals q.2) →
  print_tagged q = mjoin (print_item <$> items_of q).
Proof.
  destruct q as [t c]. unfold print_tagged, print_gnos, items_of, icl_is_empty. cbn [fst snd].
  intros Hc Hi. destruct (icl_intervals c) as [|i l]; [done|].
  apply Forall_cons in Hi as [Hi Hl].
  assert (mjoin (print_interval <$> l) = mjoin (print_item <$> (pair None <$> l))) as Hr.
  { clear Hc. induction Hl as [|j l Hj _ IH]; [done|].
    change (print_interval j ++ mjoin (print_interval <$> l) =
      print_item (None, j) ++ mjoin (print_item <$> (pair None <$> l))).
    by rewrite IH, print_interval_ok. }
  change (mjoin (print_interval <$> i :: l)) with
    (print_interval i ++ mjoin (print_interval <$> l)).
  rewrite Hr, print_interval_ok by done. cbn [fmap list_fmap mjoin list_join].
  destruct (tag_is_empty t); cbn [negb]; [done|].
  change (print_item (Some t, i)) with
    (component_separator :: t ++ component_separator :: interval_body i).
  cbn [app]. rewrite <-!app_assoc. done.
Qed.

(** The set after the entries of one UUID. *)
Definition add_uuid s (p : uuid * gnos_by_tag_container) : gtid_set :=
  foldl (λ s q, with_gnos p.1 q.1 (λ c, icl_add c q.2) s) s p.2.

Lemma sorted2_add_uuid s p : sorted2 s → sorted2 (add_uuid s p).
Proof.
  unfold add_uuid. generalize (p.2) as m. intros m. revert s.
  induction m as [|q m IH]; intros s Hs; [done|]. cbn. by apply IH, sorted2_with_gnos.
Qed.

Lemma print_uuid_items u (m : gnos_by_tag_container) :
  uuid_ok u → Forall (λ q, icl_is_empty q.2 = false) m →
  Forall (λ q, tag_ok q.1 ∧ Forall interval_ok (icl_intervals q.2)) m →
  print_uuid (u, m) = uuid_text u ++ mjoin (print_item <$> mjoin (items_of <$> m)) ∧
  Forall item_ok (mjoin (items_of <$> m)).
Proof.
  intros Hu Hne Hm. unfold print_uuid, uuid_str. cbn [fst snd].
  rewrite boost_uuid_to_string_spec by done.
  assert (mjoin (print_tagged <$> m) = mjoin (print_item <$> mjoin (items_of <$> m)) ∧
    Forall item_ok (mjoin (items_of <$> m))) as [-> ?]; [|done].
  induction Hm as [|q m [Ht Hi] _ IH]; [done|]. apply Forall_cons in Hne as [Hq Hne].
  destruct (IH Hne) as [IH1 IH2].
  change (mjoin (print_tagged <$> q :: m)) with (print_tagged q ++ mjoin (print_tagged <$> m)).
  change (mjoin (items_of <$> q :: m)) with (items_of q ++ mjoin (items_of <$> m)).
  rewrite fmap_app, join_app, IH1, print_tagged_items by done. split; [done|].
  apply Forall_app. split; [by apply items_of_ok | done].
Qed.

Lemma uuid_set_parse p u (m : gnos_by_tag_container) rest :
  sorted2 (result_gtids p) → uuid_ok u → uuid_is_empty u = false → m ≠ [] → inner_wf m →
  Forall (λ q, tag_ok q.1 ∧ Forall interval_ok (icl_intervals q.2)) m → set_end rest →
  ∃ p', parse_uuid_set p (print_uuid (u, m) ++ rest) = Ok (p', rest) ∧
    result_gtids p' = add_uuid (result_gtids p) (u, m).
Proof.
  intros Hs Hu Hnil Hm [Hsorted Hne] Hok Hr.
  destruct (print_uuid_items u m Hu Hne Hok) as [-> Hits].
  rewrite <-app_assoc. unfold parse_uuid_set. rewrite uuid_parse by done.
  cbn [mbind result_bind].
  assert (result_gtids (foldl apply_item (mk_parser (result_gtids p) u [])
    (mjoin (items_of <$> m))) = add_uuid (result_gtids p) (u, m)) as Hres
    by (apply entries_items; auto).
  destruct (mjoin (items_of <$> m)) as [|it its] eqn:Eits.
  { destruct m as [|[t c] m]; [done|]. exfalso. apply Forall_cons in Hne as [Hc _].
    unfold items_of, icl_is_empty in *. cbn in *. by destruct (icl_intervals c). }
  apply Forall_cons in Hits as [Hit Hits].
  change (mjoin (print_item <$> it :: its) ++ rest) with
    (component_separator :: (item_body it ++ mjoin (print_item <$> its)) ++ rest).
  rewrite parse_character_same, <-app_assoc. cbn [mbind result_bind].
  unfold parse_optionally_tagged_intervals.
  rewrite item_parse by (done || by apply items_end). cbn [mbind result_bind].
  rewrite items_loop; [|done..|].
  - eexists. split; [done|]. exact Hres.
  - rewrite length_app. pose proof (length_print_items its). lia.
Qed.

Lemma parse_space_uuid u rest : uuid_ok u →
  parse_space (uuid_separator_whitespace :: uuid_text u ++ rest) = uuid_text u ++ rest.
Proof.
  intros [Hl Hb]. destruct u as [|b u]; [done|]. apply Forall_cons in Hb as [[Hb0 Hb] _].
  unfold uuid_text. cbn -[isspace hex_pair]. cbn -[isspace Z.div Z.modulo].
  assert (∀ v, 0 ≤ v < 16 → isspace (hex_digit v) = false) as Hsp.
  { intros v Hv. unfold hex_digit, isspace. destruct (Z.ltb_spec v 10); lia. }
  rewrite Hsp; [done|]. simpl in Hb. dlia.
Qed.

Definition print_rest s : list Z :=
  mjoin ((λ p, uuid_separator :: uuid_separator_whitespace :: print_uuid p) <$> s).

Lemma print_rest_end s rest : set_end rest → set_end (print_rest s ++ rest).
Proof. intros Hr. by destruct s. Qed.

Lemma print_uuid_space p rest :
  uuid_ok p.1 →
  parse_space (uuid_separator_whitespace :: print_uuid p ++ rest) = print_uuid p ++ rest.
Proof.
  intros Hu. unfold print_uuid, uuid_str. rewrite boost_uuid_to_string_spec, <-app_assoc by done.
  by apply parse_space_uuid.
Qed.

Lemma gtid_set_loop_parse fuel p s rest :
  sorted2 (result_gtids p) → Forall (λ p, p.2 ≠ [] ∧ inner_wf p.2) s → text_ok s →
  set_end rest → parse_character_ex rest uuid_separator = None → (length s ≤ fuel)%nat →
  ∃ p', gtid_set_loop fuel p (print_rest s ++ rest) = Ok (p', rest) ∧
    result_gtids p' = foldl add_uuid (result_gtids p) s.
Proof.
  intros Hs Hwf Hok Hr Hx. revert fuel p Hs Hwf.
  induction Hok as [|[u m] s (Hu & Hnil & Hm) _ IH]; intros fuel p Hs Hwf Hf.
  - exists p. cbn [print_rest fmap list_fmap mjoin list_join app].
    destruct fuel; cbn [gtid_set_loop]; change (print_rest [] ++ rest) with rest; by rewrite Hx.
  - destruct fuel as [|fuel]; [simpl in Hf; lia|]. apply Forall_cons in Hwf as [[Hne Hi] Hwf].
    change (print_rest ((u, m) :: s) ++ rest) with (uuid_separator ::
      uuid_separator_whitespace :: (print_uuid (u, m) ++ print_rest s) ++ rest).
    cbn [gtid_set_loop]. rewrite parse_character_ex_same, <-app_assoc, print_uuid_space by done.
    destruct (uuid_set_parse p u m (print_rest s ++ rest)) as (p1 & -> & Hp1);
      try done; [by apply print_rest_end|].
    cbn [mbind result_bind foldl]. rewrite <-Hp1. apply IH; [|done|simpl in Hf; lia].
    rewrite Hp1. by apply sorted2_add_uuid.
Qed.

Lemma length_print_rest s : (length s ≤ length (print_rest s))%nat.
Proof.
  induction s as [|p s IH]; [simpl; lia|].
  change (print_rest (p :: s)) with
    (uuid_separator :: uuid_separator_whitespace :: print_uuid p ++ print_rest s).
  cbn [length]. rewrite length_app. lia.
Qed.

Lemma parse_printed s rest :
  wf s → text_ok s → s ≠ [] → set_end rest → parse_character_ex rest uuid_separator = None →
  gtid_set_of_string (str s ++ rest) = Ok s.
Proof.
  intros Hwf Hok Hne Hr Hx. pose proof (add_set_empty s Hwf) as Hadd.
  destruct Hwf as [_ Hwf]. destruct s as [|[u m] s]; [done|].
  pose proof Hok as Hok'. apply Forall_cons in Hok' as [(Hu & Hnil & Hm) Hok'].
  apply Forall_cons in Hwf as [[Hmne Hi] Hwf].
  change (str ((u, m) :: s)) with (print_uuid (u, m) ++ print_rest s). rewrite <-app_assoc.
  assert (parser_parse (print_uuid (u, m) ++ print_rest s ++ rest) empty_set =
    Ok ((u, m) :: s)) as Hp.
  { unfold parser_parse, parse_gtid_set.
    destruct (uuid_set_parse (mk_parser empty_set (replicate uuid_length 0) []) u m
      (print_rest s ++ rest)) as (p1 & -> & Hp1); try done.
    { apply wf_sorted2, wf_empty. }
    { by apply print_rest_end. }
    cbn [mbind result_bind].
    destruct (gtid_set_loop_parse (length (print_rest s ++ rest)) p1 s rest)
      as (p2 & -> & Hp2); try done.
    { rewrite Hp1. apply sorted2_add_uuid, wf_sorted2, wf_empty. }
    { rewrite length_app. pose proof (length_print_rest s). lia. }
    cbn [mbind result_bind]. f_equal. rewrite Hp2, Hp1. exact Hadd. }
  unfold gtid_set_of_string. rewrite Hp.
  destruct (print_uuid (u, m) ++ print_rest s ++ rest) eqn:E; [|done].
  unfold parser_parse, parse_gtid_set, parse_uuid_set, parse_uuid in Hp. discriminate Hp.
Qed.
End items.

(** ** Termination: the fuel given to the two loops is enough *)
Section shrinking.
Context `{IntervalSet} `{BoostUuid}.

(** [f] never returns a longer remainder than it was given. *)
Definition shrinks {A} (f : list Z → result (A * list Z)) : Prop :=
  ∀ r a r', f r = Ok (a, r') → (length r' ≤ length r)%nat.

Lemma parse_character_ex_shrinks r c x r' :
  parse_character_ex r c = Some (x, r') → length r = S (length r').
Proof.
  unfold parse_character_ex, check_character. intros Hr. destruct r as [|y r]; simpl in Hr; [done|].
  destruct (y =? c); simpl in Hr; [|done]. simplify_eq. simpl. by rewrite drop_0.
Qed.
Lemma parse_character_shrinks c : shrinks (λ r, parse_character r c).
Proof.
  intros r x r' Hr. unfold parse_character in Hr. apply or_raise_ok in Hr.
  apply parse_character_ex_shrinks in Hr. lia.
Qed.
Lemma parse_predicate_shrinks f : shrinks (λ r, parse_character_predicate r f).
Proof.
  intros r x r' Hr. unfold parse_character_predicate in Hr. apply or_raise_ok in Hr.
  destruct r as [|y r]; simpl in Hr; [done|]. destruct (f y); [|done]. simplify_eq. simpl. lia.
Qed.

Lemma parse_hexadecimal_shrinks : shrinks parse_hexadecimal.
Proof.
  intros r x r' Hr. unfold parse_hexadecimal in Hr. apply result_bind_ok in Hr as ([y r1] & Hy & Hr).
  apply parse_predicate_shrinks in Hy. repeat case_match; by simplify_eq.
Qed.
Lemma parse_hexadecimal_pair_shrinks : shrinks parse_hexadecimal_pair.
Proof.
  intros r x r' Hr. unfold parse_hexadecimal_pair in Hr.
  apply result_bind_ok in Hr as ([y r1] & Hy & Hr). apply result_bind_ok in Hr as ([z r2] & Hz & Hr).
  apply parse_hexadecimal_shrinks in Hy, Hz. simplify_eq. lia.
Qed.
Lemma parse_group_shrinks n : shrinks (parse_group n).
Proof.
  induction n as [|n IH]; intros r x r' Hr; cbn [parse_group] in Hr; inv_ok; [done|].
  match goal with Hp : parse_hexadecimal_pair _ = _, Hg : parse_group _ _ = _ |- _ =>
    apply parse_hexadecimal_pair_shrinks in Hp; apply IH in Hg end. lia.
Qed.
Lemma parse_groups_shrinks sizes : shrinks (parse_groups sizes).
Proof.
  induction sizes as [|n sizes IH]; intros r x r' Hr; cbn [parse_groups] in Hr; inv_ok; [done|].
  match goal with Hp : parse_character _ _ = _, Hg : parse_group _ _ = _,
    Hs : parse_groups _ _ = _ |- _ =>
    apply parse_character_shrinks in Hp; apply parse_group_shrinks in Hg; apply IH in Hs end. lia.
Qed.
Lemma parse_uuid_shrinks : shrinks parse_uuid.
Proof.
  intros r x r' Hr. unfold parse_uuid in Hr. inv_ok.
  match goal with Hg : parse_group _ _ = _, Hs : parse_groups _ _ = _ |- _ =>
    apply parse_group_shrinks in Hg; apply parse_groups_shrinks in Hs end. lia.
Qed.
Lemma parse_tag_loop_shrinks r b : (length (parse_tag_loop b r).2 ≤ length r)%nat.
Proof.
  revert b. induction r as [|c r IH]; intros b; simpl; [done|]. case_match; [|done].
  etrans; [apply IH|]. lia.
Qed.
Lemma parse_tag_shrinks : shrinks parse_tag.
Proof.
  intros r x r' Hr. unfold parse_tag in Hr. apply result_bind_ok in Hr as ([y r1] & Hy & Hr).
  apply parse_predicate_shrinks in Hy. pose proof (parse_tag_loop_shrinks r1 [y]) as Hl.
  destruct (parse_tag_loop [y] r1). inv_ok. simpl in Hl. lia.
Qed.
Lemma parse_gno_loop_shrinks r g : (length (parse_gno_loop g r).2 ≤ length r)%nat.
Proof.
  revert g. induction r as [|c r IH]; intros g; cbn [parse_gno_loop]; [done|].
  case_match; [|done]. etrans; [apply IH|]. simpl. lia.
Qed.
Lemma parse_gno_shrinks : shrinks parse_gno.
Proof.
  intros r x r' Hr. unfold parse_gno in Hr. apply result_bind_ok in Hr as ([y r1] & Hy & Hr).
  apply parse_predicate_shrinks in Hy. injection Hr as Hr.
  match type of Hr with parse_gno_loop ?g _ = _ =>
    pose proof (parse_gno_loop_shrinks r1 g) as Hl end.
  rewrite Hr in Hl. simpl in Hl. lia.
Qed.
Lemma parse_space_shrinks r : (length (parse_space r) ≤ length r)%nat.
Proof. induction r as [|c r IH]; simpl; [done|]. case_match; simpl; lia. Qed.

Lemma parse_hexadecimal_nofuel r : nofuel (parse_hexadecimal r).
Proof. unfold parse_hexadecimal. nofuel. Qed.
Lemma parse_hexadecimal_pair_nofuel r : nofuel (parse_hexadecimal_pair r).
Proof. pose proof parse_hexadecimal_nofuel. unfold parse_hexadecimal_pair. nofuel. Qed.
Lemma parse_group_nofuel n r : nofuel (parse_group n r).
Proof.
  pose proof parse_hexadecimal_pair_nofuel. revert r. induction n; intros r; cbn [parse_group]; nofuel.
Qed.
Lemma parse_uuid_nofuel r : nofuel (parse_uuid r).
Proof.
  pose proof (parse_group_nofuel) as Hg.
  assert (∀ sizes r, nofuel (parse_groups sizes r)) as Hgs.
  { intros sizes. induction sizes as [|n sizes IH]; intros r'; cbn [parse_groups]; [nofuel|].
    pose proof (Hg n). nofuel. }
  unfold parse_uuid. pose proof (Hg 4%nat). pose proof (Hgs [2; 2; 2; 6]%nat). nofuel.
Qed.
Lemma parse_tag_nofuel r : nofuel (parse_tag r).
Proof.
  unfold parse_tag. apply nofuel_bind; [nofuel|]. intros [y r1] _.
  destruct (parse_tag_loop [y] r1) as [b r2]. apply nofuel_bind; [|intros; nofuel].
  unfold tag_of_name. destruct b as [|c b]; [done|]. nofuel.
  generalize b. clear. induction b as [|c b IH]; cbn; [done|]. nofuel.
Qed.
Lemma validate_components_nofuel u t g : nofuel (validate_components u t g).
Proof. unfold validate_components. nofuel. Qed.
Lemma parse_interval_nofuel p r : nofuel (parse_optionally_tagged_interval p r).
Proof.
  pose proof parse_tag_nofuel. pose proof validate_components_nofuel as Hv.
  assert (∀ u t g s, nofuel (add_gno u t g s)) as Ha.
  { intros u t g s. unfold add_gno. pose proof (Hv u t g). nofuel. }
  assert (∀ u t l h s, nofuel (add_interval u t l h s)) as Hi.
  { intros u t l h s. unfold add_interval. pose proof (Ha u t l s). pose proof (Hv u t l). nofuel. }
  assert (∀ r, nofuel (parse_gno r)) by (intros; unfold parse_gno; nofuel).
  unfold parse_optionally_tagged_interval. apply nofuel_bind; [nofuel|]. intros [p1 r1] _.
  apply nofuel_bind; [nofuel|]. intros [l r2] _.
  destruct (parse_character_ex r2 interval_separator) as [[? r3]|].
  - apply nofuel_bind; [nofuel|]. intros [h r4] _. apply nofuel_bind; [apply Hi|].
    intros; nofuel.
  - apply nofuel_bind; [apply Ha|]. intros; nofuel.
Qed.

Lemma parse_interval_shrinks p : shrinks (parse_optionally_tagged_interval p).
Proof.
  intros r x r' Hr. unfold parse_optionally_tagged_interval in Hr.
  apply result_bind_ok in Hr as ([p1 r1] & H1 & Hr).
  assert (length r1 ≤ length r)%nat as Hl1.
  { case_match; inv_ok; [|done].
    match goal with Hp : parse_tag _ = _, Hc : parse_character _ _ = _ |- _ =>
      apply parse_tag_shrinks in Hp; apply parse_character_shrinks in Hc end. lia. }
  apply result_bind_ok in Hr as ([l r2] & H2%parse_gno_shrinks & Hr).
  destruct (parse_character_ex r2 interval_separator) as [[? r3]|] eqn:E.
  - apply parse_character_ex_shrinks in E.
    apply result_bind_ok in Hr as ([h r4] & H4%parse_gno_shrinks & Hr). inv_ok. lia.
  - inv_ok. lia.
Qed.

Lemma tagged_intervals_loop_nofuel fuel p r :
  (length r ≤ fuel)%nat → nofuel (tagged_intervals_loop fuel p r).
Proof.
  revert p r. induction fuel as [|fuel IH]; intros p r Hf; cbn [tagged_intervals_loop];
    destruct (parse_character_ex r component_separator) as [[? r1]|] eqn:E; try done;
    apply parse_character_ex_shrinks in E; [lia|].
  apply nofuel_bind; [apply parse_interval_nofuel|]. intros [p1 r2] Hp%parse_interval_shrinks.
  apply IH. lia.
Qed.
Lemma tagged_intervals_loop_shrinks fuel p : shrinks (tagged_intervals_loop fuel p).
Proof.
  revert p. induction fuel as [|fuel IH]; intros p r x r' Hr; cbn [tagged_intervals_loop] in Hr;
    destruct (parse_character_ex r component_separator) as [[? r1]|] eqn:E; try by simplify_eq.
  apply parse_character_ex_shrinks in E.
  apply result_bind_ok in Hr as ([p1 r2] & H2%parse_interval_shrinks & Hr%IH). lia.
Qed.
Lemma parse_uuid_set_nofuel p r : nofuel (parse_uuid_set p r).
Proof.
  unfold parse_uuid_set. apply nofuel_bind; [apply parse_uuid_nofuel|]. intros [u r1] _.
  apply nofuel_bind; [by apply nofuel_or_raise|]. intros [? r2] _.
  unfold parse_optionally_tagged_intervals. apply nofuel_bind; [apply parse_interval_nofuel|].
  intros [p1 r3] _. by apply tagged_intervals_loop_nofuel.
Qed.
Lemma parse_uuid_set_shrinks p : shrinks (parse_uuid_set p).
Proof.
  intros r x r' Hr. unfold parse_uuid_set, parse_optionally_tagged_intervals in Hr.
  apply result_bind_ok in Hr as ([u r1] & H1%parse_uuid_shrinks & Hr).
  apply result_bind_ok in Hr as ([? r2] & H2%parse_character_shrinks & Hr).
  apply result_bind_ok in Hr as ([p1 r3] & H3%parse_interval_shrinks & Hr).
  apply tagged_intervals_loop_shrinks in Hr. lia.
Qed.
Lemma gtid_set_loop_nofuel fuel p r :
  (length r ≤ fuel)%nat → nofuel (gtid_set_loop fuel p r).
Proof.
  revert p r. induction fuel as [|fuel IH]; intros p r Hf; cbn [gtid_set_loop];
    destruct (parse_character_ex r uuid_separator) as [[? r1]|] eqn:E; try done;
    apply parse_character_ex_shrinks in E; [lia|].
  apply nofuel_bind; [apply parse_uuid_set_nofuel|]. intros [p1 r2] Hp%parse_uuid_set_shrinks.
  apply IH. pose proof (parse_space_shrinks r1). lia.
Qed.

(** the text parser terminates: the length of the text bounds the iterations of
    its two loops, so the model never runs out of fuel on any input. *)
Theorem parse_enough_fuel value s : parser_parse value s ≠ Err out_of_fuel.
Proof.
  change (nofuel (parser_parse value s)). unfold parser_parse, parse_gtid_set.
  apply nofuel_bind; [|by intros [? ?] _].
  apply nofuel_bind; [apply parse_uuid_set_nofuel|]. intros [p r] _.
  by apply gtid_set_loop_nofuel.
Qed.
End shrinking.

Section text_theorems.
Context `{IntervalSetLaws} `{BoostUuidLaws}.

Lemma gtid_set_of_str (s : gtid_set) :
  wf s → text_ok s → gtid_set_of_string (str s) = Ok s.
Proof.
  intros Hwf Hok. destruct (decide (s = [])) as [->|Hne]; [done|].
  rewrite <-(app_nil_r (str s)). by apply parse_printed.
Qed.

(** C34: parsing the text of a GTID set gives the set back: for every well-formed set
    whose UUIDs are not nil, whose tags are valid and whose numbers are in range,
    [gtid_set(s.str())] is [s] itself. *)
Theorem text_roundtrip (s : gtid_set) :
  wf s → text_ok s → gtid_set_of_string (str s) = Ok s.
Proof. apply gtid_set_of_str. Qed.

(** whatever follows a complete set is ignored: the constructor accepts the text of
    a set followed by any text that starts with none of the characters that could
    continue it. *)
Theorem trailing_text_ignored (s : gtid_set) rest :
  wf s → text_ok s → s ≠ [] →
  check_character_predicate rest (λ c, isdigit c || (c =? interval_separator) ||
    (c =? component_separator) || (c =? uuid_separator)) = false →
  gtid_set_of_string (str s ++ rest) = Ok s.
Proof.
  intros Hwf Hok Hne Hr. destruct rest as [|c rest]; [by apply parse_printed|].
  cbn [check_character_predicate] in Hr. to_prop.
  apply parse_printed; try done; unfold set_end, item_end, stops, parse_character_ex;
    cbn [check_character check_character_predicate]; split_and?;
    repeat match goal with Hc : c ≠ _ |- _ => apply Z.eqb_neq in Hc; rewrite ?Hc end; done.
Qed.
End text_theorems.

Module TextExamples.
Import IntervalList UuidModel GtidSetExamples.

Lemma sample_set_text_ok : text_ok sample_set.
Proof. repeat constructor; by vm_compute. Qed.

Lemma text_roundtrip_witness :
  str sample_set = text "11111111-aaaa-1111-aaaa-111111111111:1-5" ∧
  gtid_set_of_string (str sample_set) = Ok sample_set.
Proof.
  split; [by vm_compute|].
  apply text_roundtrip; [apply sample_set_wf | apply sample_set_text_ok].
Defined.

Lemma trailing_text_ignored_witness :
  gtid_set_of_string (str sample_set ++ text " and more") = Ok sample_set.
Proof.
  apply trailing_text_ignored; [apply sample_set_wf | apply sample_set_text_ok | done |].
  reflexivity.
Defined.

(** A number that does not fit in 64 bits is read modulo 2^64: this is the text of
    the single transaction 1. *)
Example gno_overflow_wraps :
  gtid_set_of_string (uuid_text sample_uuid ++ text ":18446744073709551617") =
    add_gno sample_uuid [] 1 empty_set.
Proof. by vm_compute. Qed.
End TextExamples.
