(* ===== verification/Util.v ===== *)
(** * Small value types

    Models src/src/util/semantic_version.{hpp,cpp},
    src/src/binsrv/events/composite_binlog_name.{hpp,cpp} and
    src/src/util/ctime_timestamp_range.{hpp,cpp}.

    Text is the list of its character codes; a [time_t] is a [Z]. *)

From S2P Require Import Prelude ByteSpan Gtid.

Local Open Scope Z_scope.

(** ** The standard library on text *)

(** [std::from_chars] for an unsigned type with the greatest value [max]: the longest
    run of digits; [None] when there is none or when the value does not fit. *)
Fixpoint take_digits (l : list Z) : list Z * list Z :=
  match l with
  | c :: r => if isdigit c then let '(ds, rest) := take_digits r in (c :: ds, rest) else ([], l)
  | [] => ([], [])
  end.
Definition from_chars (max : Z) (l : list Z) : option (Z * list Z) :=
  let '(ds, rest) := take_digits l in
  match ds with
  | [] => None
  | _ => let v := foldl dec_step 0 ds in if max <? v then None else Some (v, rest)
  end.

(** [std::ranges::views::split] with a one-character delimiter: no parts for the empty
    text, otherwise one part more than there are delimiters. *)
Fixpoint split_parts (d : Z) (l : list Z) : list (list Z) :=
  match l with
  | [] => [[]]
  | c :: l =>
      if c =? d then [] :: split_parts d l
      else match split_parts d l with
           | [] => [[c]]
           | part :: parts => (c :: part) :: parts
           end
  end.
Definition split (d : Z) (l : list Z) : list (list Z) :=
  match l with [] => [] | _ => split_parts d l end.

(** The text before the first occurrence of [c] ([find] and [remove_suffix]). *)
Fixpoint before (c : Z) (l : list Z) : list Z :=
  match l with
  | [] => []
  | x :: l => if x =? c then [] else x :: before c l
  end.

(** ** semantic_version *)
Record semantic_version := mk_semantic_version { sv_major : Z; sv_minor : Z; sv_patch : Z }.

Definition version_delimiter : Z := 46. (* '.' *)
Definition extra_delimiter : Z := 45.   (* '-' *)
Definition minor_multiplier : Z := 100.
Definition major_multiplier : Z := minor_multiplier * minor_multiplier.

Definition version_of_encoded (encoded_server_version : Z) : semantic_version :=
  mk_semantic_version
    (u8 (encoded_server_version / major_multiplier mod minor_multiplier))
    (u8 (encoded_server_version / minor_multiplier mod minor_multiplier))
    (u8 (encoded_server_version mod minor_multiplier)).

Definition get_encoded (v : semantic_version) : Z :=
  u32 (sv_major v * major_multiplier + sv_minor v * minor_multiplier + sv_patch v).

Definition version_string (v : semantic_version) : list Z :=
  to_string (sv_major v) ++ version_delimiter :: to_string (sv_minor v) ++
  version_delimiter :: to_string (sv_patch v).

(** the lambda [component_extractor] *)
Definition component_extractor (parts : list (list Z)) : result (Z * list (list Z)) :=
  match parts with
  | [] => Err (invalid_argument "server_version does not have the component")
  | part :: parts =>
      match from_chars 255 part with
      | Some (v, []) => Ok (v, parts)
      | _ => Err (invalid_argument "server_version component is not a numeric value")
      end
  end.

Definition version_of_string (s : list Z) : result semantic_version :=
  let parts := split version_delimiter (before extra_delimiter s) in
  '(major, parts) ← component_extractor parts;
  '(minor, parts) ← component_extractor parts;
  '(patch, parts) ← component_extractor parts;
  match parts with
  | [] => Ok (mk_semantic_version major minor patch)
  | _ => Err (invalid_argument "server_version has more than 3 components")
  end.

(** ** composite_binlog_name *)
Record composite_binlog_name := mk_binlog_name { bn_base_name : list Z; bn_sequence_number : Z }.
#[export] Instance composite_binlog_name_eq_dec : EqDecision composite_binlog_name.
Proof. solve_decision. Defined.

Definition components_separator : Z := 46. (* '.' *)
Definition number_of_sequence_number_characters : nat := 6.
Definition preferred_separator : Z := 47. (* '/' *)

(** the default constructor *)
Definition empty_binlog_name : composite_binlog_name := mk_binlog_name [] 0.
Definition binlog_name_is_empty (n : composite_binlog_name) : bool := bn_sequence_number n =? 0.

Definition make_binlog_name (base_name : list Z) (sequence_number : Z)
    : result composite_binlog_name :=
  _ ← raise_if (bool_decide (base_name = []))
        (invalid_argument "binlog base name cannot be empty");
  _ ← raise_if (bool_decide (preferred_separator ∈ base_name))
        (invalid_argument "binlog base name contains filesystem separator");
  _ ← raise_if (sequence_number =? 0)
        (invalid_argument "binlog sequence number cannot be zero");
  _ ← raise_if (10 ^ Z.of_nat number_of_sequence_number_characters <=? sequence_number)
        (invalid_argument "binlog sequence number is too large");
  Ok (mk_binlog_name base_name sequence_number).

Definition binlog_name_parse (composite_name : list Z) : result composite_binlog_name :=
  _ ← raise_if (length composite_name <=? number_of_sequence_number_characters + 1)%nat
        (invalid_argument "binlog composite name is too short");
  let separator_position :=
    (length composite_name - number_of_sequence_number_characters - 1)%nat in
  _ ← raise_if (negb (bool_decide (composite_name !! separator_position =
                                     Some components_separator)))
        (invalid_argument "binlog composite name does not contain a separator");
  match from_chars (2 ^ 32 - 1) (drop (separator_position + 1) composite_name) with
  | Some (sequence_number, []) =>
      make_binlog_name (take separator_position composite_name) sequence_number
  | _ => Err (invalid_argument "binlog composite name contains invalid characters")
  end.

(** [operator<<]: [setw(6)] with ['0'] as the filler *)
Definition binlog_name_str (n : composite_binlog_name) : list Z :=
  let digits := to_string (bn_sequence_number n) in
  bn_base_name n ++ components_separator ::
  replicate (number_of_sequence_number_characters - length digits) 48 ++ digits.

Definition binlog_name_next (n : composite_binlog_name) : result composite_binlog_name :=
  make_binlog_name (bn_base_name n) (u32 (bn_sequence_number n + 1)).

(** ** ctime_timestamp_range *)
Definition is_epoch (t : Z) : bool := t =? 0.
Record ctime_timestamp_range := mk_range { min_timestamp : Z; max_timestamp : Z }.

Definition make_range (min_ts max_ts : Z) : ctime_timestamp_range :=
  let r := mk_range min_ts max_ts in
  let r := if is_epoch (min_timestamp r) && negb (is_epoch (max_timestamp r))
           then mk_range (max_timestamp r) (max_timestamp r) else r in
  if negb (is_epoch (min_timestamp r)) && is_epoch (max_timestamp r)
  then mk_range (min_timestamp r) (min_timestamp r) else r.

Definition range_is_empty (r : ctime_timestamp_range) : bool := is_epoch (min_timestamp r).
Definition empty_range : ctime_timestamp_range := mk_range 0 0.
Definition range_clear (r : ctime_timestamp_range) : ctime_timestamp_range := mk_range 0 0.

Definition add_timestamp (t : Z) (r : ctime_timestamp_range) : ctime_timestamp_range :=
  if is_epoch t then r
  else if range_is_empty r then mk_range t t
  else mk_range (Z.min (min_timestamp r) t) (Z.max (max_timestamp r) t).

Definition add_range (range r : ctime_timestamp_range) : ctime_timestamp_range :=
  if range_is_empty range then r
  else if range_is_empty r then range
  else mk_range (Z.min (min_timestamp r) (min_timestamp range))
                (Z.max (max_timestamp r) (max_timestamp range)).

(** ** Lemmas: digits *)
Section digits.
Implicit Types (ds rest : list Z).

Lemma take_digits_app ds rest :
  Forall (λ d, isdigit d = true) ds →
  match rest with [] => True | c :: _ => isdigit c = false end →
  take_digits (ds ++ rest) = (ds, rest).
Proof.
  intros Hd Hr. induction Hd as [|d ds Hd _ IH]; cbn [app take_digits].
  - destruct rest as [|c rest]; cbn; [done|]. by rewrite Hr.
  - by rewrite Hd, IH.
Qed.

Lemma take_digits_spec l ds rest :
  take_digits l = (ds, rest) → l = ds ++ rest ∧ Forall (λ d, isdigit d = true) ds.
Proof.
  revert ds rest. induction l as [|c l IH]; intros ds rest; cbn; [by intros; simplify_eq|].
  destruct (isdigit c) eqn:E; [|by intros; simplify_eq].
  destruct (take_digits l) as [ds' rest']. intros ?; simplify_eq.
  destruct (IH _ _ eq_refl) as [-> ?]. auto.
Qed.

Lemma from_chars_app max ds :
  ds ≠ [] → Forall (λ d, isdigit d = true) ds → foldl dec_step 0 ds ≤ max →
  from_chars max ds = Some (foldl dec_step 0 ds, []).
Proof.
  intros Hne Hd Hm. unfold from_chars. rewrite <-(app_nil_r ds) at 1.
  rewrite take_digits_app by done. destruct ds; [done|].
  destruct (Z.ltb_spec max (foldl dec_step 0 (z :: ds))); [lia | done].
Qed.

Lemma from_chars_all max l v :
  from_chars max l = Some (v, []) →
  l ≠ [] ∧ Forall (λ d, isdigit d = true) l ∧ v = foldl dec_step 0 l ∧ v ≤ max.
Proof.
  unfold from_chars. destruct (take_digits l) as [ds rest] eqn:E.
  apply take_digits_spec in E as [-> Hd]. destruct ds as [|d ds]; [done|].
  destruct (Z.ltb_spec max (foldl dec_step 0 (d :: ds))); [done|]. intros ?; simplify_eq.
  rewrite app_nil_r. done.
Qed.

Lemma dec_value_app a ds1 ds2 : foldl dec_step a (ds1 ++ ds2) = foldl dec_step (foldl dec_step a ds1) ds2.
Proof. apply foldl_app. Qed.

Lemma dec_value_zeros n ds : foldl dec_step 0 (replicate n 48 ++ ds) = foldl dec_step 0 ds.
Proof. induction n as [|n IH]; [done|]. simpl. unfold dec_step at 2. simpl. done. Qed.

Lemma dec_value_bound ds a :
  Forall (λ d, isdigit d = true) ds → 0 ≤ a →
  a * 10 ^ Z.of_nat (length ds) ≤ foldl dec_step a ds
    < (a + 1) * 10 ^ Z.of_nat (length ds).
Proof.
  intros Hd. revert a. induction Hd as [|d ds Hd _ IH]; intros a Ha.
  - simpl. lia.
  - cbn [length foldl]. rewrite Nat2Z.inj_succ, Z.pow_succ_r by lia.
    unfold isdigit in Hd. to_prop. specialize (IH (dec_step a d)).
    unfold dec_step at 1 5 in IH. unfold dec_step in *. nia.
Qed.

(** Digit sequences of the same length and value are equal. *)
Lemma dec_value_inj ds1 ds2 a1 a2 :
  Forall (λ d, isdigit d = true) ds1 → Forall (λ d, isdigit d = true) ds2 →
  0 ≤ a1 → 0 ≤ a2 → length ds1 = length ds2 →
  foldl dec_step a1 ds1 = foldl dec_step a2 ds2 → a1 = a2 ∧ ds1 = ds2.
Proof.
  intros H1. revert ds2 a1 a2. induction H1 as [|d1 ds1 Hd1 _ IH];
    intros [|d2 ds2] a1 a2 H2 Ha1 Ha2 Hl Hv; try done.
  apply Forall_cons in H2 as [Hd2 H2]. simpl in Hl, Hv. unfold isdigit in Hd1, Hd2. to_prop.
  destruct (IH ds2 (dec_step a1 d1) (dec_step a2 d2)) as [Heq ->]; try done; [..|lia|].
  1-2: unfold dec_step; lia.
  unfold dec_step in Heq. assert (a1 = a2) by lia. subst. split; [done|]. f_equal. lia.
Qed.

Lemma length_to_string_aux fuel v acc k :
  (k ≤ fuel)%nat → (0 < k)%nat → 0 ≤ v < 10 ^ Z.of_nat k →
  (length (to_string_aux fuel v acc) ≤ k + length acc)%nat.
Proof.
  revert fuel v acc. induction k as [|k IH]; intros [|fuel] v acc Hk H0 Hv; try lia.
  cbn [to_string_aux]. destruct (Z.ltb_spec v 10); [simpl; lia|].
  rewrite Nat2Z.inj_succ, Z.pow_succ_r in Hv by lia.
  destruct k as [|k]; [simpl in Hv; lia|].
  etrans; [apply IH; [lia|lia|dlia]|]. simpl. lia.
Qed.

Lemma length_to_string v : 0 ≤ v < 10 ^ 6 → (length (to_string v) ≤ 6)%nat.
Proof.
  intros Hv. unfold to_string. etrans; [apply (length_to_string_aux 20 v [] 6); lia|]. simpl. lia.
Qed.
End digits.

(** ** semantic_version: text and number *)
Section versions.
Implicit Types v w : semantic_version.

Definition version_ok v : Prop :=
  in_width 8 (sv_major v) ∧ in_width 8 (sv_minor v) ∧ in_width 8 (sv_patch v).

Lemma before_app c l rest :
  c ∉ l → before c (l ++ rest) = l ++ before c rest.
Proof.
  induction l as [|x l IH]; intros Hn; [done|]. apply not_elem_of_cons in Hn as [Hx Hn].
  cbn [app before]. destruct (Z.eqb_spec x c); [by subst|]. by rewrite IH.
Qed.

Lemma split_parts_app d l rest :
  d ∉ l → split_parts d (l ++ d :: rest) = l :: split_parts d rest.
Proof.
  induction l as [|x l IH]; intros Hn.
  - cbn. by rewrite Z.eqb_refl.
  - apply not_elem_of_cons in Hn as [Hx Hn]. cbn [app split_parts].
    destruct (Z.eqb_spec x d); [by subst|]. by rewrite IH.
Qed.

Lemma split_parts_one d l : d ∉ l → split_parts d l = [l].
Proof.
  induction l as [|x l IH]; intros Hn; [done|]. apply not_elem_of_cons in Hn as [Hx Hn].
  cbn. destruct (Z.eqb_spec x d); [by subst|]. by rewrite IH.
Qed.

Lemma digits_not_in c ds : Forall (λ d, isdigit d = true) ds → isdigit c = false → c ∉ ds.
Proof. intros Hd Hc Hin. rewrite Forall_forall in Hd. apply Hd in Hin. congruence. Qed.

Lemma component_to_string x parts :
  in_width 8 x → component_extractor (to_string x :: parts) = Ok (x, parts).
Proof.
  intros Hv. destruct (to_string_spec x) as (Hne & Hd & Hval).
  { by apply (in_width_mono 8). }
  unfold component_extractor. rewrite from_chars_app; [by rewrite Hval|done..|].
  rewrite Hval. unfold in_width in Hv. simpl in Hv. lia.
Qed.

Lemma version_parse v suffix :
  version_ok v → suffix = [] ∨ (∃ r, suffix = extra_delimiter :: r) →
  version_of_string (version_string v ++ suffix) = Ok v.
Proof.
  intros (Hma & Hmi & Hpa) Hs.
  assert (∀ c x, isdigit c = false → in_width 8 x → c ∉ to_string x) as Hnot.
  { intros c x Hc Hx. apply digits_not_in; [|done].
    by apply to_string_spec, (in_width_mono 8). }
  unfold version_of_string, version_string.
  assert (before extra_delimiter suffix = []) as Hb by (destruct Hs as [->|[r ->]]; done).
  rewrite before_app, Hb, app_nil_r; cycle 1.
  { rewrite elem_of_app, elem_of_cons, elem_of_app, elem_of_cons. intros Hin.
    destruct_or! Hin; (discriminate Hin || (apply Hnot in Hin; done)). }
  unfold split. destruct (to_string (sv_major v) ++ _) eqn:E; [by destruct (to_string (sv_major v))|].
  rewrite <-E, split_parts_app, split_parts_app, split_parts_one by auto.
  rewrite component_to_string by done. cbn [mbind result_bind].
  rewrite component_to_string by done. cbn [mbind result_bind].
  rewrite component_to_string by done. cbn [mbind result_bind]. by destruct v.
Qed.

(** the text of a version, alone or with a suffix after a dash such as "-log", parses
    back to the version. *)
Theorem version_string_roundtrip v suffix :
  version_ok v →
  version_of_string (version_string v) = Ok v ∧
  version_of_string (version_string v ++ extra_delimiter :: suffix) = Ok v.
Proof.
  intros Hv. split; [|apply version_parse; eauto].
  rewrite <-(app_nil_r (version_string v)). apply version_parse; auto.
Qed.

(** for versions whose components are below 100, the encoded number determines the
    version and orders versions as their components do. *)
Theorem version_encoding v w :
  0 ≤ sv_major v < 100 ∧ 0 ≤ sv_minor v < 100 ∧ 0 ≤ sv_patch v < 100 →
  0 ≤ sv_major w < 100 ∧ 0 ≤ sv_minor w < 100 ∧ 0 ≤ sv_patch w < 100 →
  version_of_encoded (get_encoded v) = v ∧
  (get_encoded v < get_encoded w ↔
    sv_major v < sv_major w ∨ sv_major v = sv_major w ∧
      (sv_minor v < sv_minor w ∨ sv_minor v = sv_minor w ∧ sv_patch v < sv_patch w)).
Proof.
  destruct v as [a b c], w as [a' b' c']. unfold get_encoded, version_of_encoded,
    major_multiplier, minor_multiplier. cbn [sv_major sv_minor sv_patch]. intros Hv Hw.
  change (100 * 100) with 10000.
  rewrite !(wrap_small 32) by (unfold in_width; change (2 ^ 32) with 4294967296; lia).
  split; [|lia]. f_equal; rewrite wrap_small; unfold in_width; change (2 ^ 8) with 256; dlia.
Qed.
End versions.

(** ** composite_binlog_name *)
Section binlog_names.
Implicit Types (n : composite_binlog_name) (s : list Z).

Definition binlog_name_ok n : Prop :=
  bn_base_name n ≠ [] ∧ preferred_separator ∉ bn_base_name n ∧
  0 < bn_sequence_number n < 10 ^ 6.

Lemma make_binlog_name_ok base q n :
  0 ≤ q → make_binlog_name base q = Ok n ↔ n = mk_binlog_name base q ∧ binlog_name_ok n.
Proof.
  intros Hq. unfold make_binlog_name, binlog_name_ok.
  change (10 ^ Z.of_nat number_of_sequence_number_characters) with 1000000.
  change (10 ^ 6) with 1000000. split.
  - intros Hm. inv_ok. to_prop. unfold number_of_sequence_number_characters in *.
    cbn [bn_base_name bn_sequence_number]. split_and!; [done..|lia|lia].
  - intros [-> (Hb & Hs & Hr)]. cbn [bn_base_name bn_sequence_number] in *.
    rewrite !bool_decide_eq_false_2 by done. simpl.
    destruct (Z.eqb_spec q 0); [lia|]. simpl.
    destruct (Z.leb_spec 1000000 q); [lia | done].
Qed.

Definition padded (q : Z) : list Z :=
  replicate (number_of_sequence_number_characters - length (to_string q)) 48 ++ to_string q.

Lemma padded_spec q :
  0 ≤ q < 10 ^ 6 →
  length (padded q) = 6%nat ∧ Forall (λ d, isdigit d = true) (padded q) ∧
  foldl dec_step 0 (padded q) = q.
Proof.
  intros Hq. destruct (to_string_spec q) as (Hne & Hd & Hv).
  { unfold in_width. simpl in *. lia. }
  pose proof (length_to_string q Hq). unfold padded, number_of_sequence_number_characters.
  split_and!.
  - rewrite length_app, length_replicate. lia.
  - apply Forall_app. split; [|done]. by apply Forall_replicate.
  - by rewrite dec_value_zeros.
Qed.

Lemma binlog_name_parse_inv s n :
  binlog_name_parse s = Ok n → s = binlog_name_str n ∧ binlog_name_ok n.
Proof.
  unfold binlog_name_parse, number_of_sequence_number_characters. intros Hp.
  apply result_bind_ok in Hp as ([] & Hlen & Hp). apply raise_if_ok in Hlen. to_prop.
  apply result_bind_ok in Hp as ([] & Hsep & Hp). apply raise_if_ok in Hsep. to_prop.
  set (k := (length s - 6 - 1)%nat) in *.
  destruct (from_chars _ _) as [[q [|]]|] eqn:Ef; try done.
  apply from_chars_all in Ef as (Hne & Hd & Hq & _).
  pose proof (dec_value_bound _ 0 Hd ltac:(lia)) as Hb. rewrite length_drop in Hb.
  replace (length s - (k + 1))%nat with 6%nat in Hb by lia.
  apply make_binlog_name_ok in Hp as [-> Hok]; [|lia]. split; [|done].
  destruct Hok as (_ & _ & Hr). cbn [bn_sequence_number] in Hr.
  unfold binlog_name_str. cbn [bn_base_name bn_sequence_number].
  destruct (padded_spec q ltac:(lia)) as (Hl & Hpd & Hpv). fold (padded q).
  assert (padded q = drop (k + 1) s) as ->.
  { eapply (dec_value_inj _ _ 0 0); try done; [|congruence].
    rewrite Hl, length_drop. lia. }
  rewrite <-(take_drop k s) at 1. f_equal. apply drop_S in Hsep. rewrite Hsep.
  by rewrite Nat.add_1_r.
Qed.

Lemma binlog_name_parse_str n : binlog_name_ok n → binlog_name_parse (binlog_name_str n) = Ok n.
Proof.
  intros Hok. pose proof Hok as (Hb & Hs & Hr).
  destruct (padded_spec (bn_sequence_number n) ltac:(lia)) as (Hl & Hpd & Hpv).
  unfold binlog_name_str. fold (padded (bn_sequence_number n)).
  unfold binlog_name_parse. rewrite length_app. cbn [length]. rewrite Hl.
  unfold number_of_sequence_number_characters.
  destruct (Nat.leb_spec (length (bn_base_name n) + 7) (6 + 1)) as [Hle|_].
  { destruct (bn_base_name n); [done|]. simpl in Hle. lia. }
  cbn [raise_if mbind result_bind].
  replace (length (bn_base_name n) + 7 - 6 - 1)%nat with (length (bn_base_name n)) by lia.
  rewrite bool_decide_eq_true_2 by (by rewrite list_lookup_middle). cbn [negb raise_if mbind result_bind].
  rewrite cons_middle, (app_assoc (bn_base_name n)), drop_app_length' by
    (rewrite length_app; simpl; lia).
  rewrite from_chars_app; [|by destruct (padded (bn_sequence_number n))|done|simpl in *; lia].
  rewrite Hpv, <-app_assoc, take_app_length. apply make_binlog_name_ok; [lia|].
  by destruct n.
Qed.

(** parsing accepts exactly the texts that a valid binlog name prints: the parser and
    the printer are inverse to each other. *)
Theorem binlog_name_roundtrip s n :
  binlog_name_parse s = Ok n ↔ s = binlog_name_str n ∧ binlog_name_ok n.
Proof. split; [apply binlog_name_parse_inv | intros [-> ?]; by apply binlog_name_parse_str]. Qed.
End binlog_names.

(** ** ctime_timestamp_range *)
Section ranges.
Implicit Types (r : ctime_timestamp_range) (t : Z) (ts : list Z).

(** [r] is the range of the timestamps [ts]: empty when there are none, and otherwise
    with the least and the greatest of them as bounds. *)
Definition range_of ts r : Prop :=
  if range_is_empty r then ts = [] ∧ r = empty_range
  else min_timestamp r ∈ ts ∧ max_timestamp r ∈ ts ∧
    ∀ t, t ∈ ts → min_timestamp r ≤ t ≤ max_timestamp r.

Lemma range_of_empty : range_of [] empty_range.
Proof. done. Qed.

Lemma range_of_add ts r t :
  Forall (λ t, t ≠ 0) ts → range_of ts r →
  range_of (if is_epoch t then ts else t :: ts) (add_timestamp t r).
Proof.
  intros Hts Hr. unfold add_timestamp. destruct (is_epoch t) eqn:Et; [done|].
  unfold range_of in Hr. destruct (range_is_empty r) eqn:Er.
  - destruct Hr as [-> ->]. unfold range_of, range_is_empty. simpl. rewrite Et.
    split_and!; [by left | by left|]. intros t'. rewrite list_elem_of_singleton. lia.
  - destruct Hr as (Hmin & Hmax & Hall). rewrite Forall_forall in Hts.
    unfold range_of, range_is_empty, is_epoch in *. cbn [min_timestamp max_timestamp].
    pose proof (Hts _ Hmin). to_prop. destruct (Z.eqb_spec (Z.min (min_timestamp r) t) 0); [lia|].
    split_and!.
    + rewrite elem_of_cons. destruct (Z.min_spec (min_timestamp r) t) as [[_ ->]|[_ ->]]; auto.
    + rewrite elem_of_cons. destruct (Z.max_spec (max_timestamp r) t) as [[_ ->]|[_ ->]]; auto.
    + intros t'. rewrite elem_of_cons. intros [->|Ht%Hall]; lia.
Qed.

Lemma range_of_merge ts1 ts2 r1 r2 :
  Forall (λ t, t ≠ 0) ts1 → Forall (λ t, t ≠ 0) ts2 → range_of ts1 r1 → range_of ts2 r2 →
  range_of (ts2 ++ ts1) (add_range r2 r1).
Proof.
  intros H1 H2 Hr1 Hr2. unfold add_range. unfold range_of in Hr2.
  destruct (range_is_empty r2) eqn:E2; [by destruct Hr2 as [-> _]|].
  unfold range_of in Hr1. destruct (range_is_empty r1) eqn:E1.
  - destruct Hr1 as [-> _]. rewrite app_nil_r. unfold range_of. by rewrite E2.
  - destruct Hr1 as (Hmin1 & Hmax1 & Ha1), Hr2 as (Hmin2 & Hmax2 & Ha2).
    rewrite Forall_forall in H1, H2. pose proof (H1 _ Hmin1). pose proof (H2 _ Hmin2).
    unfold range_of, range_is_empty, is_epoch. cbn [min_timestamp max_timestamp].
    destruct (Z.eqb_spec (Z.min (min_timestamp r1) (min_timestamp r2)) 0); [lia|].
    split_and!.
    + rewrite elem_of_app. destruct (Z.min_spec (min_timestamp r1) (min_timestamp r2)) as [[_ ->]|[_ ->]]; auto.
    + rewrite elem_of_app. destruct (Z.max_spec (max_timestamp r1) (max_timestamp r2)) as [[_ ->]|[_ ->]]; auto.
    + intros t. rewrite elem_of_app. intros [Ht%Ha2|Ht%Ha1]; lia.
Qed.

Lemma range_of_fold ts ts0 r :
  Forall (λ t, t ≠ 0) ts0 → range_of ts0 r →
  range_of (rev (filter (λ t, t ≠ 0) ts) ++ ts0) (foldl (λ r t, add_timestamp t r) r ts).
Proof.
  revert ts0 r. induction ts as [|t ts IH]; intros ts0 r H0 Hr; [done|]. cbn [foldl].
  pose proof (range_of_add ts0 r t H0 Hr) as Ht. rewrite filter_cons.
  unfold is_epoch in Ht. destruct (Z.eqb_spec t 0) as [->|Hne].
  - rewrite decide_False by lia. by apply IH.
  - rewrite decide_True by done. cbn [rev]. rewrite <-app_assoc. apply IH; [|done].
    by constructor.
Qed.

(** the timestamps of two batches of events, collected in two ranges that are then
    merged (as a flush does), give the least and the greatest non-zero timestamp of both
    batches; the merged range is empty exactly when there is no such timestamp. *)
Theorem timestamp_ranges_merge ts1 ts2 :
  let collect := foldl (λ r t, add_timestamp t r) empty_range in
  let r := add_range (collect ts2) (collect ts1) in
  range_of (rev (filter (λ t, t ≠ 0) ts2) ++ rev (filter (λ t, t ≠ 0) ts1)) r ∧
  (range_is_empty r = true ↔ ∀ t, t ∈ ts1 ++ ts2 → t = 0).
Proof.
  cbv zeta.
  assert (∀ ts : list Z, Forall (λ t, t ≠ 0) (rev (filter (λ t, t ≠ 0) ts))) as Hnz.
  { intros ts. apply Forall_rev, Forall_forall. intros t [? _]%list_elem_of_filter. done. }
  pose proof (range_of_fold ts1 [] empty_range ltac:(done) range_of_empty) as H1.
  pose proof (range_of_fold ts2 [] empty_range ltac:(done) range_of_empty) as H2.
  rewrite app_nil_r in H1, H2.
  pose proof (range_of_merge _ _ _ _ (Hnz ts1) (Hnz ts2) H1 H2) as Hr. split; [done|].
  set (r := add_range _ _) in *.
  assert (∀ t, t ∈ rev (filter (λ t, t ≠ 0) ts2) ++ rev (filter (λ t, t ≠ 0) ts1) ↔
    t ≠ 0 ∧ t ∈ ts1 ++ ts2) as Hin.
  { intros t. rewrite !elem_of_app.
    rewrite !list_elem_of_In, <-!in_rev, <-!list_elem_of_In, !list_elem_of_filter. tauto. }
  unfold range_of in Hr. destruct (range_is_empty r) eqn:Er.
  - destruct Hr as [Hnil _]. rewrite Hnil in Hin. split; [|done]. intros _ t Ht.
    destruct (decide (t = 0)); [done|]. exfalso. by apply (elem_of_nil t), Hin.
  - split; [done|]. intros Hz. destruct Hr as (Hmin & _ & _). apply Hin in Hmin as [Hne Ht].
    by apply Hz in Ht.
Qed.
End ranges.

Module UtilExamples.
Lemma version_string_roundtrip_witness :
  version_of_string (text "8.0.45") = Ok (mk_semantic_version 8 0 45) ∧
  version_of_string (text "8.0.45-log") = Ok (mk_semantic_version 8 0 45).
Proof. apply (version_string_roundtrip (mk_semantic_version 8 0 45) (text "log")). by vm_compute. Defined.

Lemma version_encoding_witness :
  version_of_encoded 80045 = mk_semantic_version 8 0 45 ∧
  (80045 < 80300 ↔ 8 < 8 ∨ 8 = 8 ∧ (0 < 3 ∨ 0 = 3 ∧ 45 < 0)).
Proof.
  apply (version_encoding (mk_semantic_version 8 0 45) (mk_semantic_version 8 3 0));
    cbn; lia.
Defined.
End UtilExamples.
