(* ===== verification/Protocol.v ===== *)
(** * The binlog protocol: codes, headers, simple bodies

    Models, under src/src/binsrv/events/: code_type.hpp, protocol_traits_fwd.hpp and
    protocol_traits.cpp, common_header_flag_type.hpp, common_header_view.{hpp,cpp},
    common_header.{hpp,cpp}, footer_view.cpp, footer.cpp, the rotate, format description
    and previous GTIDs post headers and bodies, and the bounded strings of
    src/src/util/bounded_string_storage.hpp.

    A view over a portion of an event is the list of its bytes; a setter of an updatable
    view returns the portion after the write. *)

From S2P Require Import Prelude ByteSpan OrderedMap IntervalSet Gtid GtidSet GtidSetEncoding.
From S2P Require Import Util.

Local Open Scope Z_scope.

(** ** code_type *)
Inductive code_type :=
  | ct_unknown | ct_start_v3 | ct_query | ct_stop | ct_rotate | ct_intvar | ct_obsolete_6
  | ct_slave | ct_obsolete_8 | ct_append_block | ct_obsolete_10 | ct_delete_file
  | ct_obsolete_12 | ct_rand | ct_user_var | ct_format_description | ct_xid
  | ct_begin_load_query | ct_execute_load_query | ct_table_map | ct_obsolete_20
  | ct_obsolete_21 | ct_obsolete_22 | ct_write_rows_v1 | ct_update_rows_v1
  | ct_delete_rows_v1 | ct_incident | ct_heartbeat_log | ct_ignorable_log
  | ct_rows_query_log | ct_write_rows | ct_update_rows | ct_delete_rows | ct_gtid_log
  | ct_anonymous_gtid_log | ct_previous_gtids_log | ct_transaction_context
  | ct_view_change | ct_xa_prepare_log | ct_partial_update_rows | ct_transaction_payload
  | ct_heartbeat_log_v2 | ct_gtid_tagged_log.

#[export] Instance code_type_eq_dec : EqDecision code_type.
Proof. solve_decision. Defined.

(** The enumerators in the order of their values. *)
Definition code_types : list code_type :=
  [ct_unknown; ct_start_v3; ct_query; ct_stop; ct_rotate; ct_intvar; ct_obsolete_6;
   ct_slave; ct_obsolete_8; ct_append_block; ct_obsolete_10; ct_delete_file;
   ct_obsolete_12; ct_rand; ct_user_var; ct_format_description; ct_xid;
   ct_begin_load_query; ct_execute_load_query; ct_table_map; ct_obsolete_20;
   ct_obsolete_21; ct_obsolete_22; ct_write_rows_v1; ct_update_rows_v1;
   ct_delete_rows_v1; ct_incident; ct_heartbeat_log; ct_ignorable_log;
   ct_rows_query_log; ct_write_rows; ct_update_rows; ct_delete_rows; ct_gtid_log;
   ct_anonymous_gtid_log; ct_previous_gtids_log; ct_transaction_context;
   ct_view_change; ct_xa_prepare_log; ct_partial_update_rows; ct_transaction_payload;
   ct_heartbeat_log_v2; ct_gtid_tagged_log].

(** [util::enum_to_index(code_type::delimiter)] *)
Definition code_delimiter : Z := 43.

(** [util::enum_to_index] *)
Fixpoint position_of (c : code_type) (l : list code_type) : Z :=
  match l with
  | [] => 0
  | c' :: l => if decide (c = c') then 0 else 1 + position_of c l
  end.
Definition code_index (c : code_type) : Z := position_of c code_types.
(** [util::index_to_enum<code_type>]; [None] outside the enumerators *)
Definition code_of_index (i : Z) : option code_type :=
  if i <? 0 then None else code_types !! Z.to_nat i.

Lemma code_of_index_index c : code_of_index (code_index c) = Some c.
Proof. by destruct c. Qed.

(** ** protocol_traits *)
Definition default_binlog_version : Z := 4.
Definition earliest_supported_protocol_server_version : Z := 80000.
Definition latest_known_protocol_server_version : Z := 80300.
Definition lts80_number_of_events : nat := 42.
Definition innovation83_with_tagged_gtids_number_of_events : nat := 43.

Definition get_number_of_events (encoded_server_version : Z) : nat :=
  if encoded_server_version <? latest_known_protocol_server_version
  then lts80_number_of_events else innovation83_with_tagged_gtids_number_of_events.

Definition max_number_of_events : nat :=
  Nat.max (get_number_of_events earliest_supported_protocol_server_version)
          (get_number_of_events latest_known_protocol_server_version).
Definition default_common_header_length : nat := 19.
Definition default_footer_length : nat := 4.
(** [std::numeric_limits<std::size_t>::max()]; its 8-bit truncation marks the
    unspecified entries of a table of post header lengths *)
Definition unspecified_post_header_length : Z := 2 ^ 64 - 1.
Definition unspecified_encoded_length : Z := u8 unspecified_post_header_length.
Definition magic_binlog_payload : list Z := [254; 98; 105; 110].
Definition magic_binlog_offset : Z := 4.

(** [post_header_length_container]: [max_number_of_events - 1] bytes *)
Definition post_header_lengths_ok (storage : list Z) : Prop :=
  length storage = (max_number_of_events - 1)%nat.

Definition get_post_header_length_for_code (encoded_server_version : Z) (storage : list Z)
    (code : code_type) : Z :=
  let index := code_index code in
  if (index =? 0) || (Z.of_nat (get_number_of_events encoded_server_version) <=? index)
  then unspecified_post_header_length
  else
    let encoded_length := default 0 (storage !! Z.to_nat (index - 1)) in
    if encoded_length =? unspecified_encoded_length then unspecified_post_header_length
    else encoded_length.

(** [std::ranges::mismatch] over the first [number_of_events] entries of both tables *)
Definition length_matches (real expected : Z) : bool :=
  (expected =? unspecified_encoded_length) || (real =? expected).
Fixpoint lengths_match (runtime known : list Z) : bool :=
  match runtime, known with
  | real :: runtime, expected :: known =>
      length_matches real expected && lengths_match runtime known
  | _, _ => true
  end.
Definition validate_post_header_lengths (encoded_server_version : Z) (runtime known : list Z)
    : result unit :=
  let n := get_number_of_events encoded_server_version in
  raise_if (negb (lengths_match (take n runtime) (take n known)))
    (logic_error "mismatch in expected post header length for the event").

(** ** common_header_view *)
Definition timestamp_offset : nat := 0.
Definition type_code_offset : nat := timestamp_offset + 4.
Definition server_id_offset : nat := type_code_offset + 1.
Definition event_size_offset : nat := server_id_offset + 4.
Definition next_event_position_offset : nat := event_size_offset + 4.
Definition flags_offset : nat := next_event_position_offset + 4.
Definition common_header_size_in_bytes : nat := flags_offset + 2.

(** An integer of [n] bytes at [offset] of a portion: [portion_.subspan(offset, n)]
    and the extractor or the inserter. *)
Definition get_field (offset n : nat) (portion : list Z) : Z :=
  (extract_fixed_int_from_byte_span n (take n (drop offset portion))).1.
Definition set_field (offset n : nat) (value : Z) (portion : list Z) : list Z :=
  sp_store (insert_fixed_int_to_byte_span n value (mk_span portion offset)).

Definition get_timestamp_raw := get_field timestamp_offset 4.
Definition get_type_code_raw := get_field type_code_offset 1.
Definition get_server_id_raw := get_field server_id_offset 4.
Definition get_event_size_raw := get_field event_size_offset 4.
Definition get_next_event_position_raw := get_field next_event_position_offset 4.
Definition get_flags_raw := get_field flags_offset 2.
Definition set_timestamp_raw := set_field timestamp_offset 4.
Definition set_type_code_raw := set_field type_code_offset 1.
Definition set_server_id_raw := set_field server_id_offset 4.
Definition set_event_size_raw := set_field event_size_offset 4.
Definition set_next_event_position_raw := set_field next_event_position_offset 4.
Definition set_flags_raw := set_field flags_offset 2.

(** The flag [common_header_flag_type::artificial] and [flag_set::has_element] *)
Definition artificial_flag : Z := 32.
Definition has_element (flags flag : Z) : bool := negb (Z.land flags flag =? 0).

(** the constructor of [common_header_view_base] *)
Definition common_header_view (portion : list Z) : result (list Z) :=
  _ ← raise_if (negb (length portion =? common_header_size_in_bytes)%nat)
        (invalid_argument "invalid event common header length");
  _ ← raise_if (code_delimiter <=? get_type_code_raw portion)
        (logic_error "invalid event code in event header");
  Ok portion.

(** ** common_header *)
Record common_header := mk_common_header {
  ch_timestamp : Z;
  ch_type_code : code_type;
  ch_server_id : Z;
  ch_event_size : Z;
  ch_next_event_position : Z;
  ch_flags : Z
}.
#[export] Instance common_header_eq_dec : EqDecision common_header.
Proof. solve_decision. Defined.

(** [common_header(util::const_byte_span)] *)
Definition parse_common_header (portion : list Z) : result common_header :=
  view ← common_header_view portion;
  code ← or_raise (code_of_index (get_type_code_raw view))
           (logic_error "invalid event code in event header");
  Ok (mk_common_header (get_timestamp_raw view) code (get_server_id_raw view)
        (get_event_size_raw view) (get_next_event_position_raw view) (get_flags_raw view)).

Definition is_artificial (h : common_header) : bool := has_element (ch_flags h) artificial_flag.

Definition create_with_offset (offset event_size timestamp : Z) (type_code : code_type)
    (server_id flags : Z) : common_header :=
  let next_event_position :=
    if bool_decide (type_code = ct_rotate) && has_element flags artificial_flag then 0
    else u32 (offset + event_size) in
  mk_common_header (u32 timestamp) type_code server_id event_size next_event_position flags.

(** [common_header::encode_to]; the updatable view it writes through is constructed, and
    so validated, over the destination before anything is written to it. *)
Definition common_header_encode_to (h : common_header) (destination : byte_span)
    : result byte_span :=
  _ ← raise_if (span_size destination <? common_header_size_in_bytes)%nat
        (invalid_argument "cannot encode common header");
  uv ← common_header_view
         (take common_header_size_in_bytes (drop (sp_pos destination) (sp_store destination)));
  let uv := set_timestamp_raw (ch_timestamp h) uv in
  let uv := set_type_code_raw (code_index (ch_type_code h)) uv in
  let uv := set_server_id_raw (ch_server_id h) uv in
  let uv := set_event_size_raw (ch_event_size h) uv in
  let uv := set_next_event_position_raw (ch_next_event_position h) uv in
  let uv := set_flags_raw (ch_flags h) uv in
  Ok (write_bytes uv destination).

(** ** footer_view, footer *)
Definition footer_view (portion : list Z) : result (list Z) :=
  _ ← raise_if (negb (length portion =? default_footer_length)%nat)
        (invalid_argument "invalid event footer length");
  Ok portion.
Definition get_crc_raw := get_field 0 4.
Definition set_crc_raw := set_field 0 4.

Definition footer_encode_to (crc : Z) (destination : byte_span) : result byte_span :=
  _ ← raise_if (span_size destination <? default_footer_length)%nat
        (invalid_argument "cannot encode footer");
  uv ← footer_view (take default_footer_length (drop (sp_pos destination) (sp_store destination)));
  Ok (write_bytes (set_crc_raw crc uv) destination).

(** ** ROTATE: post header and body *)
Definition rotate_post_header_size : nat := 8.
Definition parse_rotate_post_header (portion : list Z) : result Z :=
  _ ← raise_if (negb (length portion =? rotate_post_header_size)%nat)
        (invalid_argument "invalid rotate event post header length");
  Ok (extract_fixed_int_from_byte_span 8 portion).1.
Definition rotate_post_header_encode_to (position : Z) (destination : byte_span)
    : result byte_span :=
  _ ← raise_if (span_size destination <? rotate_post_header_size)%nat
        (invalid_argument "cannot encode rotate event post header");
  Ok (insert_fixed_int_to_byte_span 8 position destination).
(** The body is the name of the next binlog file, to the end of the event. *)
Definition parse_rotate_body (portion : list Z) : list Z := portion.
Definition rotate_body_of_name (n : composite_binlog_name) : list Z := binlog_name_str n.
Definition rotate_body_encode_to (binlog : list Z) (destination : byte_span)
    : result byte_span :=
  _ ← raise_if (span_size destination <? length binlog)%nat
        (invalid_argument "cannot encode rotate event body");
  Ok (write_bytes binlog destination).

(** ** FORMAT_DESCRIPTION: post header and body *)
Definition server_version_length : nat := 50.
Definition base_size_in_bytes : nat := server_version_length + 7.
Definition fde_size_in_bytes (encoded_server_version : Z) : nat :=
  base_size_in_bytes + get_number_of_events encoded_server_version - 1.

Record fde_post_header := mk_fde_post_header {
  fde_binlog_version : Z;
  fde_server_version : list Z;
  fde_create_timestamp : Z;
  fde_common_header_length : Z;
  fde_post_header_lengths : list Z
}.

(** [util::normalize_for_c_str]: up to the first zero byte *)
Definition normalize_for_c_str (storage : list Z) : list Z := before 0 storage.

(** [get_encoded_server_version() const noexcept]: an exception of the parser of the
    version terminates the program *)
Definition get_encoded_server_version (h : fde_post_header) : result Z :=
  match version_of_string (fde_server_version h) with
  | Ok v => Ok (get_encoded v)
  | Err _ => Err (terminate "get_encoded_server_version")
  end.

Definition make_fde_post_header (binlog_version : Z) (server_version : semantic_version)
    (create_timestamp common_header_length : Z) (post_header_lengths : list Z)
    : fde_post_header :=
  mk_fde_post_header binlog_version (take server_version_length (version_string server_version))
    (u32 create_timestamp) (u8 common_header_length) post_header_lengths.

Definition parse_fde_post_header (portion : list Z) : result fde_post_header :=
  _ ← raise_if ((length portion <? fde_size_in_bytes earliest_supported_protocol_server_version)
                || (fde_size_in_bytes latest_known_protocol_server_version <? length portion))%nat
        (invalid_argument "format_description event post header length is not in allowed range");
  let '(binlog_version, remainder) := extract_fixed_int_from_byte_span 2 portion in
  let '(server_version, remainder) :=
    extract_byte_span_from_byte_span server_version_length remainder in
  let server_version := normalize_for_c_str server_version in
  let zero_lengths := replicate (max_number_of_events - 1) 0 in
  encoded_server_version ← get_encoded_server_version
    (mk_fde_post_header binlog_version server_version 0 0 zero_lengths);
  _ ← raise_if (negb (length portion =? fde_size_in_bytes encoded_server_version)%nat)
        (invalid_argument "format_description event post header length does not match the server version");
  let '(create_timestamp, remainder) := extract_fixed_int_from_byte_span 4 remainder in
  let '(common_header_length, remainder) := extract_fixed_int_from_byte_span 1 remainder in
  let expected_subrange_length := (get_number_of_events encoded_server_version - 1)%nat in
  let '(subrange, remainder) :=
    extract_byte_span_from_byte_span expected_subrange_length remainder in
  let post_header_lengths := subrange ++ drop expected_subrange_length zero_lengths in
  _ ← raise_if (negb (Z.of_nat (length portion) =?
                  get_post_header_length_for_code encoded_server_version post_header_lengths
                    ct_format_description))
        (invalid_argument "format_description event post header length does not match the array");
  Ok (mk_fde_post_header binlog_version server_version create_timestamp common_header_length
        post_header_lengths).

Definition fde_post_header_encode_to (h : fde_post_header) (destination : byte_span)
    : result byte_span :=
  encoded_server_version ← get_encoded_server_version h;
  _ ← raise_if (span_size destination <? fde_size_in_bytes encoded_server_version)%nat
        (invalid_argument "cannot encode format description event post header");
  let destination := insert_fixed_int_to_byte_span 2 (fde_binlog_version h) destination in
  let destination := insert_byte_span_to_byte_span (fde_server_version h) destination in
  let zero_filled_buffer :=
    replicate (server_version_length - length (fde_server_version h)) 0 in
  let destination := insert_byte_span_to_byte_span zero_filled_buffer destination in
  let destination := insert_fixed_int_to_byte_span 4 (fde_create_timestamp h) destination in
  let destination := insert_fixed_int_to_byte_span 1 (fde_common_header_length h) destination in
  let expected_subrange_length := (get_number_of_events encoded_server_version - 1)%nat in
  Ok (insert_byte_span_to_byte_span (take expected_subrange_length (fde_post_header_lengths h))
        destination).

(** [checksum_algorithm_type] *)
Definition checksum_off : Z := 0.
Definition checksum_crc32 : Z := 1.
Definition checksum_delimiter : Z := 2.

Definition fde_body_size : nat := 1.
Definition parse_fde_body (portion : list Z) : result Z :=
  _ ← raise_if (negb (length portion =? fde_body_size)%nat)
        (invalid_argument "invalid format_description event body length");
  let '(checksum_algorithm, _) := extract_fixed_int_from_byte_span 1 portion in
  _ ← raise_if (checksum_delimiter <=? checksum_algorithm)
        (logic_error "invalid checksum algorithm in format_description event body");
  Ok checksum_algorithm.
Definition has_checksum_algorithm (checksum_algorithm : Z) : bool :=
  negb (checksum_algorithm =? checksum_off).
Definition fde_body_encode_to (checksum_algorithm : Z) (destination : byte_span)
    : result byte_span :=
  _ ← raise_if (span_size destination <? fde_body_size)%nat
        (invalid_argument "cannot encode format description body");
  Ok (insert_fixed_int_to_byte_span 1 checksum_algorithm destination).

(** ** PREVIOUS_GTIDS_LOG: body *)
Section previous_gtids.
Context `{IntervalSet} `{BoostUuid}.

(** [generic_body_impl(const gtids::gtid_set &)]: a buffer of the encoded size, filled *)
Definition previous_gtids_body_of_set (gtids : gtid_set) : result (list Z) :=
  s ← encode_to gtids (span_of (replicate (Z.to_nat (calculate_encoded_size gtids)) 0));
  Ok (sp_store s).
Definition parse_previous_gtids_body (portion : list Z) : list Z := portion.
Definition previous_gtids_get_gtids (body : list Z) : result gtid_set := decode body.
Definition previous_gtids_body_encode_to (body : list Z) (destination : byte_span)
    : result byte_span :=
  _ ← raise_if (span_size destination <? length body)%nat
        (invalid_argument "cannot encode previous gtids log event body");
  Ok (write_bytes body destination).
End previous_gtids.

(** ** Lemmas: fields of a portion *)
Lemma get_field_app offset n a v rest :
  length a = offset → in_width (8 * Z.of_nat n) v →
  get_field offset n (a ++ le_split n v ++ rest) = v.
Proof.
  intros <- Hv. unfold get_field, extract_fixed_int_from_byte_span.
  rewrite drop_app_length, take_app_length' by (by rewrite length_le_split).
  rewrite take_ge by (by rewrite length_le_split). by apply le_combine_split_small.
Qed.

Lemma set_field_app offset n v a b rest :
  length a = offset → length b = n →
  set_field offset n v (a ++ b ++ rest) = a ++ le_split n v ++ rest.
Proof.
  intros <- <-. unfold set_field, insert_fixed_int_to_byte_span, write_bytes.
  cbn [sp_store sp_pos]. rewrite length_le_split, take_app_length. do 2 f_equal.
  rewrite drop_app_ge by lia. replace (length a + length b - length a)%nat with (length b) by lia.
  by rewrite drop_app_length.
Qed.

(** ** The encoded common header *)
Definition common_header_bytes (h : common_header) : list Z :=
  le_split 4 (ch_timestamp h) ++ le_split 1 (code_index (ch_type_code h)) ++
  le_split 4 (ch_server_id h) ++ le_split 4 (ch_event_size h) ++
  le_split 4 (ch_next_event_position h) ++ le_split 2 (ch_flags h).

Definition common_header_ok (h : common_header) : Prop :=
  in_width 32 (ch_timestamp h) ∧ in_width 32 (ch_server_id h) ∧
  in_width 32 (ch_event_size h) ∧ in_width 32 (ch_next_event_position h) ∧
  in_width 16 (ch_flags h).

Lemma length_common_header_bytes h : length (common_header_bytes h) = common_header_size_in_bytes.
Proof. unfold common_header_bytes. by rewrite !length_app, !length_le_split. Qed.

Lemma code_index_bound c : 0 ≤ code_index c < code_delimiter.
Proof. by destruct c. Qed.

(** Writing the six fields replaces all 19 bytes. *)
Lemma set_all_fields h uv :
  length uv = common_header_size_in_bytes →
  set_flags_raw (ch_flags h)
    (set_next_event_position_raw (ch_next_event_position h)
      (set_event_size_raw (ch_event_size h)
        (set_server_id_raw (ch_server_id h)
          (set_type_code_raw (code_index (ch_type_code h))
            (set_timestamp_raw (ch_timestamp h) uv))))) = common_header_bytes h.
Proof.
  intros Hl. do 19 (destruct uv as [|? uv]; [discriminate Hl|]).
  destruct uv; [|discriminate Hl]. reflexivity.
Qed.

Lemma parse_common_header_bytes h :
  common_header_ok h → parse_common_header (common_header_bytes h) = Ok h.
Proof.
  intros (Hts & Hsid & Hsz & Hpos & Hfl). pose proof (code_index_bound (ch_type_code h)) as Hc.
  assert (in_width 8 (code_index (ch_type_code h))) as Hcw.
  { unfold in_width, code_delimiter in *. simpl. lia. }
  assert (get_type_code_raw (common_header_bytes h) = code_index (ch_type_code h)) as Etc
    by (by apply get_field_app).
  assert (get_timestamp_raw (common_header_bytes h) = ch_timestamp h) as Ets.
  { by apply (get_field_app timestamp_offset 4 [] (ch_timestamp h)). }
  assert (get_server_id_raw (common_header_bytes h) = ch_server_id h) as Esid.
  { unfold common_header_bytes. rewrite (app_assoc (le_split 4 _)). by apply get_field_app. }
  assert (get_event_size_raw (common_header_bytes h) = ch_event_size h) as Esz.
  { unfold common_header_bytes. rewrite (app_assoc (le_split 4 _)), (app_assoc (_ ++ _)).
    by apply get_field_app. }
  assert (get_next_event_position_raw (common_header_bytes h) = ch_next_event_position h) as Epos.
  { unfold common_header_bytes. rewrite (app_assoc (le_split 4 _)), !(app_assoc (_ ++ _)).
    rewrite <-(app_assoc _ (le_split 4 (ch_next_event_position h))). by apply get_field_app. }
  assert (get_flags_raw (common_header_bytes h) = ch_flags h) as Efl.
  { unfold common_header_bytes. rewrite (app_assoc (le_split 4 _)), !(app_assoc (_ ++ _)).
    rewrite <-(app_nil_r (le_split 2 _)). by apply get_field_app. }
  unfold parse_common_header, common_header_view. rewrite length_common_header_bytes.
  cbn [Nat.eqb negb raise_if mbind result_bind]. rewrite Nat.eqb_refl. cbn [negb raise_if mbind result_bind].
  rewrite Etc. destruct (Z.leb_spec code_delimiter (code_index (ch_type_code h))); [lia|].
  cbn [raise_if mbind result_bind]. rewrite Etc, code_of_index_index. cbn [or_raise mbind result_bind].
  rewrite Ets, Esid, Esz, Epos, Efl. by destruct h.
Qed.

Lemma code_index_of_index i c : code_of_index i = Some c → code_index c = i.
Proof.
  unfold code_of_index. destruct (Z.ltb_spec i 0); [done|]. intros Hc.
  rewrite <-(Z2Nat.id i) by done. revert Hc. generalize (Z.to_nat i). intros k Hk.
  do 43 (destruct k as [|k]; [injection Hk as <-; reflexivity|]). discriminate Hk.
Qed.

Lemma get_field_split offset n portion :
  bytes_ok portion → (offset + n ≤ length portion)%nat →
  le_split n (get_field offset n portion) = take n (drop offset portion).
Proof.
  intros Hb Hl. unfold get_field, extract_fixed_int_from_byte_span. cbn [fst].
  rewrite take_take, Nat.min_id.
  rewrite <-(le_split_combine (take n (drop offset portion))) at 2.
  - by rewrite length_take, length_drop, Nat.min_l by lia.
  - by apply Forall_take, Forall_drop.
Qed.

Lemma get_field_width offset n portion :
  bytes_ok portion → (offset + n ≤ length portion)%nat →
  in_width (8 * Z.of_nat n) (get_field offset n portion).
Proof.
  intros Hb Hl. unfold get_field, extract_fixed_int_from_byte_span. cbn [fst].
  rewrite take_take, Nat.min_id.
  replace n with (length (take n (drop offset portion))) at 1
    by (rewrite length_take, length_drop; lia).
  by apply le_combine_bound, Forall_take, Forall_drop.
Qed.

(** A common header that was read is the encoding of what was read. *)
Lemma parse_common_header_inv l h :
  bytes_ok l → parse_common_header l = Ok h → l = common_header_bytes h ∧ common_header_ok h.
Proof.
  intros Hb Hp. unfold parse_common_header, common_header_view in Hp.
  apply result_bind_ok in Hp as (l' & Hv & Hp).
  apply result_bind_ok in Hv as ([] & Hl & Hv). apply raise_if_ok in Hl. to_prop.
  apply result_bind_ok in Hv as ([] & _ & [= <-]).
  apply result_bind_ok in Hp as (code & Hc & [= <-]). apply or_raise_ok, code_index_of_index in Hc.
  split; [|split_and!; apply get_field_width; (done || rewrite Hl; vm_compute; lia)].
  unfold common_header_bytes. cbn [ch_timestamp ch_type_code ch_server_id ch_event_size
    ch_next_event_position ch_flags]. rewrite Hc.
  unfold get_timestamp_raw, get_type_code_raw, get_server_id_raw, get_event_size_raw,
    get_next_event_position_raw, get_flags_raw.
  rewrite !get_field_split by (done || rewrite Hl; vm_compute; lia).
  do 19 (destruct l as [|? l]; [discriminate Hl|]). destruct l; [reflexivity|discriminate Hl].
Qed.

Lemma get_type_code_take l :
  get_type_code_raw (take common_header_size_in_bytes l) = get_type_code_raw l.
Proof.
  unfold get_type_code_raw, get_field. by rewrite !take_drop_commute, take_take.
Qed.

Lemma common_header_encode_ok h dest :
  (common_header_size_in_bytes ≤ span_size dest)%nat →
  get_type_code_raw (drop (sp_pos dest) (sp_store dest)) < code_delimiter →
  common_header_encode_to h dest = Ok (write_bytes (common_header_bytes h) dest).
Proof.
  intros Hs Hc. unfold common_header_encode_to.
  destruct (Nat.ltb_spec (span_size dest) common_header_size_in_bytes); [lia|].
  cbn [raise_if mbind result_bind]. unfold span_size in Hs.
  set (uv := take common_header_size_in_bytes (drop (sp_pos dest) (sp_store dest))).
  assert (length uv = common_header_size_in_bytes) as Hl
    by (unfold uv; rewrite length_take, length_drop; lia).
  assert (get_type_code_raw uv = get_type_code_raw (drop (sp_pos dest) (sp_store dest))) as Et.
  { apply get_type_code_take. }
  unfold common_header_view. rewrite Hl, Nat.eqb_refl, Et. cbn [negb raise_if mbind result_bind].
  destruct (Z.leb_spec code_delimiter (get_type_code_raw (drop (sp_pos dest) (sp_store dest))));
    [lia|].
  cbn [raise_if mbind result_bind]. by rewrite set_all_fields.
Qed.

(** a common header written to a buffer is read back unchanged; the span moves past
    its 19 bytes.  The byte of the destination that will hold the event code must not
    already hold an invalid code. *)
Theorem common_header_roundtrip h dest :
  common_header_ok h → span_ok dest → (common_header_size_in_bytes ≤ span_size dest)%nat →
  get_type_code_raw (drop (sp_pos dest) (sp_store dest)) < code_delimiter →
  ∃ dest', common_header_encode_to h dest = Ok dest' ∧
    sp_pos dest' = (sp_pos dest + common_header_size_in_bytes)%nat ∧
    parse_common_header (take common_header_size_in_bytes (drop (sp_pos dest) (sp_store dest')))
      = Ok h.
Proof.
  intros Hh Hok Hs Hc. eexists. split; [by apply common_header_encode_ok|].
  split; [unfold write_bytes; cbn [sp_pos]; by rewrite length_common_header_bytes|].
  rewrite read_back, take_app_length' by (done || by rewrite length_common_header_bytes).
  by apply parse_common_header_bytes.
Qed.

(** encoding a common header fails when the destination already holds, at the offset
    of the event code, a byte that is not an event code: the view is validated against
    the old contents of the buffer. *)
Theorem common_header_encode_dirty h dest :
  (common_header_size_in_bytes ≤ span_size dest)%nat →
  code_delimiter ≤ get_type_code_raw (drop (sp_pos dest) (sp_store dest)) →
  common_header_encode_to h dest = Err (logic_error "invalid event code in event header").
Proof.
  intros Hs Hc. unfold common_header_encode_to.
  destruct (Nat.ltb_spec (span_size dest) common_header_size_in_bytes); [lia|].
  cbn [raise_if mbind result_bind]. unfold span_size in Hs. unfold common_header_view.
  rewrite length_take, length_drop, Nat.min_l, Nat.eqb_refl by lia.
  cbn [negb raise_if mbind result_bind].
  assert (get_type_code_raw (take common_header_size_in_bytes (drop (sp_pos dest) (sp_store dest)))
    = get_type_code_raw (drop (sp_pos dest) (sp_store dest))) as ->.
  { apply get_type_code_take. }
  destruct (Z.leb_spec code_delimiter (get_type_code_raw (drop (sp_pos dest) (sp_store dest))));
    [done | lia].
Qed.

(** ** The encoded format description *)
Section fde.
Implicit Types h : fde_post_header.

Definition fde_bytes h (n : nat) : list Z :=
  le_split 2 (fde_binlog_version h) ++
  (fde_server_version h ++
   replicate (server_version_length - length (fde_server_version h)) 0) ++
  le_split 4 (fde_create_timestamp h) ++ le_split 1 (fde_common_header_length h) ++
  take (n - 1) (fde_post_header_lengths h).

(** A post header as the constructors build it for a server version [v]. *)
Definition fde_ok h (v : semantic_version) : Prop :=
  let n := get_number_of_events (get_encoded v) in
  in_width 16 (fde_binlog_version h) ∧ version_of_string (fde_server_version h) = Ok v ∧
  0 ∉ fde_server_version h ∧ (length (fde_server_version h) ≤ server_version_length)%nat ∧
  in_width 32 (fde_create_timestamp h) ∧ in_width 8 (fde_common_header_length h) ∧
  post_header_lengths_ok (fde_post_header_lengths h) ∧
  Forall (λ l, l = 0) (drop (n - 1) (fde_post_header_lengths h)) ∧
  fde_post_header_lengths h !! 14%nat = Some (Z.of_nat (fde_size_in_bytes (get_encoded v))).

Lemma number_of_events_cases v : get_number_of_events v = 42%nat ∨ get_number_of_events v = 43%nat.
Proof. unfold get_number_of_events. case_match; auto. Qed.

Lemma length_fde_bytes h v :
  fde_ok h v →
  length (fde_bytes h (get_number_of_events (get_encoded v))) = fde_size_in_bytes (get_encoded v).
Proof.
  intros (_ & _ & _ & Hl & _ & _ & Hp & _). unfold fde_bytes, fde_size_in_bytes, base_size_in_bytes.
  rewrite !length_app, !length_le_split, length_replicate, length_take.
  unfold post_header_lengths_ok in Hp. change (max_number_of_events - 1)%nat with 42%nat in Hp.
  destruct (number_of_events_cases (get_encoded v)) as [-> | ->];
    unfold server_version_length in *; lia.
Qed.

Lemma fde_encode_ok h v dest :
  fde_ok h v → span_ok dest → (fde_size_in_bytes (get_encoded v) ≤ span_size dest)%nat →
  fde_post_header_encode_to h dest =
    Ok (write_bytes (fde_bytes h (get_number_of_events (get_encoded v))) dest).
Proof.
  intros Hok Hd Hs. pose proof (length_fde_bytes h v Hok) as Hlen.
  destruct Hok as (_ & Hv & _ & Hl & _). unfold fde_post_header_encode_to, get_encoded_server_version.
  rewrite Hv. cbn [mbind result_bind].
  destruct (Nat.ltb_spec (span_size dest) (fde_size_in_bytes (get_encoded v))); [lia|].
  cbn [raise_if mbind result_bind]. unfold insert_fixed_int_to_byte_span, insert_byte_span_to_byte_span.
  f_equal. unfold fde_bytes. rewrite !(write_bytes_app _ _ dest) by done. f_equal. by rewrite <-!app_assoc.
Qed.

Lemma before_zeros n : before 0 (replicate n 0) = [].
Proof. by destruct n. Qed.

Lemma parse_fde_bytes h v :
  fde_ok h v →
  parse_fde_post_header (fde_bytes h (get_number_of_events (get_encoded v))) = Ok h.
Proof.
  intros Hok. pose proof (length_fde_bytes h v Hok) as Hlen.
  destruct Hok as (Hbv & Hv & Hnz & Hl & Hts & Hch & Hp & Hz & H14).
  unfold parse_fde_post_header. rewrite Hlen.
  assert ((fde_size_in_bytes (get_encoded v) <? fde_size_in_bytes earliest_supported_protocol_server_version)%nat
    || (fde_size_in_bytes latest_known_protocol_server_version <? fde_size_in_bytes (get_encoded v))%nat = false) as ->.
  { unfold fde_size_in_bytes. by destruct (number_of_events_cases (get_encoded v)) as [-> | ->]. }
  cbn [raise_if mbind result_bind]. unfold fde_bytes, extract_fixed_int_from_byte_span, extract_byte_span_from_byte_span.
  rewrite take_app_length', drop_app_length' by (by rewrite length_le_split).
  rewrite take_app_length', drop_app_length' by
    (rewrite length_app, length_replicate; unfold server_version_length in *; lia).
  unfold normalize_for_c_str. rewrite before_app, before_zeros, app_nil_r by done.
  unfold get_encoded_server_version. cbn [fde_server_version]. rewrite Hv. cbn [mbind result_bind].
  rewrite Nat.eqb_refl. cbn [negb raise_if mbind result_bind].
  rewrite take_app_length', drop_app_length' by (by rewrite length_le_split).
  rewrite take_app_length', drop_app_length' by (by rewrite length_le_split).
  rewrite !le_combine_split_small by done. rewrite take_take, Nat.min_id.
  set (n := (get_number_of_events (get_encoded v) - 1)%nat) in *.
  assert (take n (fde_post_header_lengths h) ++ drop n (replicate (max_number_of_events - 1) 0)
    = fde_post_header_lengths h) as ->.
  { rewrite <-(take_drop n (fde_post_header_lengths h)) at 2. f_equal.
    unfold post_header_lengths_ok in Hp. rewrite drop_replicate, <-Hp, <-length_drop.
    apply replicate_as_Forall. split; [done|]. by eapply Forall_impl; [done|]. }
  assert (get_post_header_length_for_code (get_encoded v) (fde_post_header_lengths h)
    ct_format_description = Z.of_nat (fde_size_in_bytes (get_encoded v))) as ->.
  { unfold get_post_header_length_for_code. change (code_index ct_format_description) with 15.
    change (Z.to_nat (15 - 1)) with 14%nat. rewrite H14. unfold fde_size_in_bytes.
    by destruct (number_of_events_cases (get_encoded v)) as [-> | ->]. }
  rewrite Z.eqb_refl. cbn [negb raise_if mbind result_bind]. by destruct h.
Qed.

(** a format description post header written to a buffer is read back unchanged: the
    version string, padded with zeros, and the table of post header lengths, whose size
    depends on the version, survive. *)
Theorem fde_post_header_roundtrip h v dest :
  fde_ok h v → span_ok dest → (fde_size_in_bytes (get_encoded v) ≤ span_size dest)%nat →
  ∃ dest', fde_post_header_encode_to h dest = Ok dest' ∧
    parse_fde_post_header (take (fde_size_in_bytes (get_encoded v))
      (drop (sp_pos dest) (sp_store dest'))) = Ok h.
Proof.
  intros Hok Hd Hs. eexists. split; [by apply fde_encode_ok|].
  rewrite read_back, take_app_length' by (done || by rewrite length_fde_bytes).
  by apply parse_fde_bytes.
Qed.

(** a server version that does not parse terminates the program: the constructor calls
    a [noexcept] member function whose body throws, so the exception never reaches a
    handler. *)
Theorem fde_bad_version_terminates portion :
  length portion = 98%nat ∨ length portion = 99%nat →
  is_ok (version_of_string (normalize_for_c_str (take server_version_length (drop 2 portion))))
    = false →
  ∃ what, parse_fde_post_header portion = Err (terminate what).
Proof.
  intros Hl Hv. unfold parse_fde_post_header.
  assert ((length portion <? fde_size_in_bytes earliest_supported_protocol_server_version)%nat
    || (fde_size_in_bytes latest_known_protocol_server_version <? length portion)%nat = false) as ->
    by (destruct Hl as [-> | ->]; done).
  cbn [raise_if mbind result_bind extract_fixed_int_from_byte_span extract_byte_span_from_byte_span].
  unfold get_encoded_server_version. cbn [fde_server_version].
  destruct (version_of_string _); [discriminate Hv|]. eauto.
Qed.
End fde.

Module ProtocolExamples.
Definition sample_header : common_header :=
  mk_common_header 1700000000 ct_query 7 100 104 0.

Lemma common_header_roundtrip_witness :
  ∃ dest', common_header_encode_to sample_header (span_of (replicate 20 0)) = Ok dest' ∧
    parse_common_header (take 19 (sp_store dest')) = Ok sample_header.
Proof.
  destruct (common_header_roundtrip sample_header (span_of (replicate 20 0)))
    as (dest' & He & _ & Hp); [by vm_compute | unfold span_ok; simpl; lia | vm_compute; lia | by vm_compute |].
  exists dest'. by split.
Defined.

(** A buffer that starts as all ones. *)
Lemma common_header_encode_dirty_witness :
  is_ok (common_header_encode_to sample_header (span_of (replicate 19 255))) = false.
Proof. by rewrite common_header_encode_dirty by (vm_compute; lia || done). Defined.

Definition sample_version : semantic_version := mk_semantic_version 8 0 45.
Definition sample_fde : fde_post_header :=
  make_fde_post_header default_binlog_version sample_version 1700000000 19
    (replicate 14 0 ++ [98] ++ replicate 27 0).

Lemma fde_post_header_roundtrip_witness :
  ∃ dest', fde_post_header_encode_to sample_fde (span_of (replicate 98 0)) = Ok dest' ∧
    parse_fde_post_header (sp_store dest') = Ok sample_fde.
Proof.
  destruct (fde_post_header_roundtrip sample_fde sample_version (span_of (replicate 98 0)))
    as (dest' & He & Hp).
  - repeat apply conj; try (apply (bool_decide_unpack _); by vm_compute); by vm_compute.
  - unfold span_ok. simpl. lia.
  - apply (bool_decide_unpack _). by vm_compute.
  - exists dest'. split; [done|]. rewrite <-Hp. f_equal.
    enough (Hok : match fde_post_header_encode_to sample_fde (span_of (replicate 98 0)) with
      | Ok d => sp_store d = take 98 (sp_store d) | Err _ => False end)
      by (rewrite He in Hok; exact Hok).
    by vm_compute.
Defined.

(** "8.x" is not a version. *)
Lemma fde_bad_version_terminates_witness :
  ∃ what, parse_fde_post_header ([4; 0] ++ text "8.x" ++ replicate 93 0) = Err (terminate what).
Proof. apply fde_bad_version_terminates; [by left | by vm_compute]. Defined.
End ProtocolExamples.
