(* ===== verification/GtidLog.v ===== *)
(** * GTID_LOG and ANONYMOUS_GTID_LOG events

    Models gtid_log_post_header.{hpp,cpp} and gtid_log_body.{hpp,cpp} of
    src/src/binsrv/events/.  Both event types use these two classes.

    The signed 64-bit members are signed [Z]s; an optional member that is unset holds
    the greatest value of its type, as in the code. *)

From S2P Require Import Prelude ByteSpan OrderedMap IntervalSet Gtid Util Protocol.

Local Open Scope Z_scope.

(** ** Post header *)
Record gtid_log_post_header := mk_gtid_log_post_header {
  glh_flags : Z;
  glh_uuid : uuid;
  glh_gno : Z;              (* std::int64_t *)
  glh_logical_ts_code : Z;
  glh_last_committed : Z;   (* std::int64_t *)
  glh_sequence_number : Z   (* std::int64_t *)
}.

Definition gtid_log_post_header_size : nat := 42.
Definition known_logical_ts_code : Z := 2.

Definition parse_gtid_log_post_header (portion : list Z) : result gtid_log_post_header :=
  _ ← raise_if (negb (length portion =? gtid_log_post_header_size)%nat)
        (invalid_argument "invalid gtid_log event post header length");
  let '(flags, remainder) := extract_fixed_int_from_byte_span 1 portion in
  let '(u, remainder) := extract_byte_array_from_byte_span uuid_length remainder in
  let '(gno, remainder) := extract_fixed_int_signed 8 remainder in
  let '(logical_ts_code, remainder) := extract_fixed_int_from_byte_span 1 remainder in
  _ ← raise_if (negb (logical_ts_code =? known_logical_ts_code))
        (invalid_argument "unsupported logical timestamp code in gtid_log post header");
  let '(last_committed, remainder) := extract_fixed_int_signed 8 remainder in
  let '(sequence_number, remainder) := extract_fixed_int_signed 8 remainder in
  Ok (mk_gtid_log_post_header flags u gno logical_ts_code last_committed sequence_number).

(** [static_cast<std::uint64_t>] of the raw members *)
Definition glh_get_gno (h : gtid_log_post_header) : Z := u64 (glh_gno h).
Definition glh_get_last_committed (h : gtid_log_post_header) : Z := u64 (glh_last_committed h).
Definition glh_get_sequence_number (h : gtid_log_post_header) : Z := u64 (glh_sequence_number h).
Definition glh_set_last_committed_raw (v : Z) (h : gtid_log_post_header) : gtid_log_post_header :=
  mk_gtid_log_post_header (glh_flags h) (glh_uuid h) (glh_gno h) (glh_logical_ts_code h)
    v (glh_sequence_number h).
Definition glh_set_sequence_number_raw (v : Z) (h : gtid_log_post_header) : gtid_log_post_header :=
  mk_gtid_log_post_header (glh_flags h) (glh_uuid h) (glh_gno h) (glh_logical_ts_code h)
    (glh_last_committed h) v.

Definition glh_get_gtid `{BoostUuid} (h : gtid_log_post_header) : result gtid :=
  if glh_get_gno h <? min_gno then Ok empty_gtid
  else make_gtid (glh_uuid h) [] (glh_get_gno h).

Definition gtid_log_post_header_encode_to (h : gtid_log_post_header) (destination : byte_span)
    : result byte_span :=
  _ ← raise_if (span_size destination <? gtid_log_post_header_size)%nat
        (invalid_argument "cannot encode rotate event post header");
  let destination := insert_fixed_int_to_byte_span 1 (glh_flags h) destination in
  let destination := insert_byte_span_to_byte_span (glh_uuid h) destination in
  let destination := insert_fixed_int_signed 8 (glh_gno h) destination in
  let destination := insert_fixed_int_to_byte_span 1 (glh_logical_ts_code h) destination in
  let destination := insert_fixed_int_signed 8 (glh_last_committed h) destination in
  Ok (insert_fixed_int_signed 8 (glh_sequence_number h) destination).

(** ** Body *)
Record gtid_log_body := mk_gtid_log_body {
  glb_immediate_commit_timestamp : Z;
  glb_original_commit_timestamp : Z;
  glb_transaction_length : Z;
  glb_immediate_server_version : Z;
  glb_original_server_version : Z;
  glb_commit_group_ticket : Z
}.

Definition unset_commit_timestamp : Z := 2 ^ 64 - 1.
Definition unset_transaction_length : Z := 2 ^ 64 - 1.
Definition unset_server_version : Z := 2 ^ 32 - 1.
Definition unset_commit_group_ticket : Z := 2 ^ 64 - 1.
Definition commit_timestamp_field_length : nat := 7.
Definition server_version_field_length : nat := 4.
Definition commit_group_ticket_field_length : nat := 8.
Definition commit_timestamp_mask : Z := Z.shiftl 1 (7 * 8 - 1).
Definition server_version_mask : Z := Z.shiftl 1 (4 * 8 - 1).

Definition has_original_commit_timestamp (b : gtid_log_body) : bool :=
  negb (glb_original_commit_timestamp b =? unset_commit_timestamp).
Definition has_immediate_server_version (b : gtid_log_body) : bool :=
  negb (glb_immediate_server_version b =? unset_server_version).
Definition has_original_server_version (b : gtid_log_body) : bool :=
  negb (glb_original_server_version b =? unset_server_version).
Definition has_commit_group_ticket (b : gtid_log_body) : bool :=
  negb (glb_commit_group_ticket b =? unset_commit_group_ticket).

(** A timestamp and, when its top bit is set, a second one. *)
Definition parse_commit_timestamps (remainder : list Z) : result (Z * Z * list Z) :=
  '(immediate, remainder) ← or_raise
    (extract_fixed_int_from_byte_span_checked commit_timestamp_field_length remainder)
    (invalid_argument "gtid_log event body is too short to extract immediate commit timestamp");
  if negb (Z.land immediate commit_timestamp_mask =? 0) then
    let immediate := Z.land immediate (2 ^ 64 - 1 - commit_timestamp_mask) in
    '(original, remainder) ← or_raise
      (extract_fixed_int_from_byte_span_checked commit_timestamp_field_length remainder)
      (invalid_argument "gtid_log event body is too short to extract original commit timestamp");
    Ok (immediate, original, remainder)
  else Ok (immediate, unset_commit_timestamp, remainder).

(** The optional tail: server versions and the commit group ticket. *)
Definition parse_versions_and_ticket (remainder : list Z) : result (Z * Z * Z * list Z) :=
  if (server_version_field_length <=? length remainder)%nat then
    let '(immediate, remainder) :=
      extract_fixed_int_from_byte_span server_version_field_length remainder in
    '(immediate, original, remainder) ←
      (if negb (Z.land immediate server_version_mask =? 0) then
         let immediate := Z.land immediate (2 ^ 32 - 1 - server_version_mask) in
         '(original, remainder) ← or_raise
           (extract_fixed_int_from_byte_span_checked server_version_field_length remainder)
           (invalid_argument "gtid_log event body is too short to extract original server version");
         Ok (immediate, original, remainder)
       else Ok (immediate, unset_server_version, remainder));
    if (commit_group_ticket_field_length <=? length remainder)%nat then
      let '(ticket, remainder) :=
        extract_fixed_int_from_byte_span commit_group_ticket_field_length remainder in
      Ok (immediate, original, ticket, remainder)
    else Ok (immediate, original, unset_commit_group_ticket, remainder)
  else Ok (unset_server_version, unset_server_version, unset_commit_group_ticket, remainder).

Definition parse_gtid_log_body (portion : list Z) : result gtid_log_body :=
  '(immediate_ts, original_ts, remainder) ← parse_commit_timestamps portion;
  '(transaction_length, remainder) ← or_raise
    (extract_packed_int_from_byte_span_checked remainder)
    (invalid_argument "unable to extract transaction length from the gtid_log event body");
  '(immediate_v, original_v, ticket, remainder) ← parse_versions_and_ticket remainder;
  _ ← raise_if (negb (bool_decide (remainder = [])))
        (invalid_argument "extra bytes in the gtid_log event body");
  Ok (mk_gtid_log_body immediate_ts original_ts transaction_length immediate_v original_v ticket).

Definition gtid_log_body_encoded_size (b : gtid_log_body) : nat :=
  (commit_timestamp_field_length +
   (if has_original_commit_timestamp b then commit_timestamp_field_length else 0) +
   calculate_packed_int_size (glb_transaction_length b) +
   (if has_immediate_server_version b then
      server_version_field_length +
      (if has_original_server_version b then server_version_field_length else 0) +
      (if has_commit_group_ticket b then commit_group_ticket_field_length else 0)
    else 0))%nat.

(** The result of the checked inserter is not looked at: when it fails the destination
    stays as it is. *)
Definition gtid_log_body_encode_to (b : gtid_log_body) (destination : byte_span)
    : result byte_span :=
  _ ← raise_if (span_size destination <? gtid_log_body_encoded_size b)%nat
        (invalid_argument "cannot encode rotate event body");
  let patched_immediate_commit_timestamp :=
    Z.lor (glb_immediate_commit_timestamp b)
      (if has_original_commit_timestamp b then commit_timestamp_mask else 0) in
  let destination := insert_fixed_int_to_byte_span commit_timestamp_field_length
                       patched_immediate_commit_timestamp destination in
  let destination :=
    if has_original_commit_timestamp b then
      insert_fixed_int_to_byte_span commit_timestamp_field_length
        (glb_original_commit_timestamp b) destination
    else destination in
  let destination := default destination
    (insert_packed_int_to_byte_span_checked (glb_transaction_length b) destination) in
  if has_immediate_server_version b then
    let patched_immediate_server_version :=
      Z.lor (glb_immediate_server_version b)
        (if has_original_server_version b then server_version_mask else 0) in
    let destination := insert_fixed_int_to_byte_span server_version_field_length
                         patched_immediate_server_version destination in
    let destination :=
      if has_original_server_version b then
        insert_fixed_int_to_byte_span server_version_field_length
          (glb_original_server_version b) destination
      else destination in
    let destination :=
      if has_commit_group_ticket b then
        insert_fixed_int_to_byte_span commit_group_ticket_field_length
          (glb_commit_group_ticket b) destination
      else destination in
    Ok destination
  else Ok destination.

(** ** Lemmas: a flag bit above a value *)
Section masks.
Context (k w v : Z).
Hypotheses (Hk : 0 ≤ k < w) (Hv : 0 ≤ v < 2 ^ k).

Lemma low_bits_above i : k ≤ i → Z.testbit v i = false.
Proof.
  intros Hi. destruct (decide (v = 0)) as [->|]; [apply Z.bits_0|].
  apply Z.bits_above_log2; [lia|]. assert (Z.log2 v < k) by (apply Z.log2_lt_pow2; lia). lia.
Qed.

Lemma mask_clear : Z.land v (2 ^ k) = 0.
Proof.
  apply Z.bits_inj'. intros i Hi. rewrite Z.land_spec, Z.bits_0, Z.pow2_bits_eqb by lia.
  destruct (Z.eqb_spec k i) as [<-|]; [|apply andb_false_r]. by rewrite low_bits_above.
Qed.

Lemma mask_set : Z.land (Z.lor v (2 ^ k)) (2 ^ k) = 2 ^ k.
Proof.
  apply Z.bits_inj'. intros i Hi. rewrite Z.land_spec, Z.lor_spec, Z.pow2_bits_eqb by lia.
  destruct (k =? i); [|by rewrite andb_false_r]. by rewrite orb_true_r.
Qed.

Lemma mask_width : in_width (k + 1) (Z.lor v (2 ^ k)).
Proof.
  assert (Z.lor v (2 ^ k) = v + 2 ^ k) as ->.
  { rewrite <-Z.add_lor_land, mask_clear. lia. }
  unfold in_width. rewrite Z.pow_add_r by lia. lia.
Qed.

Lemma mask_cleared : Z.land (Z.lor v (2 ^ k)) (2 ^ w - 1 - 2 ^ k) = v.
Proof.
  assert (2 ^ w - 1 - 2 ^ k = Z.ldiff (Z.ones w) (2 ^ k)) as ->.
  { rewrite <-Z.sub_nocarry_ldiff; [rewrite Z.ones_equiv; lia|].
    apply Z.bits_inj'. intros i Hi. rewrite Z.ldiff_spec, Z.bits_0, Z.pow2_bits_eqb by lia.
    destruct (Z.eqb_spec k i) as [<-|]; [|done]. by rewrite Z.ones_spec_low by lia. }
  apply Z.bits_inj'. intros i Hi.
  rewrite Z.land_spec, Z.lor_spec, Z.ldiff_spec, Z.pow2_bits_eqb by lia.
  destruct (Z.eqb_spec k i) as [<-|].
  - by rewrite low_bits_above, andb_false_r by lia.
  - rewrite orb_false_r, andb_true_r. destruct (decide (i < w)).
    + rewrite Z.ones_spec_low by lia. apply andb_true_r.
    + rewrite low_bits_above by lia. done.
Qed.
End masks.

(** ** The encoded post header *)
Section gtid_log_header.
Implicit Types h : gtid_log_post_header.

Definition int64 (v : Z) : Prop := - 2 ^ 63 ≤ v < 2 ^ 63.

Definition gtid_log_post_header_ok h : Prop :=
  in_width 8 (glh_flags h) ∧ uuid_ok (glh_uuid h) ∧ int64 (glh_gno h) ∧
  glh_logical_ts_code h = known_logical_ts_code ∧ int64 (glh_last_committed h) ∧
  int64 (glh_sequence_number h).

Definition gtid_log_post_header_bytes h : list Z :=
  le_split 1 (glh_flags h) ++ glh_uuid h ++ le_split 8 (u64 (glh_gno h)) ++
  le_split 1 (glh_logical_ts_code h) ++ le_split 8 (u64 (glh_last_committed h)) ++
  le_split 8 (u64 (glh_sequence_number h)).

Lemma length_gtid_log_post_header_bytes h :
  uuid_ok (glh_uuid h) → length (gtid_log_post_header_bytes h) = gtid_log_post_header_size.
Proof.
  intros [Hl _]. unfold gtid_log_post_header_bytes.
  by rewrite !length_app, !length_le_split, Hl.
Qed.

Lemma to_signed_wrap v : int64 v → to_signed 64 (u64 v) = v.
Proof.
  unfold int64, to_signed, wrap. intros Hv. destruct (decide (0 ≤ v)).
  - rewrite Z.mod_small by lia. destruct (Z.ltb_spec v (2 ^ (64 - 1))); simpl in *; lia.
  - assert (v mod 2 ^ 64 = v + 2 ^ 64) as ->.
    { rewrite <-(Z.mod_small (v + 2 ^ 64) (2 ^ 64)) by lia.
      by rewrite <-Z.add_mod_idemp_r, Z.mod_same, Z.add_0_r by lia. }
    destruct (Z.ltb_spec (v + 2 ^ 64) (2 ^ (64 - 1))); simpl in *; lia.
Qed.

Lemma extract_signed_app v rest :
  int64 v → extract_fixed_int_signed 8 (le_split 8 (u64 v) ++ rest) = (v, rest).
Proof.
  intros Hv. unfold extract_fixed_int_signed, extract_fixed_int_from_byte_span.
  rewrite take_app_length', drop_app_length' by (by rewrite length_le_split).
  rewrite le_combine_split_small by (by apply (wrap_bound 64)).
  change (8 * Z.of_nat 8) with 64. by rewrite to_signed_wrap.
Qed.

Lemma extract_fixed_unchecked_app n v rest :
  in_width (8 * Z.of_nat n) v →
  extract_fixed_int_from_byte_span n (le_split n v ++ rest) = (v, rest).
Proof.
  intros Hv. unfold extract_fixed_int_from_byte_span.
  rewrite take_app_length', drop_app_length' by (by rewrite length_le_split).
  by rewrite le_combine_split_small.
Qed.

Lemma gtid_log_post_header_encode_ok h dest :
  span_ok dest → (gtid_log_post_header_size ≤ span_size dest)%nat →
  gtid_log_post_header_encode_to h dest = Ok (write_bytes (gtid_log_post_header_bytes h) dest).
Proof.
  intros Hd Hs. unfold gtid_log_post_header_encode_to.
  destruct (Nat.ltb_spec (span_size dest) gtid_log_post_header_size); [lia|].
  cbn [raise_if mbind result_bind].
  unfold insert_fixed_int_signed, insert_fixed_int_to_byte_span, insert_byte_span_to_byte_span.
  change (8 * Z.of_nat 8) with 64. rewrite !(write_bytes_app _ _ dest) by done.
  unfold gtid_log_post_header_bytes. by rewrite <-!app_assoc.
Qed.

Lemma parse_gtid_log_post_header_bytes h :
  gtid_log_post_header_ok h →
  parse_gtid_log_post_header (gtid_log_post_header_bytes h) = Ok h.
Proof.
  intros (Hf & Hu & Hg & Ht & Hl & Hs). unfold parse_gtid_log_post_header.
  rewrite length_gtid_log_post_header_bytes, Nat.eqb_refl by done.
  cbn [negb raise_if mbind result_bind]. unfold gtid_log_post_header_bytes.
  rewrite extract_fixed_unchecked_app by done. unfold extract_byte_array_from_byte_span.
  destruct Hu as [Hu _]. rewrite take_app_length', drop_app_length' by done.
  rewrite extract_signed_app by done. rewrite extract_fixed_unchecked_app by (by rewrite Ht).
  rewrite Ht, Z.eqb_refl. cbn [negb raise_if mbind result_bind].
  rewrite extract_signed_app by done. rewrite <-(app_nil_r (le_split 8 (u64 (glh_sequence_number h)))).
  rewrite extract_signed_app by done. rewrite <-Ht. by destruct h.
Qed.
(** A post header that was read has its members in their ranges. *)
Lemma extract_signed_bounds l x r :
  extract_fixed_int_signed 8 l = (x, r) → bytes_ok l → (8 ≤ length l)%nat → int64 x ∧ r = drop 8 l.
Proof.
  unfold extract_fixed_int_signed, extract_fixed_int_from_byte_span. intros [= <- <-] Hb Hl.
  change (8 * Z.of_nat 8) with 64. split; [|done].
  pose proof (le_combine_bound (take 8 l) (Forall_take _ 8 _ Hb)) as Hw.
  rewrite length_take, Nat.min_l in Hw by done.
  change (8 * Z.of_nat 8) with 64 in Hw. unfold in_width, int64, to_signed in *.
  change (2 ^ (64 - 1)) with (2 ^ 63). destruct (Z.ltb_spec (le_combine (take 8 l)) (2 ^ 63)); lia.
Qed.

Lemma parse_gtid_log_decoded l h :
  bytes_ok l → parse_gtid_log_post_header l = Ok h → gtid_log_post_header_ok h.
Proof.
  intros Hb Hp. unfold parse_gtid_log_post_header in Hp.
  apply result_bind_ok in Hp as ([] & Hl & Hp). apply raise_if_ok in Hl. to_prop.
  unfold extract_fixed_int_from_byte_span, extract_byte_array_from_byte_span in Hp.
  assert (∀ n, bytes_ok (drop n l)) as Hd by (intros n; by apply Forall_drop).
  rewrite !drop_drop in Hp.
  destruct (extract_fixed_int_signed 8 _) as [gno r1] eqn:E1 in Hp.
  apply extract_signed_bounds in E1 as [Hg ->]; [|done|rewrite length_drop, Hl; vm_compute; lia].
  apply result_bind_ok in Hp as ([] & Hc & Hp). apply raise_if_ok in Hc. to_prop.
  rewrite !drop_drop in Hp.
  destruct (extract_fixed_int_signed 8 _) as [lc r2] eqn:E2 in Hp.
  apply extract_signed_bounds in E2 as [Hlc ->]; [|done|rewrite length_drop, Hl; vm_compute; lia].
  rewrite !drop_drop in Hp. destruct (extract_fixed_int_signed 8 _) as [sn r3] eqn:E3 in Hp.
  apply extract_signed_bounds in E3 as [Hsn ->]; [|done|rewrite length_drop, Hl; vm_compute; lia].
  injection Hp as <-. split_and!; try done.
  - pose proof (le_combine_bound (take 1 l) (Forall_take _ 1 _ Hb)) as Hw.
    by rewrite length_take, Hl in Hw.
  - split; cbn [glh_uuid]; [by rewrite length_take, length_drop, Hl | by apply Forall_take].
  - cbn [glh_logical_ts_code]. by rewrite drop_drop in Hc.
Qed.
End gtid_log_header.

(** ** The encoded body *)
Section gtid_log_body_proofs.
Implicit Types b : gtid_log_body.

Definition timestamps_bytes b : list Z :=
  le_split 7 (Z.lor (glb_immediate_commit_timestamp b)
    (if has_original_commit_timestamp b then commit_timestamp_mask else 0)) ++
  (if has_original_commit_timestamp b then le_split 7 (glb_original_commit_timestamp b) else []).
Definition versions_bytes b : list Z :=
  if has_immediate_server_version b then
    le_split 4 (Z.lor (glb_immediate_server_version b)
      (if has_original_server_version b then server_version_mask else 0)) ++
    (if has_original_server_version b then le_split 4 (glb_original_server_version b) else []) ++
    (if has_commit_group_ticket b then le_split 8 (glb_commit_group_ticket b) else [])
  else [].
Definition gtid_log_body_bytes b : list Z :=
  timestamps_bytes b ++ packed_bytes (glb_transaction_length b) ++ versions_bytes b.

(** Values that the fields of the encoding can hold; without an immediate server version
    there is no original one and no ticket. *)
Definition gtid_log_body_ok b : Prop :=
  0 ≤ glb_immediate_commit_timestamp b < 2 ^ 55 ∧
  (glb_original_commit_timestamp b = unset_commit_timestamp ∨
   in_width 56 (glb_original_commit_timestamp b)) ∧
  in_width 64 (glb_transaction_length b) ∧
  ((glb_immediate_server_version b = unset_server_version ∧
    glb_original_server_version b = unset_server_version ∧
    glb_commit_group_ticket b = unset_commit_group_ticket) ∨
   (0 ≤ glb_immediate_server_version b < 2 ^ 31 ∧
    in_width 32 (glb_original_server_version b) ∧
    in_width 64 (glb_commit_group_ticket b))).

Lemma length_gtid_log_body_bytes b :
  length (gtid_log_body_bytes b) = gtid_log_body_encoded_size b.
Proof.
  unfold gtid_log_body_bytes, timestamps_bytes, versions_bytes, gtid_log_body_encoded_size.
  rewrite !length_app, length_packed_bytes, length_le_split.
  destruct (has_original_commit_timestamp b), (has_immediate_server_version b),
    (has_original_server_version b), (has_commit_group_ticket b);
    rewrite ?length_app, ?length_le_split;
    unfold commit_timestamp_field_length, server_version_field_length,
      commit_group_ticket_field_length; simpl; lia.
Qed.

Lemma gtid_log_body_encode_ok b dest :
  span_ok dest → (gtid_log_body_encoded_size b ≤ span_size dest)%nat →
  gtid_log_body_encode_to b dest = Ok (write_bytes (gtid_log_body_bytes b) dest).
Proof.
  intros Hd Hs. unfold gtid_log_body_encode_to.
  destruct (Nat.ltb_spec (span_size dest) (gtid_log_body_encoded_size b)); [lia|].
  cbn [raise_if mbind result_bind]. unfold insert_fixed_int_to_byte_span.
  assert ((if has_original_commit_timestamp b then
      write_bytes (le_split commit_timestamp_field_length (glb_original_commit_timestamp b))
        (write_bytes (le_split commit_timestamp_field_length (Z.lor (glb_immediate_commit_timestamp b)
          (if has_original_commit_timestamp b then commit_timestamp_mask else 0))) dest)
    else write_bytes (le_split commit_timestamp_field_length (Z.lor (glb_immediate_commit_timestamp b)
          (if has_original_commit_timestamp b then commit_timestamp_mask else 0))) dest) =
    write_bytes (timestamps_bytes b) dest) as ->.
  { unfold timestamps_bytes. destruct (has_original_commit_timestamp b);
      [by rewrite write_bytes_app | by rewrite app_nil_r]. }
  rewrite <-length_gtid_log_body_bytes in Hs. unfold gtid_log_body_bytes in Hs |- *.
  rewrite !length_app in Hs.
  rewrite insert_packed_spec by (apply write_bytes_ok; [done|lia]).
  rewrite span_size_write by (done || lia). rewrite <-length_packed_bytes.
  destruct (Nat.ltb_spec (span_size dest - length (timestamps_bytes b))
    (length (packed_bytes (glb_transaction_length b)))); [lia|]. cbn [default from_option id].
  rewrite !(write_bytes_app _ _ dest) by done. rewrite app_assoc.
  unfold versions_bytes. destruct (has_immediate_server_version b); [|by rewrite app_nil_r].
  destruct (has_original_server_version b), (has_commit_group_ticket b);
    rewrite ?(write_bytes_app _ _ dest) by done; f_equal; f_equal;
    rewrite ?app_nil_r, <-!app_assoc; done.
Qed.

Lemma parse_timestamps_bytes b rest :
  gtid_log_body_ok b →
  parse_commit_timestamps (timestamps_bytes b ++ rest) =
    Ok (glb_immediate_commit_timestamp b, glb_original_commit_timestamp b, rest).
Proof.
  intros (Hi & Ho & _). unfold parse_commit_timestamps, timestamps_bytes, commit_timestamp_field_length.
  change commit_timestamp_mask with (2 ^ 55). rewrite <-app_assoc.
  destruct (has_original_commit_timestamp b) eqn:E; unfold has_original_commit_timestamp in E; to_prop.
  - destruct Ho as [?|Ho]; [done|]. rewrite extract_fixed_app by (apply (mask_width 55 64); lia).
    cbn [or_raise mbind result_bind]. rewrite (mask_set 55 64), (mask_cleared 55 64) by lia.
    change (negb (2 ^ 55 =? 0)) with true. cbv iota. rewrite extract_fixed_app by done. done.
  - rewrite Z.lor_0_r. rewrite extract_fixed_app by (unfold in_width; simpl in *; lia).
    cbn [or_raise mbind result_bind app]. rewrite (mask_clear 55 64) by lia. cbn. by rewrite E.
Qed.

Lemma parse_versions_bytes b :
  gtid_log_body_ok b →
  parse_versions_and_ticket (versions_bytes b) =
    Ok (glb_immediate_server_version b, glb_original_server_version b,
        glb_commit_group_ticket b, []).
Proof.
  intros (_ & _ & _ & Hv). unfold parse_versions_and_ticket, versions_bytes.
  destruct (has_immediate_server_version b) eqn:Ei; unfold has_immediate_server_version in Ei; to_prop.
  2: { destruct Hv as [(-> & -> & ->)|(Hi & _)]; [done|]. unfold unset_server_version in *. lia. }
  destruct Hv as [(? & _)|(Hi & Ho & Ht)]; [done|]. rewrite length_app, length_le_split.
  unfold server_version_field_length, commit_group_ticket_field_length.
  destruct (Nat.leb_spec 4 (4 + length ((if has_original_server_version b then le_split 4 (glb_original_server_version b) else []) ++
     (if has_commit_group_ticket b then le_split 8 (glb_commit_group_ticket b) else [])))); [|lia].
  change server_version_mask with (2 ^ 31).
  set (ticket := if has_commit_group_ticket b then _ else _).
  match goal with |- (let '(i, r) := ?e in _) = _ =>
    assert (e = (Z.lor (glb_immediate_server_version b)
      (if has_original_server_version b then 2 ^ 31 else 0),
      (if has_original_server_version b then le_split 4 (glb_original_server_version b) else []) ++
      ticket)) as -> end.
  { apply extract_fixed_unchecked_app. destruct (has_original_server_version b).
    - apply (mask_width 31 32); lia.
    - rewrite Z.lor_0_r. unfold in_width. simpl in *. lia. }
  cbv iota beta.
  match goal with |- (?e ≫= _) = _ =>
    assert (e = Ok (glb_immediate_server_version b, glb_original_server_version b, ticket)) as -> end.
  { destruct (has_original_server_version b) eqn:E; unfold has_original_server_version in E; to_prop.
    - rewrite (mask_set 31 32), (mask_cleared 31 32) by lia. change (negb (2 ^ 31 =? 0)) with true. cbv iota.
      by rewrite extract_fixed_app.
    - rewrite Z.lor_0_r, (mask_clear 31 32) by lia. cbn. by rewrite E. }
  cbn [mbind result_bind]. unfold ticket.
  destruct (has_commit_group_ticket b) eqn:E; unfold has_commit_group_ticket in E; to_prop.
  - rewrite length_le_split. cbn [Nat.leb]. rewrite <-(app_nil_r (le_split 8 _)).
    by rewrite extract_fixed_unchecked_app.
  - cbn. by rewrite E.
Qed.

Lemma parse_gtid_log_body_bytes b :
  gtid_log_body_ok b → parse_gtid_log_body (gtid_log_body_bytes b) = Ok b.
Proof.
  intros Hok. unfold parse_gtid_log_body, gtid_log_body_bytes.
  rewrite parse_timestamps_bytes by done. cbn [mbind result_bind].
  rewrite extract_packed_app by apply Hok. cbn [or_raise mbind result_bind].
  rewrite parse_versions_bytes by done. cbn. by destruct b.
Qed.
End gtid_log_body_proofs.

(** the post header and the body of a GTID_LOG event, written one after the other to a
    buffer, are read back unchanged, and occupy the sizes the classes announce: the flag
    bits that mark the optional fields are set and cleared consistently. *)
Theorem gtid_log_roundtrip h b dest :
  gtid_log_post_header_ok h → gtid_log_body_ok b → span_ok dest →
  (gtid_log_post_header_size + gtid_log_body_encoded_size b ≤ span_size dest)%nat →
  ∃ d1 d2, gtid_log_post_header_encode_to h dest = Ok d1 ∧
    gtid_log_body_encode_to b d1 = Ok d2 ∧
    sp_pos d2 = (sp_pos dest + gtid_log_post_header_size + gtid_log_body_encoded_size b)%nat ∧
    parse_gtid_log_post_header
      (take gtid_log_post_header_size (drop (sp_pos dest) (sp_store d2))) = Ok h ∧
    parse_gtid_log_body
      (take (gtid_log_body_encoded_size b)
        (drop (sp_pos dest + gtid_log_post_header_size) (sp_store d2))) = Ok b.
Proof.
  intros Hh Hb Hd Hs. pose proof (length_gtid_log_post_header_bytes h (proj1 (proj2 Hh))) as Hl.
  pose proof (length_gtid_log_body_bytes b) as Hlb.
  do 2 eexists. split; [apply gtid_log_post_header_encode_ok; [done|lia]|].
  split; [apply gtid_log_body_encode_ok; [apply write_bytes_ok | rewrite span_size_write]; done || lia|].
  rewrite write_bytes_app by done.
  split; [unfold write_bytes; cbn [sp_pos]; rewrite length_app; lia|].
  rewrite <-drop_drop, read_back by done. rewrite <-app_assoc. split.
  - rewrite take_app_length' by done. by apply parse_gtid_log_post_header_bytes.
  - rewrite drop_app_length', take_app_length' by done. by apply parse_gtid_log_body_bytes.
Qed.

Module GtidLogExamples.
Import UuidModel.
Definition sample_gtid_log_header : gtid_log_post_header :=
  mk_gtid_log_post_header 1 sample_uuid 7 2 3 (-4).
Definition sample_gtid_log_body : gtid_log_body :=
  mk_gtid_log_body 1700000000000000 1600000000000000 300 80045 80300 9.

Lemma gtid_log_roundtrip_witness :
  ∃ d1 d2, gtid_log_post_header_encode_to sample_gtid_log_header (span_of (replicate 100 0)) = Ok d1 ∧
    gtid_log_body_encode_to sample_gtid_log_body d1 = Ok d2 ∧ sp_pos d2 = 75%nat ∧
    parse_gtid_log_body (take 33 (drop 42 (sp_store d2))) = Ok sample_gtid_log_body.
Proof.
  destruct (gtid_log_roundtrip sample_gtid_log_header sample_gtid_log_body
    (span_of (replicate 100 0))) as (d1 & d2 & H1 & H2 & H3 & _ & H5).
  - repeat apply conj; try (apply (bool_decide_unpack _); by vm_compute); by vm_compute.
  - repeat apply conj; try (apply (bool_decide_unpack _); by vm_compute).
  - unfold span_ok. simpl. lia.
  - apply (bool_decide_unpack _). by vm_compute.
  - exists d1, d2. done.
Defined.
End GtidLogExamples.
