(* ===== verification/GtidTaggedLog.v ===== *)
(** * GTID_TAGGED_LOG events

    Models gtid_tagged_log_body_impl.{hpp,cpp} of src/src/binsrv/events/: a framing header
    of three variable-length integers followed by a sequence of fields, each a field id
    and its data. *)

From S2P Require Import Prelude ByteSpan OrderedMap IntervalSet Gtid GtidSetEncoding Util.
From S2P Require Import Protocol GtidLog.

Local Open Scope Z_scope.

(** [field_id_type] *)
Definition field_flags : Z := 0.
Definition field_uuid : Z := 1.
Definition field_gno : Z := 2.
Definition field_tag : Z := 3.
Definition field_last_committed : Z := 4.
Definition field_sequence_number : Z := 5.
Definition field_immediate_commit_timestamp : Z := 6.
Definition field_original_commit_timestamp : Z := 7.
Definition field_transaction_length : Z := 8.
Definition field_immediate_server_version : Z := 9.
Definition field_original_server_version : Z := 10.
Definition field_commit_group_ticket : Z := 11.
Definition known_serialization_version_number : Z := 1.
Definition known_last_non_ignorable_field_id : Z := 0.

Record tagged_body := mk_tagged_body {
  tb_flags : Z;
  tb_uuid : uuid;
  tb_gno : Z;               (* std::int64_t *)
  tb_tag : list Z;
  tb_last_committed : Z;    (* std::int64_t *)
  tb_sequence_number : Z;   (* std::int64_t *)
  tb_immediate_commit_timestamp : Z;
  tb_original_commit_timestamp : Z;
  tb_transaction_length : Z;
  tb_immediate_server_version : Z;
  tb_original_server_version : Z;
  tb_commit_group_ticket : Z
}.

(** the default member initialisers *)
Definition default_tagged_body : tagged_body :=
  mk_tagged_body 0 (replicate uuid_length 0) 0 [] 0 0 unset_commit_timestamp
    unset_commit_timestamp unset_transaction_length unset_server_version
    unset_server_version unset_commit_group_ticket.

Definition tb_has_original_commit_timestamp (b : tagged_body) : bool :=
  negb (tb_original_commit_timestamp b =? unset_commit_timestamp).
Definition tb_has_original_server_version (b : tagged_body) : bool :=
  negb (tb_original_server_version b =? unset_server_version).
Definition tb_has_commit_group_ticket (b : tagged_body) : bool :=
  negb (tb_commit_group_ticket b =? unset_commit_group_ticket).

Definition tb_get_gno (b : tagged_body) : Z := u64 (tb_gno b).
Definition tb_get_last_committed (b : tagged_body) : Z := u64 (tb_last_committed b).
Definition tb_get_sequence_number (b : tagged_body) : Z := u64 (tb_sequence_number b).

(** Assignments to the members *)
Definition with_flags v b := mk_tagged_body v (tb_uuid b) (tb_gno b) (tb_tag b)
  (tb_last_committed b) (tb_sequence_number b) (tb_immediate_commit_timestamp b)
  (tb_original_commit_timestamp b) (tb_transaction_length b) (tb_immediate_server_version b)
  (tb_original_server_version b) (tb_commit_group_ticket b).
Definition with_uuid v b := mk_tagged_body (tb_flags b) v (tb_gno b) (tb_tag b)
  (tb_last_committed b) (tb_sequence_number b) (tb_immediate_commit_timestamp b)
  (tb_original_commit_timestamp b) (tb_transaction_length b) (tb_immediate_server_version b)
  (tb_original_server_version b) (tb_commit_group_ticket b).
Definition with_gno v b := mk_tagged_body (tb_flags b) (tb_uuid b) v (tb_tag b)
  (tb_last_committed b) (tb_sequence_number b) (tb_immediate_commit_timestamp b)
  (tb_original_commit_timestamp b) (tb_transaction_length b) (tb_immediate_server_version b)
  (tb_original_server_version b) (tb_commit_group_ticket b).
Definition with_tag v b := mk_tagged_body (tb_flags b) (tb_uuid b) (tb_gno b) v
  (tb_last_committed b) (tb_sequence_number b) (tb_immediate_commit_timestamp b)
  (tb_original_commit_timestamp b) (tb_transaction_length b) (tb_immediate_server_version b)
  (tb_original_server_version b) (tb_commit_group_ticket b).
Definition with_last_committed v b := mk_tagged_body (tb_flags b) (tb_uuid b) (tb_gno b) (tb_tag b)
  v (tb_sequence_number b) (tb_immediate_commit_timestamp b)
  (tb_original_commit_timestamp b) (tb_transaction_length b) (tb_immediate_server_version b)
  (tb_original_server_version b) (tb_commit_group_ticket b).
Definition with_sequence_number v b := mk_tagged_body (tb_flags b) (tb_uuid b) (tb_gno b) (tb_tag b)
  (tb_last_committed b) v (tb_immediate_commit_timestamp b)
  (tb_original_commit_timestamp b) (tb_transaction_length b) (tb_immediate_server_version b)
  (tb_original_server_version b) (tb_commit_group_ticket b).
Definition with_immediate_commit_timestamp v b := mk_tagged_body (tb_flags b) (tb_uuid b) (tb_gno b)
  (tb_tag b) (tb_last_committed b) (tb_sequence_number b) v
  (tb_original_commit_timestamp b) (tb_transaction_length b) (tb_immediate_server_version b)
  (tb_original_server_version b) (tb_commit_group_ticket b).
Definition with_original_commit_timestamp v b := mk_tagged_body (tb_flags b) (tb_uuid b) (tb_gno b)
  (tb_tag b) (tb_last_committed b) (tb_sequence_number b) (tb_immediate_commit_timestamp b)
  v (tb_transaction_length b) (tb_immediate_server_version b)
  (tb_original_server_version b) (tb_commit_group_ticket b).
Definition with_transaction_length v b := mk_tagged_body (tb_flags b) (tb_uuid b) (tb_gno b)
  (tb_tag b) (tb_last_committed b) (tb_sequence_number b) (tb_immediate_commit_timestamp b)
  (tb_original_commit_timestamp b) v (tb_immediate_server_version b)
  (tb_original_server_version b) (tb_commit_group_ticket b).
Definition with_immediate_server_version v b := mk_tagged_body (tb_flags b) (tb_uuid b) (tb_gno b)
  (tb_tag b) (tb_last_committed b) (tb_sequence_number b) (tb_immediate_commit_timestamp b)
  (tb_original_commit_timestamp b) (tb_transaction_length b) v
  (tb_original_server_version b) (tb_commit_group_ticket b).
Definition with_original_server_version v b := mk_tagged_body (tb_flags b) (tb_uuid b) (tb_gno b)
  (tb_tag b) (tb_last_committed b) (tb_sequence_number b) (tb_immediate_commit_timestamp b)
  (tb_original_commit_timestamp b) (tb_transaction_length b) (tb_immediate_server_version b)
  v (tb_commit_group_ticket b).
Definition with_commit_group_ticket v b := mk_tagged_body (tb_flags b) (tb_uuid b) (tb_gno b)
  (tb_tag b) (tb_last_committed b) (tb_sequence_number b) (tb_immediate_commit_timestamp b)
  (tb_original_commit_timestamp b) (tb_transaction_length b) (tb_immediate_server_version b)
  (tb_original_server_version b) v.

(** [get_gtid]: both the tag and the GTID are validated here *)
Definition tb_get_gtid `{BoostUuid} (b : tagged_body) : result gtid :=
  t ← tag_of_name (tb_tag b);
  make_gtid (tb_uuid b) t (tb_get_gno b).

(** ** Decoding *)

(** the lambda [varlen_int_extractor], for an unsigned and for a signed target *)
Definition varlen_int_extractor (sizeof_T : nat) (source : list Z) : result (Z * list Z) :=
  or_raise (extract_varlen_int_from_byte_span_checked sizeof_T source)
    (invalid_argument "gtid_tagged_log event body is too short to extract the field").
Definition varlen_int_extractor_signed (sizeof_T : nat) (source : list Z) : result (Z * list Z) :=
  or_raise (extract_varlen_int_signed_checked sizeof_T source)
    (invalid_argument "gtid_tagged_log event body is too short to extract the field").

(** The loop over the 16 bytes of the UUID, each a variable-length integer *)
Fixpoint uuid_extractor (count : nat) (source : list Z) : result (list Z * list Z) :=
  match count with
  | O => Ok ([], source)
  | S count =>
      '(b, source) ← varlen_int_extractor 1 source;
      '(bs, source) ← uuid_extractor count source;
      Ok (b :: bs, source)
  end.

Definition process_field_data (field_id : Z) (remainder : list Z) (b : tagged_body)
    : result (tagged_body * list Z) :=
  if field_id =? field_flags then
    '(v, remainder) ← varlen_int_extractor 1 remainder; Ok (with_flags v b, remainder)
  else if field_id =? field_uuid then
    '(v, remainder) ← uuid_extractor uuid_length remainder; Ok (with_uuid v b, remainder)
  else if field_id =? field_gno then
    '(v, remainder) ← varlen_int_extractor_signed 8 remainder; Ok (with_gno v b, remainder)
  else if field_id =? field_tag then
    '(extracted_tag_length, remainder) ← varlen_int_extractor 8 remainder;
    (* the resize of a static_vector beyond its capacity throws *)
    _ ← raise_if (Z.of_nat tag_max_length <? extracted_tag_length) bad_alloc;
    '(v, remainder) ← or_raise
      (extract_byte_span_from_byte_span_checked (Z.to_nat extracted_tag_length) remainder)
      (invalid_argument "gtid_tagged_log event body is too short to extract tag data");
    Ok (with_tag v b, remainder)
  else if field_id =? field_last_committed then
    '(v, remainder) ← varlen_int_extractor_signed 8 remainder;
    Ok (with_last_committed v b, remainder)
  else if field_id =? field_sequence_number then
    '(v, remainder) ← varlen_int_extractor_signed 8 remainder;
    Ok (with_sequence_number v b, remainder)
  else if field_id =? field_immediate_commit_timestamp then
    '(v, remainder) ← varlen_int_extractor 8 remainder;
    Ok (with_immediate_commit_timestamp v b, remainder)
  else if field_id =? field_original_commit_timestamp then
    '(v, remainder) ← varlen_int_extractor 8 remainder;
    Ok (with_original_commit_timestamp v b, remainder)
  else if field_id =? field_transaction_length then
    '(v, remainder) ← varlen_int_extractor 8 remainder;
    Ok (with_transaction_length v b, remainder)
  else if field_id =? field_immediate_server_version then
    '(v, remainder) ← varlen_int_extractor 4 remainder;
    Ok (with_immediate_server_version v b, remainder)
  else if field_id =? field_original_server_version then
    '(v, remainder) ← varlen_int_extractor 4 remainder;
    Ok (with_original_server_version v b, remainder)
  else if field_id =? field_commit_group_ticket then
    '(v, remainder) ← varlen_int_extractor 8 remainder;
    Ok (with_commit_group_ticket v b, remainder)
  else Err (invalid_argument "unknown field_id in the gtid_tagged_log event body").

(** The bits of [remaining_field_ids] that are set: at first all but the optional ones. *)
Definition required_field_ids : list Z := [0; 1; 2; 3; 4; 5; 6; 8; 9].
Definition reset_field (field_id : Z) (remaining : list Z) : list Z :=
  filter (λ i, i ≠ field_id) remaining.

(** The [while] loop over the fields; every iteration consumes at least the field id. *)
Fixpoint field_loop (fuel : nat) (b : tagged_body) (remaining : list Z)
    (last_seen_field_id : Z) (remainder : list Z) : result (tagged_body * list Z * list Z) :=
  match extract_varlen_int_from_byte_span_checked 1 remainder with
  | None => Ok (b, remaining, remainder)
  | Some (field_id, remainder) =>
      match fuel with
      | O => Err out_of_fuel
      | S fuel =>
          _ ← raise_if (negb (last_seen_field_id =? 255) && (field_id <=? last_seen_field_id))
                (invalid_argument "broken field_id sequence in the gtid_tagged_log event body");
          _ ← raise_if ((field_id <=? known_last_non_ignorable_field_id) &&
                        negb (field_id =? 0) && negb (field_id =? last_seen_field_id + 1))
                (invalid_argument "violated last_non_ignorable_field_id rule in the gtid_tagged_log event body");
          '(b, remainder) ← process_field_data field_id remainder b;
          field_loop fuel b (reset_field field_id remaining) field_id remainder
      end
  end.

Definition parse_tagged_body (portion : list Z) : result tagged_body :=
  '(serialization_version_number, remainder) ← or_raise
    (extract_varlen_int_from_byte_span_checked 1 portion)
    (invalid_argument "gtid_tagged_log event body is too short to extract serialization_version_number");
  _ ← raise_if (negb (serialization_version_number =? known_serialization_version_number))
        (invalid_argument "unexpected serialization_version_number in the gtid_tagged_log event body");
  '(serializable_field_size, remainder) ← or_raise
    (extract_varlen_int_from_byte_span_checked 8 remainder)
    (invalid_argument "gtid_tagged_log event body is too short to extract serializable_field_size");
  _ ← raise_if (negb (serializable_field_size =? Z.of_nat (length portion)))
        (invalid_argument "invalid serializable_field_size in the gtid_tagged_log event body");
  '(last_non_ignorable_field_id, remainder) ← or_raise
    (extract_varlen_int_from_byte_span_checked 1 remainder)
    (invalid_argument "gtid_tagged_log event body is too short to extract last_non_ignorable_field_id");
  _ ← raise_if (negb (last_non_ignorable_field_id =? known_last_non_ignorable_field_id))
        (invalid_argument "unexpected last_non_ignorable_field_id in the gtid_tagged_log event body");
  '(b, remaining, remainder) ←
    field_loop (length remainder) default_tagged_body required_field_ids 255 remainder;
  _ ← raise_if (negb (bool_decide (remaining = [])))
        (invalid_argument "missing required non-optional fields in the gtid_tagged_log event body");
  _ ← raise_if (negb (bool_decide (remainder = [])))
        (invalid_argument "extra bytes in the gtid_log event body");
  Ok b.

(** ** Encoding *)
Definition signed64_size (v : Z) : Z := calculate_varlen_int_size_signed 64 v.

Definition calculate_tlv_section_size (b : tagged_body) : Z :=
  let size := calculate_varlen_int_size in
  let total := 0 in
  let total := total + size field_flags + size (tb_flags b) in
  let total := total + size field_uuid in
  let total := foldl (λ total uuid_byte, total + size uuid_byte) total (tb_uuid b) in
  let total := total + size field_gno + signed64_size (tb_gno b) in
  let total := total + size field_tag + size (Z.of_nat (length (tb_tag b))) +
               Z.of_nat (length (tb_tag b)) in
  let total := total + size field_last_committed + signed64_size (tb_last_committed b) in
  let total := total + size field_sequence_number + signed64_size (tb_sequence_number b) in
  let total := total + size field_immediate_commit_timestamp +
               size (tb_immediate_commit_timestamp b) in
  let total := if tb_has_original_commit_timestamp b
    then total + size field_original_commit_timestamp + size (tb_original_commit_timestamp b)
    else total in
  let total := total + size field_transaction_length + size (tb_transaction_length b) in
  let total := total + size field_immediate_server_version +
               size (tb_immediate_server_version b) in
  let total := if tb_has_original_server_version b
    then total + size field_original_server_version + size (tb_original_server_version b)
    else total in
  if tb_has_commit_group_ticket b
  then total + size field_commit_group_ticket + size (tb_commit_group_ticket b)
  else total.

(** The iteration for the width of the size field: [iterations] are those left. *)
Fixpoint size_width (iterations : nat) (tail width : Z) : Z :=
  let new_width := calculate_varlen_int_size (u64 (tail + width)) in
  if new_width =? width then width
  else match iterations with
       | O => width
       | S iterations => size_width iterations tail new_width
       end.
Definition max_number_of_iterations : nat := 9.

Definition tagged_body_encoded_size (b : tagged_body) : Z :=
  let framing_misc_size :=
    calculate_varlen_int_size known_serialization_version_number +
    calculate_varlen_int_size known_last_non_ignorable_field_id in
  let tail := framing_misc_size + calculate_tlv_section_size b in
  tail + size_width max_number_of_iterations tail 1.

(** The results of the checked inserters are ignored: one that fails leaves the
    destination as it is. *)
Definition emit (v : Z) (destination : byte_span) : byte_span :=
  default destination (insert_varlen_int_to_byte_span_checked v destination).
Definition emit_signed (v : Z) (destination : byte_span) : byte_span :=
  default destination (insert_varlen_int_signed_checked 64 v destination).

Definition encode_tlv_section_to (b : tagged_body) (destination : byte_span) : byte_span :=
  let destination := emit (tb_flags b) (emit field_flags destination) in
  let destination := emit field_uuid destination in
  let destination := foldl (λ d uuid_byte, emit uuid_byte d) destination (tb_uuid b) in
  let destination := emit_signed (tb_gno b) (emit field_gno destination) in
  let destination := emit field_tag destination in
  let destination := emit (Z.of_nat (length (tb_tag b))) destination in
  let destination := insert_byte_span_to_byte_span (tb_tag b) destination in
  let destination := emit_signed (tb_last_committed b) (emit field_last_committed destination) in
  let destination := emit_signed (tb_sequence_number b) (emit field_sequence_number destination) in
  let destination := emit (tb_immediate_commit_timestamp b)
    (emit field_immediate_commit_timestamp destination) in
  let destination := if tb_has_original_commit_timestamp b
    then emit (tb_original_commit_timestamp b) (emit field_original_commit_timestamp destination)
    else destination in
  let destination := emit (tb_transaction_length b) (emit field_transaction_length destination) in
  let destination := emit (tb_immediate_server_version b)
    (emit field_immediate_server_version destination) in
  let destination := if tb_has_original_server_version b
    then emit (tb_original_server_version b) (emit field_original_server_version destination)
    else destination in
  if tb_has_commit_group_ticket b
  then emit (tb_commit_group_ticket b) (emit field_commit_group_ticket destination)
  else destination.

Definition tagged_body_encode_to (b : tagged_body) (destination : byte_span) : result byte_span :=
  let encoded_size := tagged_body_encoded_size b in
  _ ← raise_if (Z.of_nat (span_size destination) <? encoded_size)
        (invalid_argument "cannot encode gtid_tagged_log event body");
  let destination := emit known_serialization_version_number destination in
  let destination := emit encoded_size destination in
  let destination := emit known_last_non_ignorable_field_id destination in
  Ok (encode_tlv_section_to b destination).

(** ** The self-referential size *)
Section size_width.
Context (tail : Z).
Hypothesis Htail : 0 ≤ tail ∧ tail + 9 < 2 ^ 64.

Lemma varlen_size_mono a b :
  0 ≤ a ≤ b → calculate_varlen_int_size a ≤ calculate_varlen_int_size b.
Proof.
  intros Hab. unfold calculate_varlen_int_size. rewrite !Z.shiftr_div_pow2 by lia.
  apply Z.add_le_mono_r, Z.div_le_mono; [lia|]. apply Z.mul_le_mono_nonneg_r; [lia|].
  unfold bit_width. destruct (Z.eqb_spec a 0), (Z.eqb_spec b 0); try lia.
  - pose proof (Z.log2_nonneg b). lia.
  - apply Z.add_le_mono_r, Z.log2_le_mono. lia.
Qed.

Lemma width_bound w : 1 ≤ w ≤ 9 → 1 ≤ calculate_varlen_int_size (u64 (tail + w)) ≤ 9.
Proof. intros Hw. apply varlen_size_bound. apply (wrap_bound 64). lia. Qed.

(** The widths tried increase, so that the iteration ends at a fixed point. *)
Lemma size_width_fixed n w :
  1 ≤ w ≤ 9 → w ≤ calculate_varlen_int_size (u64 (tail + w)) → 9 - w ≤ Z.of_nat n →
  let r := size_width n tail w in
  1 ≤ r ≤ 9 ∧ calculate_varlen_int_size (u64 (tail + r)) = r.
Proof.
  revert w. induction n as [|n IH]; intros w Hw Hle Hn; cbn [size_width];
    pose proof (width_bound w Hw) as Hb;
    destruct (Z.eqb_spec (calculate_varlen_int_size (u64 (tail + w))) w) as [Heq|Hne]; try done.
  - lia.
  - apply IH; [done| |lia]. rewrite !wrap_small in * by (unfold in_width; lia).
    apply varlen_size_mono. lia.
Qed.

Lemma size_width_spec :
  let w := size_width max_number_of_iterations tail 1 in
  1 ≤ w ≤ 9 ∧ calculate_varlen_int_size (tail + w) = w.
Proof.
  destruct (size_width_fixed max_number_of_iterations 1) as [Hw Hf];
    [lia | apply width_bound; lia | unfold max_number_of_iterations; lia |].
  cbv zeta in *. split; [done|]. rewrite <-Hf at 2. rewrite wrap_small; [done|].
  unfold in_width. lia.
Qed.
End size_width.

(** ** The encoded fields *)
Section tagged_bytes.
Implicit Types b : tagged_body.

Definition zigzag (v : Z) : Z := get_signed_representation_as_unsigned 64 v.
Definition field (id v : Z) : list Z := varlen_bytes id ++ varlen_bytes v.

Definition uuid_field_bytes b : list Z :=
  varlen_bytes field_uuid ++ mjoin (varlen_bytes <$> tb_uuid b).
Definition tag_field_bytes b : list Z :=
  varlen_bytes field_tag ++ varlen_bytes (Z.of_nat (length (tb_tag b))) ++ tb_tag b.
Definition original_timestamp_bytes b : list Z :=
  if tb_has_original_commit_timestamp b
  then field field_original_commit_timestamp (tb_original_commit_timestamp b) else [].
Definition original_version_bytes b : list Z :=
  if tb_has_original_server_version b
  then field field_original_server_version (tb_original_server_version b) else [].
Definition ticket_bytes b : list Z :=
  if tb_has_commit_group_ticket b
  then field field_commit_group_ticket (tb_commit_group_ticket b) else [].

Definition tlv_bytes b : list Z :=
  field field_flags (tb_flags b) ++ uuid_field_bytes b ++
  field field_gno (zigzag (tb_gno b)) ++ tag_field_bytes b ++
  field field_last_committed (zigzag (tb_last_committed b)) ++
  field field_sequence_number (zigzag (tb_sequence_number b)) ++
  field field_immediate_commit_timestamp (tb_immediate_commit_timestamp b) ++
  original_timestamp_bytes b ++
  field field_transaction_length (tb_transaction_length b) ++
  field field_immediate_server_version (tb_immediate_server_version b) ++
  original_version_bytes b ++ ticket_bytes b.

Definition tagged_body_ok b : Prop :=
  in_width 8 (tb_flags b) ∧ uuid_ok (tb_uuid b) ∧ int64 (tb_gno b) ∧
  (length (tb_tag b) ≤ tag_max_length)%nat ∧ int64 (tb_last_committed b) ∧
  int64 (tb_sequence_number b) ∧ in_width 64 (tb_immediate_commit_timestamp b) ∧
  in_width 64 (tb_original_commit_timestamp b) ∧ in_width 64 (tb_transaction_length b) ∧
  in_width 32 (tb_immediate_server_version b) ∧ in_width 32 (tb_original_server_version b) ∧
  in_width 64 (tb_commit_group_ticket b).

Lemma zigzag_width v : int64 v → in_width 64 (zigzag v).
Proof. intros Hv. apply (signed_representation_width 64); [lia | exact Hv]. Qed.

Lemma length_varlen v : in_width 64 v → Z.of_nat (length (varlen_bytes v)) = calculate_varlen_int_size v.
Proof. apply varlen_bytes_spec. Qed.

Lemma length_field id v :
  in_width 64 id → in_width 64 v →
  Z.of_nat (length (field id v)) = calculate_varlen_int_size id + calculate_varlen_int_size v.
Proof. intros Hi Hv. unfold field. rewrite length_app, Nat2Z.inj_add, !length_varlen by done. done. Qed.

Lemma fold_sizes l total :
  Forall (in_width 8) l →
  foldl (λ total x, total + calculate_varlen_int_size x) total l =
    total + Z.of_nat (length (mjoin (varlen_bytes <$> l))).
Proof.
  intros Hl. revert total. induction Hl as [|x l Hx _ IH]; intros total; [simpl; lia|].
  cbn [foldl]. rewrite IH.
  change (mjoin (varlen_bytes <$> x :: l)) with (varlen_bytes x ++ mjoin (varlen_bytes <$> l)).
  rewrite length_app, Nat2Z.inj_add, length_varlen; [lia|]. by apply (in_width_mono 8).
Qed.

(** The size computed field by field is the number of bytes written. *)
Lemma tlv_size_spec b :
  tagged_body_ok b → calculate_tlv_section_size b = Z.of_nat (length (tlv_bytes b)).
Proof.
  intros (Hf & [_ Hu] & Hg & Ht & Hl & Hs & H6 & H7 & H8 & H9 & H10 & H11).
  assert (in_width 64 (tb_flags b)) by (by apply (in_width_mono 8)).
  assert (in_width 64 (tb_immediate_server_version b)) by (by apply (in_width_mono 32)).
  assert (in_width 64 (tb_original_server_version b)) by (by apply (in_width_mono 32)).
  assert (in_width 64 (Z.of_nat (length (tb_tag b)))) as Htl
    by (unfold in_width, tag_max_length in *; lia).
  unfold calculate_tlv_section_size, tlv_bytes. cbv zeta.
  rewrite fold_sizes by done. rewrite !length_app, !Nat2Z.inj_add.
  rewrite !length_field by (done || by apply zigzag_width).
  unfold uuid_field_bytes, tag_field_bytes. rewrite !length_app, !Nat2Z.inj_add.
  rewrite (length_varlen (Z.of_nat _)) by done.
  rewrite (length_varlen field_uuid), (length_varlen field_tag) by done.
  unfold original_timestamp_bytes, original_version_bytes, ticket_bytes, signed64_size,
    calculate_varlen_int_size_signed. fold (zigzag (tb_gno b)).
  fold (zigzag (tb_last_committed b)) (zigzag (tb_sequence_number b)).
  destruct (tb_has_original_commit_timestamp b), (tb_has_original_server_version b),
    (tb_has_commit_group_ticket b); rewrite ?length_field by done; cbn [length]; lia.
Qed.

(** ** Writing *)
Lemma emit_ok v acc dest :
  in_width 64 v → span_ok dest →
  (length acc + length (varlen_bytes v) ≤ span_size dest)%nat →
  emit v (write_bytes acc dest) = write_bytes (acc ++ varlen_bytes v) dest.
Proof.
  intros Hv Hd Hs. unfold emit.
  rewrite insert_varlen_spec by (done || (apply write_bytes_ok; [done|lia])).
  rewrite span_size_write by (done || lia).
  destruct (Nat.ltb_spec (span_size dest - length acc) (length (varlen_bytes v))); [lia|].
  cbn [default from_option id]. by rewrite write_bytes_app.
Qed.

Lemma emit_signed_ok v acc dest :
  int64 v → span_ok dest →
  (length acc + length (varlen_bytes (zigzag v)) ≤ span_size dest)%nat →
  emit_signed v (write_bytes acc dest) = write_bytes (acc ++ varlen_bytes (zigzag v)) dest.
Proof. intros Hv. apply (emit_ok (zigzag v)). by apply zigzag_width. Qed.

Lemma emit_uuid l acc dest :
  Forall (in_width 8) l → span_ok dest →
  (length acc + length (mjoin (varlen_bytes <$> l)) ≤ span_size dest)%nat →
  foldl (λ d x, emit x d) (write_bytes acc dest) l =
    write_bytes (acc ++ mjoin (varlen_bytes <$> l)) dest.
Proof.
  intros Hl Hd. revert acc. induction Hl as [|x l Hx _ IH]; intros acc Hs.
  - cbn. by rewrite app_nil_r.
  - change (mjoin (varlen_bytes <$> x :: l)) with (varlen_bytes x ++ mjoin (varlen_bytes <$> l)) in *.
    rewrite length_app in Hs. cbn [foldl].
    rewrite emit_ok by (done || lia || by apply (in_width_mono 8)).
    rewrite IH by (rewrite length_app; lia). by rewrite <-app_assoc.
Qed.

Lemma emit_field_ok id v acc dest :
  in_width 64 id → in_width 64 v → span_ok dest →
  (length acc + length (field id v) ≤ span_size dest)%nat →
  emit v (emit id (write_bytes acc dest)) = write_bytes (acc ++ field id v) dest.
Proof.
  unfold field. rewrite length_app. intros Hi Hv Hd Hs.
  rewrite (emit_ok id), emit_ok by (done || rewrite ?length_app; lia). by rewrite <-app_assoc.
Qed.

Lemma emit_field_signed_ok id v acc dest :
  in_width 64 id → int64 v → span_ok dest →
  (length acc + length (field id (zigzag v)) ≤ span_size dest)%nat →
  emit_signed v (emit id (write_bytes acc dest)) = write_bytes (acc ++ field id (zigzag v)) dest.
Proof. intros Hi Hv. apply emit_field_ok; [done | by apply zigzag_width]. Qed.

Lemma emit_optional_ok (c : bool) id v acc dest :
  in_width 64 id → in_width 64 v → span_ok dest →
  (length acc + length (if c then field id v else []) ≤ span_size dest)%nat →
  (if c then emit v (emit id (write_bytes acc dest)) else write_bytes acc dest) =
    write_bytes (acc ++ if c then field id v else []) dest.
Proof.
  destruct c; [apply emit_field_ok|]. intros. by rewrite app_nil_r.
Qed.

Lemma encode_tlv_ok b acc dest :
  tagged_body_ok b → span_ok dest → (length acc + length (tlv_bytes b) ≤ span_size dest)%nat →
  encode_tlv_section_to b (write_bytes acc dest) = write_bytes (acc ++ tlv_bytes b) dest.
Proof.
  intros (Hf & [_ Hu] & Hg & Ht & Hl & Hs & H6 & H7 & H8 & H9 & H10 & H11) Hd Hsz.
  assert (in_width 64 (tb_flags b)) by (by apply (in_width_mono 8)).
  assert (in_width 64 (tb_immediate_server_version b)) by (by apply (in_width_mono 32)).
  assert (in_width 64 (tb_original_server_version b)) by (by apply (in_width_mono 32)).
  assert (in_width 64 (Z.of_nat (length (tb_tag b)))) as Htl
    by (unfold in_width, tag_max_length in *; lia).
  unfold tlv_bytes, uuid_field_bytes, tag_field_bytes in *. rewrite !length_app in Hsz.
  unfold encode_tlv_section_to. cbv zeta.
  rewrite (emit_field_ok _ _ _ dest) by (done || lia).
  rewrite (emit_ok _ _ dest) by (done || (rewrite ?length_app; lia)).
  rewrite (emit_uuid _ _ dest) by (done || (rewrite ?length_app; lia)).
  rewrite (emit_field_signed_ok _ _ _ dest) by (done || (rewrite ?length_app; lia)).
  rewrite (emit_ok _ _ dest) by (done || (rewrite ?length_app; lia)).
  rewrite (emit_ok _ _ dest) by (done || (rewrite ?length_app; lia)).
  unfold insert_byte_span_to_byte_span. rewrite (write_bytes_app _ _ dest) by done.
  rewrite (emit_field_signed_ok _ _ _ dest) by (done || (rewrite ?length_app; lia)).
  rewrite (emit_field_signed_ok _ _ _ dest) by (done || (rewrite ?length_app; lia)).
  rewrite (emit_field_ok _ _ _ dest) by (done || (rewrite ?length_app; lia)).
  rewrite (emit_optional_ok _ _ _ _ dest) by (done || (rewrite ?length_app; unfold original_timestamp_bytes in Hsz; lia)).
  fold (original_timestamp_bytes b).
  rewrite (emit_field_ok _ _ _ dest) by (done || (rewrite ?length_app; lia)).
  rewrite (emit_field_ok _ _ _ dest) by (done || (rewrite ?length_app; lia)).
  rewrite (emit_optional_ok _ _ _ _ dest) by (done || (rewrite ?length_app; unfold original_version_bytes in Hsz; lia)).
  fold (original_version_bytes b).
  rewrite (emit_optional_ok _ _ _ _ dest) by (done || (rewrite ?length_app; unfold ticket_bytes in Hsz; lia)).
  fold (ticket_bytes b). f_equal. by rewrite <-!app_assoc.
Qed.

Definition tagged_body_bytes b : list Z :=
  varlen_bytes known_serialization_version_number ++
  varlen_bytes (tagged_body_encoded_size b) ++
  varlen_bytes known_last_non_ignorable_field_id ++ tlv_bytes b.

(** The size of a list of bytes in memory is far below 2^64. *)
Definition tagged_size_ok b : Prop := Z.of_nat (length (tlv_bytes b)) < 2 ^ 63.

(** The size announced inside the body is the size of the body. *)
Lemma length_tagged_body_bytes b :
  tagged_body_ok b → tagged_size_ok b →
  Z.of_nat (length (tagged_body_bytes b)) = tagged_body_encoded_size b ∧
  in_width 64 (tagged_body_encoded_size b).
Proof.
  intros Hok Hsz. unfold tagged_size_ok in Hsz.
  set (tail := calculate_varlen_int_size known_serialization_version_number +
    calculate_varlen_int_size known_last_non_ignorable_field_id + calculate_tlv_section_size b).
  assert (tail = 2 + Z.of_nat (length (tlv_bytes b))) as Ht
    by (unfold tail; rewrite tlv_size_spec by done; reflexivity).
  assert (tagged_body_encoded_size b = tail + size_width max_number_of_iterations tail 1) as He
    by reflexivity.
  destruct (size_width_spec tail) as [Hw Hf]; [lia|]. cbv zeta in Hf.
  assert (in_width 64 (tagged_body_encoded_size b)) as Hin
    by (unfold in_width; rewrite He; lia).
  split; [|done]. unfold tagged_body_bytes. rewrite !length_app, !Nat2Z.inj_add.
  rewrite (length_varlen (tagged_body_encoded_size b)) by done.
  rewrite !length_varlen by done. rewrite He at 1. rewrite Hf, He, Ht.
  change (calculate_varlen_int_size known_serialization_version_number) with 1.
  change (calculate_varlen_int_size known_last_non_ignorable_field_id) with 1. lia.
Qed.

Lemma tagged_body_encode_ok b dest :
  tagged_body_ok b → tagged_size_ok b → span_ok dest →
  tagged_body_encoded_size b ≤ Z.of_nat (span_size dest) →
  tagged_body_encode_to b dest = Ok (write_bytes (tagged_body_bytes b) dest).
Proof.
  intros Hok Hsz Hd Hs. destruct (length_tagged_body_bytes b Hok Hsz) as [Hl Hin].
  unfold tagged_body_encode_to. cbv zeta.
  destruct (Z.ltb_spec (Z.of_nat (span_size dest)) (tagged_body_encoded_size b)); [lia|].
  cbn [raise_if mbind result_bind]. f_equal. unfold tagged_body_bytes in *.
  rewrite !length_app in Hl. rewrite <-(write_bytes_nil dest) at 1.
  rewrite !emit_ok by (done || (rewrite ?length_app; cbn [length]; lia)).
  rewrite encode_tlv_ok by (done || (rewrite ?length_app; cbn [length]; lia)).
  cbn [app]. by rewrite <-!app_assoc.
Qed.

(** ** Reading *)
Lemma extractor_app n v rest :
  (1 ≤ n ≤ 8)%nat → in_width (8 * Z.of_nat n) v →
  varlen_int_extractor n (varlen_bytes v ++ rest) = Ok (v, rest).
Proof. intros Hn Hv. unfold varlen_int_extractor. by rewrite extract_varlen_app. Qed.

Lemma extractor_signed_app v rest :
  int64 v → varlen_int_extractor_signed 8 (varlen_bytes (zigzag v) ++ rest) = Ok (v, rest).
Proof.
  intros Hv. unfold varlen_int_extractor_signed, zigzag. change 64 with (8 * Z.of_nat 8).
  by rewrite extract_varlen_signed_app by (lia || exact Hv).
Qed.

Lemma uuid_extractor_app l rest :
  Forall (in_width 8) l →
  uuid_extractor (length l) (mjoin (varlen_bytes <$> l) ++ rest) = Ok (l, rest).
Proof.
  induction 1 as [|x l Hx _ IH]; [done|]. cbn [length uuid_extractor].
  change (mjoin (varlen_bytes <$> x :: l)) with (varlen_bytes x ++ mjoin (varlen_bytes <$> l)).
  rewrite <-app_assoc, extractor_app by (lia || done). cbn [mbind result_bind].
  by rewrite IH.
Qed.

Lemma field_loop_step fuel b b' remaining last id data rest :
  in_width 8 id → last = 255 ∨ last < id → 0 < id ∨ id = 0 →
  process_field_data id (data ++ rest) b = Ok (b', rest) →
  field_loop (S fuel) b remaining last (varlen_bytes id ++ data ++ rest) =
    field_loop fuel b' (reset_field id remaining) id rest.
Proof.
  intros Hid Hlast Hid0 Hp. cbn [field_loop]. rewrite extract_varlen_app by (lia || done).
  assert (negb (last =? 255) && (id <=? last) = false) as ->.
  { destruct (Z.eqb_spec last 255), (Z.leb_spec id last); simpl; try done; lia. }
  assert ((id <=? known_last_non_ignorable_field_id) && negb (id =? 0) &&
    negb (id =? last + 1) = false) as ->.
  { unfold known_last_non_ignorable_field_id.
    destruct (Z.leb_spec id 0), (Z.eqb_spec id 0); simpl; try done; lia. }
  cbn [raise_if mbind result_bind]. rewrite Hp. done.
Qed.

Lemma field_loop_end fuel b remaining last :
  field_loop fuel b remaining last [] = Ok (b, remaining, []).
Proof. by destruct fuel. Qed.

Lemma tag_field_step fuel b b0 remaining rest :
  (length (tb_tag b) ≤ tag_max_length)%nat →
  field_loop (S fuel) b0 remaining field_gno (tag_field_bytes b ++ rest) =
    field_loop fuel (with_tag (tb_tag b) b0) (reset_field field_tag remaining) field_tag rest.
Proof.
  intros Ht. unfold tag_field_bytes. rewrite <-(app_assoc (varlen_bytes field_tag)).
  apply field_loop_step; [done | by right | by left|]. rewrite <-app_assoc.
  change (process_field_data field_tag) with (λ remainder b,
    '(extracted_tag_length, remainder) ← varlen_int_extractor 8 remainder;
    _ ← raise_if (Z.of_nat tag_max_length <? extracted_tag_length) bad_alloc;
    '(v, remainder) ← or_raise
      (extract_byte_span_from_byte_span_checked (Z.to_nat extracted_tag_length) remainder)
      (invalid_argument "gtid_tagged_log event body is too short to extract tag data");
    Ok (with_tag v b, remainder)). cbv beta.
  rewrite extractor_app by (lia || (unfold in_width, tag_max_length in *; lia)).
  cbn [mbind result_bind].
  destruct (Z.ltb_spec (Z.of_nat tag_max_length) (Z.of_nat (length (tb_tag b)))); [lia|].
  cbn [raise_if mbind result_bind]. rewrite Nat2Z.id.
  unfold extract_byte_span_from_byte_span_checked, extract_byte_span_from_byte_span.
  rewrite length_app.
  destruct (Nat.ltb_spec (length (tb_tag b) + length rest) (length (tb_tag b))); [lia|].
  cbn [or_raise mbind result_bind]. by rewrite take_app_length, drop_app_length.
Qed.

Lemma uuid_field_step fuel b b0 remaining rest :
  uuid_ok (tb_uuid b) →
  field_loop (S fuel) b0 remaining field_flags (uuid_field_bytes b ++ rest) =
    field_loop fuel (with_uuid (tb_uuid b) b0) (reset_field field_uuid remaining) field_uuid rest.
Proof.
  intros [Hl Hu]. unfold uuid_field_bytes. rewrite <-app_assoc.
  apply field_loop_step; [done | by right | by left|].
  change (process_field_data field_uuid) with (λ remainder b,
    '(v, remainder) ← uuid_extractor uuid_length remainder; Ok (with_uuid v b, remainder)).
  cbv beta. rewrite <-Hl, uuid_extractor_app by done. done.
Qed.

(** One field with an integer value. *)
Ltac int_field_step :=
  unfold field at 1; rewrite <-(app_assoc (varlen_bytes _));
  erewrite field_loop_step;
    [ | done | first [by left | right; done] | first [by left | by right]
    | cbv [process_field_data field_flags field_uuid field_gno field_tag field_last_committed
        field_sequence_number field_immediate_commit_timestamp field_original_commit_timestamp
        field_transaction_length field_immediate_server_version field_original_server_version
        field_commit_group_ticket Z.eqb Pos.eqb];
      first [rewrite extractor_app by (lia || done) | rewrite extractor_signed_app by done];
      reflexivity ].

Lemma tlv_loop b fuel :
  tagged_body_ok b →
  field_loop (12 + fuel) default_tagged_body required_field_ids 255 (tlv_bytes b) = Ok (b, [], []).
Proof.
  intros (Hf & Hu & Hg & Ht & Hl & Hs & H6 & H7 & H8 & H9 & H10 & H11). unfold tlv_bytes.
  rewrite <-(app_nil_r (ticket_bytes b)). cbn [Nat.add].
  int_field_step. rewrite uuid_field_step by done. int_field_step.
  rewrite tag_field_step by done. do 3 int_field_step.
  unfold original_timestamp_bytes, original_version_bytes, ticket_bytes.
  destruct (tb_has_original_commit_timestamp b) eqn:E7,
    (tb_has_original_server_version b) eqn:E10, (tb_has_commit_group_ticket b) eqn:E11;
    unfold tb_has_original_commit_timestamp, tb_has_original_server_version,
      tb_has_commit_group_ticket in E7, E10, E11; to_prop;
    cbn [app]; repeat int_field_step; rewrite field_loop_end;
    destruct b; cbn in *; subst; reflexivity.
Qed.

Lemma length_tlv_bytes b : tagged_body_ok b → (12 ≤ length (tlv_bytes b))%nat.
Proof.
  intros (Hf & Hu & Hg & Ht & Hl & Hs & H6 & H7 & H8 & H9 & H10 & H11).
  assert (∀ v, in_width 64 v → (1 ≤ length (varlen_bytes v))%nat) as H1.
  { intros v Hv. pose proof (length_varlen v Hv). pose proof (varlen_size_bound v Hv). lia. }
  assert (∀ i v, in_width 64 i → in_width 64 v → (2 ≤ length (field i v))%nat) as H2.
  { intros i v Hi Hv. unfold field. rewrite length_app. pose proof (H1 i Hi). pose proof (H1 v Hv). lia. }
  unfold tlv_bytes. rewrite !length_app.
  pose proof (H2 field_flags (tb_flags b) ltac:(done) ltac:(by apply (in_width_mono 8))).
  pose proof (H2 field_gno (zigzag (tb_gno b)) ltac:(done) ltac:(by apply zigzag_width)).
  pose proof (H2 field_last_committed (zigzag (tb_last_committed b)) ltac:(done) ltac:(by apply zigzag_width)).
  pose proof (H2 field_sequence_number (zigzag (tb_sequence_number b)) ltac:(done) ltac:(by apply zigzag_width)).
  pose proof (H2 field_immediate_commit_timestamp _ ltac:(done) H6).
  pose proof (H2 field_transaction_length _ ltac:(done) H8). lia.
Qed.

Lemma tlv_loop_enough b fuel :
  tagged_body_ok b → (12 ≤ fuel)%nat →
  field_loop fuel default_tagged_body required_field_ids 255 (tlv_bytes b) = Ok (b, [], []).
Proof.
  intros Hok Hf. replace fuel with (12 + (fuel - 12))%nat by lia. by apply tlv_loop.
Qed.

(** The framing header around any field section of the announced size. *)
Lemma parse_framed n v s tlv :
  in_width 64 n → in_width 8 v → in_width 8 s →
  v = known_serialization_version_number → s = known_last_non_ignorable_field_id →
  Z.of_nat (length (varlen_bytes v ++ varlen_bytes n ++ varlen_bytes s ++ tlv)) = n →
  parse_tagged_body (varlen_bytes v ++ varlen_bytes n ++ varlen_bytes s ++ tlv) =
    ('(b, remaining, remainder) ←
      field_loop (length tlv) default_tagged_body required_field_ids 255 tlv;
    _ ← raise_if (negb (bool_decide (remaining = [])))
          (invalid_argument "missing required non-optional fields in the gtid_tagged_log event body");
    _ ← raise_if (negb (bool_decide (remainder = [])))
          (invalid_argument "extra bytes in the gtid_log event body");
    Ok b).
Proof.
  intros Hn Hv Hs Ev Es Hl. unfold parse_tagged_body. rewrite Hl.
  rewrite extract_varlen_app by (lia || done). cbn [or_raise mbind result_bind].
  rewrite <-Ev, Z.eqb_refl. cbn [negb raise_if mbind result_bind].
  rewrite extract_varlen_app by (lia || done). cbn [or_raise mbind result_bind].
  rewrite Z.eqb_refl. cbn [negb raise_if mbind result_bind].
  rewrite extract_varlen_app by (lia || done). cbn [or_raise mbind result_bind].
  by rewrite <-Es, Z.eqb_refl.
Qed.

Lemma parse_tagged_body_bytes b :
  tagged_body_ok b → tagged_size_ok b → parse_tagged_body (tagged_body_bytes b) = Ok b.
Proof.
  intros Hok Hsz. destruct (length_tagged_body_bytes b Hok Hsz) as [Hl Hin].
  unfold tagged_body_bytes in *. rewrite parse_framed by done.
  rewrite tlv_loop_enough by (done || by apply length_tlv_bytes).
  cbn [mbind result_bind]. by rewrite !bool_decide_eq_true_2.
Qed.
End tagged_bytes.

(** C37: a GTID_TAGGED_LOG body written to a buffer of the announced size is read back
    unchanged and fills exactly that size: the size field, whose own width depends on
    its value, is self-consistent, and the optional fields come back as they were. *)
Theorem tagged_body_roundtrip b dest :
  tagged_body_ok b → tagged_size_ok b → span_ok dest →
  tagged_body_encoded_size b ≤ Z.of_nat (span_size dest) →
  ∃ dest', tagged_body_encode_to b dest = Ok dest' ∧
    Z.of_nat (sp_pos dest') = Z.of_nat (sp_pos dest) + tagged_body_encoded_size b ∧
    parse_tagged_body (take (Z.to_nat (tagged_body_encoded_size b))
      (drop (sp_pos dest) (sp_store dest'))) = Ok b.
Proof.
  intros Hok Hsz Hd Hs. destruct (length_tagged_body_bytes b Hok Hsz) as [Hl Hin].
  eexists. split; [by apply tagged_body_encode_ok|].
  split; [unfold write_bytes; cbn [sp_pos]; lia|].
  rewrite read_back, take_app_length' by (done || lia). by apply parse_tagged_body_bytes.
Qed.

(** the iteration that sizes the body ends at a width [w] for which the total size
    [tail + w] takes exactly [w] bytes to encode, within the nine iterations allowed. *)
Theorem tagged_size_fixpoint tail :
  0 ≤ tail ∧ tail + 9 < 2 ^ 64 →
  let w := size_width max_number_of_iterations tail 1 in
  1 ≤ w ≤ 9 ∧ calculate_varlen_int_size (tail + w) = w.
Proof. apply size_width_spec. Qed.

(** ** Termination of the decoder *)
Lemma extract_varlen_shrinks n r v r' :
  extract_varlen_int_from_byte_span_checked n r = Some (v, r') → (length r' < length r)%nat.
Proof.
  unfold extract_varlen_int_from_byte_span_checked, extract_fixed_int_from_byte_span.
  destruct (extract_fixed_int_from_byte_span_checked 1 r) as [[b r1]|] eqn:E; [|done].
  apply extract_fixed_some in E as (Hl & _ & ->). repeat case_match; intros; simplify_eq;
    rewrite ?length_drop; lia.
Qed.

Lemma varlen_extractor_shrinks n r v r' :
  varlen_int_extractor n r = Ok (v, r') → (length r' ≤ length r)%nat.
Proof. intros Hr%or_raise_ok%extract_varlen_shrinks. lia. Qed.
Lemma varlen_extractor_signed_shrinks n r v r' :
  varlen_int_extractor_signed n r = Ok (v, r') → (length r' ≤ length r)%nat.
Proof.
  unfold varlen_int_extractor_signed, extract_varlen_int_signed_checked. intros Hr%or_raise_ok.
  destruct (extract_varlen_int_from_byte_span_checked n r) as [[d r1]|] eqn:E; [|done].
  apply extract_varlen_shrinks in E. simplify_eq. lia.
Qed.
Lemma uuid_extractor_shrinks n r v r' :
  uuid_extractor n r = Ok (v, r') → (length r' ≤ length r)%nat.
Proof.
  revert r v r'. induction n as [|n IH]; intros r v r' Hr; cbn [uuid_extractor] in Hr; inv_ok; [done|].
  match goal with Hx : varlen_int_extractor _ _ = _, Hu : uuid_extractor _ _ = _ |- _ =>
    apply varlen_extractor_shrinks in Hx; apply IH in Hu end. lia.
Qed.

Lemma process_field_shrinks id r b b' r' :
  process_field_data id r b = Ok (b', r') → (length r' ≤ length r)%nat.
Proof.
  unfold process_field_data, extract_byte_span_from_byte_span_checked, extract_byte_span_from_byte_span.
  intros Hp.
  repeat match type of Hp with (if ?x then _ else _) = _ => destruct x end; try discriminate Hp;
    apply result_bind_ok in Hp as ([v r1] & H1 & Hp);
    first [apply varlen_extractor_shrinks in H1 | apply varlen_extractor_signed_shrinks in H1
          | apply uuid_extractor_shrinks in H1];
    try (injection Hp as _ <-; done).
  apply result_bind_ok in Hp as ([] & _ & Hp). apply result_bind_ok in Hp as ([w r2] & H2 & Hp).
  apply or_raise_ok in H2. injection Hp as _ <-.
  destruct (length r1 <? Z.to_nat v)%nat; [done|]. simplify_eq. rewrite length_drop. lia.
Qed.

Lemma process_field_nofuel id r b : nofuel (process_field_data id r b).
Proof.
  assert (∀ n r, nofuel (uuid_extractor n r)) as Hu.
  { induction n as [|n IH]; intros r'; cbn [uuid_extractor]; [done|]. nofuel. }
  pose proof (Hu uuid_length). unfold process_field_data. nofuel. done.
Qed.

Lemma field_loop_nofuel fuel b remaining last r :
  (length r ≤ fuel)%nat → nofuel (field_loop fuel b remaining last r).
Proof.
  revert b remaining last r. induction fuel as [|fuel IH]; intros b remaining last r Hf;
    cbn [field_loop]; destruct (extract_varlen_int_from_byte_span_checked 1 r) as [[id r1]|] eqn:E;
    try done; apply extract_varlen_shrinks in E; [lia|].
  apply nofuel_bind; [by apply nofuel_raise_if|]. intros _ _.
  apply nofuel_bind; [by apply nofuel_raise_if|]. intros _ _.
  apply nofuel_bind; [apply process_field_nofuel|]. intros [b1 r2] Hp%process_field_shrinks.
  apply IH. lia.
Qed.

Lemma parse_tagged_body_nofuel portion : nofuel (parse_tagged_body portion).
Proof.
  unfold parse_tagged_body. do 6 (apply nofuel_bind; [nofuel|intros ? _]; try case_match).
  apply nofuel_bind; [by apply field_loop_nofuel|]. intros [[b rem] r] _. nofuel.
Qed.

(** ** How the size of a body depends on the transaction length *)
Section transaction_length.
Implicit Types b : tagged_body.

(** Near-by values have sizes that differ by at most one. *)
Lemma varlen_size_near x y :
  0 ≤ x → x ≤ y → y ≤ x + 100 → y < 2 ^ 64 →
  calculate_varlen_int_size y ≤ calculate_varlen_int_size x + 1.
Proof.
  intros Hx Hxy Hy Hw. assert (in_width 64 x) as Hxw by (unfold in_width; lia).
  destruct (varlen_size_bound y) as [Hy9 _]; [unfold in_width; lia|].
  apply (varlen_size_cases (λ k, calculate_varlen_int_size y ≤ k + 1)); [done| |lia].
  intros k Hk Hlt. assert (y < 2 ^ (7 * k + 1)) as Hy2.
  { rewrite Z.pow_add_r by lia. pose proof (Z.pow_le_mono_r 2 7 (7 * k)). lia. }
  assert (bit_width y ≤ 7 * k + 1).
  { unfold bit_width. destruct (Z.eqb_spec y 0); [lia|].
    assert (Z.log2 y < 7 * k + 1) by (apply Z.log2_lt_pow2; lia). lia. }
  unfold calculate_varlen_int_size. rewrite Z.shiftr_div_pow2 by lia. change (2 ^ 12) with 4096. dlia.
Qed.

Lemma size_width_least tail n w fixed :
  0 ≤ tail → 1 ≤ w ≤ fixed → tail + fixed < 2 ^ 64 →
  calculate_varlen_int_size (tail + fixed) ≤ fixed → size_width n tail w ≤ fixed.
Proof.
  intros Ht Hw Hmax Hf. revert w Hw. induction n as [|n IH]; intros w Hw; cbn [size_width];
    rewrite wrap_small by (unfold in_width; lia); destruct (Z.eqb_spec (calculate_varlen_int_size (tail + w)) w);
    try lia.
  pose proof (varlen_size_mono (tail + w) (tail + fixed)).
  destruct (varlen_size_bound (tail + w)) as [? _]; [unfold in_width; lia|]. apply IH. lia.
Qed.

Lemma size_width_mono tail tail' :
  0 ≤ tail ≤ tail' → tail' + 9 < 2 ^ 64 →
  size_width max_number_of_iterations tail 1 ≤ size_width max_number_of_iterations tail' 1.
Proof.
  intros Ht Hmax. destruct (size_width_spec tail') as [Hw Hf]; [lia|]. cbv zeta in *.
  apply size_width_least; try lia. rewrite <-Hf at 2. apply varlen_size_mono. lia.
Qed.

Lemma tlv_size_with_length t b :
  calculate_tlv_section_size (with_transaction_length t b) - calculate_varlen_int_size t =
  calculate_tlv_section_size b - calculate_varlen_int_size (tb_transaction_length b).
Proof.
  destruct b. unfold calculate_tlv_section_size, with_transaction_length, tb_has_original_commit_timestamp,
    tb_has_original_server_version, tb_has_commit_group_ticket. cbn -[calculate_varlen_int_size].
  repeat case_match; lia.
Qed.

(** The fields take a few hundred bytes at most. *)
Lemma tlv_size_bound b : tagged_body_ok b → 12 ≤ calculate_tlv_section_size b ≤ 300.
Proof.
  intros Hok. rewrite tlv_size_spec by done. pose proof (length_tlv_bytes b Hok). split; [lia|].
  rewrite <-tlv_size_spec by done. destruct Hok as (Hf & [Hul Hu] & Hg & Ht & Hl & Hs & H6 & H7 & H8 & H9 & H10 & H11).
  assert (∀ x w, w ≤ 64 → in_width w x → calculate_varlen_int_size x ≤ 9) as Hsize.
  { intros x w Hw Hx. by apply varlen_size_bound, (in_width_mono w). }
  assert (∀ x, int64 x → signed64_size x ≤ 9) as Hsigned.
  { intros x Hx. by apply varlen_size_bound, zigzag_width. }
  assert (∀ x, in_width 8 x → calculate_varlen_int_size x ≤ 2) as Hbyte.
  { intros x [Hx1 Hx2]. change 2 with (calculate_varlen_int_size 255). apply varlen_size_mono. lia. }
  assert (∀ l total, Forall (in_width 8) l →
    foldl (λ total x, total + calculate_varlen_int_size x) total l ≤ total + 2 * Z.of_nat (length l)) as Hfold.
  { induction l as [|x l IH]; intros total Hx; cbn [foldl length]; [lia|]. inversion_clear Hx as [|? ? Hx1 Hx2].
    specialize (IH (total + calculate_varlen_int_size x) Hx2). specialize (Hbyte x Hx1). lia. }
  pose proof (Hbyte _ Hf). pose proof (Hsigned _ Hg). pose proof (Hsigned _ Hl). pose proof (Hsigned _ Hs).
  pose proof (Hsize _ 64 ltac:(lia) H6). pose proof (Hsize _ 64 ltac:(lia) H7). pose proof (Hsize _ 64 ltac:(lia) H8).
  pose proof (Hsize _ 32 ltac:(lia) H9). pose proof (Hsize _ 32 ltac:(lia) H10). pose proof (Hsize _ 64 ltac:(lia) H11).
  assert (calculate_varlen_int_size (Z.of_nat (length (tb_tag b))) ≤ 9).
  { apply (Hsize _ 64); [lia|]. unfold in_width, tag_max_length in *. lia. }
  unfold tag_max_length in Ht. unfold calculate_tlv_section_size. cbv zeta.
  repeat match goal with |- context [calculate_varlen_int_size ?f] =>
    match f with field_flags => idtac | field_uuid => idtac | field_gno => idtac | field_tag => idtac
    | field_last_committed => idtac | field_sequence_number => idtac | field_immediate_commit_timestamp => idtac
    | field_original_commit_timestamp => idtac | field_transaction_length => idtac
    | field_immediate_server_version => idtac | field_original_server_version => idtac
    | field_commit_group_ticket => idtac end; change (calculate_varlen_int_size f) with 1 end.
  specialize (Hfold (tb_uuid b) (0 + 1 + calculate_varlen_int_size (tb_flags b) + 1) Hu). rewrite Hul in Hfold.
  unfold uuid_length in Hfold. repeat case_match; lia.
Qed.
End transaction_length.

(** ** Decoded bodies *)
Section decoded.
Implicit Types b : tagged_body.

Lemma lor_width w x y : 0 ≤ w → in_width w x → in_width w y → in_width w (Z.lor x y).
Proof.
  intros Hw [Hx1 Hx] [Hy1 Hy]. split; [by apply Z.lor_nonneg|].
  rewrite <-(wrap_small w x), <-(wrap_small w y) by done. unfold wrap.
  rewrite <-!Z.land_ones, <-Z.land_lor_distr_l, Z.land_ones by done.
  apply Z.mod_pos_bound. by apply Z.pow_pos_nonneg.
Qed.

Lemma extract_varlen_bounds n l x rest :
  extract_varlen_int_from_byte_span_checked n l = Some (x, rest) → bytes_ok l →
  in_width (8 * Z.of_nat n) x ∧ bytes_ok rest.
Proof.
  unfold extract_varlen_int_from_byte_span_checked, extract_fixed_int_from_byte_span. intros Hx Hb.
  destruct (extract_fixed_int_from_byte_span_checked 1 l) as [[y l1]|] eqn:E; [|done].
  apply extract_fixed_some in E as (_ & _ & ->).
  repeat case_match; simplify_eq; (split;
    [ try apply lor_width; try apply wrap_bound; lia | by repeat apply Forall_drop ]).
Qed.

Lemma varlen_extractor_bounds n l x rest :
  varlen_int_extractor n l = Ok (x, rest) → bytes_ok l → in_width (8 * Z.of_nat n) x ∧ bytes_ok rest.
Proof. intros Hx%or_raise_ok. by apply extract_varlen_bounds. Qed.

Lemma to_signed_int64 x : in_width 64 x → int64 (to_signed 64 x).
Proof.
  unfold in_width, int64, to_signed. intros Hx. change (2 ^ (64 - 1)) with (2 ^ 63).
  destruct (Z.ltb_spec x (2 ^ 63)); lia.
Qed.

Lemma varlen_extractor_signed_bounds l x rest :
  varlen_int_extractor_signed 8 l = Ok (x, rest) → bytes_ok l → int64 x ∧ bytes_ok rest.
Proof.
  unfold varlen_int_extractor_signed, extract_varlen_int_signed_checked. intros Hx%or_raise_ok Hb.
  destruct (extract_varlen_int_from_byte_span_checked 8 l) as [[d r]|] eqn:E; [|done].
  apply extract_varlen_bounds in E as [Hd Hr]; [|done]. change (8 * Z.of_nat 8) with 64 in *.
  simplify_eq. split; [|done]. apply to_signed_int64.
  assert (in_width 64 (Z.shiftr d 1)) as Hs.
  { unfold in_width in *. rewrite Z.shiftr_div_pow2 by lia. dlia. }
  destruct (Z.land d 1 =? 0).
  - by rewrite Z.lxor_0_r.
  - rewrite lxor_ones by done. unfold in_width in *. lia.
Qed.

Lemma uuid_extractor_bounds n l u rest :
  uuid_extractor n l = Ok (u, rest) → bytes_ok l → (length u = n ∧ bytes_ok u) ∧ bytes_ok rest.
Proof.
  revert l u rest. induction n as [|n IH]; intros l u rest Hu Hl; cbn [uuid_extractor] in Hu.
  { injection Hu as <- <-. repeat split; [constructor|done]. }
  apply result_bind_ok in Hu as ([y l1] & Hy & Hu). apply result_bind_ok in Hu as ([bs l2] & Hbs & Hu).
  injection Hu as <- <-. apply varlen_extractor_bounds in Hy as [Hy Hl1]; [|done].
  apply IH in Hbs as [[<- Hf] Hl2]; [|done]. repeat split; [by constructor|done].
Qed.

(** every member in its range, the tag made of bytes *)
Definition decoded_ok b : Prop := tagged_body_ok b ∧ bytes_ok (tb_tag b).

Lemma process_field_decoded i l b b' rest :
  process_field_data i l b = Ok (b', rest) → bytes_ok l → decoded_ok b →
  decoded_ok b' ∧ bytes_ok rest.
Proof.
  unfold process_field_data. intros Hp Hl ((Hb1 & Hb2 & Hb3 & Hb4 & Hb5 & Hb6 & Hb7 & Hb8 & Hb9 & Hb10 & Hb11 & Hb12) & Ht).
  repeat match type of Hp with (if ?x then _ else _) = _ => destruct x end; [..|discriminate Hp];
    apply result_bind_ok in Hp as ([x r1] & Hx & Hp);
    first [apply varlen_extractor_bounds in Hx as [Hx Hr1]
          | apply varlen_extractor_signed_bounds in Hx as [Hx Hr1]
          | apply uuid_extractor_bounds in Hx as [Hx Hr1]]; try done.
  4: { apply result_bind_ok in Hp as ([] & Hmax & Hp). apply raise_if_ok in Hmax. to_prop.
       apply result_bind_ok in Hp as ([t r2] & Ht2 & [= <- <-]). apply or_raise_ok in Ht2.
       unfold extract_byte_span_from_byte_span_checked in Ht2. case_match; [done|]. injection Ht2 as <- <-.
       split; [|by apply Forall_drop]. split; [|by apply Forall_take].
       split_and!; try done. cbn [tb_tag with_tag]. rewrite length_take. lia. }
  all: injection Hp as <- <-; done.
Qed.

Lemma field_loop_decoded fuel b remaining last l b' r' l' :
  field_loop fuel b remaining last l = Ok (b', r', l') → bytes_ok l → decoded_ok b → decoded_ok b'.
Proof.
  revert b remaining last l. induction fuel as [|fuel IH]; intros b remaining last l Hp Hl Hb;
    cbn [field_loop] in Hp; (destruct (extract_varlen_int_from_byte_span_checked 1 l) as [[i l1]|] eqn:E;
      [apply extract_varlen_bounds in E as [_ Hl1]; [|done] | by injection Hp as <- _]); [done|].
  apply result_bind_ok in Hp as ([] & _ & Hp). apply result_bind_ok in Hp as ([] & _ & Hp).
  apply result_bind_ok in Hp as ([b1 l2] & Hf & Hp).
  apply process_field_decoded in Hf as [Hb1 Hl2]; [|done..]. by eapply IH.
Qed.

(** the bounds that the extractors enforce *)
Lemma parse_tagged_body_decoded l b : bytes_ok l → parse_tagged_body l = Ok b → decoded_ok b.
Proof.
  unfold parse_tagged_body. intros Hl Hp.
  do 3 (apply result_bind_ok in Hp as ([? ?] & Hx%or_raise_ok & Hp);
        apply extract_varlen_bounds in Hx as [_ ?]; [|done];
        apply result_bind_ok in Hp as ([] & _ & Hp)).
  apply result_bind_ok in Hp as ([[b1 ?] ?] & Hf & Hp). apply result_bind_ok in Hp as ([] & _ & Hp).
  apply result_bind_ok in Hp as ([] & _ & [= <-]). eapply field_loop_decoded; [done..|].
  split; [|constructor].
  split_and!; try (by vm_compute); [split; [done|apply Forall_replicate; by vm_compute]|cbn; lia].
Qed.

(** what is written is bytes *)
Lemma varlen_bytes_bytes x : bytes_ok (varlen_bytes x).
Proof. constructor; [by apply wrap_bound|]. case_match; [constructor | apply le_split_bytes]. Qed.

Lemma field_bytes_ok id x : bytes_ok (field id x).
Proof. apply Forall_app_2; apply varlen_bytes_bytes. Qed.

Lemma tagged_bytes_ok b : bytes_ok (tb_tag b) → bytes_ok (tagged_body_bytes b).
Proof.
  intros Ht. unfold tagged_body_bytes, tlv_bytes, uuid_field_bytes, tag_field_bytes,
    original_timestamp_bytes, original_version_bytes, ticket_bytes.
  repeat apply Forall_app_2; try case_match;
    try (apply varlen_bytes_bytes || apply field_bytes_ok || constructor || done).
  induction (tb_uuid b) as [|x l IH]; [constructor|].
  apply Forall_app_2; [apply varlen_bytes_bytes|done].
Qed.
End decoded.

Module TaggedExamples.
Import UuidModel.
Definition sample_tagged_body : tagged_body :=
  mk_tagged_body 1 sample_uuid 7 (text "tag1") 3 (-4) 1700000000000000
    unset_commit_timestamp 70000 80400 unset_server_version 9.

Lemma tagged_body_roundtrip_witness :
  ∃ dest', tagged_body_encode_to sample_tagged_body (span_of (replicate 100 0)) = Ok dest' ∧
    sp_pos dest' = 57%nat ∧
    parse_tagged_body (take 57 (sp_store dest')) = Ok sample_tagged_body.
Proof.
  destruct (tagged_body_roundtrip sample_tagged_body (span_of (replicate 100 0)))
    as (dest' & He & Hp & Hr).
  - repeat apply conj; try (apply (bool_decide_unpack _); by vm_compute).
  - by vm_compute.
  - unfold span_ok. simpl. lia.
  - by vm_compute.
  - exists dest'. split; [done|]. split; [|exact Hr].
    change (tagged_body_encoded_size sample_tagged_body) with 57 in Hp. simpl in Hp. lia.
Defined.

(** With 126 bytes of tail the size 127 fits in one byte; with 127 it takes two. *)
Lemma tagged_size_fixpoint_witness :
  size_width max_number_of_iterations 126 1 = 1 ∧ size_width max_number_of_iterations 127 1 = 2 ∧
  calculate_varlen_int_size (127 + size_width max_number_of_iterations 127 1) = 2.
Proof.
  split; [by vm_compute|]. split; [by vm_compute|].
  destruct (tagged_size_fixpoint 127) as [_ ->]; [lia | by vm_compute].
Defined.
End TaggedExamples.
