(* ===== verification/ReaderContext.v ===== *)
(** * The reader context: the state machine of the event stream

    Models reader_context.{hpp,cpp} and event_view.{hpp,cpp} of src/src/binsrv/events/.

    The context is a record; a handler takes the context, the event and the [info_only]
    flag it is given by reference, and returns the new context, whether the event was
    processed (the return value of the C++ handler) and the new flag.  A handler that
    throws leaves no context: the program drops the reader context with the connection.
    The CRC is zlib's: a parameter. *)

From S2P Require Import Prelude ByteSpan OrderedMap IntervalSet Gtid GtidSet GtidSetEncoding.
From S2P Require Import Util Protocol GtidLog GtidTaggedLog.

Local Open Scope Z_scope.

(** [crc32_z] of zlib: the checksum so far and a range of bytes, [None] for [Z_NULL]; a
    value of the C type [uLong] *)
Class Zlib := { crc32_z : Z → option (list Z) → Z }.
(** [util::calculate_crc32] *)
Definition calculate_crc32 `{Zlib} (portion : list Z) : Z :=
  let crc := crc32_z 0 None in
  u32 (crc32_z crc (Some portion)).

Inductive replication_mode_type := mode_position | mode_gtid.
#[export] Instance replication_mode_type_eq_dec : EqDecision replication_mode_type.
Proof. solve_decision. Defined.

Inductive state_type :=
  | rotate_artificial_expected
  | format_description_expected
  | previous_gtids_expected
  | gtid_log_expected
  | any_other_expected
  | rotate_or_stop_expected.
#[export] Instance state_type_eq_dec : EqDecision state_type.
Proof. solve_decision. Defined.

Record reader_context := mk_reader_context {
  rc_state : state_type;
  rc_connection_encoded_server_version : Z;
  rc_current_encoded_server_version : Z;
  rc_checksum_verification_enabled : bool;
  rc_footer_expected : bool;
  rc_replication_mode : replication_mode_type;
  rc_binlog_name : list Z;
  rc_position : Z;
  rc_post_header_lengths : list Z;
  rc_transaction_gtid : gtid;
  rc_transaction_sequence_number : Z;
  rc_expected_transaction_length : Z;
  rc_current_transaction_length : Z;
  rc_expect_info_only_preamble_events : bool;
  rc_cycle_number : Z
}.

(** Assignments to the members *)
Definition set_state (v : state_type) (c : reader_context) : reader_context :=
  mk_reader_context v (rc_connection_encoded_server_version c)
    (rc_current_encoded_server_version c) (rc_checksum_verification_enabled c)
    (rc_footer_expected c) (rc_replication_mode c) (rc_binlog_name c) (rc_position c)
    (rc_post_header_lengths c) (rc_transaction_gtid c) (rc_transaction_sequence_number c)
    (rc_expected_transaction_length c) (rc_current_transaction_length c)
    (rc_expect_info_only_preamble_events c) (rc_cycle_number c).
Definition set_current_encoded_server_version (v : Z) (c : reader_context) : reader_context :=
  mk_reader_context (rc_state c) (rc_connection_encoded_server_version c) v
    (rc_checksum_verification_enabled c) (rc_footer_expected c) (rc_replication_mode c)
    (rc_binlog_name c) (rc_position c) (rc_post_header_lengths c) (rc_transaction_gtid c)
    (rc_transaction_sequence_number c) (rc_expected_transaction_length c)
    (rc_current_transaction_length c) (rc_expect_info_only_preamble_events c)
    (rc_cycle_number c).
Definition set_footer_expected (v : bool) (c : reader_context) : reader_context :=
  mk_reader_context (rc_state c) (rc_connection_encoded_server_version c)
    (rc_current_encoded_server_version c) (rc_checksum_verification_enabled c) v
    (rc_replication_mode c) (rc_binlog_name c) (rc_position c) (rc_post_header_lengths c)
    (rc_transaction_gtid c) (rc_transaction_sequence_number c)
    (rc_expected_transaction_length c) (rc_current_transaction_length c)
    (rc_expect_info_only_preamble_events c) (rc_cycle_number c).
Definition set_binlog_name (v : list Z) (c : reader_context) : reader_context :=
  mk_reader_context (rc_state c) (rc_connection_encoded_server_version c)
    (rc_current_encoded_server_version c) (rc_checksum_verification_enabled c)
    (rc_footer_expected c) (rc_replication_mode c) v (rc_position c) (rc_post_header_lengths
    c) (rc_transaction_gtid c) (rc_transaction_sequence_number c)
    (rc_expected_transaction_length c) (rc_current_transaction_length c)
    (rc_expect_info_only_preamble_events c) (rc_cycle_number c).
Definition set_position (v : Z) (c : reader_context) : reader_context :=
  mk_reader_context (rc_state c) (rc_connection_encoded_server_version c)
    (rc_current_encoded_server_version c) (rc_checksum_verification_enabled c)
    (rc_footer_expected c) (rc_replication_mode c) (rc_binlog_name c) v
    (rc_post_header_lengths c) (rc_transaction_gtid c) (rc_transaction_sequence_number c)
    (rc_expected_transaction_length c) (rc_current_transaction_length c)
    (rc_expect_info_only_preamble_events c) (rc_cycle_number c).
Definition set_post_header_lengths (v : list Z) (c : reader_context) : reader_context :=
  mk_reader_context (rc_state c) (rc_connection_encoded_server_version c)
    (rc_current_encoded_server_version c) (rc_checksum_verification_enabled c)
    (rc_footer_expected c) (rc_replication_mode c) (rc_binlog_name c) (rc_position c) v
    (rc_transaction_gtid c) (rc_transaction_sequence_number c)
    (rc_expected_transaction_length c) (rc_current_transaction_length c)
    (rc_expect_info_only_preamble_events c) (rc_cycle_number c).
Definition set_transaction_gtid (v : gtid) (c : reader_context) : reader_context :=
  mk_reader_context (rc_state c) (rc_connection_encoded_server_version c)
    (rc_current_encoded_server_version c) (rc_checksum_verification_enabled c)
    (rc_footer_expected c) (rc_replication_mode c) (rc_binlog_name c) (rc_position c)
    (rc_post_header_lengths c) v (rc_transaction_sequence_number c)
    (rc_expected_transaction_length c) (rc_current_transaction_length c)
    (rc_expect_info_only_preamble_events c) (rc_cycle_number c).
Definition set_transaction_sequence_number (v : Z) (c : reader_context) : reader_context :=
  mk_reader_context (rc_state c) (rc_connection_encoded_server_version c)
    (rc_current_encoded_server_version c) (rc_checksum_verification_enabled c)
    (rc_footer_expected c) (rc_replication_mode c) (rc_binlog_name c) (rc_position c)
    (rc_post_header_lengths c) (rc_transaction_gtid c) v (rc_expected_transaction_length c)
    (rc_current_transaction_length c) (rc_expect_info_only_preamble_events c)
    (rc_cycle_number c).
Definition set_expected_transaction_length (v : Z) (c : reader_context) : reader_context :=
  mk_reader_context (rc_state c) (rc_connection_encoded_server_version c)
    (rc_current_encoded_server_version c) (rc_checksum_verification_enabled c)
    (rc_footer_expected c) (rc_replication_mode c) (rc_binlog_name c) (rc_position c)
    (rc_post_header_lengths c) (rc_transaction_gtid c) (rc_transaction_sequence_number c) v
    (rc_current_transaction_length c) (rc_expect_info_only_preamble_events c)
    (rc_cycle_number c).
Definition set_current_transaction_length (v : Z) (c : reader_context) : reader_context :=
  mk_reader_context (rc_state c) (rc_connection_encoded_server_version c)
    (rc_current_encoded_server_version c) (rc_checksum_verification_enabled c)
    (rc_footer_expected c) (rc_replication_mode c) (rc_binlog_name c) (rc_position c)
    (rc_post_header_lengths c) (rc_transaction_gtid c) (rc_transaction_sequence_number c)
    (rc_expected_transaction_length c) v (rc_expect_info_only_preamble_events c)
    (rc_cycle_number c).
Definition set_expect_info_only_preamble_events (v : bool) (c : reader_context) : reader_context :=
  mk_reader_context (rc_state c) (rc_connection_encoded_server_version c)
    (rc_current_encoded_server_version c) (rc_checksum_verification_enabled c)
    (rc_footer_expected c) (rc_replication_mode c) (rc_binlog_name c) (rc_position c)
    (rc_post_header_lengths c) (rc_transaction_gtid c) (rc_transaction_sequence_number c)
    (rc_expected_transaction_length c) (rc_current_transaction_length c) v (rc_cycle_number
    c).
Definition set_cycle_number (v : Z) (c : reader_context) : reader_context :=
  mk_reader_context (rc_state c) (rc_connection_encoded_server_version c)
    (rc_current_encoded_server_version c) (rc_checksum_verification_enabled c)
    (rc_footer_expected c) (rc_replication_mode c) (rc_binlog_name c) (rc_position c)
    (rc_post_header_lengths c) (rc_transaction_gtid c) (rc_transaction_sequence_number c)
    (rc_expected_transaction_length c) (rc_current_transaction_length c)
    (rc_expect_info_only_preamble_events c) v.

(** ** Tables of post header lengths *)

(** [generic_post_header<code>::get_size_in_bytes(version)] or its [size_in_bytes]: the
    classes that are specialised, and [unknown_post_header] for the rest *)
Definition post_header_size_in_bytes (version : Z) (code : code_type) : Z :=
  match code with
  | ct_rotate => Z.of_nat rotate_post_header_size
  | ct_format_description => Z.of_nat (fde_size_in_bytes version)
  | ct_gtid_log | ct_anonymous_gtid_log => Z.of_nat gtid_log_post_header_size
  | ct_stop | ct_previous_gtids_log | ct_gtid_tagged_log => 0
  | _ => unspecified_post_header_length
  end.

(** The codes after [unknown], as many as the version knows; the rest of the container
    is default-initialised. *)
Definition known_post_header_lengths_generator (version : Z) : list Z :=
  let n := (get_number_of_events version - 1)%nat in
  let lengths := (λ code, u8 (post_header_size_in_bytes version code)) <$> take n (drop 1 code_types) in
  lengths ++ replicate (max_number_of_events - 1 - n) 0.
Definition get_known_post_header_lengths (encoded_server_version : Z) : list Z :=
  if encoded_server_version <? latest_known_protocol_server_version
  then known_post_header_lengths_generator earliest_supported_protocol_server_version
  else known_post_header_lengths_generator latest_known_protocol_server_version.

Definition hardcoded_earliest : list Z :=
  [0; 13; 0; 8; 0; 0; 0; 0; 4; 0; 4; 0; 0; 0; 98; 0; 4; 26; 8; 0; 0; 0; 8; 8; 8; 2; 0; 0; 0;
   10; 10; 10; 42; 42; 0; 18; 52; 0; 10; 40; 0; 0].
Definition hardcoded_latest : list Z :=
  [0; 13; 0; 8; 0; 0; 0; 0; 4; 0; 4; 0; 0; 0; 99; 0; 4; 26; 8; 0; 0; 0; 0; 0; 0; 2; 0; 0; 0;
   10; 10; 10; 42; 42; 0; 18; 52; 0; 10; 40; 0; 0].
Definition get_hardcoded_post_header_lengths (encoded_server_version : Z) : list Z :=
  if encoded_server_version <? latest_known_protocol_server_version
  then hardcoded_earliest else hardcoded_latest.

(** ** Construction and observers *)
Definition make_reader_context (connection_encoded_server_version : Z)
    (checksum_verification_enabled : bool) (replication_mode : replication_mode_type)
    (binlog_name : list Z) (position : Z) : reader_context :=
  mk_reader_context rotate_artificial_expected connection_encoded_server_version
    connection_encoded_server_version checksum_verification_enabled
    checksum_verification_enabled replication_mode binlog_name
    (if position =? 0 then magic_binlog_offset else position)
    (get_known_post_header_lengths connection_encoded_server_version)
    empty_gtid 0 0 0 false 0.

Definition is_fresh (c : reader_context) : bool := rc_cycle_number c =? 0.
Definition get_current_post_header_length (c : reader_context) (code : code_type) : Z :=
  get_post_header_length_for_code (rc_current_encoded_server_version c)
    (rc_post_header_lengths c) code.
Definition has_transaction_gtid (c : reader_context) : bool :=
  negb (gtid_is_empty (rc_transaction_gtid c)).
Definition is_at_transaction_boundary (c : reader_context) : bool :=
  (bool_decide (rc_state c = any_other_expected) &&
   (rc_current_transaction_length c =? rc_expected_transaction_length c)) ||
  bool_decide (rc_state c = rotate_artificial_expected).

(** ** event_view *)
Record event_view := mk_event_view {
  ev_portion : list Z;
  ev_post_header_size : nat;
  ev_footer_size : nat
}.

Definition get_total_size (v : event_view) : nat := length (ev_portion v).
Definition get_common_header_raw (v : event_view) : list Z :=
  take default_common_header_length (ev_portion v).
Definition get_post_header_raw (v : event_view) : list Z :=
  take (ev_post_header_size v) (drop default_common_header_length (ev_portion v)).
Definition get_body_size (v : event_view) : nat :=
  get_total_size v - default_common_header_length - ev_post_header_size v - ev_footer_size v.
Definition get_body_raw (v : event_view) : list Z :=
  take (get_body_size v)
    (drop (default_common_header_length + ev_post_header_size v) (ev_portion v)).
Definition has_footer (v : event_view) : bool := negb (ev_footer_size v =? 0)%nat.
Definition get_footer_raw (v : event_view) : list Z :=
  take (ev_footer_size v) (drop (get_total_size v - ev_footer_size v) (ev_portion v)).
Definition calculate_crc `{Zlib} (v : event_view) : Z :=
  calculate_crc32 (take (get_total_size v - ev_footer_size v) (ev_portion v)).
Definition get_common_header (v : event_view) : result common_header :=
  parse_common_header (get_common_header_raw v).

(** The size of the post header section; a format description event carries its own. *)
Definition post_header_size_of (c : reader_context) (code : code_type)
    (total_size footer_size : nat) : result nat :=
  if bool_decide (code = ct_format_description) then
    let group_size := (default_common_header_length + fde_body_size + footer_size)%nat in
    _ ← raise_if (total_size <? group_size)%nat
          (logic_error "not enough data for format description event common header + body + footer");
    Ok (total_size - group_size)%nat
  else
    let post_header_size := get_current_post_header_length c code in
    _ ← raise_if (post_header_size =? unspecified_post_header_length)
          (invalid_argument "received event is not known in server version");
    let group_size :=
      Z.of_nat default_common_header_length + post_header_size + Z.of_nat footer_size in
    _ ← raise_if (Z.of_nat total_size <? group_size)
          (logic_error "not enough data for event common header + post header + footer");
    Ok (Z.to_nat post_header_size).

(** The optional verification of the checksum. *)
Definition verify_checksum `{Zlib} (c : reader_context) (code : code_type) (v : event_view)
    : result unit :=
  if negb (rc_checksum_verification_enabled c) then Ok ()
  else if negb (has_footer v) then Ok ()
  else
    skip ← (if bool_decide (code = ct_format_description) then
              checksum_algorithm ← parse_fde_body (get_body_raw v);
              Ok (negb (has_checksum_algorithm checksum_algorithm))
            else Ok false);
    if (skip : bool) then Ok ()
    else
      footer ← footer_view (get_footer_raw v);
      raise_if (negb (calculate_crc v =? get_crc_raw footer))
        (invalid_argument "event checksum mismatch").

(** [event_view_base(const reader_context &, util::byte_span)] *)
Definition make_event_view `{Zlib} (c : reader_context) (portion : list Z) : result event_view :=
  _ ← raise_if (length portion <? common_header_size_in_bytes)%nat
        (invalid_argument "not enough data for event common header");
  h ← parse_common_header (take default_common_header_length portion);
  let code := ch_type_code h in
  let footer_size :=
    if bool_decide (code = ct_format_description) then default_footer_length
    else if rc_footer_expected c then default_footer_length else 0%nat in
  _ ← raise_if (negb (Z.of_nat (length portion) =? ch_event_size h))
        (invalid_argument "actual event size does not match the one specified in event common header");
  post_header_size ← post_header_size_of c code (length portion) footer_size;
  let v := mk_event_view portion post_header_size footer_size in
  _ ← verify_checksum c code v;
  Ok v.

(** ** Positions *)
Definition validate_position (h : common_header) (c : reader_context) : result unit :=
  _ ← raise_if (ch_next_event_position h =? 0)
        (logic_error "next event position in the event common header cannot be zero");
  raise_if (negb (u32 (rc_position c + ch_event_size h) =? ch_next_event_position h))
    (logic_error "unexpected next event position in the event common header").

Definition validate_position_and_advance (h : common_header) (c : reader_context)
    : result reader_context :=
  _ ← validate_position h c;
  Ok (set_position (ch_next_event_position h) c).

Definition reset_position (c : reader_context) : reader_context :=
  set_position magic_binlog_offset c.

(** ** Transactions *)
Section transactions.
Context `{BoostUuid}.

(** What a GTID event of one of the three types says about its transaction: its GTID
    (none for an anonymous one), its sequence number and its length. *)
Definition transaction_info (code : code_type) (v : event_view) : result (option gtid * Z * Z) :=
  match code with
  | ct_anonymous_gtid_log =>
      post_header ← parse_gtid_log_post_header (get_post_header_raw v);
      g ← glh_get_gtid post_header;
      _ ← raise_if (negb (gtid_is_empty g))
            (logic_error "encountered non-empty gtid in the anonymous gtid log event");
      body ← parse_gtid_log_body (get_body_raw v);
      Ok (None, glh_get_sequence_number post_header, glb_transaction_length body)
  | ct_gtid_log =>
      post_header ← parse_gtid_log_post_header (get_post_header_raw v);
      g ← glh_get_gtid post_header;
      _ ← raise_if (gtid_is_empty g) (logic_error "encountered an empty gtid in the gtid log event");
      body ← parse_gtid_log_body (get_body_raw v);
      Ok (Some g, glh_get_sequence_number post_header, glb_transaction_length body)
  | ct_gtid_tagged_log =>
      body ← parse_tagged_body (get_body_raw v);
      g ← tb_get_gtid body;
      _ ← raise_if (gtid_is_empty g)
            (logic_error "encountered an empty gtid in the gtid tagged log event");
      Ok (Some g, tb_get_sequence_number body, tb_transaction_length body)
  | _ => Err (undefined_behaviour "assert(false) in start_transaction")
  end.

Definition start_transaction (v : event_view) (c : reader_context) : result reader_context :=
  h ← get_common_header v;
  '(g, sequence_number, transaction_length) ← transaction_info (ch_type_code h) v;
  _ ← raise_if (2 ^ 32 - 1 <? transaction_length)
        (logic_error "transaction length in the gtid log event is too large");
  let c := match g with Some g => set_transaction_gtid g c | None => c end in
  let c := set_transaction_sequence_number sequence_number c in
  let c := set_expected_transaction_length transaction_length c in
  Ok (set_current_transaction_length (ch_event_size h) c).
End transactions.

Definition update_transaction (h : common_header) (c : reader_context) : result reader_context :=
  let c := set_current_transaction_length
             (u32 (rc_current_transaction_length c + ch_event_size h)) c in
  _ ← raise_if (rc_expected_transaction_length c <? rc_current_transaction_length c)
        (logic_error "current event exceeds declared transaction length");
  Ok c.

Definition finish_transaction (c : reader_context) : result reader_context :=
  _ ← raise_if (negb (rc_current_transaction_length c =? rc_expected_transaction_length c))
        (logic_error "transaction did not end at the declared length");
  let c := set_transaction_gtid empty_gtid c in
  let c := set_transaction_sequence_number 0 c in
  let c := set_expected_transaction_length 0 c in
  Ok (set_current_transaction_length 0 c).

(** ** The handlers of the states *)

(** the three types that start a transaction *)
Definition is_gtid_event (code : code_type) : bool :=
  match code with
  | ct_anonymous_gtid_log | ct_gtid_log | ct_gtid_tagged_log => true
  | _ => false
  end.

Section handlers.
Context `{BoostUuid}.
Implicit Types (c : reader_context) (v : event_view) (info_only : bool).

Definition process_event_in_rotate_artificial_expected_state v info_only c
    : result (reader_context * bool * bool) :=
  h ← get_common_header v;
  _ ← raise_if (negb (bool_decide (ch_type_code h = ct_rotate) && is_artificial h))
        (logic_error "an artificial rotate event must be the very first event in the rotate_artificial_expected state");
  _ ← raise_if (negb (ch_timestamp h =? 0))
        (logic_error "non-zero timestamp found in an artificial rotate event");
  _ ← raise_if (negb (ch_next_event_position h =? 0))
        (logic_error "non-zero next event position found in an artificial rotate event");
  position ← parse_rotate_post_header (get_post_header_raw v);
  let binlog := parse_rotate_body (get_body_raw v) in
  let same := bool_decide (binlog = rc_binlog_name c) in
  _ ← (if bool_decide (rc_replication_mode c = mode_position) then
         if same then
           raise_if (negb (position =? rc_position c))
             (logic_error "unexpected position found in an artificial rotate event in position-based replication mode")
         else
           raise_if (negb (position =? magic_binlog_offset))
             (logic_error "unexpected position found in an artificial rotate event in position-based replication mode")
       else
         raise_if (negb (position =? magic_binlog_offset))
           (logic_error "unexpected position found in an artificial rotate event in GTID-based replication mode"));
  let c := set_expect_info_only_preamble_events
             ((rc_cycle_number c =? 0) && same && (magic_binlog_offset <? rc_position c)) c in
  let c := if negb same then reset_position (set_binlog_name binlog c) else c in
  let c := set_cycle_number (u64 (rc_cycle_number c + 1)) c in
  Ok (set_state format_description_expected c, true, true).

Definition process_event_in_format_description_expected_state v info_only c
    : result (reader_context * bool * bool) :=
  h ← get_common_header v;
  _ ← raise_if (negb (bool_decide (ch_type_code h = ct_format_description)))
        (logic_error "format description event must follow an artificial rotate event");
  _ ← raise_if (is_artificial h)
        (logic_error "format description event is not expected to be artificial");
  post_header ← parse_fde_post_header (get_post_header_raw v);
  _ ← raise_if (negb (fde_binlog_version post_header =? default_binlog_version))
        (logic_error "unexpected binlog version number in format description event");
  _ ← raise_if (negb (fde_common_header_length post_header =? Z.of_nat default_common_header_length))
        (logic_error "unexpected common header length in format description event");
  encoded_server_version ← get_encoded_server_version post_header;
  let c := set_current_encoded_server_version encoded_server_version c in
  _ ← raise_if (rc_connection_encoded_server_version c <? rc_current_encoded_server_version c)
        (logic_error "unexpected server version in format description event");
  _ ← validate_post_header_lengths (rc_current_encoded_server_version c)
        (fde_post_header_lengths post_header)
        (get_known_post_header_lengths (rc_current_encoded_server_version c));
  let c := set_post_header_lengths (fde_post_header_lengths post_header) c in
  checksum_algorithm ← parse_fde_body (get_body_raw v);
  let c := set_footer_expected (has_checksum_algorithm checksum_algorithm) c in
  let info_only := rc_expect_info_only_preamble_events c in
  let position_mode := bool_decide (rc_replication_mode c = mode_position) in
  _ ← raise_if (position_mode && info_only && negb (ch_next_event_position h =? 0))
        (logic_error "expected next event position set to zero in pseudo format description event");
  c ← (if negb info_only then validate_position_and_advance h c else Ok c);
  let state := if position_mode && info_only then gtid_log_expected else previous_gtids_expected in
  Ok (set_state state c, true, info_only).

Definition process_event_in_previous_gtids_expected_state v info_only c
    : result (reader_context * bool * bool) :=
  h ← get_common_header v;
  _ ← raise_if (negb (bool_decide (ch_type_code h = ct_previous_gtids_log)))
        (logic_error "previous gtids log event must follow a format description event");
  _ ← raise_if (is_artificial h)
        (logic_error "previous gtids log event is not expected to be artificial");
  let info_only := rc_expect_info_only_preamble_events c in
  c ← (if negb info_only then validate_position_and_advance h c else Ok c);
  Ok (set_state gtid_log_expected c, true, info_only).

Definition process_event_in_gtid_log_expected_state v info_only c
    : result (reader_context * bool * bool) :=
  h ← get_common_header v;
  let code := ch_type_code h in
  if bool_decide (code = ct_rotate) && is_artificial h then
    c ← finish_transaction c;
    let c := reset_position c in
    Ok (set_state rotate_artificial_expected c, false, info_only)
  else if bool_decide (code = ct_rotate) || bool_decide (code = ct_stop) then
    c ← finish_transaction c;
    Ok (set_state rotate_or_stop_expected c, false, info_only)
  else
    _ ← raise_if (negb (is_gtid_event code))
          (logic_error "transaction group must start from one of the gtid log events");
    _ ← raise_if (bool_decide (rc_replication_mode c = mode_gtid) &&
                  bool_decide (code = ct_anonymous_gtid_log))
          (logic_error "unexpected anonymous gtid log event in gtid mode replication");
    c ← start_transaction v c;
    c ← validate_position_and_advance h c;
    Ok (set_state any_other_expected c, true, false).

Definition process_event_in_any_other_expected_state v info_only c
    : result (reader_context * bool * bool) :=
  h ← get_common_header v;
  let code := ch_type_code h in
  if is_gtid_event code then
    c ← finish_transaction c;
    Ok (set_state gtid_log_expected c, false, info_only)
  else if bool_decide (code = ct_rotate) && is_artificial h then
    c ← finish_transaction c;
    let c := reset_position c in
    Ok (set_state rotate_artificial_expected c, false, info_only)
  else if bool_decide (code = ct_rotate) || bool_decide (code = ct_stop) then
    c ← finish_transaction c;
    Ok (set_state rotate_or_stop_expected c, false, info_only)
  else
    _ ← raise_if (bool_decide (code = ct_format_description))
          (logic_error "encountered second format description event within the same binlog");
    _ ← raise_if (bool_decide (code = ct_previous_gtids_log))
          (logic_error "encountered second previous gtids log event within the same binlog");
    _ ← raise_if (is_artificial h)
          (logic_error "unexpected artificial event in the 'previous gtids log processed' state");
    c ← update_transaction h c;
    c ← validate_position_and_advance h c;
    Ok (c, true, false).

Definition process_event_in_rotate_or_stop_expected_state v info_only c
    : result (reader_context * bool * bool) :=
  h ← get_common_header v;
  let code := ch_type_code h in
  _ ← raise_if (negb (bool_decide (code = ct_rotate)) && negb (bool_decide (code = ct_stop)))
        (logic_error "the very last event in the binlog must be either rotate or stop");
  _ ← raise_if (is_artificial h)
        (logic_error "the very last event in the binlog is not expected to be artificial");
  _ ← (if bool_decide (code = ct_rotate) then
         position ← parse_rotate_post_header (get_post_header_raw v);
         raise_if (negb (position =? magic_binlog_offset))
           (logic_error "unexpected position in an non-artificial rotate event post header")
       else Ok ());
  _ ← validate_position h c;
  let c := reset_position c in
  Ok (set_state rotate_artificial_expected c, true, false).

Definition dispatch v info_only c : result (reader_context * bool * bool) :=
  match rc_state c with
  | rotate_artificial_expected => process_event_in_rotate_artificial_expected_state v info_only c
  | format_description_expected => process_event_in_format_description_expected_state v info_only c
  | previous_gtids_expected => process_event_in_previous_gtids_expected_state v info_only c
  | gtid_log_expected => process_event_in_gtid_log_expected_state v info_only c
  | any_other_expected => process_event_in_any_other_expected_state v info_only c
  | rotate_or_stop_expected => process_event_in_rotate_or_stop_expected_state v info_only c
  end.

(** The [while (!processed)] loop. *)
Fixpoint process_loop (fuel : nat) v info_only c : result (reader_context * bool) :=
  match fuel with
  | O => Err out_of_fuel
  | S fuel =>
      '(c, processed, info_only) ← dispatch v info_only c;
      if (processed : bool) then Ok (c, info_only) else process_loop fuel v info_only c
  end.

(** No event is handed on more than once: see [process_loop_enough_fuel]. *)
Definition process_fuel : nat := 2.
Definition process_event_view v c : result (reader_context * bool) :=
  process_loop process_fuel v false c.
End handlers.

(** ** What each handler accepts *)
Section accepted.
Context `{BoostUuid}.
Implicit Types (c : reader_context) (v : event_view) (h : common_header).

(** The context after an artificial ROTATE to the file [binlog]. *)
Definition after_rotate (binlog : list Z) c : reader_context :=
  let same := bool_decide (binlog = rc_binlog_name c) in
  let c := set_expect_info_only_preamble_events
             ((rc_cycle_number c =? 0) && same && (magic_binlog_offset <? rc_position c)) c in
  let c := if negb same then reset_position (set_binlog_name binlog c) else c in
  let c := set_cycle_number (u64 (rc_cycle_number c + 1)) c in
  set_state format_description_expected c.

Lemma rotate_artificial_accepts v i c r :
  process_event_in_rotate_artificial_expected_state v i c = Ok r →
  ∃ h, get_common_header v = Ok h ∧ ch_type_code h = ct_rotate ∧ is_artificial h = true ∧
    ch_next_event_position h = 0 ∧ r = (after_rotate (get_body_raw v) c, true, true).
Proof.
  unfold process_event_in_rotate_artificial_expected_state, after_rotate, parse_rotate_body.
  intros Hp. apply result_bind_ok in Hp as (h & Hh & Hp).
  apply result_bind_ok in Hp as ([] & H1 & Hp). apply raise_if_ok in H1.
  apply result_bind_ok in Hp as ([] & _ & Hp).
  apply result_bind_ok in Hp as ([] & H2 & Hp). apply raise_if_ok in H2.
  apply result_bind_ok in Hp as (position & _ & Hp). cbv zeta in Hp.
  apply result_bind_ok in Hp as ([] & _ & Hp). injection Hp as <-.
  exists h. to_prop. split_and!; done.
Qed.

(** The context after a format description event, before the position. *)
Lemma format_description_accepts v i c r :
  process_event_in_format_description_expected_state v i c = Ok r →
  ∃ h version lengths footer c1, get_common_header v = Ok h ∧
    ch_type_code h = ct_format_description ∧ is_artificial h = false ∧
    let info := rc_expect_info_only_preamble_events c in
    let c0 := set_footer_expected footer (set_post_header_lengths lengths
      (set_current_encoded_server_version version c)) in
    (version ≤ rc_connection_encoded_server_version c) ∧
    validate_post_header_lengths version lengths (get_known_post_header_lengths version) = Ok () ∧
    (if info then c1 = c0 else validate_position_and_advance h c0 = Ok c1) ∧
    r = (set_state (if bool_decide (rc_replication_mode c = mode_position) && info
      then gtid_log_expected else previous_gtids_expected) c1, true, info).
Proof.
  unfold process_event_in_format_description_expected_state.
  intros Hp. apply result_bind_ok in Hp as (h & Hh & Hp).
  apply result_bind_ok in Hp as ([] & H1 & Hp). apply raise_if_ok in H1.
  apply result_bind_ok in Hp as ([] & H2 & Hp). apply raise_if_ok in H2.
  apply result_bind_ok in Hp as (ph & _ & Hp).
  apply result_bind_ok in Hp as ([] & _ & Hp).
  apply result_bind_ok in Hp as ([] & _ & Hp).
  apply result_bind_ok in Hp as (version & _ & Hp). cbv zeta in Hp.
  apply result_bind_ok in Hp as ([] & H3 & Hp). apply raise_if_ok in H3.
  apply result_bind_ok in Hp as ([] & H4 & Hp).
  apply result_bind_ok in Hp as (alg & _ & Hp).
  apply result_bind_ok in Hp as ([] & _ & Hp).
  apply result_bind_ok in Hp as (c1 & H5 & Hp). injection Hp as <-.
  exists h, version, (fde_post_header_lengths ph), (has_checksum_algorithm alg), c1.
  to_prop. split_and!; try done.
  change (rc_expect_info_only_preamble_events
    (set_footer_expected _ (set_post_header_lengths _ (set_current_encoded_server_version _ c))))
    with (rc_expect_info_only_preamble_events c) in H5.
  destruct (rc_expect_info_only_preamble_events c); cbn [negb] in H5; [by injection H5|done].
Qed.

Lemma previous_gtids_accepts v i c r :
  process_event_in_previous_gtids_expected_state v i c = Ok r →
  ∃ h c1, get_common_header v = Ok h ∧ ch_type_code h = ct_previous_gtids_log ∧
    is_artificial h = false ∧
    let info := rc_expect_info_only_preamble_events c in
    (if info then c1 = c else validate_position_and_advance h c = Ok c1) ∧
    r = (set_state gtid_log_expected c1, true, info).
Proof.
  unfold process_event_in_previous_gtids_expected_state.
  intros Hp. apply result_bind_ok in Hp as (h & Hh & Hp).
  apply result_bind_ok in Hp as ([] & H1 & Hp). apply raise_if_ok in H1.
  apply result_bind_ok in Hp as ([] & H2 & Hp). apply raise_if_ok in H2. cbv zeta in Hp.
  apply result_bind_ok in Hp as (c1 & H5 & Hp). injection Hp as <-.
  exists h, c1. to_prop. split_and!; try done.
  destruct (rc_expect_info_only_preamble_events c); cbn [negb] in H5; [by injection H5|done].
Qed.

(** A non-artificial ROTATE or a STOP, from the state that expects it. *)
Lemma rotate_or_stop_accepts v i c r :
  process_event_in_rotate_or_stop_expected_state v i c = Ok r →
  ∃ h, get_common_header v = Ok h ∧ (ch_type_code h = ct_rotate ∨ ch_type_code h = ct_stop) ∧
    is_artificial h = false ∧ validate_position h c = Ok () ∧
    r = (set_state rotate_artificial_expected (reset_position c), true, false).
Proof.
  unfold process_event_in_rotate_or_stop_expected_state.
  intros Hp. apply result_bind_ok in Hp as (h & Hh & Hp). cbv zeta in Hp.
  apply result_bind_ok in Hp as ([] & H1 & Hp). apply raise_if_ok in H1.
  apply result_bind_ok in Hp as ([] & H2 & Hp). apply raise_if_ok in H2.
  apply result_bind_ok in Hp as ([] & _ & Hp).
  apply result_bind_ok in Hp as ([] & H3 & Hp). injection Hp as <-.
  exists h. split_and!; try done.
  destruct (decide (ch_type_code h = ct_rotate)); [by left|].
  destruct (decide (ch_type_code h = ct_stop)); [by right|].
  rewrite !bool_decide_eq_false_2 in H1 by done. done.
Qed.

Lemma finish_transaction_ok c c' :
  finish_transaction c = Ok c' →
  rc_current_transaction_length c = rc_expected_transaction_length c ∧
  c' = set_current_transaction_length 0 (set_expected_transaction_length 0
    (set_transaction_sequence_number 0 (set_transaction_gtid empty_gtid c))).
Proof.
  unfold finish_transaction. intros Hp. apply result_bind_ok in Hp as ([] & H1 & Hp).
  apply raise_if_ok in H1. to_prop. injection Hp as <-. done.
Qed.

(** A GTID event starts a transaction. *)
Definition starts h v c c' : Prop :=
  ∃ c1, start_transaction v c = Ok c1 ∧
    ∃ c2, validate_position_and_advance h c1 = Ok c2 ∧ c' = set_state any_other_expected c2.

(** ** One step of the machine, with the event handed on at most once *)
Inductive step v c : reader_context → bool → Prop :=
  | step_rotate h c0 :
      get_common_header v = Ok h → ch_type_code h = ct_rotate → is_artificial h = true →
      (rc_state c = rotate_artificial_expected ∧ c0 = c ∨
       (rc_state c = gtid_log_expected ∨ rc_state c = any_other_expected) ∧
       ∃ c1, finish_transaction c = Ok c1 ∧
         c0 = set_state rotate_artificial_expected (reset_position c1)) →
      step v c (after_rotate (get_body_raw v) c0) true
  | step_format_description h c' info :
      get_common_header v = Ok h → ch_type_code h = ct_format_description →
      is_artificial h = false → rc_state c = format_description_expected →
      process_event_in_format_description_expected_state v false c = Ok (c', true, info) →
      step v c c' info
  | step_previous_gtids h c' info :
      get_common_header v = Ok h → ch_type_code h = ct_previous_gtids_log →
      is_artificial h = false → rc_state c = previous_gtids_expected →
      process_event_in_previous_gtids_expected_state v false c = Ok (c', true, info) →
      step v c c' info
  | step_gtid h c0 c' :
      get_common_header v = Ok h → is_gtid_event (ch_type_code h) = true →
      (rc_state c = gtid_log_expected ∧ c0 = c ∨
       rc_state c = any_other_expected ∧
       ∃ c1, finish_transaction c = Ok c1 ∧ c0 = set_state gtid_log_expected c1) →
      starts h v c0 c' → step v c c' false
  | step_any_other h c1 c2 :
      get_common_header v = Ok h → is_gtid_event (ch_type_code h) = false →
      ch_type_code h ∉ [ct_rotate; ct_stop; ct_format_description; ct_previous_gtids_log] →
      is_artificial h = false → rc_state c = any_other_expected →
      update_transaction h c = Ok c1 → validate_position_and_advance h c1 = Ok c2 →
      step v c c2 false
  | step_end h c0 :
      get_common_header v = Ok h → (ch_type_code h = ct_rotate ∨ ch_type_code h = ct_stop) →
      is_artificial h = false →
      (rc_state c = rotate_or_stop_expected ∧ c0 = c ∨
       (rc_state c = gtid_log_expected ∨ rc_state c = any_other_expected) ∧
       ∃ c1, finish_transaction c = Ok c1 ∧ c0 = set_state rotate_or_stop_expected c1) →
      validate_position h c0 = Ok () →
      step v c (set_state rotate_artificial_expected (reset_position c0)) false.
End accepted.

(** ** The loop makes at most two rounds *)
Section rounds.
Context `{BoostUuid}.
Implicit Types (c : reader_context) (v : event_view) (h : common_header).

(** Events that a handler of [gtid_log_expected] or [any_other_expected] hands on. *)
Lemma gtid_log_round v i c r :
  process_event_in_gtid_log_expected_state v i c = Ok r →
  ∃ h, get_common_header v = Ok h ∧
    ((ch_type_code h = ct_rotate ∧ is_artificial h = true ∧ ∃ c1, finish_transaction c = Ok c1 ∧
        r = (set_state rotate_artificial_expected (reset_position c1), false, i)) ∨
     ((ch_type_code h = ct_rotate ∨ ch_type_code h = ct_stop) ∧
        ¬ (ch_type_code h = ct_rotate ∧ is_artificial h = true) ∧
        ∃ c1, finish_transaction c = Ok c1 ∧ r = (set_state rotate_or_stop_expected c1, false, i)) ∨
     (is_gtid_event (ch_type_code h) = true ∧ ∃ c', starts h v c c' ∧ r = (c', true, false))).
Proof.
  unfold process_event_in_gtid_log_expected_state. intros Hp.
  apply result_bind_ok in Hp as (h & Hh & Hp). exists h. split; [done|].
  destruct (bool_decide (ch_type_code h = ct_rotate) && is_artificial h) eqn:E1.
  { to_prop. apply result_bind_ok in Hp as (c1 & Hf & Hp). injection Hp as <-. left. eauto. }
  destruct (bool_decide (ch_type_code h = ct_rotate) || bool_decide (ch_type_code h = ct_stop)) eqn:E2.
  { apply result_bind_ok in Hp as (c1 & Hf & Hp). injection Hp as <-. right; left.
    apply orb_true_iff in E2 as [E2|E2]; to_prop.
    - split; [by left|]. split; [|eauto]. intros [_ Ha].
      rewrite bool_decide_eq_true_2, Ha in E1 by done. done.
    - split; [by right|]. split; [|eauto]. intros [Hr _]. congruence. }
  apply result_bind_ok in Hp as ([] & H1 & Hp). apply raise_if_ok in H1. to_prop.
  apply result_bind_ok in Hp as ([] & _ & Hp).
  apply result_bind_ok in Hp as (c1 & Hs & Hp). apply result_bind_ok in Hp as (c2 & Ha & Hp).
  injection Hp as <-. right; right. split; [done|]. eexists. split; [|done].
  exists c1. split; [done|]. eauto.
Qed.

Lemma any_other_round v i c r :
  process_event_in_any_other_expected_state v i c = Ok r →
  ∃ h, get_common_header v = Ok h ∧
    ((is_gtid_event (ch_type_code h) = true ∧
        ∃ c1, finish_transaction c = Ok c1 ∧ r = (set_state gtid_log_expected c1, false, i)) ∨
     (ch_type_code h = ct_rotate ∧ is_artificial h = true ∧ ∃ c1, finish_transaction c = Ok c1 ∧
        r = (set_state rotate_artificial_expected (reset_position c1), false, i)) ∨
     ((ch_type_code h = ct_rotate ∨ ch_type_code h = ct_stop) ∧
        ¬ (ch_type_code h = ct_rotate ∧ is_artificial h = true) ∧
        ∃ c1, finish_transaction c = Ok c1 ∧ r = (set_state rotate_or_stop_expected c1, false, i)) ∨
     (is_gtid_event (ch_type_code h) = false ∧
        ch_type_code h ∉ [ct_rotate; ct_stop; ct_format_description; ct_previous_gtids_log] ∧
        is_artificial h = false ∧ ∃ c1 c2, update_transaction h c = Ok c1 ∧
          validate_position_and_advance h c1 = Ok c2 ∧ r = (c2, true, false))).
Proof.
  unfold process_event_in_any_other_expected_state. intros Hp.
  apply result_bind_ok in Hp as (h & Hh & Hp). exists h. split; [done|].
  destruct (is_gtid_event (ch_type_code h)) eqn:E0.
  { apply result_bind_ok in Hp as (c1 & Hf & Hp). injection Hp as <-. left. eauto. }
  right. destruct (bool_decide (ch_type_code h = ct_rotate) && is_artificial h) eqn:E1.
  { to_prop. apply result_bind_ok in Hp as (c1 & Hf & Hp). injection Hp as <-. left. eauto. }
  right. destruct (bool_decide (ch_type_code h = ct_rotate) || bool_decide (ch_type_code h = ct_stop)) eqn:E2.
  { apply result_bind_ok in Hp as (c1 & Hf & Hp). injection Hp as <-. left.
    apply orb_true_iff in E2 as [E2|E2]; to_prop.
    - split; [by left|]. split; [|eauto]. intros [_ Ha].
      rewrite bool_decide_eq_true_2, Ha in E1 by done. done.
    - split; [by right|]. split; [|eauto]. intros [Hr _]. congruence. }
  right. apply result_bind_ok in Hp as ([] & H1 & Hp). apply raise_if_ok in H1.
  apply result_bind_ok in Hp as ([] & H2 & Hp). apply raise_if_ok in H2.
  apply result_bind_ok in Hp as ([] & H3 & Hp). apply raise_if_ok in H3.
  apply result_bind_ok in Hp as (c1 & Hs & Hp). apply result_bind_ok in Hp as (c2 & Ha & Hp).
  injection Hp as <-. to_prop. split; [done|]. split; [|eauto 10].
  rewrite !not_elem_of_cons. split_and!; try done. apply not_elem_of_nil.
Qed.

(** Every accepted event makes one [step]. *)
Lemma process_step v c c' info :
  process_event_view v c = Ok (c', info) → step v c c' info.
Proof.
  unfold process_event_view, process_fuel. cbn [process_loop]. intros Hp.
  apply result_bind_ok in Hp as ([[c1 processed] i1] & Hd & Hp). unfold dispatch in Hd.
  destruct (rc_state c) eqn:Es.
  - destruct (rotate_artificial_accepts _ _ _ _ Hd) as (h & Hh & Hc & Ha & _ & [= -> -> ->]).
    cbv iota in Hp. injection Hp as <- <-. eapply step_rotate; eauto.
  - destruct (format_description_accepts _ _ _ _ Hd) as (h & ? & ? & ? & ? & Hh & Hc & Ha & _ & _ & _ & Hr).
    pose proof Hr as [= _ -> _]. cbv iota in Hp. injection Hp as <- <-.
    eapply step_format_description; eauto.
  - destruct (previous_gtids_accepts _ _ _ _ Hd) as (h & ? & Hh & Hc & Ha & _ & Hr).
    pose proof Hr as [= _ -> _]. cbv iota in Hp. injection Hp as <- <-.
    eapply step_previous_gtids; eauto.
  - destruct (gtid_log_round _ _ _ _ Hd) as (h & Hh & [(Hc & Ha & c2 & Hf & [= -> -> ->])|
      [(Hc & Hn & c2 & Hf & [= -> -> ->])|(Hg & c2 & Hs & [= -> -> ->])]]); cbv iota in Hp.
    + apply result_bind_ok in Hp as ([[c3 p3] i3] & Hd2 & Hp). unfold dispatch in Hd2. cbn in Hd2.
      destruct (rotate_artificial_accepts _ _ _ _ Hd2) as (h' & _ & _ & _ & _ & [= -> -> ->]).
      cbv iota in Hp. injection Hp as <- <-. eapply step_rotate; eauto 10.
    + apply result_bind_ok in Hp as ([[c3 p3] i3] & Hd2 & Hp). unfold dispatch in Hd2. cbn in Hd2.
      destruct (rotate_or_stop_accepts _ _ _ _ Hd2) as (h' & Hh' & Hc' & Ha' & Hv & [= -> -> ->]).
      cbv iota in Hp. injection Hp as <- <-. rewrite Hh in Hh'. injection Hh' as <-.
      eapply step_end; eauto 10.
    + injection Hp as <- <-. eapply step_gtid; eauto.
  - destruct (any_other_round _ _ _ _ Hd) as (h & Hh & [(Hg & c2 & Hf & [= -> -> ->])|
      [(Hc & Ha & c2 & Hf & [= -> -> ->])|[(Hc & Hn & c2 & Hf & [= -> -> ->])|
       (Hg & Hc & Ha & c2 & c3 & Hu & Hv & [= -> -> ->])]]]); cbv iota in Hp.
    + apply result_bind_ok in Hp as ([[c3 p3] i3] & Hd2 & Hp). unfold dispatch in Hd2. cbn in Hd2.
      destruct (gtid_log_round _ _ _ _ Hd2) as (h' & Hh' & Hcases). rewrite Hh in Hh'. injection Hh' as <-.
      destruct Hcases as [(Hr & _)|[([Hr|Hr] & _)|(_ & c4 & Hs & [= -> -> ->])]];
        [rewrite Hr in Hg; discriminate Hg .. |].
      cbv iota in Hp. injection Hp as <- <-. eapply step_gtid; eauto 10.
    + apply result_bind_ok in Hp as ([[c3 p3] i3] & Hd2 & Hp). unfold dispatch in Hd2. cbn in Hd2.
      destruct (rotate_artificial_accepts _ _ _ _ Hd2) as (h' & _ & _ & _ & _ & [= -> -> ->]).
      cbv iota in Hp. injection Hp as <- <-. eapply step_rotate; eauto 10.
    + apply result_bind_ok in Hp as ([[c3 p3] i3] & Hd2 & Hp). unfold dispatch in Hd2. cbn in Hd2.
      destruct (rotate_or_stop_accepts _ _ _ _ Hd2) as (h' & Hh' & Hc' & Ha' & Hv & [= -> -> ->]).
      cbv iota in Hp. injection Hp as <- <-. rewrite Hh in Hh'. injection Hh' as <-.
      eapply step_end; eauto 10.
    + injection Hp as <- <-. eapply step_any_other; eauto.
  - destruct (rotate_or_stop_accepts _ _ _ _ Hd) as (h & Hh & Hc & Ha & Hv & [= -> -> ->]).
    cbv iota in Hp. injection Hp as <- <-. eapply step_end; eauto.
Qed.

(** ** No handler runs out of fuel *)
Lemma get_common_header_nofuel v : nofuel (get_common_header v).
Proof. unfold get_common_header, parse_common_header, common_header_view. nofuel. Qed.
Lemma parse_gtid_log_header_nofuel l : nofuel (parse_gtid_log_post_header l).
Proof. unfold parse_gtid_log_post_header. nofuel. Qed.
Lemma parse_gtid_log_body_nofuel l : nofuel (parse_gtid_log_body l).
Proof.
  unfold parse_gtid_log_body, parse_commit_timestamps, parse_versions_and_ticket.
  repeat (nofuel; try case_match).
Qed.
Lemma make_gtid_nofuel u t g : nofuel (make_gtid u t g).
Proof. unfold make_gtid, validate_components. nofuel. Qed.
Lemma tag_of_name_nofuel n : nofuel (tag_of_name n).
Proof.
  unfold tag_of_name. destruct n as [|x n]; [nofuel|].
  assert (nofuel (tag_check_others n)) by (induction n; cbn [tag_check_others]; nofuel). nofuel.
Qed.
Lemma transaction_info_nofuel code v : nofuel (transaction_info code v).
Proof.
  pose proof parse_gtid_log_header_nofuel. pose proof parse_gtid_log_body_nofuel.
  pose proof parse_tagged_body_nofuel.
  assert (∀ ph, nofuel (glh_get_gtid ph)).
  { intros ph. unfold glh_get_gtid. pose proof (make_gtid_nofuel (glh_uuid ph) [] (glh_get_gno ph)). nofuel. }
  assert (∀ b, nofuel (tb_get_gtid b)).
  { intros b. unfold tb_get_gtid. apply nofuel_bind; [apply tag_of_name_nofuel|].
    intros t _. apply make_gtid_nofuel. }
  destruct code; unfold transaction_info; nofuel; done.
Qed.

Lemma validate_advance_nofuel h c : nofuel (validate_position_and_advance h c).
Proof. unfold validate_position_and_advance, validate_position. nofuel. Qed.
Lemma finish_transaction_nofuel c : nofuel (finish_transaction c).
Proof. unfold finish_transaction. nofuel. Qed.
Lemma update_transaction_nofuel h c : nofuel (update_transaction h c).
Proof. unfold update_transaction. nofuel. Qed.
Lemma start_transaction_nofuel v c : nofuel (start_transaction v c).
Proof.
  pose proof (get_common_header_nofuel v). unfold start_transaction. apply nofuel_bind; [done|].
  intros h _. apply nofuel_bind; [apply transaction_info_nofuel|]. intros [[g s] l] _. nofuel.
Qed.
Lemma version_of_string_nofuel s : nofuel (version_of_string s).
Proof.
  assert (∀ parts, nofuel (component_extractor parts)).
  { intros [|part parts]; [done|]. unfold component_extractor. repeat case_match; done. }
  unfold version_of_string. repeat (nofuel; try case_match); done.
Qed.
Lemma get_encoded_version_nofuel ph : nofuel (get_encoded_server_version ph).
Proof. unfold get_encoded_server_version. case_match; done. Qed.
Lemma parse_fde_post_header_nofuel l : nofuel (parse_fde_post_header l).
Proof.
  unfold parse_fde_post_header, extract_fixed_int_from_byte_span, extract_byte_span_from_byte_span.
  apply nofuel_bind; [nofuel|]. intros _ _.
  apply nofuel_bind; [apply get_encoded_version_nofuel|]. intros ev _. nofuel.
Qed.
Lemma parse_fde_body_nofuel l : nofuel (parse_fde_body l).
Proof. unfold parse_fde_body. nofuel. Qed.
Lemma parse_rotate_post_header_nofuel l : nofuel (parse_rotate_post_header l).
Proof. unfold parse_rotate_post_header. nofuel. Qed.

Ltac handler_nofuel :=
  repeat first
  [ apply get_common_header_nofuel | apply validate_advance_nofuel | apply finish_transaction_nofuel
  | apply update_transaction_nofuel | apply start_transaction_nofuel | apply transaction_info_nofuel
  | apply parse_fde_post_header_nofuel | apply parse_fde_body_nofuel
  | apply get_encoded_version_nofuel | apply parse_rotate_post_header_nofuel
  | progress nofuel ].

Lemma dispatch_nofuel v i c : nofuel (dispatch v i c).
Proof.
  unfold dispatch. destruct (rc_state c).
  - unfold process_event_in_rotate_artificial_expected_state. handler_nofuel.
  - unfold process_event_in_format_description_expected_state, validate_post_header_lengths. handler_nofuel.
  - unfold process_event_in_previous_gtids_expected_state. handler_nofuel.
  - unfold process_event_in_gtid_log_expected_state. handler_nofuel.
  - unfold process_event_in_any_other_expected_state. handler_nofuel.
  - unfold process_event_in_rotate_or_stop_expected_state, validate_position. handler_nofuel.
Qed.

(** The second round ends the loop. *)
Lemma second_round v c c1 i1 :
  dispatch v false c = Ok (c1, false, i1) →
  ∀ c2 p2 i2, dispatch v i1 c1 = Ok (c2, p2, i2) → p2 = true.
Proof.
  intros Hd c2 p2 i2 Hd2. unfold dispatch in Hd. destruct (rc_state c) eqn:Es.
  - destruct (rotate_artificial_accepts _ _ _ _ Hd) as (h & _ & _ & _ & _ & Hr). done.
  - destruct (format_description_accepts _ _ _ _ Hd) as (h & ? & ? & ? & ? & _ & _ & _ & _ & _ & _ & Hr). done.
  - destruct (previous_gtids_accepts _ _ _ _ Hd) as (h & ? & _ & _ & _ & _ & Hr). done.
  - destruct (gtid_log_round _ _ _ _ Hd) as (h & Hh & [(_ & _ & c3 & _ & [= -> ->])|
      [(_ & _ & c3 & _ & [= -> ->])|(_ & c3 & _ & Hr)]]); [..|done]; unfold dispatch in Hd2; cbn in Hd2.
    + by destruct (rotate_artificial_accepts _ _ _ _ Hd2) as (? & _ & _ & _ & _ & [= _ -> _]).
    + by destruct (rotate_or_stop_accepts _ _ _ _ Hd2) as (? & _ & _ & _ & _ & [= _ -> _]).
  - destruct (any_other_round _ _ _ _ Hd) as (h & Hh & [(Hg & c3 & _ & [= -> ->])|
      [(_ & _ & c3 & _ & [= -> ->])|[(_ & _ & c3 & _ & [= -> ->])|(_ & _ & _ & c3 & c4 & _ & _ & Hr)]]]);
      [..|done]; unfold dispatch in Hd2; cbn in Hd2.
    + destruct (gtid_log_round _ _ _ _ Hd2) as (h' & Hh' & Hcases). rewrite Hh in Hh'. injection Hh' as <-.
      destruct Hcases as [(Hr & _)|[([Hr|Hr] & _)|(_ & c5 & _ & [= _ -> _])]];
        [rewrite Hr in Hg; discriminate Hg ..|done].
    + by destruct (rotate_artificial_accepts _ _ _ _ Hd2) as (? & _ & _ & _ & _ & [= _ -> _]).
    + by destruct (rotate_or_stop_accepts _ _ _ _ Hd2) as (? & _ & _ & _ & _ & [= _ -> _]).
  - destruct (rotate_or_stop_accepts _ _ _ _ Hd) as (h & _ & _ & _ & _ & Hr). done.
Qed.

(** processing an event terminates: a state hands the event on to another state at most
    once, so two rounds of the loop are always enough. *)
Theorem process_enough_rounds v c : process_event_view v c ≠ Err out_of_fuel.
Proof.
  unfold process_event_view, process_fuel. cbn [process_loop].
  change (nofuel ('(c0, processed, info) ← dispatch v false c;
    if (processed : bool) then Ok (c0, info)
    else '(c0, processed, info) ← dispatch v info c0;
      if (processed : bool) then Ok (c0, info) else Err out_of_fuel)).
  apply nofuel_bind; [apply dispatch_nofuel|]. intros [[c1 p1] i1] Hd1. destruct p1; [done|].
  apply nofuel_bind; [apply dispatch_nofuel|]. intros [[c2 p2] i2] Hd2.
  by rewrite (second_round _ _ _ _ Hd1 _ _ _ Hd2).
Qed.
End rounds.

(** ** Streams of events *)
Section streams.
Context `{BoostUuid} `{Zlib}.
Implicit Types (c : reader_context) (v : event_view) (h : common_header).

(** One event from the network: the view over it, then the machine. *)
Definition receive_event c (portion : list Z) : result (reader_context * event_view * bool) :=
  v ← make_event_view c portion;
  '(c', info_only) ← process_event_view v c;
  Ok (c', v, info_only).

Fixpoint run c (portions : list (list Z)) : result (reader_context * list (event_view * bool)) :=
  match portions with
  | [] => Ok (c, [])
  | portion :: portions =>
      '(c, v, info_only) ← receive_event c portion;
      '(c, trace) ← run c portions;
      Ok (c, (v, info_only) :: trace)
  end.

(** The steps of a run. *)
Inductive steps : reader_context → list (event_view * bool) → reader_context → Prop :=
  | steps_nil c : steps c [] c
  | steps_cons c v info c1 trace c2 :
      process_event_view v c = Ok (c1, info) → steps c1 trace c2 →
      steps c ((v, info) :: trace) c2.

Lemma run_steps portions c c' trace : run c portions = Ok (c', trace) → steps c trace c'.
Proof.
  revert c trace. induction portions as [|p portions IH]; intros c trace; cbn [run].
  - intros [= -> <-]. constructor.
  - intros Hr. apply result_bind_ok in Hr as ([[c1 v] i] & Hp & Hr).
    apply result_bind_ok in Hr as ([c2 tr] & Hr & [= -> <-]). unfold receive_event in Hp.
    apply result_bind_ok in Hp as (v' & _ & Hp). apply result_bind_ok in Hp as ([c3 i'] & Hp & [= -> -> ->]).
    econstructor; eauto.
Qed.

Lemma steps_app c tr1 tr2 c' :
  steps c (tr1 ++ tr2) c' ↔ ∃ c1, steps c tr1 c1 ∧ steps c1 tr2 c'.
Proof.
  split.
  - revert c. induction tr1 as [|[v i] tr1 IH]; intros c Hs; cbn in Hs.
    + exists c. split; [constructor|done].
    + inversion Hs as [|? ? ? c1 ? ? Hp Hrest]; subst. destruct (IH _ Hrest) as (c2 & ? & ?).
      exists c2. split; [econstructor; eauto|done].
  - intros (c1 & Hs1 & Hs2). induction Hs1; cbn; [done|]. econstructor; eauto.
Qed.

(** ** The grammar of the stream *)
Definition label : Type := code_type * bool.
Definition label_of v : label :=
  match get_common_header v with
  | Ok h => (ch_type_code h, is_artificial h)
  | Err _ => (ct_unknown, false)
  end.

Definition any_label (l : label) : Prop :=
  l.2 = false ∧ is_gtid_event l.1 = false ∧
  l.1 ∉ [ct_rotate; ct_stop; ct_format_description; ct_previous_gtids_log].
(** (ANONYMOUS_GTID_LOG | GTID_LOG | GTID_TAGGED_LOG) <ANY>* *)
Definition group (g : list label) : Prop :=
  ∃ l anys, g = l :: anys ∧ is_gtid_event l.1 = true ∧ Forall any_label anys.
(** ROTATE(artificial) FORMAT_DESCRIPTION PREVIOUS_GTIDS_LOG? *)
Definition preamble (p : list label) : Prop :=
  p = [(ct_rotate, true); (ct_format_description, false)] ∨
  p = [(ct_rotate, true); (ct_format_description, false); (ct_previous_gtids_log, false)].
(** (ROTATE | STOP)? *)
Definition ending (e : list label) : Prop :=
  e = [] ∨ e = [(ct_rotate, false)] ∨ e = [(ct_stop, false)].
Definition cycle (l : list label) : Prop :=
  ∃ p gs e, l = p ++ mjoin gs ++ e ∧ preamble p ∧ Forall group gs ∧ ending e.

(** What has been seen of the current cycle in each state. *)
Definition open_cycle (s : state_type) (l : list label) : Prop :=
  match s with
  | rotate_artificial_expected => l = []
  | format_description_expected => l = [(ct_rotate, true)]
  | previous_gtids_expected => l = [(ct_rotate, true); (ct_format_description, false)]
  | gtid_log_expected => preamble l
  | any_other_expected =>
      ∃ p gs, l = p ++ mjoin gs ∧ preamble p ∧ Forall group gs ∧ gs ≠ []
  | rotate_or_stop_expected => False
  end.

Lemma group_start l : is_gtid_event l.1 = true → group [l].
Proof. intros Hl. exists l, []. auto. Qed.
Lemma group_extend g l : group g → any_label l → group (g ++ [l]).
Proof.
  intros (l0 & anys & -> & Hl0 & Hall) Hl. exists l0, (anys ++ [l]). split_and!; [done..|].
  apply Forall_app. auto.
Qed.

(** Between groups, or in the last one, the cycle may end. *)
Lemma open_is_cycle s l e :
  s = gtid_log_expected ∨ s = any_other_expected → open_cycle s l → ending e → cycle (l ++ e).
Proof.
  intros [-> | ->]; cbn.
  - intros Hp He. exists l, [], e. done.
  - intros (p & gs & -> & Hp & Hg & _) He. exists p, gs, e. by rewrite <-app_assoc.
Qed.

Lemma last_group (gs : list (list label)) :
  gs ≠ [] → ∃ gs' g, gs = gs' ++ [g].
Proof. intros Hne. destruct (exists_last Hne) as (gs' & g & ->). eauto. Qed.

Lemma mjoin_snoc (gs : list (list label)) g : mjoin (gs ++ [g]) = mjoin gs ++ g.
Proof. rewrite join_app. cbn. by rewrite app_nil_r. Qed.

(** One step extends the current cycle or closes it. *)
Lemma grammar_step v c c' info l :
  step v c c' info → open_cycle (rc_state c) l →
  ∃ closed l', l ++ [label_of v] = closed ++ l' ∧ (closed = [] ∨ cycle closed) ∧
    open_cycle (rc_state c') l'.
Proof.
  intros Hs Ho. destruct Hs as [h c0 Hh Hc Ha Hst|h c1 i Hh Hc Ha Hst Hp|h c1 i Hh Hc Ha Hst Hp|
    h c0 c1 Hh Hg Hst (c2 & _ & c3 & _ & ->)|h c1 c2 Hh Hg Hc Ha Hst Hu Hv|h c0 Hh Hc Ha Hst _];
    unfold label_of; rewrite Hh.
  - rewrite Hc, Ha. exists l, [(ct_rotate, true)]. split_and!; [done| |done].
    destruct Hst as [[Hst _]|[Hst _]].
    + rewrite Hst in Ho. by left.
    + right. rewrite <-(app_nil_r l). eapply open_is_cycle; [|done|by left].
      destruct Hst as [-> | ->]; auto.
  - rewrite Hc, Ha. rewrite Hst in Ho. cbn in Ho. subst l. exists []. eexists.
    split; [done|]. split; [by left|].
    destruct (format_description_accepts _ _ _ _ Hp) as (? & ? & ? & ? & ? & _ & _ & _ & _ & _ & _ & [= -> ->]).
    cbn. case_match; [by left|done].
  - rewrite Hc, Ha. rewrite Hst in Ho. cbn in Ho. subst l. exists []. eexists.
    split; [done|]. split; [by left|].
    destruct (previous_gtids_accepts _ _ _ _ Hp) as (? & ? & _ & _ & _ & _ & [= -> ->]).
    cbn. by right.
  - exists []. eexists. split; [done|]. split; [by left|]. cbn. set (lb := (_, _)).
    assert (group [lb]) by (by apply group_start).
    destruct Hst as [[Hst _]|[Hst _]]; rewrite Hst in Ho; cbn in Ho.
    + exists l, [[lb]]. cbn. auto.
    + destruct Ho as (p & gs & -> & Hp & Hgs & _). exists p, (gs ++ [[lb]]).
      rewrite mjoin_snoc, app_assoc. split_and!; [done|done| |by destruct gs].
      apply Forall_app. auto.
  - exists []. eexists. split; [done|]. split; [by left|].
    assert (rc_state c2 = any_other_expected) as ->.
    { unfold update_transaction in Hu. apply result_bind_ok in Hu as (_ & _ & [= <-]).
      unfold validate_position_and_advance in Hv. by apply result_bind_ok in Hv as (_ & _ & [= <-]). }
    rewrite Hst in Ho. cbn in Ho. destruct Ho as (p & gs & -> & Hp & Hgs & Hne).
    destruct (last_group gs Hne) as (gs' & g & ->). apply Forall_app in Hgs as [Hgs' Hg'].
    apply Forall_cons in Hg' as [Hg' _]. cbn. exists p, (gs' ++ [g ++ [(ch_type_code h, is_artificial h)]]).
    rewrite !mjoin_snoc, !app_assoc. split_and!; [done..| |by destruct gs'].
    apply Forall_app. split; [done|]. constructor; [|done]. by apply group_extend.
  - eexists (l ++ [_]), []. rewrite app_nil_r. split; [done|]. split; [|done]. right.
    destruct Hst as [[Hst _]|[Hst _]]; [by rewrite Hst in Ho|].
    eapply open_is_cycle; [|done|]; [destruct Hst as [-> | ->]; auto|].
    rewrite Ha. unfold ending. destruct Hc as [-> | ->]; auto.
Qed.

Lemma grammar_steps c tr c' cycles l :
  steps c tr c' → Forall cycle cycles → open_cycle (rc_state c) l →
  ∃ cycles' l', mjoin cycles ++ l ++ ((label_of ∘ fst) <$> tr) = mjoin cycles' ++ l' ∧
    Forall cycle cycles' ∧ open_cycle (rc_state c') l'.
Proof.
  intros Hs. revert cycles l. induction Hs as [c|c v info c1 tr c2 Hp Hs IH]; intros cycles l Hc Ho.
  - exists cycles, l. cbn. by rewrite app_nil_r.
  - apply process_step in Hp. destruct (grammar_step _ _ _ _ _ Hp Ho) as (closed & l' & Heq & Hcl & Ho').
    rewrite fmap_cons. change ((label_of ∘ fst) (v, info)) with (label_of v).
    rewrite (cons_middle (label_of v)), (app_assoc l), Heq, <-app_assoc.
    destruct Hcl as [->|Hcl].
    + apply IH; done.
    + rewrite (app_assoc (mjoin cycles)), <-mjoin_snoc. apply IH; [|done].
      apply Forall_app. auto.
Qed.

(** C9: every stream of events that a fresh context accepts follows the grammar
    (ROTATE(artificial) FORMAT_DESCRIPTION PREVIOUS_GTIDS_LOG? ((ANONYMOUS_GTID_LOG |
    GTID_LOG | GTID_TAGGED_LOG) <ANY>* )* (ROTATE | STOP)?)+ : it is a sequence of complete
    cycles followed by the beginning of one, which the state of the context describes. *)
Theorem stream_grammar version checksum mode name pos portions c trace :
  run (make_reader_context version checksum mode name pos) portions = Ok (c, trace) →
  ∃ cycles l, (label_of ∘ fst) <$> trace = mjoin cycles ++ l ∧ Forall cycle cycles ∧
    open_cycle (rc_state c) l.
Proof.
  intros Hr%run_steps. by apply (grammar_steps _ _ _ [] []) in Hr.
Qed.
End streams.

(** ** Positions *)
Section positions.
Context `{BoostUuid} `{Zlib}.
Implicit Types (c : reader_context) (v : event_view) (h : common_header).

Lemma validate_position_ok h c :
  validate_position h c = Ok () ↔
  ch_next_event_position h ≠ 0 ∧ ch_next_event_position h = u32 (rc_position c + ch_event_size h).
Proof.
  unfold validate_position. split.
  - intros Hv. apply result_bind_ok in Hv as ([] & H1 & H2). apply raise_if_ok in H1. apply raise_if_ok in H2. to_prop. done.
  - intros [Hne Heq]. destruct (Z.eqb_spec (ch_next_event_position h) 0); [done|].
    cbn. by rewrite <-Heq, Z.eqb_refl.
Qed.

Lemma validate_advance_ok h c c' :
  validate_position_and_advance h c = Ok c' ↔
  validate_position h c = Ok () ∧ c' = set_position (ch_next_event_position h) c.
Proof.
  unfold validate_position_and_advance. split.
  - intros Hv. by apply result_bind_ok in Hv as ([] & Hv & [= <-]).
  - intros [-> ->]. done.
Qed.

Lemma start_transaction_position v c c' :
  start_transaction v c = Ok c' → rc_position c' = rc_position c.
Proof.
  unfold start_transaction. intros Hs. apply result_bind_ok in Hs as (h & _ & Hs).
  apply result_bind_ok in Hs as ([[g s] l] & _ & Hs). apply result_bind_ok in Hs as (_ & _ & [= <-]).
  by destruct g.
Qed.

Definition is_end_event (code : code_type) : bool :=
  match code with ct_rotate | ct_stop => true | _ => false end.

(** An event that goes to the file is where the context expects it, and moves the
    position past itself; the last event of a file resets it. *)
Lemma position_step v c c' :
  step v c c' false →
  ∃ h, get_common_header v = Ok h ∧ ch_next_event_position h ≠ 0 ∧
    ch_next_event_position h = u32 (rc_position c + ch_event_size h) ∧
    rc_position c' = if is_end_event (ch_type_code h) then magic_binlog_offset
                     else ch_next_event_position h.
Proof.
  intros Hs. remember false as info eqn:Ei.
  destruct Hs as [h c0 Hh Hc Ha Hst|h c' i Hh Hc Ha Hst Hp|h c' i Hh Hc Ha Hst Hp|
    h c0 c1 Hh Hg Hst (c2 & Hstart & c3 & Hv & ->)|h c1 c2 Hh Hg Hc Ha Hst Hu Hv|h c0 Hh Hc Ha Hst Hv];
    [discriminate Ei|exists h; (split; [done|])..].
  - destruct (format_description_accepts _ _ _ _ Hp) as (h' & ? & ? & ? & c1 & Hh' & _ & _ & _ & _ & Hadv & [= -> Hi]).
    rewrite Hh in Hh'. injection Hh' as <-. rewrite <-Hi, Ei in Hadv.
    apply validate_advance_ok in Hadv as [Hv ->]. apply validate_position_ok in Hv as [? ?].
    rewrite Hc. done.
  - destruct (previous_gtids_accepts _ _ _ _ Hp) as (h' & c1 & Hh' & _ & _ & Hadv & [= -> Hi]).
    rewrite Hh in Hh'. injection Hh' as <-. rewrite <-Hi, Ei in Hadv.
    apply validate_advance_ok in Hadv as [Hv ->]. apply validate_position_ok in Hv as [? ?].
    rewrite Hc. done.
  - apply validate_advance_ok in Hv as [Hv ->]. apply validate_position_ok in Hv as [Hne Heq].
    rewrite (start_transaction_position _ _ _ Hstart) in Heq.
    assert (rc_position c0 = rc_position c) as Hpos.
    { destruct Hst as [[_ ->]|[_ (c4 & [_ ->]%finish_transaction_ok & ->)]]; done. }
    rewrite Hpos in Heq. split_and!; [done..|].
    assert (is_end_event (ch_type_code h) = false) as -> by (by destruct (ch_type_code h)). done.
  - apply validate_advance_ok in Hv as [Hv ->]. apply validate_position_ok in Hv as [Hne Heq].
    unfold update_transaction in Hu. apply result_bind_ok in Hu as (_ & _ & [= <-]). cbn in *.
    split_and!; [done..|]. rewrite !not_elem_of_cons in Hc. destruct Hc as (? & ? & _).
    by destruct (ch_type_code h).
  - apply validate_position_ok in Hv as [Hne Heq].
    assert (rc_position c0 = rc_position c) as Hpos.
    { destruct Hst as [[_ ->]|[_ (c4 & [_ ->]%finish_transaction_ok & ->)]]; done. }
    rewrite Hpos in Heq. split_and!; [done..|]. destruct Hc as [-> | ->]; done.
Qed.

Definition size_of v : Z := match get_common_header v with Ok h => ch_event_size h | Err _ => 0 end.
Definition code_of v : code_type := (label_of v).1.
Definition total_size (vs : list event_view) : Z := foldr (λ v n, size_of v + n) 0 vs.

(** the position follows the file: after a run of events that go to the file, none of
    which ends it, the position is the one at the start plus the sizes of all of them,
    modulo 2^32, and every event was checked to be at its place. *)
Theorem position_run c portions c' trace :
  run c portions = Ok (c', trace) → in_width 32 (rc_position c) →
  Forall (λ p, p.2 = false ∧ is_end_event (code_of p.1) = false) trace →
  rc_position c' = u32 (rc_position c + total_size (trace.*1)).
Proof.
  intros Hr%run_steps Hw Hall.
  induction Hr as [c|c v info c1 tr c2 Hp Hs IH].
  - cbn. rewrite Z.add_0_r, wrap_small; done.
  - apply Forall_cons in Hall as [[Hi He] Hall]. cbn in Hi, He. subst info.
    apply process_step, position_step in Hp as (h & Hh & Hne & Heq & Hpos).
    assert (is_end_event (ch_type_code h) = false) as He'
      by (unfold code_of, label_of in He; rewrite Hh in He; exact He).
    change (total_size ((v, false) :: tr).*1) with (size_of v + total_size tr.*1).
    assert (size_of v = ch_event_size h) as -> by (unfold size_of; by rewrite Hh).
    rewrite He' in Hpos. rewrite Hpos, Heq in IH. rewrite IH; [|apply (wrap_bound 32); lia|done].
    unfold wrap. rewrite Z.add_mod_idemp_l by lia. f_equal. lia.
Qed.

(** ** Resuming in the middle of a file *)
Lemma steps_cons_inv c v i tr c' :
  steps c ((v, i) :: tr) c' → ∃ c1, step v c c1 i ∧ steps c1 tr c'.
Proof.
  intros Hs. inversion Hs as [|? ? ? c1 ? ? Hp Hr]; subst. exists c1. split; [by apply process_step|done].
Qed.

Lemma steps_nil_inv c c' : steps c [] c' → c' = c.
Proof. by inversion 1. Qed.

(** The states of the preamble accept one kind of event each. *)
Lemma step_from_rotate v c c' info :
  step v c c' info → rc_state c = rotate_artificial_expected →
  c' = after_rotate (get_body_raw v) c ∧ info = true.
Proof.
  intros Hs Hst. destruct Hs as [? ? ? ? ? H1|? ? ? ? ? ? H1|? ? ? ? ? ? H1|? ? ? ? ? H1|? ? ? ? ? ? ? H1|? ? ? ? ? H1];
    rewrite Hst in H1; try done.
  - destruct H1 as [[_ ->]|[[?|?] _]]; done.
  - by destruct H1 as [[? _]|[? _]].
  - by destruct H1 as [[? _]|[[?|?] _]].
Qed.

Lemma step_from_format_description v c c' info :
  step v c c' info → rc_state c = format_description_expected →
  rc_expect_info_only_preamble_events c = true →
  info = true ∧ rc_position c' = rc_position c ∧ rc_expect_info_only_preamble_events c' = true ∧
  rc_state c' = match rc_replication_mode c with
                | mode_position => gtid_log_expected | mode_gtid => previous_gtids_expected end.
Proof.
  intros Hs Hst Hinfo. destruct Hs as [? ? ? ? ? H1|? ? ? ? ? ? H1 Hp|? ? ? ? ? ? H1|? ? ? ? ? H1|? ? ? ? ? ? ? H1|? ? ? ? ? H1];
    rewrite Hst in H1; try done; try by destruct H1 as [[? _]|[[?|?] _]].
  2: by destruct H1 as [[? _]|[? _]].
  destruct (format_description_accepts _ _ _ _ Hp) as (? & ? & ? & ? & ? & _ & _ & _ & _ & _ & Hadv & [= -> Hi]).
  rewrite Hinfo in *. subst. split_and!; [done..|]. cbn. by destruct (rc_replication_mode c).
Qed.

Lemma step_from_previous_gtids v c c' info :
  step v c c' info → rc_state c = previous_gtids_expected →
  rc_expect_info_only_preamble_events c = true →
  info = true ∧ rc_position c' = rc_position c ∧ rc_state c' = gtid_log_expected.
Proof.
  intros Hs Hst Hinfo. destruct Hs as [? ? ? ? ? H1|? ? ? ? ? ? H1|? ? ? ? ? ? H1 Hp|? ? ? ? ? H1|? ? ? ? ? ? ? H1|? ? ? ? ? H1];
    rewrite Hst in H1; try done; try by destruct H1 as [[? _]|[[?|?] _]].
  2: by destruct H1 as [[? _]|[? _]].
  destruct (previous_gtids_accepts _ _ _ _ Hp) as (? & ? & _ & _ & _ & Hadv & [= -> Hi]).
  rewrite Hinfo in *. subst. done.
Qed.

(** resuming at a position past the start of the current file: the artificial ROTATE to
    that file and the format description (and, in GTID mode, the previous GTIDs) that the
    server repeats are not for the file, and the position stays where the file ends. *)
Theorem resume_preamble version checksum mode name pos portions c trace :
  magic_binlog_offset < pos →
  run (make_reader_context version checksum mode name pos) portions = Ok (c, trace) →
  length portions = (match mode with mode_position => 2 | mode_gtid => 3 end)%nat →
  match trace with (v, _) :: _ => get_body_raw v = name | [] => True end →
  Forall (λ p, p.2 = true) trace ∧ rc_position c = pos ∧ rc_state c = gtid_log_expected.
Proof.
  intros Hpos Hr Hl Hname. unfold magic_binlog_offset in Hpos.
  assert (length trace = length portions) as Hlt.
  { clear -Hr. revert c trace Hr. generalize (make_reader_context version checksum mode name pos).
    induction portions as [|p ps IH]; intros c0 c trace; cbn [run]; [by intros [= _ <-]|].
    intros Hr. apply result_bind_ok in Hr as ([[c1 v] i] & _ & Hr).
    apply result_bind_ok in Hr as ([c2 tr] & Hr & [= _ <-]). cbn. f_equal. by eapply IH. }
  apply run_steps in Hr. set (c0 := make_reader_context version checksum mode name pos) in *.
  assert (rc_position c0 = pos) as Hp0.
  { unfold c0, make_reader_context. cbn. destruct (Z.eqb_spec pos 0); [lia|done]. }
  destruct trace as [|[v1 i1] trace]; [by destruct mode; rewrite Hl in Hlt|]. subst name.
  apply steps_cons_inv in Hr as (c1 & Hs1 & Hr1).
  destruct (step_from_rotate _ _ _ _ Hs1 eq_refl) as [-> ->].
  set (c1 := after_rotate (get_body_raw v1) c0) in *.
  assert (rc_position c1 = pos ∧ rc_expect_info_only_preamble_events c1 = true)
    as [Hpos1 Hinfo1].
  { unfold c1, after_rotate. change (rc_binlog_name c0) with (get_body_raw v1).
    rewrite bool_decide_eq_true_2 by done. cbn [negb]. split; [done|]. rewrite Hp0.
    unfold magic_binlog_offset. destruct (Z.ltb_spec 4 pos); [done|lia]. }
  assert (rc_replication_mode c1 = mode) as Hmode1.
  { unfold c1, after_rotate. by destruct (negb _). }
  destruct trace as [|[v2 i2] trace]; [by destruct mode; rewrite Hl in Hlt|].
  apply steps_cons_inv in Hr1 as (c2 & Hs2 & Hr2).
  destruct (step_from_format_description _ _ _ _ Hs2) as (-> & Hpos2 & Hinfo2 & Hst2);
    [done..|]. rewrite Hmode1 in Hst2. rewrite Hpos1 in Hpos2.
  destruct mode; cbn in Hl, Hlt, Hst2; rewrite Hl in Hlt.
  - destruct trace; [|done]. apply steps_nil_inv in Hr2 as ->. split_and!; [by repeat constructor | done..].
  - destruct trace as [|[v3 i3] trace]; [done|]. destruct trace; [|done].
    apply steps_cons_inv in Hr2 as (c3 & Hs3 & Hr3). apply steps_nil_inv in Hr3 as ->.
    destruct (step_from_previous_gtids _ _ _ _ Hs3) as (-> & Hpos3 & Hst3); [done..|].
    split_and!; [by repeat constructor | by rewrite Hpos3 | done].
Qed.
End positions.

(** ** Transactions *)
Section transaction_lengths.
Context `{BoostUuid} `{Zlib}.
Implicit Types (c : reader_context) (v : event_view) (h : common_header).

Lemma label_of_header v h :
  get_common_header v = Ok h → code_of v = ch_type_code h ∧ size_of v = ch_event_size h.
Proof. intros Hh. unfold code_of, label_of, size_of. by rewrite Hh. Qed.

Lemma event_size_width v h :
  bytes_ok (ev_portion v) → get_common_header v = Ok h → in_width 32 (ch_event_size h).
Proof.
  intros Hb Hh. unfold get_common_header, parse_common_header, common_header_view in Hh.
  apply result_bind_ok in Hh as (view & Hv & Hh). apply result_bind_ok in Hv as ([] & Hl & Hv).
  apply raise_if_ok in Hl. apply result_bind_ok in Hv as ([] & _ & [= <-]).
  apply result_bind_ok in Hh as (code & _ & [= <-]). cbn [ch_event_size]. to_prop.
  unfold get_event_size_raw, get_field, extract_fixed_int_from_byte_span. cbn [fst].
  rewrite take_take, Nat.min_id.
  set (l := take 4 (drop event_size_offset (get_common_header_raw v))).
  assert (length l = 4%nat) as Hl4.
  { unfold l. rewrite length_take, length_drop, Hl. done. }
  replace 32 with (8 * Z.of_nat (length l)) by (by rewrite Hl4). apply le_combine_bound.
  unfold l, get_common_header_raw. by apply Forall_take, Forall_drop, Forall_take.
Qed.

(** The context inside the transaction that the event [g] started, after events of total
    size [n]. *)
Definition in_transaction g (n : Z) c : Prop :=
  rc_state c = any_other_expected ∧ rc_current_transaction_length c = u32 n ∧
  ∃ gt seq, transaction_info (code_of g) g = Ok (gt, seq, rc_expected_transaction_length c) ∧
    match gt with Some x => rc_transaction_gtid c = x | None => True end.

Lemma start_in_transaction g c c' info :
  step g c c' info → bytes_ok (ev_portion g) → is_gtid_event (code_of g) = true →
  in_transaction g (size_of g) c'.
Proof.
  intros Hs Hb Hg.
  destruct Hs as [h c0 Hh Hc|h c1 i Hh Hc|h c1 i Hh Hc|
    h c0 c1 Hh _ Hst (c2 & Hstart & c3 & Hv & ->)|h c1 c2 Hh Hg'|h c0 Hh Hc];
    destruct (label_of_header _ _ Hh) as [Ecode Esize]; rewrite Ecode in Hg;
    try (rewrite Hc in Hg; discriminate Hg); try congruence.
  2: { destruct Hc as [Hc|Hc]; rewrite Hc in Hg; discriminate Hg. }
  apply validate_advance_ok in Hv as [_ ->]. unfold start_transaction in Hstart.
  apply result_bind_ok in Hstart as (h' & Hh' & Hstart). rewrite Hh in Hh'. injection Hh' as <-.
  apply result_bind_ok in Hstart as ([[gt seq] len] & Hinfo & Hstart).
  apply result_bind_ok in Hstart as ([] & _ & [= <-]). unfold in_transaction. rewrite Ecode, Esize.
  split; [done|]. split.
  - cbn. rewrite wrap_small; [done|]. by eapply event_size_width.
  - exists gt, seq. by destruct gt.
Qed.

(** Inside a transaction, another event is either one more of it or ends it. *)
Lemma continue_transaction g n v c c' info :
  step v c c' info → in_transaction g n c →
  is_gtid_event (code_of v) = false → is_end_event (code_of v) = false →
  in_transaction g (n + size_of v) c'.
Proof.
  intros Hs (Hst & Hcur & gt & seq & Hinfo & Hgt) Hg He.
  destruct Hs as [h c0 Hh Hc|h c1 i Hh Hc Ha Hst'|h c1 i Hh Hc Ha Hst'|
    h c0 c1 Hh Hg'|h c1 c2 Hh Hg' Hc Ha _ Hu Hv|h c0 Hh Hc];
    destruct (label_of_header _ _ Hh) as [Ecode Esize]; rewrite Ecode in Hg, He;
    try (rewrite Hc in He; discriminate He); try congruence.
  2: { destruct Hc as [Hc|Hc]; rewrite Hc in He; discriminate He. }
  apply validate_advance_ok in Hv as [_ ->]. unfold update_transaction in Hu.
  apply result_bind_ok in Hu as ([] & _ & [= <-]). unfold in_transaction. rewrite Esize.
  split; [done|]. split; [|by exists gt, seq]. cbn. rewrite Hcur. unfold wrap.
  by rewrite Z.add_mod_idemp_l by lia.
Qed.

Lemma transaction_steps g n c tr c' :
  steps c tr c' → in_transaction g n c →
  Forall (λ p, is_gtid_event (code_of p.1) = false ∧ is_end_event (code_of p.1) = false) tr →
  in_transaction g (n + total_size tr.*1) c'.
Proof.
  intros Hs. revert n. induction Hs as [c|c v info c1 tr c2 Hp Hs IH]; intros n Hin Hall.
  - cbn. by rewrite Z.add_0_r.
  - apply Forall_cons in Hall as [[Hg He] Hall].
    change (total_size ((v, info) :: tr).*1) with (size_of v + total_size tr.*1).
    rewrite Z.add_assoc. apply IH; [|done]. by eapply continue_transaction; [apply process_step|..].
Qed.

(** C11: a transaction that the context lets end has exactly the length its GTID event
    declared: when the events of a transaction are followed by an accepted GTID, ROTATE
    or STOP event, the sizes of the events add up (modulo 2^32) to the declared length. *)
Theorem transaction_length_exact c portions c' g ig es n info :
  run c portions = Ok (c', (g, ig) :: es ++ [(n, info)]) → bytes_ok (ev_portion g) →
  is_gtid_event (code_of g) = true →
  Forall (λ p, is_gtid_event (code_of p.1) = false ∧ is_end_event (code_of p.1) = false) es →
  is_gtid_event (code_of n) || is_end_event (code_of n) = true →
  ∃ gt seq, transaction_info (code_of g) g = Ok (gt, seq, u32 (total_size (g :: es.*1))).
Proof.
  intros Hr%run_steps Hb Hg Hes Hn. apply steps_cons_inv in Hr as (c1 & Hs1 & Hr).
  apply steps_app in Hr as (c2 & Hs2 & Hr). apply steps_cons_inv in Hr as (c3 & Hs3 & _).
  apply start_in_transaction in Hs1; [|done..].
  destruct (transaction_steps _ _ _ _ _ Hs2 Hs1 Hes) as (Hst & Hcur & gt & seq & Hinfo & _).
  exists gt, seq. rewrite Hinfo. do 2 f_equal.
  change (total_size (g :: es.*1)) with (size_of g + total_size es.*1). rewrite <-Hcur.
  symmetry.
  destruct Hs3 as [h c0 Hh Hc Ha Hst'|h c3 i Hh Hc Ha Hst'|h c3 i Hh Hc Ha Hst'|
    h c0 c3 Hh Hg' Hst'|h c3 c4 Hh Hg' Hc Ha Hst'|h c0 Hh Hc Ha Hst'].
  - destruct Hst' as [[? _]|(_ & c5 & Hf & _)]; [congruence|]. by apply finish_transaction_ok in Hf as [? _].
  - congruence.
  - congruence.
  - destruct Hst' as [[? _]|(_ & c5 & Hf & _)]; [congruence|]. by apply finish_transaction_ok in Hf as [? _].
  - destruct (label_of_header _ _ Hh) as [Ecode _]. rewrite Ecode, Hg' in Hn. cbn in Hn.
    rewrite !not_elem_of_cons in Hc. destruct Hc as (? & ? & _). by destruct (ch_type_code h).
  - destruct Hst' as [[? _]|(_ & c5 & Hf & _)]; [congruence|]. by apply finish_transaction_ok in Hf as [? _].
Qed.

(** C10: after a GTID event and further events of its transaction, the context reports a
    transaction boundary exactly when their sizes add up (modulo 2^32) to the declared
    length, and it holds the GTID of the transaction. *)
Theorem transaction_boundary c portions c' g ig es :
  run c portions = Ok (c', (g, ig) :: es) → bytes_ok (ev_portion g) →
  is_gtid_event (code_of g) = true →
  Forall (λ p, is_gtid_event (code_of p.1) = false ∧ is_end_event (code_of p.1) = false) es →
  ∃ gt seq len, transaction_info (code_of g) g = Ok (gt, seq, len) ∧
    is_at_transaction_boundary c' = (u32 (total_size (g :: es.*1)) =? len) ∧
    match gt with Some x => rc_transaction_gtid c' = x | None => True end.
Proof.
  intros Hr%run_steps Hb Hg Hes. apply steps_cons_inv in Hr as (c1 & Hs1 & Hs2).
  apply start_in_transaction in Hs1; [|done..].
  destruct (transaction_steps _ _ _ _ _ Hs2 Hs1 Hes) as (Hst & Hcur & gt & seq & Hinfo & Hgt).
  exists gt, seq, (rc_expected_transaction_length c'). split; [done|]. split; [|done].
  unfold is_at_transaction_boundary. rewrite Hst, Hcur. cbn.
  change (total_size (g :: es.*1)) with (size_of g + total_size es.*1).
  by rewrite orb_false_r.
Qed.
End transaction_lengths.

(** ** Tables and views *)
Section tables.
Context `{Zlib}.
Implicit Types c : reader_context.

(** the tables of post header lengths agree: for every server version, the table
    generated from the classes accepts the hard-coded table of the servers, and every
    specified entry of the two is the same. *)
Theorem post_header_tables version :
  validate_post_header_lengths version (get_hardcoded_post_header_lengths version)
    (get_known_post_header_lengths version) = Ok () ∧
  post_header_lengths_ok (get_hardcoded_post_header_lengths version) ∧
  post_header_lengths_ok (get_known_post_header_lengths version) ∧
  ∀ code, let known := get_post_header_length_for_code version
              (get_known_post_header_lengths version) code in
    known ≠ unspecified_post_header_length →
    get_post_header_length_for_code version (get_hardcoded_post_header_lengths version) code = known.
Proof.
  unfold validate_post_header_lengths, get_hardcoded_post_header_lengths,
    get_known_post_header_lengths, get_post_header_length_for_code, get_number_of_events.
  destruct (version <? latest_known_protocol_server_version);
    (split_and!; [by vm_compute..|]; intros code; destruct code; vm_compute; done).
Qed.

Lemma post_header_length_nonneg version storage code :
  bytes_ok storage → 0 ≤ get_post_header_length_for_code version storage code.
Proof.
  intros Hb. unfold get_post_header_length_for_code. case_match; [done|].
  assert (0 ≤ default 0 (storage !! Z.to_nat (code_index code - 1))).
  { destruct (storage !! _) as [x|] eqn:E; cbn; [|done]. rewrite Forall_lookup in Hb.
    by apply (Hb _ _ E). }
  by case_match.
Qed.

Lemma post_header_size_bound c code total footer n :
  bytes_ok (rc_post_header_lengths c) → post_header_size_of c code total footer = Ok n →
  (default_common_header_length + n + footer ≤ total)%nat.
Proof.
  intros Hb. pose proof (post_header_length_nonneg (rc_current_encoded_server_version c) _ code Hb).
  unfold post_header_size_of, get_current_post_header_length. case_bool_decide as Hc; intros Hp.
  - apply result_bind_ok in Hp as ([] & Hl & [= <-]). apply raise_if_ok in Hl. to_prop.
    unfold fde_body_size, default_common_header_length in *. lia.
  - apply result_bind_ok in Hp as ([] & _ & Hp). apply result_bind_ok in Hp as ([] & Hl & [= <-]).
    apply raise_if_ok in Hl. to_prop. lia.
Qed.

(** a view over an event divides it exactly: common header, post header, body and
    footer follow each other and fill the event, whose size is the one in its header;
    with verification on, the checksum in the footer was compared with the CRC of the
    rest. *)
Theorem event_view_partition c portion v :
  bytes_ok (rc_post_header_lengths c) → make_event_view c portion = Ok v →
  ev_portion v = portion ∧
  portion = get_common_header_raw v ++ get_post_header_raw v ++ get_body_raw v ++ get_footer_raw v ∧
  ∃ h, get_common_header v = Ok h ∧ ch_event_size h = Z.of_nat (length portion) ∧
    (rc_checksum_verification_enabled c = true → has_footer v = true →
     ch_type_code h ≠ ct_format_description →
     get_crc_raw (get_footer_raw v) =
       calculate_crc32 (get_common_header_raw v ++ get_post_header_raw v ++ get_body_raw v)).
Proof.
  unfold make_event_view. intros Hb Hm. apply result_bind_ok in Hm as ([] & Hlen & Hm).
  apply raise_if_ok in Hlen. to_prop. apply result_bind_ok in Hm as (h & Hh & Hm). cbv zeta in Hm.
  apply result_bind_ok in Hm as ([] & Hsize & Hm). apply raise_if_ok in Hsize. to_prop.
  apply result_bind_ok in Hm as (ph & Hph & Hm). apply result_bind_ok in Hm as ([] & Hcrc & [= <-]).
  set (f := if bool_decide _ then _ else _) in *. cbn [ev_portion].
  apply post_header_size_bound in Hph; [|done]. split; [done|].
  unfold get_common_header, get_common_header_raw, get_post_header_raw, get_body_raw,
    get_footer_raw, get_body_size, get_total_size, verify_checksum, has_footer, calculate_crc in *.
  cbn [ev_portion ev_post_header_size ev_footer_size get_total_size] in *.
  set (k := default_common_header_length) in *.
  assert (take k portion ++ take ph (drop k portion) ++
    take (length portion - k - ph - f) (drop (k + ph) portion) = take (length portion - f) portion) as Hpre.
  { rewrite app_assoc, !take_take_drop. f_equal. lia. }
  split.
  - rewrite !app_assoc, <-(app_assoc (take k portion)), Hpre.
    rewrite take_ge with (l := drop (length portion - f) portion) by (rewrite length_drop; lia).
    by rewrite take_drop.
  - exists h. split; [done|]. split; [done|]. intros Hver Hfoot Hcode.
    rewrite Hver, Hfoot in Hcrc. cbn [negb] in Hcrc.
    apply result_bind_ok in Hcrc as (skip & Hskip & Hcrc).
    rewrite bool_decide_eq_false_2 in Hskip by done. injection Hskip as <-. cbv iota in Hcrc.
    apply result_bind_ok in Hcrc as (foot & Hfv & Hcrc). apply raise_if_ok in Hcrc. to_prop.
    unfold footer_view in Hfv. apply result_bind_ok in Hfv as ([] & _ & [= <-]).
    by rewrite Hpre.
Qed.
End tables.

(** ** A concrete stream *)
Module StreamExamples.
Import UuidModel GtidLogExamples.

#[export] Instance sample_zlib : Zlib := { crc32_z := λ _ _, 0 }.

Definition name1 : list Z := text "binlog.000001".
Definition event_bytes (ts : Z) (code : code_type) (next flags : Z) (rest : list Z) : list Z :=
  common_header_bytes
    (mk_common_header ts code 1 (Z.of_nat (19 + length rest)) next flags) ++ rest.

Definition rotate_artificial (pos : Z) (name : list Z) : list Z :=
  event_bytes 0 ct_rotate 0 artificial_flag (le_split 8 pos ++ name).
Definition sample_version_fde : fde_post_header :=
  make_fde_post_header default_binlog_version (mk_semantic_version 8 0 45) 1700000000 19
    (get_hardcoded_post_header_lengths 80045).
(** without checksums, but the footer is always there *)
Definition format_description (next : Z) : list Z :=
  event_bytes 1700000000 ct_format_description next 0
    (fde_bytes sample_version_fde 42 ++ [checksum_off] ++ [0; 0; 0; 0]).
Definition previous_gtids (next : Z) : list Z :=
  event_bytes 1700000000 ct_previous_gtids_log next 0 (replicate 8 0).
Definition gtid_event (transaction_length next : Z) : list Z :=
  event_bytes 1700000001 ct_gtid_log next 0
    (gtid_log_post_header_bytes (mk_gtid_log_post_header 1 sample_uuid 1 2 0 1) ++
     gtid_log_body_bytes (mk_gtid_log_body 1700000001000000 unset_commit_timestamp
       transaction_length 80045 unset_server_version unset_commit_group_ticket)).
Definition query_event (next : Z) : list Z :=
  event_bytes 1700000001 ct_query next 0 (replicate 21 7).
Definition rotate_event (next : Z) : list Z :=
  event_bytes 1700000002 ct_rotate next 0 (le_split 8 4 ++ text "binlog.000002").

(** A file with one transaction of two events (73 and 40 bytes), then its end. *)
Definition sample_stream : list (list Z) :=
  [rotate_artificial 4 name1; format_description 126; previous_gtids 153;
   gtid_event 113 226; query_event 266; rotate_event 306].
Definition sample_context : reader_context :=
  make_reader_context 80045 false mode_gtid [] 0.

Definition trace_of (r : result (reader_context * list (event_view * bool)))
    : list (event_view * bool) :=
  match r with Ok (_, trace) => trace | Err _ => [] end.
Definition context_of (r : result (reader_context * list (event_view * bool))) : reader_context :=
  match r with Ok (c, _) => c | Err _ => sample_context end.
Definition accepted_run (c : reader_context) (portions : list (list Z)) : bool :=
  is_ok (run c portions).
Lemma run_eta c portions :
  accepted_run c portions = true →
  run c portions = Ok (context_of (run c portions), trace_of (run c portions)).
Proof. unfold accepted_run. by destruct (run c portions) as [[??]|]. Qed.

Lemma stream_grammar_witness :
  ∃ cycles l, (label_of ∘ fst) <$> trace_of (run sample_context sample_stream) = mjoin cycles ++ l ∧
    Forall cycle cycles ∧ l = [].
Proof.
  destruct (stream_grammar 80045 false mode_gtid [] 0 sample_stream
    (context_of (run sample_context sample_stream)) (trace_of (run sample_context sample_stream)))
    as (cycles & l & Heq & Hc & Ho).
  - apply run_eta. by vm_compute.
  - exists cycles, l. split; [done|]. split; [done|].
    assert (rc_state (context_of (run sample_context sample_stream)) = rotate_artificial_expected)
      as Hs by (by vm_compute). by rewrite Hs in Ho.
Defined.

(** The context after the artificial ROTATE; the next four events go to the file. *)
Definition after_first : reader_context :=
  context_of (run sample_context (take 1 sample_stream)).
Lemma position_run_witness :
  rc_position (context_of (run after_first (take 4 (drop 1 sample_stream)))) = 266.
Proof.
  transitivity (u32 (rc_position after_first +
    total_size (trace_of (run after_first (take 4 (drop 1 sample_stream)))).*1));
    [|by vm_compute].
  apply (position_run after_first (take 4 (drop 1 sample_stream))).
  - apply run_eta. by vm_compute.
  - by vm_compute.
  - apply (bool_decide_unpack _). by vm_compute.
Defined.

Definition resume_stream : list (list Z) :=
  [rotate_artificial 4 name1; format_description 126; previous_gtids 153].
Lemma resume_preamble_witness :
  rc_position (context_of (run (make_reader_context 80045 false mode_gtid name1 153) resume_stream)) = 153.
Proof.
  apply (resume_preamble 80045 false mode_gtid name1 153 resume_stream _
    (trace_of (run (make_reader_context 80045 false mode_gtid name1 153) resume_stream))).
  - done.
  - apply run_eta. by vm_compute.
  - done.
  - by vm_compute.
Defined.

Definition before_transaction : reader_context :=
  context_of (run sample_context (take 3 sample_stream)).
Definition view_of (c : reader_context) (portion : list Z) : event_view :=
  match make_event_view c portion with Ok v => v | Err _ => mk_event_view [] 0 0 end.
Definition gtid_view : event_view := mk_event_view (gtid_event 113 226) 42 0.
Definition query_view : event_view := mk_event_view (query_event 266) 13 0.
Definition rotate_view : event_view := mk_event_view (rotate_event 306) 8 0.

Lemma transaction_length_exact_witness :
  ∃ gt seq, transaction_info ct_gtid_log gtid_view = Ok (gt, seq, 113).
Proof.
  destruct (transaction_length_exact before_transaction (drop 3 sample_stream)
    (context_of (run before_transaction (drop 3 sample_stream)))
    gtid_view false [(query_view, false)] rotate_view false) as (gt & seq & Hinfo).
  - by vm_compute.
  - apply (bool_decide_unpack _). by vm_compute.
  - by vm_compute.
  - apply (bool_decide_unpack _). by vm_compute.
  - by vm_compute.
  - exists gt, seq. assert (code_of gtid_view = ct_gtid_log) as Hc by (by vm_compute).
    rewrite Hc in Hinfo. rewrite Hinfo. by vm_compute.
Defined.

Lemma transaction_boundary_witness :
  ∃ gt seq len, transaction_info ct_gtid_log gtid_view = Ok (gt, seq, len) ∧
    is_at_transaction_boundary
      (context_of (run before_transaction (take 1 (drop 3 sample_stream)))) =
      (u32 (total_size [gtid_view]) =? len).
Proof.
  destruct (transaction_boundary before_transaction (take 1 (drop 3 sample_stream))
    (context_of (run before_transaction (take 1 (drop 3 sample_stream)))) gtid_view false [])
    as (gt & seq & len & H1 & H2 & _).
  - by vm_compute.
  - apply (bool_decide_unpack _). by vm_compute.
  - by vm_compute.
  - constructor.
  - exists gt, seq, len. assert (code_of gtid_view = ct_gtid_log) as Hc by (by vm_compute).
    rewrite Hc in H1. split; [exact H1 | exact H2].
Defined.

Lemma event_view_partition_witness :
  gtid_event 113 226 = get_common_header_raw gtid_view ++ get_post_header_raw gtid_view ++
    get_body_raw gtid_view ++ get_footer_raw gtid_view.
Proof.
  apply (event_view_partition before_transaction (gtid_event 113 226) gtid_view).
  - apply (bool_decide_unpack _). by vm_compute.
  - by vm_compute.
Defined.
End StreamExamples.
