(* ===== verification/Rewriter.v ===== *)
(** * The event rewriter

    Models src/src/binsrv/events/rewriter.{hpp,cpp} and the updatable view of an event with
    its write proxy (event_view.hpp).

    An updatable view is an [event_view] value whose portion is the buffer of the caller; a
    write through it gives the view over the buffer after the write.  A modification
    functor maps the view it is given to the view it leaves; the write proxy it works
    through recomputes the checksum when it goes out of scope. *)

From S2P Require Import Prelude ByteSpan OrderedMap IntervalSet Gtid GtidSet GtidSetEncoding.
From S2P Require Import Util Protocol GtidLog GtidTaggedLog ReaderContext.

Local Open Scope Z_scope.

Inductive materialization_type :=
  | force_add_checksum | force_remove_checksum | leave_checksum_as_is.
#[export] Instance materialization_type_eq_dec : EqDecision materialization_type.
Proof. solve_decision. Defined.

(** ** Writing through an updatable view *)
Definition write_section (offset : nat) (bytes : list Z) (v : event_view) : event_view :=
  mk_event_view (sp_store (write_bytes bytes (mk_span (ev_portion v) offset)))
    (ev_post_header_size v) (ev_footer_size v).
Definition put_common_header := write_section 0.
Definition put_post_header := write_section default_common_header_length.
Definition put_body (bytes : list Z) (v : event_view) : event_view :=
  write_section (default_common_header_length + ev_post_header_size v) bytes v.
Definition put_footer (bytes : list Z) (v : event_view) : event_view :=
  write_section (get_total_size v - ev_footer_size v) bytes v.

Definition get_common_header_updatable_view (v : event_view) : result (list Z) :=
  common_header_view (get_common_header_raw v).

(** [small_vector::resize]: the new elements are zeros *)
Definition resize_buffer (n : nat) (buffer : list Z) : list Z :=
  take n buffer ++ replicate (n - length buffer) 0.

Section rewriter.
Context `{Zlib}.
Implicit Types (v : event_view) (mode : materialization_type).

(** [~write_proxy]: an exception would leave a destructor *)
Definition release_write_proxy v : result event_view :=
  if has_footer v then
    match footer_view (get_footer_raw v) with
    | Ok footer => Ok (put_footer (set_crc_raw (calculate_crc v) footer) v)
    | Err _ => Err (terminate "write_proxy")
    end
  else Ok v.

(** ** Materialization *)
Definition prepare_generic_materialize_internal v mode : materialization_type * event_view :=
  let mode := if bool_decide (mode = force_remove_checksum) && negb (has_footer v)
              then leave_checksum_as_is else mode in
  let mode := if bool_decide (mode = force_add_checksum) && has_footer v
              then leave_checksum_as_is else mode in
  let '(buffer, destination_footer_size) :=
    match mode with
    | force_add_checksum =>
        (resize_buffer (get_total_size v + default_footer_length) (ev_portion v),
         default_footer_length)
    | force_remove_checksum =>
        (take (get_total_size v - default_footer_length) (ev_portion v), 0%nat)
    | leave_checksum_as_is => (ev_portion v, ev_footer_size v)
    end in
  (mode, mk_event_view buffer (ev_post_header_size v) destination_footer_size).

Definition generic_materialize v mode
    (modification_functor : materialization_type → event_view → result event_view)
    : result event_view :=
  let '(mode, result) := prepare_generic_materialize_internal v mode in
  result ← modification_functor mode result;
  release_write_proxy result.

(** the fields of the common header that depend on the size *)
Definition update_event_size mode (total_size : Z) (header : list Z) : list Z :=
  if bool_decide (mode = leave_checksum_as_is) then header
  else set_event_size_raw (u32 total_size) header.

Definition materialize v mode : result event_view :=
  generic_materialize v mode (λ normalized_mode v,
    if bool_decide (normalized_mode = leave_checksum_as_is) then Ok v
    else
      header ← get_common_header_updatable_view v;
      let total_size := Z.of_nat (get_total_size v) in
      Ok (put_common_header (set_event_size_raw (u32 total_size) header) v)).

Definition relocate_header mode (offset : Z) v : result event_view :=
  header ← get_common_header_updatable_view v;
  let total_size := Z.of_nat (get_total_size v) in
  let header := update_event_size mode total_size header in
  let header := set_next_event_position_raw (u32 (u64 (offset + total_size))) header in
  Ok (put_common_header header v).

Definition materialize_and_relocate v mode (offset : Z) : result event_view :=
  generic_materialize v mode (λ normalized_mode v, relocate_header normalized_mode offset v).

(** ** Sequence numbers *)
Definition fix_sequence_number_and_last_committed
    (last_local_sequence_number remote_sequence_number remote_last_committed : Z)
    : result (Z * Z) :=
  _ ← raise_if (remote_sequence_number <=? remote_last_committed)
        (logic_error "remote last_committed is greater than or equal to remote sequence_number");
  let delta := u64 (remote_sequence_number - remote_last_committed) in
  let remote_sequence_number := u64 (last_local_sequence_number + 1) in
  let remote_last_committed := remote_sequence_number in
  Ok (remote_sequence_number,
      if delta <? remote_last_committed then u64 (remote_last_committed - delta)
      else if remote_sequence_number =? 1 then 0 else 1).

(** [set_sequence_number], [set_last_committed]: casts to the signed members *)
Definition glh_set_sequence_number (n : Z) : gtid_log_post_header → gtid_log_post_header :=
  glh_set_sequence_number_raw (to_signed 64 n).
Definition glh_set_last_committed (n : Z) : gtid_log_post_header → gtid_log_post_header :=
  glh_set_last_committed_raw (to_signed 64 n).
Definition tb_set_sequence_number (n : Z) : tagged_body → tagged_body :=
  with_sequence_number (to_signed 64 n).
Definition tb_set_last_committed (n : Z) : tagged_body → tagged_body :=
  with_last_committed (to_signed 64 n).

(** ** GTID_LOG and ANONYMOUS_GTID_LOG *)
Definition gtid_log_fixer (last_local_sequence_number offset : Z) mode v : result event_view :=
  v ← relocate_header mode offset v;
  let post_header_portion := get_post_header_raw v in
  post_header ← parse_gtid_log_post_header post_header_portion;
  '(sequence_number, last_committed) ← fix_sequence_number_and_last_committed
     last_local_sequence_number (glh_get_sequence_number post_header)
     (glh_get_last_committed post_header);
  let post_header := glh_set_sequence_number sequence_number post_header in
  let post_header := glh_set_last_committed last_committed post_header in
  destination ← gtid_log_post_header_encode_to post_header (span_of post_header_portion);
  Ok (put_post_header (sp_store destination) v).

Definition rewrite_gtid_log_internal (last_local_sequence_number : Z) v (offset : Z)
    : result event_view :=
  generic_materialize v force_add_checksum (gtid_log_fixer last_local_sequence_number offset).

(** ** GTID_TAGGED_LOG *)

(** the body with the transaction length for a candidate size of the event, and the size of
    the event with that body *)
Definition event_size_calculator (transaction_tail_length : Z) (body : tagged_body)
    (event_size_candidate : Z) : tagged_body * Z :=
  let body :=
    with_transaction_length (u64 (event_size_candidate + transaction_tail_length)) body in
  (body, u64 (Z.of_nat default_common_header_length + tagged_body_encoded_size body +
              Z.of_nat default_footer_length)).

Definition max_number_of_size_iterations : nat := 9.

(** The loop: [iterations] are those left; with the body and the recalculated size come the
    iterations left at the end. *)
Fixpoint event_size_loop (iterations : nat) (transaction_tail_length : Z) (body : tagged_body)
    (event_size_candidate : Z) : tagged_body * Z * nat :=
  let '(body, recalculated_event_size) :=
    event_size_calculator transaction_tail_length body event_size_candidate in
  if recalculated_event_size =? event_size_candidate
  then (body, recalculated_event_size, iterations)
  else match iterations with
       | O => (body, recalculated_event_size, O)
       | S iterations =>
           event_size_loop iterations transaction_tail_length body recalculated_event_size
       end.

Definition rewrite_gtid_tagged_log_internal (last_local_sequence_number : Z) v
    (buffer : list Z) (offset : Z) : result event_view :=
  let original_event_size := Z.of_nat (get_total_size v) in
  body ← parse_tagged_body (get_body_raw v);
  let original_transaction_length := tb_transaction_length body in
  _ ← raise_if (original_transaction_length <? original_event_size)
        (logic_error "transaction length in the gtid tagged log event is less than the event size");
  let transaction_tail_length := original_transaction_length - original_event_size in
  '(sequence_number, last_committed) ← fix_sequence_number_and_last_committed
     last_local_sequence_number (tb_get_sequence_number body) (tb_get_last_committed body);
  let body := tb_set_sequence_number sequence_number body in
  let body := tb_set_last_committed last_committed body in
  let '(body, recalculated_event_size, _) :=
    event_size_loop max_number_of_size_iterations transaction_tail_length body
      original_event_size in
  let buffer := resize_buffer (Z.to_nat recalculated_event_size) buffer in
  let buffer := sp_store (write_bytes (get_common_header_raw v) (span_of buffer)) in
  let result := mk_event_view buffer 0 default_footer_length in
  header ← get_common_header_updatable_view result;
  let header := set_event_size_raw (u32 recalculated_event_size) header in
  let header :=
    set_next_event_position_raw (u32 (u64 (offset + recalculated_event_size))) header in
  let result := put_common_header header result in
  destination ← tagged_body_encode_to body (span_of (get_body_raw result));
  release_write_proxy (put_body (sp_store destination) result).

(** ** rewrite *)
Definition rewrite (last_local_sequence_number : Z) v (buffer : list Z) (offset : Z)
    : result event_view :=
  h ← get_common_header v;
  match ch_type_code h with
  | ct_gtid_log | ct_anonymous_gtid_log =>
      rewrite_gtid_log_internal last_local_sequence_number v offset
  | ct_gtid_tagged_log =>
      rewrite_gtid_tagged_log_internal last_local_sequence_number v buffer offset
  | _ => materialize_and_relocate v force_add_checksum offset
  end.
End rewriter.

(** ** A view as its four sections *)
Section parts.
Implicit Types (v : event_view) (hd ph body ft : list Z).

Definition from_parts hd ph body ft : event_view :=
  mk_event_view (hd ++ ph ++ body ++ ft) (length ph) (length ft).

(** what the constructor of a view guarantees *)
Definition view_ok v : Prop :=
  (default_common_header_length + ev_post_header_size v + ev_footer_size v
     ≤ length (ev_portion v))%nat ∧
  (ev_footer_size v = 0 ∨ ev_footer_size v = default_footer_length)%nat ∧ bytes_ok (ev_portion v).

Lemma view_parts v :
  view_ok v →
  v = from_parts (get_common_header_raw v) (get_post_header_raw v) (get_body_raw v)
        (get_footer_raw v) ∧
  length (get_common_header_raw v) = default_common_header_length.
Proof.
  intros (Hl & _ & _). destruct v as [p n f]. cbn [ev_portion ev_post_header_size ev_footer_size] in Hl.
  unfold from_parts, get_common_header_raw, get_post_header_raw, get_body_raw, get_footer_raw,
    get_body_size, get_total_size.
  cbn [ev_portion ev_post_header_size ev_footer_size]. set (k := default_common_header_length) in *.
  rewrite !length_take, !length_drop, !Nat.min_l by lia. split; [|done]. f_equal.
  rewrite !app_assoc, !take_take_drop.
  replace (k + n + (length p - k - n - f))%nat with (length p - f)%nat by lia.
  rewrite take_ge with (l := drop _ p) by (rewrite length_drop; lia). by rewrite take_drop.
Qed.

Section sections.
Context (hd ph body ft : list Z) (Hhd : length hd = default_common_header_length).
Let v := from_parts hd ph body ft.

Lemma parts_common_header : get_common_header_raw v = hd.
Proof. by apply take_app_length'. Qed.

Lemma parts_post_header : get_post_header_raw v = ph.
Proof.
  unfold get_post_header_raw, v. cbn [from_parts ev_portion ev_post_header_size].
  by rewrite drop_app_length', take_app_length.
Qed.

Lemma parts_body_size : get_body_size v = length body.
Proof.
  unfold get_body_size, get_total_size, v. cbn [from_parts ev_portion ev_post_header_size ev_footer_size].
  rewrite !length_app, Hhd. lia.
Qed.

Lemma parts_body : get_body_raw v = body.
Proof.
  unfold get_body_raw. rewrite parts_body_size. unfold v. cbn [from_parts ev_portion ev_post_header_size].
  rewrite app_assoc, drop_app_length' by (by rewrite length_app, Hhd). by apply take_app_length.
Qed.

Lemma parts_footer_offset : (get_total_size v - ev_footer_size v = length (hd ++ ph ++ body))%nat.
Proof.
  unfold get_total_size, v. cbn [from_parts ev_portion ev_footer_size]. rewrite !length_app. lia.
Qed.

Lemma parts_footer : get_footer_raw v = ft.
Proof.
  unfold get_footer_raw. rewrite parts_footer_offset. unfold v. cbn [from_parts ev_portion ev_footer_size].
  rewrite !app_assoc, drop_app_length' by done. by apply take_ge.
Qed.

Lemma parts_crc `{Zlib} : calculate_crc v = calculate_crc32 (hd ++ ph ++ body).
Proof.
  unfold calculate_crc. rewrite parts_footer_offset. unfold v. cbn [from_parts ev_portion].
  f_equal. rewrite !app_assoc. by apply take_app_length'.
Qed.

Lemma write_section_app a old bytes rest n f :
  length old = length bytes →
  write_section (length a) bytes (mk_event_view (a ++ old ++ rest) n f) =
    mk_event_view (a ++ bytes ++ rest) n f.
Proof.
  intros Hl. unfold write_section, write_bytes. cbn [ev_portion sp_store sp_pos ev_post_header_size ev_footer_size].
  f_equal. rewrite take_app_length. f_equal. f_equal.
  by rewrite app_assoc, drop_app_length' by (rewrite length_app; lia).
Qed.

Lemma parts_put_common_header hd' :
  length hd' = default_common_header_length → put_common_header hd' v = from_parts hd' ph body ft.
Proof. intros Hl. apply (write_section_app [] hd hd'). lia. Qed.

Lemma parts_put_post_header ph' :
  length ph' = length ph → put_post_header ph' v = from_parts hd ph' body ft.
Proof.
  intros Hl. unfold put_post_header, v, from_parts. rewrite <-Hhd.
  rewrite write_section_app by done. by rewrite Hl.
Qed.

Lemma parts_put_body body' :
  length body' = length body → put_body body' v = from_parts hd ph body' ft.
Proof.
  intros Hl. unfold put_body, v, from_parts. cbn [ev_post_header_size].
  rewrite <-Hhd, <-length_app, !(app_assoc hd). by rewrite write_section_app.
Qed.

Lemma parts_put_footer ft' :
  length ft' = length ft → put_footer ft' v = from_parts hd ph body ft'.
Proof.
  intros Hl. unfold put_footer. rewrite parts_footer_offset. unfold v, from_parts. rewrite Hl.
  pose proof (write_section_app (hd ++ ph ++ body) ft ft' [] (length ph) (length ft)) as Hw.
  rewrite <-!app_assoc, !app_nil_r in Hw. by apply Hw.
Qed.
End sections.

Lemma set_crc_bytes crc ft : length ft = default_footer_length → set_crc_raw crc ft = le_split 4 crc.
Proof.
  intros Hl. unfold set_crc_raw. pose proof (set_field_app 0 4 crc [] ft [] eq_refl Hl) as Hs.
  cbn [app] in Hs. by rewrite !app_nil_r in Hs.
Qed.

(** the write proxy leaves the checksum of the rest in the footer *)
Lemma release_parts `{Zlib} hd ph body ft :
  length hd = default_common_header_length → length ft = default_footer_length →
  release_write_proxy (from_parts hd ph body ft) =
    Ok (from_parts hd ph body (le_split 4 (calculate_crc32 (hd ++ ph ++ body)))).
Proof.
  intros Hhd Hft. unfold release_write_proxy, has_footer. cbn [from_parts ev_footer_size]. rewrite Hft.
  cbn [Nat.eqb negb default_footer_length]. fold (from_parts hd ph body ft).
  rewrite parts_footer by done. unfold footer_view. rewrite Hft, Nat.eqb_refl.
  cbn [negb raise_if mbind result_bind]. rewrite parts_crc, set_crc_bytes by done.
  by rewrite parts_put_footer by (by rewrite ?length_le_split).
Qed.

(** ** Common headers *)
Definition with_size_and_position (h : common_header) (size position : Z) : common_header :=
  mk_common_header (ch_timestamp h) (ch_type_code h) (ch_server_id h) size position (ch_flags h).

Lemma set_event_size_bytes size h :
  set_event_size_raw size (common_header_bytes h) =
    common_header_bytes (with_size_and_position h size (ch_next_event_position h)).
Proof. reflexivity. Qed.

Lemma set_position_bytes position h :
  set_next_event_position_raw position (common_header_bytes h) =
    common_header_bytes (with_size_and_position h (ch_event_size h) position).
Proof. reflexivity. Qed.

Lemma header_view_bytes h : common_header_ok h → common_header_view (common_header_bytes h) = Ok (common_header_bytes h).
Proof.
  intros Hh. pose proof (parse_common_header_bytes h Hh) as Hp. unfold parse_common_header in Hp.
  apply result_bind_ok in Hp as (l & Hv & _). rewrite Hv. unfold common_header_view in Hv.
  by apply result_bind_ok in Hv as ([] & _ & (? & _ & [= <-])%result_bind_ok).
Qed.
End parts.

(** ** Events moved to another offset *)
Section relocation.
Context `{Zlib}.
Implicit Types (v : event_view) (h : common_header) (hd ph body ft : list Z).

(** [v'] is [v] with a checksum, for a file in which it starts at [offset]: its header says
    its size and where it ends and is the header of [v] otherwise, its footer holds the CRC
    of the rest. *)
Definition relocated (offset : Z) v v' : Prop :=
  let size := Z.of_nat (get_total_size v') in
  view_ok v' ∧ ev_footer_size v' = default_footer_length ∧
  ev_post_header_size v' = ev_post_header_size v ∧
  (∃ h, get_common_header v = Ok h ∧
     get_common_header v' = Ok (with_size_and_position h size (u32 (offset + size)))) ∧
  get_crc_raw (get_footer_raw v') = calculate_crc v'.

(** an event with its header [h], of a size that leaves room for a checksum *)
Definition received_ok v h : Prop :=
  view_ok v ∧ get_common_header v = Ok h ∧ ch_event_size h = Z.of_nat (get_total_size v) ∧
  Z.of_nat (get_total_size v) + Z.of_nat default_footer_length < 2 ^ 32.

Lemma u32_u64 x : u32 (u64 x) = u32 x.
Proof. unfold wrap. dlia. Qed.

Lemma calculate_crc32_width l : in_width 32 (calculate_crc32 l).
Proof. by apply wrap_bound. Qed.

Lemma event_parts v h :
  received_ok v h → v = from_parts (common_header_bytes h) (get_post_header_raw v) (get_body_raw v)
    (get_footer_raw v) ∧ common_header_ok h.
Proof.
  intros (Hok & Hh & _). destruct (view_parts v Hok) as [Hv Hl]. unfold get_common_header in Hh.
  apply parse_common_header_inv in Hh as [Hb Hw]; [by rewrite <-Hb|].
  by apply Forall_take, Hok.
Qed.

Lemma event_header v h : received_ok v h → get_common_header_raw v = common_header_bytes h.
Proof.
  intros ((_ & _ & Hb) & Hh & _). by apply parse_common_header_inv in Hh as [-> _]; [|apply Forall_take].
Qed.

(** the buffer of a destination with a checksum *)
Lemma prepare_parts hd ph body ft :
  (length ft = 0 ∨ length ft = default_footer_length)%nat →
  ∃ mode ft', prepare_generic_materialize_internal (from_parts hd ph body ft) force_add_checksum =
      (mode, from_parts hd ph body ft') ∧ length ft' = default_footer_length ∧
    (mode = leave_checksum_as_is → length ft' = length ft).
Proof.
  unfold prepare_generic_materialize_internal, has_footer. cbn [from_parts ev_footer_size ev_post_header_size].
  intros [Hf | Hf]; rewrite Hf.
  - exists force_add_checksum, (replicate default_footer_length 0). split; [|done].
    apply length_zero_iff_nil in Hf as ->. cbv [bool_decide decide_rel decide]. cbn.
    f_equal. unfold from_parts, resize_buffer, get_total_size. f_equal. cbn [from_parts ev_portion].
    rewrite take_ge by lia. rewrite <-!app_assoc. do 4 f_equal. rewrite Nat.add_comm, Nat.add_sub. done.
  - exists leave_checksum_as_is, ft. split; [|done].
    cbv [bool_decide decide_rel decide]. cbn. unfold from_parts. by rewrite Hf.
Qed.

Lemma relocate_parts mode offset h ph body ft :
  common_header_ok h →
  let size := Z.of_nat (get_total_size (from_parts (common_header_bytes h) ph body ft)) in
  size < 2 ^ 32 → (mode = leave_checksum_as_is → ch_event_size h = size) →
  relocate_header mode offset (from_parts (common_header_bytes h) ph body ft) =
    Ok (from_parts (common_header_bytes (with_size_and_position h size (u32 (offset + size))))
          ph body ft).
Proof.
  intros Hh size Hs Hmode. pose proof (length_common_header_bytes h) as Hl.
  unfold relocate_header, get_common_header_updatable_view. rewrite parts_common_header by done.
  rewrite header_view_bytes by done. cbn [mbind result_bind]. fold size. f_equal.
  assert (update_event_size mode size (common_header_bytes h) =
    common_header_bytes (with_size_and_position h size (ch_next_event_position h))) as ->.
  { unfold update_event_size. case_bool_decide as Hm.
    - rewrite <-(Hmode Hm). by destruct h.
    - rewrite set_event_size_bytes, wrap_small; [done|]. unfold in_width, size in *. lia. }
  rewrite set_position_bytes, u32_u64. by apply parts_put_common_header.
Qed.

(** the view that a rewriting leaves *)
Lemma relocated_parts offset v h ph body :
  received_ok v h → bytes_ok ph → bytes_ok body → length ph = ev_post_header_size v →
  let size := Z.of_nat (default_common_header_length + length ph + length body + default_footer_length) in
  size < 2 ^ 32 →
  let hd := common_header_bytes (with_size_and_position h size (u32 (offset + size))) in
  relocated offset v (from_parts hd ph body (le_split 4 (calculate_crc32 (hd ++ ph ++ body)))).
Proof.
  intros Hok Hph Hbody Hlen size Hs hd. destruct (event_parts v h Hok) as [_ Hh].
  assert (length hd = default_common_header_length) as Hl by apply length_common_header_bytes.
  assert (common_header_ok (with_size_and_position h size (u32 (offset + size)))) as Hh'.
  { destruct Hh as (Hts & Hid & _ & _ & Hfl). split_and!; try done. by apply (wrap_bound 32). }
  set (v' := from_parts hd ph body _).
  assert (Z.of_nat (get_total_size v') = size) as Ht.
  { unfold get_total_size, v', size. cbn [from_parts ev_portion]. rewrite !length_app, length_le_split, Hl.
    unfold default_footer_length. lia. }
  unfold relocated. rewrite Ht. split; [|split; [|split; [|split]]].
  - unfold view_ok, v'. cbn [from_parts ev_portion ev_post_header_size ev_footer_size].
    rewrite !length_app, length_le_split, Hl. split_and!; [lia | by right |].
    repeat apply Forall_app_2; (done || apply le_split_bytes).
  - apply length_le_split.
  - done.
  - exists h. split; [apply Hok|]. unfold get_common_header, v'. rewrite parts_common_header by done.
    by apply parse_common_header_bytes.
  - unfold v'. rewrite parts_footer, parts_crc by done.
    pose proof (get_field_app 0 4 [] (calculate_crc32 (hd ++ ph ++ body)) [] eq_refl (calculate_crc32_width _)) as Hg.
    by rewrite app_nil_r in Hg.
Qed.

(** what a reader checks before it takes a view over an event *)
Lemma view_accepted c v h :
  (default_common_header_length + ev_footer_size v ≤ get_total_size v)%nat →
  get_common_header v = Ok h → ch_event_size h = Z.of_nat (get_total_size v) →
  ev_footer_size v = (if bool_decide (ch_type_code h = ct_format_description) then default_footer_length
                      else if rc_footer_expected c then default_footer_length else 0%nat) →
  post_header_size_of c (ch_type_code h) (get_total_size v) (ev_footer_size v) = Ok (ev_post_header_size v) →
  (ch_type_code h = ct_format_description → is_ok (parse_fde_body (get_body_raw v)) = true) →
  (has_footer v = true → get_crc_raw (get_footer_raw v) = calculate_crc v) →
  make_event_view c (ev_portion v) = Ok v.
Proof.
  intros Hl Hh Hs Hf Hph Hbody Hcrc. unfold make_event_view, get_total_size in *.
  destruct (Nat.ltb_spec (length (ev_portion v)) common_header_size_in_bytes) as [Hlt|_];
    [unfold common_header_size_in_bytes, default_common_header_length in *; cbn in *; lia|].
  cbn [raise_if mbind result_bind]. unfold get_common_header, get_common_header_raw in Hh. rewrite Hh.
  cbn [mbind result_bind]. rewrite <-Hf, Hs, Z.eqb_refl, Hph. cbn [negb raise_if mbind result_bind].
  assert (mk_event_view (ev_portion v) (ev_post_header_size v) (ev_footer_size v) = v) as -> by (by destruct v).
  enough (verify_checksum c (ch_type_code h) v = Ok ()) as -> by done. unfold verify_checksum.
  destruct (rc_checksum_verification_enabled c); [|done]. destruct (has_footer v) eqn:Hfoot; [|done]. cbn [negb].
  assert (ev_footer_size v = default_footer_length) as Hfs.
  { unfold has_footer in Hfoot. rewrite Hf in *. repeat case_match; done. }
  assert (footer_view (get_footer_raw v) = Ok (get_footer_raw v)) as Hview.
  { unfold footer_view, get_footer_raw, get_total_size. rewrite length_take, length_drop, Hfs.
    rewrite Nat.min_l by lia. by rewrite Nat.eqb_refl. }
  rewrite Hview. specialize (Hcrc eq_refl). cbn [mbind result_bind]. rewrite Hcrc, Z.eqb_refl.
  case_bool_decide as Hcode; [|done]. specialize (Hbody Hcode).
  destruct (parse_fde_body (get_body_raw v)); [|done]. cbn [mbind result_bind]. by case_match.
Qed.

(** A reader that expects checksums and knows the post header accepts the result. *)
Lemma relocated_accepted c offset v v' h :
  relocated offset v v' → get_common_header v = Ok h → ch_type_code h ≠ ct_format_description →
  rc_footer_expected c = true →
  get_current_post_header_length c (ch_type_code h) = Z.of_nat (ev_post_header_size v) →
  Z.of_nat (ev_post_header_size v) ≠ unspecified_post_header_length →
  make_event_view c (ev_portion v') = Ok v'.
Proof.
  intros ((Hl & _ & Hb) & Hf & Hn & (h' & Hh & Hh') & Hcrc) Hhv Hcode Hexp Hlen Hspec.
  rewrite Hh in Hhv. injection Hhv as ->. eapply view_accepted; [|done|..]; try done; unfold get_total_size in *.
  - lia.
  - cbn [ch_type_code with_size_and_position]. by rewrite bool_decide_eq_false_2, Hexp by done.
  - cbn [ch_type_code with_size_and_position]. unfold post_header_size_of.
    rewrite bool_decide_eq_false_2, Hlen by done.
    destruct (Z.eqb_spec (Z.of_nat (ev_post_header_size v)) unspecified_post_header_length); [done|].
    cbn [raise_if mbind result_bind]. rewrite <-Hn.
    destruct (Z.ltb_spec (Z.of_nat (length (ev_portion v'))) (Z.of_nat default_common_header_length +
      Z.of_nat (ev_post_header_size v') + Z.of_nat (ev_footer_size v'))); [lia|].
    cbn [raise_if mbind result_bind]. by rewrite Nat2Z.id.
Qed.

(** the sections of an event and their sizes *)
Lemma event_sizes v h :
  received_ok v h →
  length (get_post_header_raw v) = ev_post_header_size v ∧
  (length (get_footer_raw v) = 0 ∨ length (get_footer_raw v) = default_footer_length)%nat ∧
  bytes_ok (get_post_header_raw v) ∧ bytes_ok (get_body_raw v) ∧
  let size := Z.of_nat (default_common_header_length + ev_post_header_size v +
                length (get_body_raw v) + length (get_footer_raw v)) in
  Z.of_nat (get_total_size v) = size ∧ ch_event_size h = size ∧
  size + Z.of_nat default_footer_length < 2 ^ 32.
Proof.
  intros Hok. destruct (event_parts v h Hok) as [Hv _].
  pose proof (f_equal ev_post_header_size Hv) as Hpl. cbn [from_parts ev_post_header_size] in Hpl.
  pose proof (f_equal ev_footer_size Hv) as Hfl. cbn [from_parts ev_footer_size] in Hfl.
  pose proof (f_equal ev_portion Hv) as Hpv. cbn [from_parts ev_portion] in Hpv.
  destruct Hok as ((_ & Hf & Hb) & _ & Hsz & Hmax).
  assert (get_total_size v = default_common_header_length + ev_post_header_size v +
            length (get_body_raw v) + length (get_footer_raw v))%nat as Ht.
  { unfold get_total_size. rewrite Hpv, !length_app, length_common_header_bytes, <-Hpl.
    unfold default_common_header_length, common_header_size_in_bytes. cbn. lia. }
  rewrite <-Hfl, Hsz, Ht in *. rewrite Hpv, !Forall_app in Hb.
  by destruct Hb as (_ & Hph & Hbody & _).
Qed.

(** the buffer for a copy with a checksum, with its header relocated *)
Lemma destination_relocated v h offset :
  received_ok v h →
  let ph := get_post_header_raw v in let body := get_body_raw v in
  let size := Z.of_nat (default_common_header_length + length ph + length body + default_footer_length) in
  let hd := common_header_bytes (with_size_and_position h size (u32 (offset + size))) in
  ∃ mode ft, prepare_generic_materialize_internal v force_add_checksum =
      (mode, from_parts (common_header_bytes h) ph body ft) ∧
    size < 2 ^ 32 ∧ length ft = default_footer_length ∧
    relocate_header mode offset (from_parts (common_header_bytes h) ph body ft) = Ok (from_parts hd ph body ft).
Proof.
  intros Hok ph body size hd. destruct (event_parts v h Hok) as [Hv Hh].
  destruct (event_sizes v h Hok) as (Hpl & Hf & _ & _ & Ht & Hsz & Hmax). fold ph body in Hv, Hpl, Ht, Hsz, Hmax.
  destruct (prepare_parts (common_header_bytes h) ph body (get_footer_raw v) Hf)
    as (mode & ft & Hprep & Hft & Hmode). rewrite <-Hv in Hprep.
  assert (Z.of_nat (get_total_size (from_parts (common_header_bytes h) ph body ft)) = size) as Hw.
  { unfold get_total_size, size. cbn [from_parts ev_portion].
    rewrite !length_app, length_common_header_bytes, Hft. cbn. lia. }
  assert (size < 2 ^ 32) as Hsmall by (unfold size; lia).
  assert (mode = leave_checksum_as_is → ch_event_size h = size) as Hleave.
  { intros Hm. rewrite Hsz, <-(Hmode Hm), Hft. unfold size. lia. }
  exists mode, ft. split; [done|]. split; [done|]. split; [done|].
  pose proof (relocate_parts mode offset h ph body ft Hh) as Hrel. cbv zeta in Hrel.
  rewrite Hw in Hrel. exact (Hrel Hsmall Hleave).
Qed.

(** A modification that relocates the header and replaces the post header by one of the
    same size. *)
Lemma materialize_relocated v h offset fixer ph' :
  received_ok v h → length ph' = ev_post_header_size v → bytes_ok ph' →
  (∀ mode w hd ft, length hd = default_common_header_length →
     relocate_header mode offset w =
       Ok (from_parts hd (get_post_header_raw v) (get_body_raw v) ft) →
     fixer mode w = Ok (from_parts hd ph' (get_body_raw v) ft)) →
  ∃ v', generic_materialize v force_add_checksum fixer = Ok v' ∧ relocated offset v v' ∧
    get_post_header_raw v' = ph' ∧ get_body_raw v' = get_body_raw v.
Proof.
  intros Hok Hlen Hph' Hfix. destruct (event_sizes v h Hok) as (Hpl & _ & _ & Hbody & _).
  destruct (destination_relocated v h offset Hok) as (mode & ft & Hprep & Hsmall & Hft & Hrel).
  rewrite Hpl, <-Hlen in Hsmall, Hrel. set (size := Z.of_nat _) in *.
  set (hd := common_header_bytes (with_size_and_position h size _)) in *.
  assert (length hd = default_common_header_length) as Hl by apply length_common_header_bytes.
  eexists. unfold generic_materialize. rewrite Hprep.
  rewrite (Hfix mode _ hd ft Hl) by done. cbn [mbind result_bind].
  rewrite release_parts by done. split; [done|]. rewrite parts_post_header, parts_body by done.
  split; [|done]. by apply relocated_parts.
Qed.

(** ** Sequence numbers *)

(** The numbers of a transaction in the local file: its sequence number is the next one; it
    depends on an earlier transaction of the file, on none only if it is the first, and on
    the one as far back as before if the file has it. *)
Definition renumbered (last seq lc seq' lc' : Z) : Prop :=
  seq' = last + 1 ∧ 0 ≤ lc' ≤ last ∧ (lc' = 0 → last = 0) ∧
  seq' - lc' ≤ seq - lc ∧ (seq - lc ≤ last → seq' - lc' = seq - lc).

Lemma fix_numbers_ok last seq lc :
  0 ≤ last → last + 1 < 2 ^ 64 → in_width 64 seq → in_width 64 lc → lc < seq →
  ∃ lc', fix_sequence_number_and_last_committed last seq lc = Ok (last + 1, lc') ∧
    renumbered last seq lc (last + 1) lc'.
Proof.
  intros Hla Hnext Hs Hc Hlt. unfold renumbered, in_width in *.
  unfold fix_sequence_number_and_last_committed.
  destruct (Z.leb_spec seq lc); [lia|]. cbn [raise_if mbind result_bind].
  rewrite !wrap_small by (unfold in_width; rewrite ?wrap_small; unfold in_width; lia).
  destruct (Z.ltb_spec (seq - lc) (last + 1)).
  - rewrite !wrap_small by (unfold in_width; rewrite ?wrap_small; unfold in_width; lia).
    eexists. split; [done|]. lia.
  - eexists. split; [done|]. destruct (Z.eqb_spec (last + 1) 1); lia.
Qed.

Lemma to_signed_u64 x : in_width 64 x → u64 (to_signed 64 x) = x.
Proof.
  unfold in_width, to_signed, wrap. change (2 ^ (64 - 1)) with (2 ^ 63). intros Hx.
  destruct (Z.ltb_spec x (2 ^ 63)); [by apply Z.mod_small|].
  rewrite <-(Z.mod_small x (2 ^ 64)) at 2 by done.
  by rewrite <-(Z.mod_add (x - 2 ^ 64) 1), Z.mul_1_l, Z.sub_add by done.
Qed.

(** ** Events that do not start a transaction *)
Lemma is_gtid_event_dec code :
  is_gtid_event code = true ↔
    code = ct_gtid_log ∨ code = ct_anonymous_gtid_log ∨ code = ct_gtid_tagged_log.
Proof. destruct code; cbn; naive_solver. Qed.

Lemma relocate_ok last v h buffer offset :
  received_ok v h → is_gtid_event (ch_type_code h) = false →
  ∃ v', rewrite last v buffer offset = Ok v' ∧ relocated offset v v' ∧
    get_post_header_raw v' = get_post_header_raw v ∧ get_body_raw v' = get_body_raw v.
Proof.
  intros Hok Hcode. destruct (event_sizes v h Hok) as (Hpl & _ & Hph & _).
  destruct (materialize_relocated v h offset (λ mode w, relocate_header mode offset w)
    (get_post_header_raw v)) as (v' & Hv' & Hrest); [done..| |].
  { by intros mode w hd ft _ Hrel. }
  exists v'. split; [|done]. unfold rewrite. rewrite (proj1 (proj2 Hok)). cbn [mbind result_bind].
  by destruct (ch_type_code h).
Qed.

(** every event that is not a GTID event can be rewritten: it gets a checksum if it had
    none, its header tells the new size and the new position of its end, and its post header
    and body are the old ones. *)
Theorem rewrite_relocates last v h buffer offset :
  received_ok v h → is_gtid_event (ch_type_code h) = false →
  ∃ v', rewrite last v buffer offset = Ok v' ∧ relocated offset v v' ∧
    get_post_header_raw v' = get_post_header_raw v ∧ get_body_raw v' = get_body_raw v.
Proof. apply relocate_ok. Qed.

(** ** GTID_LOG and ANONYMOUS_GTID_LOG *)
Lemma gtid_log_fixer_parts last offset v (ph : gtid_log_post_header) seq' lc' mode w hd ft :
  length (get_post_header_raw v) = gtid_log_post_header_size →
  parse_gtid_log_post_header (get_post_header_raw v) = Ok ph → uuid_ok (glh_uuid ph) →
  fix_sequence_number_and_last_committed last (glh_get_sequence_number ph)
    (glh_get_last_committed ph) = Ok (seq', lc') →
  length hd = default_common_header_length →
  relocate_header mode offset w = Ok (from_parts hd (get_post_header_raw v) (get_body_raw v) ft) →
  gtid_log_fixer last offset mode w = Ok (from_parts hd
    (gtid_log_post_header_bytes (glh_set_last_committed lc' (glh_set_sequence_number seq' ph)))
    (get_body_raw v) ft).
Proof.
  intros Hl Hp Hu Hfix Hhd Hrel. unfold gtid_log_fixer. rewrite Hrel. cbn [mbind result_bind].
  rewrite parts_post_header, Hp by done. cbn [mbind result_bind]. rewrite Hfix. cbn [mbind result_bind].
  set (ph' := glh_set_last_committed _ _).
  assert (length (gtid_log_post_header_bytes ph') = length (get_post_header_raw v)) as Hl'
    by (by rewrite length_gtid_log_post_header_bytes).
  rewrite gtid_log_post_header_encode_ok by
    (unfold span_ok, span_size; cbn [span_of sp_store sp_pos]; lia). cbn [mbind result_bind].
  rewrite write_bytes_exact by done. by rewrite parts_put_post_header.
Qed.

Lemma renumber_gtid_log_ok last v h (ph : gtid_log_post_header) buffer offset :
  received_ok v h → ch_type_code h = ct_gtid_log ∨ ch_type_code h = ct_anonymous_gtid_log →
  parse_gtid_log_post_header (get_post_header_raw v) = Ok ph →
  glh_get_last_committed ph < glh_get_sequence_number ph → 0 ≤ last → last + 1 < 2 ^ 64 →
  ∃ v' (ph' : gtid_log_post_header), rewrite last v buffer offset = Ok v' ∧ relocated offset v v' ∧
    get_body_raw v' = get_body_raw v ∧ parse_gtid_log_post_header (get_post_header_raw v') = Ok ph' ∧
    glh_flags ph' = glh_flags ph ∧ glh_uuid ph' = glh_uuid ph ∧ glh_gno ph' = glh_gno ph ∧
    renumbered last (glh_get_sequence_number ph) (glh_get_last_committed ph)
      (glh_get_sequence_number ph') (glh_get_last_committed ph').
Proof.
  intros Hok Hcode Hp Hlt Hla Hnext. destruct (event_sizes v h Hok) as (Hpl & _ & Hph & _).
  pose proof (parse_gtid_log_decoded _ _ Hph Hp) as Hdec.
  assert (length (get_post_header_raw v) = gtid_log_post_header_size) as Hl.
  { unfold parse_gtid_log_post_header in Hp. apply result_bind_ok in Hp as ([] & Hl & _).
    apply raise_if_ok in Hl. by to_prop. }
  destruct (fix_numbers_ok last (glh_get_sequence_number ph) (glh_get_last_committed ph))
    as (lc' & Hfix & Hnum); [done|done|by apply (wrap_bound 64)..|done|].
  set (ph' := glh_set_last_committed lc' (glh_set_sequence_number (last + 1) ph)).
  assert (in_width 64 (last + 1) ∧ in_width 64 lc') as [Hw Hwl] by (unfold renumbered, in_width in *; lia).
  assert (gtid_log_post_header_ok ph') as Hok'.
  { destruct Hdec as (H1 & H2 & H3 & H4 & _). split_and!; try done; by apply to_signed_int64. }
  destruct (materialize_relocated v h offset (gtid_log_fixer last offset) (gtid_log_post_header_bytes ph'))
    as (v' & Hv' & Hrel & Hph' & Hbody); [done| | | |].
  { by rewrite length_gtid_log_post_header_bytes, <-Hl by apply Hok'. }
  { unfold gtid_log_post_header_bytes.
    repeat apply Forall_app_2; (apply le_split_bytes || apply Hok'). }
  { intros mode w hd ft Hhd Hr. eapply gtid_log_fixer_parts; try done. apply Hdec. }
  exists v', ph'. split.
  { unfold rewrite. rewrite (proj1 (proj2 Hok)). cbn [mbind result_bind].
    by destruct Hcode as [-> | ->]. }
  rewrite Hph', parse_gtid_log_post_header_bytes by done.
  unfold glh_get_sequence_number at 2, glh_get_last_committed at 2. cbn.
  by rewrite !to_signed_u64.
Qed.

(** C14: rewriting a GTID_LOG or an ANONYMOUS_GTID_LOG event whose numbers are in order gives
    the event its place in the local file: besides the header and the checksum only the
    sequence number and the number of the transaction it depends on change. *)
Theorem rewrite_gtid_log_event last v h (ph : gtid_log_post_header) buffer offset :
  received_ok v h → ch_type_code h = ct_gtid_log ∨ ch_type_code h = ct_anonymous_gtid_log →
  parse_gtid_log_post_header (get_post_header_raw v) = Ok ph →
  glh_get_last_committed ph < glh_get_sequence_number ph → 0 ≤ last → last + 1 < 2 ^ 64 →
  ∃ v' (ph' : gtid_log_post_header), rewrite last v buffer offset = Ok v' ∧ relocated offset v v' ∧
    get_body_raw v' = get_body_raw v ∧ parse_gtid_log_post_header (get_post_header_raw v') = Ok ph' ∧
    glh_flags ph' = glh_flags ph ∧ glh_uuid ph' = glh_uuid ph ∧ glh_gno ph' = glh_gno ph ∧
    renumbered last (glh_get_sequence_number ph) (glh_get_last_committed ph)
      (glh_get_sequence_number ph') (glh_get_last_committed ph').
Proof. apply renumber_gtid_log_ok. Qed.
End relocation.

(** ** The size of a GTID_TAGGED_LOG event *)
Section event_size.
Context (b : tagged_body) (tail : Z).
Hypothesis Hb : tagged_body_ok b.
Hypothesis Htail : 0 ≤ tail ∧ tail + 1000 < 2 ^ 64.

(** the encoded size by the size of the transaction length *)
Let base : Z := 2 + calculate_tlv_section_size b - calculate_varlen_int_size (tb_transaction_length b).
Let size_for (s : Z) : Z :=
  Z.of_nat default_common_header_length + (base + s + size_width max_number_of_iterations (base + s) 1) +
  Z.of_nat default_footer_length.
Let next (candidate : Z) : Z := size_for (calculate_varlen_int_size (candidate + tail)).

Lemma base_bound : 5 ≤ base ≤ 302.
Proof using Hb.
  pose proof (tlv_size_bound b Hb). destruct Hb as (_ & _ & _ & _ & _ & _ & _ & _ & Hl & _).
  pose proof (varlen_size_bound _ Hl). unfold base. lia.
Qed.

Lemma size_for_bound s : 1 ≤ s ≤ 9 → base + s + 24 ≤ size_for s ≤ base + s + 32.
Proof using Hb.
  intros Hs. pose proof base_bound. unfold size_for. destruct (size_width_spec (base + s)) as [Hw _]; [lia|].
  cbv zeta in Hw. unfold default_common_header_length, default_footer_length. lia.
Qed.

Lemma size_for_mono s s' : 1 ≤ s ≤ s' → s' ≤ 9 → size_for s ≤ size_for s'.
Proof using Hb.
  intros Hs Hs'. pose proof base_bound. unfold size_for.
  pose proof (size_width_mono (base + s) (base + s')). lia.
Qed.

Lemma next_spec c :
  next c = Z.of_nat default_common_header_length +
    tagged_body_encoded_size (with_transaction_length (c + tail) b) + Z.of_nat default_footer_length.
Proof using.
  pose proof (tlv_size_with_length (c + tail) b). unfold next, size_for, tagged_body_encoded_size, base.
  change (calculate_varlen_int_size known_serialization_version_number +
    calculate_varlen_int_size known_last_non_ignorable_field_id) with 2.
  replace (2 + calculate_tlv_section_size b - calculate_varlen_int_size (tb_transaction_length b) +
    calculate_varlen_int_size (c + tail))
    with (2 + calculate_tlv_section_size (with_transaction_length (c + tail) b)) by lia. done.
Qed.

Lemma next_bound c : 0 ≤ c → c + tail < 2 ^ 64 → base + 25 ≤ next c ≤ base + 41.
Proof using Hb Htail.
  intros Hc Hmax. assert (1 ≤ calculate_varlen_int_size (c + tail) ≤ 9) as Hs
    by (apply varlen_size_bound; unfold in_width; lia).
  pose proof (size_for_bound _ Hs). unfold next. lia.
Qed.

Lemma calculator_next t c :
  0 ≤ c → c + tail < 2 ^ 64 →
  event_size_calculator tail (with_transaction_length t b) c = (with_transaction_length (c + tail) b, next c).
Proof using Hb Htail.
  intros Hc Hmax. unfold event_size_calculator. rewrite (wrap_small 64 (c + tail)) by (unfold in_width; lia).
  change (with_transaction_length (c + tail) (with_transaction_length t b))
    with (with_transaction_length (c + tail) b). f_equal. rewrite <-next_spec.
  pose proof base_bound. pose proof (next_bound c Hc Hmax). apply wrap_small. unfold in_width. lia.
Qed.

(** From the second candidate on the sizes lie so close that the size of the transaction
    length takes at most two values. *)
Lemma next_stable c :
  0 ≤ c → c + tail < 2 ^ 64 → next (next (next c)) = next (next (next (next c))).
Proof using Hb Htail.
  intros Hc Hmax. pose proof base_bound as Hbase. pose proof (next_bound c Hc Hmax) as H1.
  set (c1 := next c) in *.
  assert (∀ x, base + 25 ≤ x ≤ base + 41 → base + 25 ≤ next x ≤ base + 41) as Hn
    by (intros x Hx; apply next_bound; lia).
  pose proof (Hn c1 H1) as H2. set (c2 := next c1) in *. pose proof (Hn c2 H2) as H3. set (c3 := next c2) in *.
  set (size := λ x, calculate_varlen_int_size (x + tail)).
  assert (∀ x, base + 25 ≤ x ≤ base + 41 → 1 ≤ size x ≤ 9) as Hs
    by (intros x Hx; apply varlen_size_bound; unfold in_width; lia).
  assert (∀ x y, base + 25 ≤ x → x ≤ y → y ≤ base + 41 → size x ≤ size y ≤ size x + 1) as Hnear.
  { intros x y Hx Hxy Hy. split; [apply varlen_size_mono; lia|].
    apply (varlen_size_near (x + tail) (y + tail)); lia. }
  assert (size c2 = size c3 ∨ size c1 = size c2) as Hcase.
  { pose proof (Hs c1 H1). pose proof (Hs c2 H2). pose proof (Hs c3 H3).
    assert (c2 = size_for (size c1)) as E2 by reflexivity. assert (c3 = size_for (size c2)) as E3 by reflexivity.
    clearbody size c3 c2 c1.
    destruct (Z.lt_trichotomy (size c1) (size c2)) as [Hlt | [-> | Hgt]]; [|by right|]; left.
    - pose proof (size_for_mono (size c1) (size c2)). pose proof (Hnear c2 c3).
      destruct (Z.le_gt_cases c1 c3); [pose proof (Hnear c1 c3)|pose proof (Hnear c3 c1)]; lia.
    - pose proof (size_for_mono (size c2) (size c1)). pose proof (Hnear c3 c2).
      destruct (Z.le_gt_cases c1 c3); [pose proof (Hnear c1 c3)|pose proof (Hnear c3 c1)]; lia. }
  destruct Hcase as [He | He].
  - change (size_for (size c2) = size_for (size c3)). by rewrite He.
  - assert (c2 = c3) as E by (change (size_for (size c1) = size_for (size c2)); by rewrite He).
    exact (f_equal next E).
Qed.

Lemma event_size_loop_unfold n t c :
  0 ≤ c → c + tail < 2 ^ 64 →
  event_size_loop n tail (with_transaction_length t b) c =
    if next c =? c then (with_transaction_length (c + tail) b, next c, n)
    else match n with
         | O => (with_transaction_length (c + tail) b, next c, O)
         | S n => event_size_loop n tail (with_transaction_length (c + tail) b) (next c)
         end.
Proof using Hb Htail.
  intros Hc Hmax. by destruct n; cbn [event_size_loop]; rewrite calculator_next.
Qed.

(** The loop ends within three iterations, at a size that is the size of the event whose
    transaction length it enters. *)
Lemma event_size_loop_spec c0 :
  0 ≤ c0 → c0 + tail < 2 ^ 64 → ∃ c left,
    event_size_loop max_number_of_size_iterations tail b c0 =
      (with_transaction_length (c + tail) b, c, left) ∧
    (6 ≤ left)%nat ∧ 30 ≤ c ≤ 343 ∧
    c = Z.of_nat default_common_header_length +
        tagged_body_encoded_size (with_transaction_length (c + tail) b) + Z.of_nat default_footer_length.
Proof using Hb Htail.
  intros Hc Hmax. pose proof base_bound as Hbase.
  assert (with_transaction_length (tb_transaction_length b) b = b) as Hsame by (by destruct b).
  pose proof next_spec as Hspec. pose proof event_size_loop_unfold as Hunfold.
  pose proof next_stable as Hstable. pose proof next_bound as Hn. clearbody base next. clear size_for.
  pose proof (Hn c0 Hc Hmax) as H1. pose proof (Hn (next c0)) as H2. pose proof (Hn (next (next c0))) as H3.
  pose proof (Hn (next (next (next c0)))) as H4.
  assert (∃ c left, event_size_loop max_number_of_size_iterations tail b c0 =
      (with_transaction_length (c + tail) b, c, left) ∧ (6 ≤ left)%nat ∧ next c = c ∧ base + 25 ≤ c ≤ base + 41)
    as (c & left & Hloop & Hleft & Hfix & Hbounds).
  { rewrite <-Hsame. unfold max_number_of_size_iterations. rewrite Hunfold by lia.
    destruct (Z.eqb_spec (next c0) c0) as [E|_]; [exists c0, 9%nat; rewrite E; split_and!; (done || lia)|].
    rewrite Hunfold by lia. destruct (Z.eqb_spec (next (next c0)) (next c0)) as [E|_];
      [exists (next c0), 8%nat; rewrite E; split_and!; (done || lia)|].
    rewrite Hunfold by lia. destruct (Z.eqb_spec (next (next (next c0))) (next (next c0))) as [E|_];
      [exists (next (next c0)), 7%nat; rewrite E; split_and!; (done || lia)|].
    rewrite Hunfold by lia. rewrite <-Hstable, Z.eqb_refl by done.
    exists (next (next (next c0))), 6%nat. rewrite <-Hstable by done. split_and!; (done || lia). }
  exists c, left. split; [done|]. split; [done|]. rewrite <-Hspec, Hfix. split; [lia|done].
Qed.
End event_size.

(** ** GTID_TAGGED_LOG *)
Section tagged.
Context `{Zlib}.
Implicit Types (v : event_view) (h : common_header) (b : tagged_body).

Lemma resize_length n buffer : length (resize_buffer n buffer) = n.
Proof. unfold resize_buffer. rewrite length_app, length_take, length_replicate. lia. Qed.

(** the buffer with the header copied into it *)
Lemma tagged_buffer hd n buffer :
  length hd = default_common_header_length →
  (default_common_header_length + default_footer_length ≤ n)%nat → ∃ body ft,
    mk_event_view (sp_store (write_bytes hd (span_of (resize_buffer n buffer)))) 0 default_footer_length =
      from_parts hd [] body ft ∧
    length ft = default_footer_length ∧
    length body = (n - default_common_header_length - default_footer_length)%nat.
Proof.
  intros Hhd Hn. set (rest := drop default_common_header_length (resize_buffer n buffer)).
  set (k := (n - default_common_header_length - default_footer_length)%nat).
  assert (length rest = k + default_footer_length)%nat as Hl
    by (unfold rest, k; rewrite length_drop, resize_length; lia).
  exists (take k rest), (drop k rest). rewrite length_take, length_drop, Hl. split; [|lia].
  unfold from_parts. rewrite length_drop, Hl. f_equal; [|lia].
  unfold write_bytes. cbn [span_of sp_store sp_pos take app]. rewrite take_drop. by rewrite Hhd.
Qed.

Lemma tagged_fits b : tagged_body_ok b → tagged_size_ok b.
Proof.
  intros Hb. pose proof (tlv_size_bound b Hb) as Hs. rewrite tlv_size_spec in Hs by done.
  unfold tagged_size_ok. lia.
Qed.

(** writing the header and the body and recomputing the checksum *)
Lemma finish_tagged h b offset n buffer :
  common_header_ok h → tagged_body_ok b → (n < 2 ^ 32)%Z →
  n = Z.of_nat default_common_header_length + tagged_body_encoded_size b + Z.of_nat default_footer_length →
  let hd := common_header_bytes (with_size_and_position h n (u32 (offset + n))) in
  let result := mk_event_view (sp_store (write_bytes (common_header_bytes h)
                  (span_of (resize_buffer (Z.to_nat n) buffer)))) 0 default_footer_length in
  (header ← get_common_header_updatable_view result;
   let header := set_event_size_raw (u32 n) header in
   let header := set_next_event_position_raw (u32 (u64 (offset + n))) header in
   let result := put_common_header header result in
   destination ← tagged_body_encode_to b (span_of (get_body_raw result));
   release_write_proxy (put_body (sp_store destination) result)) =
  Ok (from_parts hd [] (tagged_body_bytes b) (le_split 4 (calculate_crc32 (hd ++ tagged_body_bytes b)))).
Proof.
  intros Hh Hb Hmax Hn hd result. pose proof (tagged_fits b Hb) as Hsz.
  destruct (length_tagged_body_bytes b Hb Hsz) as [Hlen Hw]. unfold in_width in Hw.
  destruct (tagged_buffer (common_header_bytes h) (Z.to_nat n) buffer) as (body & ft & Hr & Hft & Hbody);
    [apply length_common_header_bytes|lia|]. fold result in Hr.
  assert (length body = length (tagged_body_bytes b)) as Hbl by lia.
  rewrite Hr. unfold get_common_header_updatable_view.
  rewrite parts_common_header by apply length_common_header_bytes.
  rewrite header_view_bytes by done. cbn [mbind result_bind].
  rewrite set_event_size_bytes, set_position_bytes, u32_u64, (wrap_small 32 n) by (unfold in_width; lia).
  rewrite parts_put_common_header by apply length_common_header_bytes.
  rewrite parts_body by apply length_common_header_bytes.
  rewrite tagged_body_encode_ok by
    (done || unfold span_ok, span_size; cbn [span_of sp_store sp_pos]; lia). cbn [mbind result_bind].
  rewrite write_bytes_exact by done. rewrite parts_put_body by (done || apply length_common_header_bytes).
  by rewrite release_parts by (done || apply length_common_header_bytes).
Qed.

Lemma renumber_gtid_tagged_ok last v h b buffer offset :
  received_ok v h → ch_type_code h = ct_gtid_tagged_log → ev_post_header_size v = 0%nat →
  parse_tagged_body (get_body_raw v) = Ok b →
  Z.of_nat (get_total_size v) ≤ tb_transaction_length b < 2 ^ 63 →
  tb_get_last_committed b < tb_get_sequence_number b → 0 ≤ last → last + 1 < 2 ^ 64 →
  ∃ v' b', rewrite last v buffer offset = Ok v' ∧ relocated offset v v' ∧
    parse_tagged_body (get_body_raw v') = Ok b' ∧
    renumbered last (tb_get_sequence_number b) (tb_get_last_committed b)
      (tb_get_sequence_number b') (tb_get_last_committed b') ∧
    tb_transaction_length b' - Z.of_nat (get_total_size v') =
      tb_transaction_length b - Z.of_nat (get_total_size v) ∧
    b' = with_transaction_length (tb_transaction_length b')
           (with_last_committed (tb_last_committed b')
             (with_sequence_number (tb_sequence_number b') b)) ∧
    Z.of_nat (get_total_size v') ≤ 343.
Proof.
  intros Hok Hcode Hph Hp Hlen Hlt Hla Hnext. destruct (event_parts v h Hok) as [_ Hh].
  destruct (event_sizes v h Hok) as (_ & _ & _ & Hbody & _).
  destruct (parse_tagged_body_decoded _ _ Hbody Hp) as [Hdec Htag].
  destruct (fix_numbers_ok last (tb_get_sequence_number b) (tb_get_last_committed b))
    as (lc' & Hfix & Hnum); [done|done|by apply (wrap_bound 64)..|done|].
  assert (in_width 64 (last + 1) ∧ in_width 64 lc') as [Hw Hwl] by (unfold renumbered, in_width in *; lia).
  set (b1 := tb_set_last_committed lc' (tb_set_sequence_number (last + 1) b)).
  assert (tagged_body_ok b1) as Hb1.
  { pose proof (to_signed_int64 _ Hw). pose proof (to_signed_int64 _ Hwl).
    by destruct Hdec as (? & ? & ? & ? & _ & _ & ?). }
  set (size := Z.of_nat (get_total_size v)) in *. set (tail := tb_transaction_length b - size).
  destruct (event_size_loop_spec b1 tail Hb1) with (c0 := size) as (c & left & Hloop & _ & Hc & Hfixp);
    [unfold tail; lia..|].
  set (b' := with_transaction_length (c + tail) b1) in *.
  assert (tagged_body_ok b') as Hb'.
  { assert (in_width 64 (c + tail)) by (unfold in_width, tail; lia).
    by destruct Hb1 as (? & ? & ? & ? & ? & ? & ? & ? & _ & ?). }
  pose proof (finish_tagged h b' offset c buffer Hh Hb' ltac:(lia) Hfixp) as Hfin. cbv zeta in Hfin.
  eexists _, b'. split.
  { unfold rewrite. rewrite (proj1 (proj2 Hok)). cbn [mbind result_bind]. rewrite Hcode.
    unfold rewrite_gtid_tagged_log_internal. rewrite Hp. cbn [mbind result_bind]. fold size.
    destruct (Z.ltb_spec (tb_transaction_length b) size); [lia|]. cbn [raise_if mbind result_bind].
    rewrite Hfix. cbn [mbind result_bind]. fold b1 tail. rewrite Hloop.
    rewrite (event_header v h Hok). exact Hfin. }
  destruct (length_tagged_body_bytes b' Hb' (tagged_fits b' Hb')) as [Hlb _].
  assert (c = Z.of_nat (default_common_header_length + 0 + length (tagged_body_bytes b') +
            default_footer_length)) as Hc_eq by lia.
  pose proof (relocated_parts offset v h [] (tagged_body_bytes b') Hok ltac:(constructor)
    (tagged_bytes_ok b' Htag) ltac:(done)) as Hrel. cbv zeta in Hrel. cbn [length] in Hrel.
  rewrite <-Hc_eq in Hrel. specialize (Hrel ltac:(lia)). cbn [app] in Hrel. split; [done|].
  rewrite parts_body, parse_tagged_body_bytes by (apply length_common_header_bytes || done || by apply tagged_fits).
  split; [done|]. split.
  { unfold tb_get_sequence_number at 2, tb_get_last_committed at 2. cbn. by rewrite !to_signed_u64. }
  assert (∀ ft, length ft = 4%nat → Z.of_nat (get_total_size (from_parts
    (common_header_bytes (with_size_and_position h c (u32 (offset + c)))) [] (tagged_body_bytes b') ft)) = c) as Hsize.
  { intros ft Hft. unfold get_total_size. cbn [from_parts ev_portion].
    rewrite !length_app, length_common_header_bytes, Hft, Hc_eq.
    change common_header_size_in_bytes with default_common_header_length. unfold default_footer_length. cbn [length]. lia. }
  rewrite Hsize by apply length_le_split. change (tb_transaction_length b') with (c + tail).
  split; [lia|]. split; [done|lia].
Qed.

(** C15: rewriting a GTID_TAGGED_LOG event renumbers its transaction and keeps the rest of its
    body; although the variable-length fields may change the size of the event, the
    transaction length it declares still is its own size and the same length of the events
    that follow it. *)
Theorem rewrite_gtid_tagged_event last v h b buffer offset :
  received_ok v h → ch_type_code h = ct_gtid_tagged_log → ev_post_header_size v = 0%nat →
  parse_tagged_body (get_body_raw v) = Ok b →
  Z.of_nat (get_total_size v) ≤ tb_transaction_length b < 2 ^ 63 →
  tb_get_last_committed b < tb_get_sequence_number b → 0 ≤ last → last + 1 < 2 ^ 64 →
  ∃ v' b', rewrite last v buffer offset = Ok v' ∧ relocated offset v v' ∧
    parse_tagged_body (get_body_raw v') = Ok b' ∧
    renumbered last (tb_get_sequence_number b) (tb_get_last_committed b)
      (tb_get_sequence_number b') (tb_get_last_committed b') ∧
    tb_transaction_length b' - Z.of_nat (get_total_size v') =
      tb_transaction_length b - Z.of_nat (get_total_size v) ∧
    b' = with_transaction_length (tb_transaction_length b')
           (with_last_committed (tb_last_committed b')
             (with_sequence_number (tb_sequence_number b') b)).
Proof.
  intros Hok Hcode Hph Hp Hlen Hlt Hla Hnext.
  destruct (renumber_gtid_tagged_ok last v h b buffer offset) as (v' & b' & Hr & Hrel & Hp' & Hn & Hl & Hb' & _);
    [done..|]. by exists v', b'.
Qed.
End tagged.

(** ** Examples *)
Module RewriterExamples.
Import UuidModel StreamExamples TaggedExamples.

Definition header_of (v : event_view) : common_header :=
  match get_common_header v with Ok h => h | Err _ => mk_common_header 0 ct_unknown 0 0 0 0 end.

(** the events of ReaderContext.v are well-formed *)
Ltac check_event :=
  repeat apply conj; try (left; reflexivity); try (apply (bool_decide_unpack _); by vm_compute);
  by vm_compute.

Lemma rewrite_relocates_witness : ∃ v',
  rewrite 5 query_view [] 1000 = Ok v' ∧ relocated 1000 query_view v' ∧
  get_post_header_raw v' = get_post_header_raw query_view ∧ get_body_raw v' = get_body_raw query_view.
Proof. apply (rewrite_relocates 5 query_view (header_of query_view)); [check_event | by vm_compute]. Defined.

Definition gtid_header : gtid_log_post_header := mk_gtid_log_post_header 1 sample_uuid 1 2 0 1.

(** The first transaction of a remote file becomes the sixth of the local one. *)
Lemma rewrite_gtid_log_event_witness : ∃ v' (ph' : gtid_log_post_header),
  rewrite 5 gtid_view [] 1000 = Ok v' ∧
  parse_gtid_log_post_header (get_post_header_raw v') = Ok ph' ∧
  glh_get_sequence_number ph' = 6 ∧ glh_get_last_committed ph' = 5.
Proof.
  destruct (rewrite_gtid_log_event 5 gtid_view (header_of gtid_view) gtid_header [] 1000)
    as (v' & ph' & Hr & _ & _ & Hp & _ & _ & _ & Hn);
    [check_event | left; by vm_compute | by vm_compute.. |].
  exists v', ph'. split; [done|]. split; [done|]. destruct Hn as (Hs & Hb & _ & _ & Hk).
  change (glh_get_sequence_number gtid_header) with 1 in Hk.
  change (glh_get_last_committed gtid_header) with 0 in Hk. lia.
Defined.

(** a GTID_TAGGED_LOG event without a checksum, for a transaction of 100000 bytes *)
Definition tagged_body_1 : tagged_body :=
  with_transaction_length 100000 (with_sequence_number 1 (with_last_committed 0 sample_tagged_body)).
Definition tagged_event : list Z :=
  common_header_bytes (mk_common_header 1700000000 ct_gtid_tagged_log 1
    (19 + tagged_body_encoded_size tagged_body_1) (500 + 19 + tagged_body_encoded_size tagged_body_1) 0) ++
  tagged_body_bytes tagged_body_1.
Definition tagged_view : event_view := mk_event_view tagged_event 0 0.

Lemma rewrite_gtid_tagged_event_witness : ∃ v' b',
  rewrite 70 tagged_view [] 1000 = Ok v' ∧ parse_tagged_body (get_body_raw v') = Ok b' ∧
  tb_get_sequence_number b' = 71 ∧
  tb_transaction_length b' - Z.of_nat (get_total_size v') =
    100000 - Z.of_nat (get_total_size tagged_view).
Proof.
  destruct (rewrite_gtid_tagged_event 70 tagged_view (header_of tagged_view) tagged_body_1 [] 1000)
    as (v' & b' & Hr & _ & Hp & (Hs & _) & Hl & _);
    [check_event | by vm_compute | done | by vm_compute | by vm_compute | by vm_compute | by vm_compute.. |].
  exists v', b'. split; [exact Hr|]. split; [exact Hp|]. split; [exact Hs | exact Hl].
Defined.
End RewriterExamples.
