(* ===== verification/Event.v ===== *)
(** * Generic events

    Models src/src/binsrv/events/event.{hpp,cpp} with the variants of post headers and
    bodies (generic_post_header.hpp, generic_body.hpp and the classes they redirect to,
    empty_*.cpp and unknown_*.hpp), and the three generators of events of src/src/app.cpp.

    A variant is an inductive type; the tables of member function pointers that
    [emplace_post_header] and [emplace_body] index with the event code are matches on the
    code.  The buffer an event is encoded to is passed and returned. *)

From S2P Require Import Prelude ByteSpan OrderedMap IntervalSet Gtid GtidSet GtidSetEncoding.
From S2P Require Import Util Protocol GtidLog GtidTaggedLog ReaderContext Rewriter.

Local Open Scope Z_scope.

(** ** The variants *)
Inductive post_header_variant :=
  | unknown_post_header
  | empty_post_header
  | rotate_post_header (position : Z)
  | format_description_post_header (h : fde_post_header)
  | gtid_log_post_header_of (h : gtid_log_post_header).

Inductive body_variant :=
  | unknown_body
  | empty_body
  | rotate_body (binlog : list Z)
  | format_description_body (checksum_algorithm : Z)
  | gtid_log_body_of (b : gtid_log_body)
  | previous_gtids_log_body (gtids : list Z)
  | gtid_tagged_log_body (b : tagged_body).

Definition parse_empty_post_header (portion : list Z) : result post_header_variant :=
  _ ← raise_if (negb (length portion =? 0)%nat)
        (invalid_argument "invalid event empty post header length");
  Ok empty_post_header.
Definition parse_empty_body (portion : list Z) : result body_variant :=
  _ ← raise_if (negb (length portion =? 0)%nat)
        (invalid_argument "invalid event empty body length");
  Ok empty_body.

Definition emplace_post_header (code : code_type) (portion : list Z) : result post_header_variant :=
  match code with
  | ct_rotate => rotate_post_header <$> parse_rotate_post_header portion
  | ct_format_description => format_description_post_header <$> parse_fde_post_header portion
  | ct_gtid_log | ct_anonymous_gtid_log =>
      gtid_log_post_header_of <$> parse_gtid_log_post_header portion
  | ct_stop | ct_previous_gtids_log | ct_gtid_tagged_log => parse_empty_post_header portion
  | _ => Ok unknown_post_header
  end.

Definition emplace_body (code : code_type) (portion : list Z) : result body_variant :=
  match code with
  | ct_rotate => Ok (rotate_body (parse_rotate_body portion))
  | ct_format_description => format_description_body <$> parse_fde_body portion
  | ct_gtid_log | ct_anonymous_gtid_log => gtid_log_body_of <$> parse_gtid_log_body portion
  | ct_previous_gtids_log => Ok (previous_gtids_log_body (parse_previous_gtids_body portion))
  | ct_gtid_tagged_log => gtid_tagged_log_body <$> parse_tagged_body portion
  | ct_stop => parse_empty_body portion
  | _ => Ok unknown_body
  end.

(** ** Encoding the components *)
Definition size_not_implemented : error :=
  logic_error "calculate_encoded_size() not implemented for this event post header / body".
Definition encode_not_implemented : error :=
  logic_error "encode_to() not implemented for this event post header / body".

Definition post_header_encoded_size (h : post_header_variant) : result Z :=
  match h with
  | unknown_post_header => Err size_not_implemented
  | empty_post_header => Ok 0
  | rotate_post_header _ => Ok (Z.of_nat rotate_post_header_size)
  | format_description_post_header h =>
      encoded_server_version ← get_encoded_server_version h;
      Ok (Z.of_nat (fde_size_in_bytes encoded_server_version))
  | gtid_log_post_header_of _ => Ok (Z.of_nat gtid_log_post_header_size)
  end.
Definition post_header_encode_to (h : post_header_variant) (destination : byte_span)
    : result byte_span :=
  match h with
  | unknown_post_header => Err encode_not_implemented
  | empty_post_header => Ok destination
  | rotate_post_header position => rotate_post_header_encode_to position destination
  | format_description_post_header h => fde_post_header_encode_to h destination
  | gtid_log_post_header_of h => gtid_log_post_header_encode_to h destination
  end.

Definition body_encoded_size (b : body_variant) : result Z :=
  match b with
  | unknown_body => Err size_not_implemented
  | empty_body => Ok 0
  | rotate_body binlog => Ok (Z.of_nat (length binlog))
  | format_description_body _ => Ok (Z.of_nat fde_body_size)
  | gtid_log_body_of b => Ok (Z.of_nat (gtid_log_body_encoded_size b))
  | previous_gtids_log_body gtids => Ok (Z.of_nat (length gtids))
  | gtid_tagged_log_body b => Ok (tagged_body_encoded_size b)
  end.
Definition body_encode_to (b : body_variant) (destination : byte_span) : result byte_span :=
  match b with
  | unknown_body => Err encode_not_implemented
  | empty_body => Ok destination
  | rotate_body binlog => rotate_body_encode_to binlog destination
  | format_description_body checksum_algorithm =>
      fde_body_encode_to checksum_algorithm destination
  | gtid_log_body_of b => gtid_log_body_encode_to b destination
  | previous_gtids_log_body gtids => previous_gtids_body_encode_to gtids destination
  | gtid_tagged_log_body b => tagged_body_encode_to b destination
  end.

(** ** event *)
Record event := mk_event {
  event_common_header : common_header;
  event_post_header : post_header_variant;
  event_body : body_variant;
  event_footer : option Z
}.
Definition emplace_footer (crc : Z) (e : event) : event :=
  mk_event (event_common_header e) (event_post_header e) (event_body e) (Some crc).

(** [event(const event_view &)] *)
Definition event_of_view (v : event_view) : result event :=
  h ← parse_common_header (get_common_header_raw v);
  post_header ← emplace_post_header (ch_type_code h) (get_post_header_raw v);
  body ← emplace_body (ch_type_code h) (get_body_raw v);
  if has_footer v then
    footer ← footer_view (get_footer_raw v);
    Ok (mk_event h post_header body (Some (get_crc_raw footer)))
  else Ok (mk_event h post_header body None).

(** [event(const reader_context &, util::const_byte_span)] *)
Definition parse_event `{Zlib} (c : reader_context) (portion : list Z) : result event :=
  v ← make_event_view c portion;
  event_of_view v.

Definition footer_encoded_size (include : bool) : Z :=
  if include then Z.of_nat default_footer_length else 0.

Definition event_encoded_size (e : event) : result Z :=
  post_header_size ← post_header_encoded_size (event_post_header e);
  body_size ← body_encoded_size (event_body e);
  Ok (Z.of_nat default_common_header_length + post_header_size + body_size +
      footer_encoded_size (bool_decide (is_Some (event_footer e)))).

Definition event_encode_to (e : event) (destination : byte_span) : result byte_span :=
  size ← event_encoded_size e;
  _ ← raise_if (Z.of_nat (span_size destination) <? size) (invalid_argument "cannot encode event");
  destination ← common_header_encode_to (event_common_header e) destination;
  destination ← post_header_encode_to (event_post_header e) destination;
  destination ← body_encode_to (event_body e) destination;
  match event_footer e with
  | Some crc => footer_encode_to crc destination
  | None => Ok destination
  end.

Section events.
Context `{Zlib}.

(** The span the event was encoded to ends where the footer goes. *)
Definition encode_and_checksum (e : event) (buffer : list Z) (include_checksum : bool)
    : result (event * list Z) :=
  let size_with_footer := ch_event_size (event_common_header e) in
  let buffer := resize_buffer (Z.to_nat size_with_footer) buffer in
  output_span ← event_encode_to e (span_of buffer);
  if include_checksum then
    let size_wo_footer := u64 (size_with_footer - Z.of_nat default_footer_length) in
    let crc := calculate_crc32 (take (Z.to_nat size_wo_footer) (sp_store output_span)) in
    footer ← footer_view (drop (sp_pos output_span) (sp_store output_span));
    Ok (emplace_footer crc e, sp_store (write_bytes (set_crc_raw crc footer) output_span))
  else Ok (e, sp_store output_span).

(** the constructor behind [create_event] and [create_event_simple], which has no buffer *)
Definition make_event (code : code_type) (offset timestamp server_id flags : Z)
    (post_header : post_header_variant) (body : body_variant) (include_checksum : bool)
    (buffer : option (list Z)) : result (event * list Z) :=
  post_header_size ← post_header_encoded_size post_header;
  body_size ← body_encoded_size body;
  let event_size := u32 (Z.of_nat default_common_header_length + post_header_size + body_size +
                         footer_encoded_size include_checksum) in
  let e := mk_event (create_with_offset offset event_size timestamp code server_id flags)
             post_header body None in
  let include_checksum :=
    if bool_decide (code = ct_format_description) then true else include_checksum in
  match buffer with
  | Some buffer => encode_and_checksum e buffer include_checksum
  | None => if include_checksum then encode_and_checksum e [] true else Ok (e, [])
  end.

Definition create_event (code : code_type) (offset timestamp server_id flags : Z)
    (post_header : post_header_variant) (body : body_variant) (include_checksum : bool)
    (buffer : list Z) : result (event * list Z) :=
  make_event code offset timestamp server_id flags post_header body include_checksum
    (Some buffer).
Definition create_event_simple (code : code_type) (offset timestamp server_id flags : Z)
    (post_header : post_header_variant) (body : body_variant) (include_checksum : bool)
    : result event :=
  fst <$> make_event code offset timestamp server_id flags post_header body include_checksum None.
End events.

(** ** The generators *)
Section generators.
Context `{IntervalSet} `{BoostUuid} `{Zlib}.
Implicit Types c : reader_context.

(** [now] is the reading of the clock *)
Definition generate_rotate_event (event_buffer : list Z) c (offset : Z)
    (current_timestamp : bool) (now server_id : Z) (artificial : bool)
    (binlog_name : composite_binlog_name) : result (event_view * list Z) :=
  let post_header := rotate_post_header magic_binlog_offset in
  let body := rotate_body (rotate_body_of_name binlog_name) in
  let timestamp := if current_timestamp then now else 0 in
  let flags := if artificial then artificial_flag else 0 in
  '(_, event_buffer) ← create_event ct_rotate offset timestamp server_id flags post_header body
     (rc_footer_expected c) event_buffer;
  v ← make_event_view c event_buffer;
  Ok (v, event_buffer).

Definition generate_format_description_event (event_buffer : list Z) c (offset : Z)
    (created now server_id : Z) : result (event_view * list Z) :=
  let server_version := version_of_encoded (rc_current_encoded_server_version c) in
  let post_header := format_description_post_header
    (make_fde_post_header default_binlog_version server_version created
       (Z.of_nat default_common_header_length)
       (get_hardcoded_post_header_lengths (get_encoded server_version))) in
  let body := format_description_body checksum_crc32 in
  '(_, event_buffer) ← create_event ct_format_description offset now server_id 0 post_header body
     true event_buffer;
  v ← make_event_view c event_buffer;
  Ok (v, event_buffer).

Definition generate_previous_gtids_log_event (event_buffer : list Z) c (offset now server_id : Z)
    (gtids : gtid_set) : result (event_view * list Z) :=
  encoded ← previous_gtids_body_of_set gtids;
  let post_header := empty_post_header in
  let body := previous_gtids_log_body encoded in
  '(_, event_buffer) ← create_event ct_previous_gtids_log offset now server_id 0 post_header body
     true event_buffer;
  v ← make_event_view c event_buffer;
  Ok (v, event_buffer).
End generators.

(** ** The bytes of the components *)
Definition post_header_bytes (h : post_header_variant) : list Z :=
  match h with
  | unknown_post_header | empty_post_header => []
  | rotate_post_header position => le_split 8 position
  | format_description_post_header h =>
      match version_of_string (fde_server_version h) with
      | Ok v => fde_bytes h (get_number_of_events (get_encoded v))
      | Err _ => []
      end
  | gtid_log_post_header_of h => gtid_log_post_header_bytes h
  end.

Definition body_bytes (b : body_variant) : list Z :=
  match b with
  | unknown_body | empty_body => []
  | rotate_body binlog => binlog
  | format_description_body checksum_algorithm => [checksum_algorithm]
  | gtid_log_body_of b => gtid_log_body_bytes b
  | previous_gtids_log_body gtids => gtids
  | gtid_tagged_log_body b => tagged_body_bytes b
  end.

(** the components that an event with a given code has, with members in their ranges *)
Definition post_header_for (code : code_type) (h : post_header_variant) : Prop :=
  match code, h with
  | ct_rotate, rotate_post_header position => in_width 64 position
  | ct_format_description, format_description_post_header h => ∃ v, fde_ok h v
  | (ct_gtid_log | ct_anonymous_gtid_log), gtid_log_post_header_of h => gtid_log_post_header_ok h
  | (ct_stop | ct_previous_gtids_log | ct_gtid_tagged_log), empty_post_header => True
  | _, _ => False
  end.

Definition body_for (code : code_type) (b : body_variant) : Prop :=
  match code, b with
  | ct_rotate, rotate_body binlog => True
  | ct_format_description, format_description_body a => 0 ≤ a < checksum_delimiter
  | (ct_gtid_log | ct_anonymous_gtid_log), gtid_log_body_of b => gtid_log_body_ok b
  | ct_previous_gtids_log, previous_gtids_log_body gtids => True
  | ct_gtid_tagged_log, gtid_tagged_log_body b => tagged_body_ok b
  | ct_stop, empty_body => True
  | _, _ => False
  end.

Section components.
Implicit Types (h : post_header_variant) (b : body_variant) (dest : byte_span).

Lemma post_header_spec code h :
  post_header_for code h →
  post_header_encoded_size h = Ok (Z.of_nat (length (post_header_bytes h))) ∧
  (∀ dest, span_ok dest → (length (post_header_bytes h) ≤ span_size dest)%nat →
     post_header_encode_to h dest = Ok (write_bytes (post_header_bytes h) dest)) ∧
  emplace_post_header code (post_header_bytes h) = Ok h.
Proof.
  intros Hfor. destruct code, h as [| |position|fde|glh]; try done; cbn [post_header_for] in Hfor.
  - (* stop *) split; [done|]. split; [|done]. intros dest _ _. cbn. by rewrite write_bytes_nil.
  - (* rotate *) cbn [post_header_bytes]. rewrite length_le_split. split; [done|]. split.
    + intros dest _ Hs. cbn [post_header_encode_to]. unfold rotate_post_header_encode_to.
      by destruct (Nat.ltb_spec (span_size dest) rotate_post_header_size); [unfold rotate_post_header_size in *; lia|].
    + cbn [emplace_post_header]. unfold parse_rotate_post_header. rewrite length_le_split. cbn.
      unfold extract_fixed_int_from_byte_span.
      pose proof (le_combine_split_small 8 position Hfor) as Hc. cbn in Hc. by rewrite Hc.
  - (* format description *) destruct Hfor as [v Hok]. pose proof Hok as (_ & Hv & _).
    pose proof (length_fde_bytes fde v Hok) as Hl. cbn [post_header_bytes]. rewrite Hv, Hl.
    split; [cbn [post_header_encoded_size]; unfold get_encoded_server_version; by rewrite Hv|]. split.
    + intros dest Hd Hs. by apply fde_encode_ok.
    + cbn [emplace_post_header]. by rewrite (parse_fde_bytes fde v Hok).
  - (* gtid log *) cbn [post_header_bytes]. rewrite length_gtid_log_post_header_bytes by apply Hfor.
    split; [done|]. split; [intros dest Hd Hs; by apply gtid_log_post_header_encode_ok|].
    cbn [emplace_post_header]. by rewrite parse_gtid_log_post_header_bytes.
  - (* anonymous gtid log *) cbn [post_header_bytes]. rewrite length_gtid_log_post_header_bytes by apply Hfor.
    split; [done|]. split; [intros dest Hd Hs; by apply gtid_log_post_header_encode_ok|].
    cbn [emplace_post_header]. by rewrite parse_gtid_log_post_header_bytes.
  - (* previous gtids *) split; [done|]. split; [|done]. intros dest _ _. cbn. by rewrite write_bytes_nil.
  - (* tagged *) split; [done|]. split; [|done]. intros dest _ _. cbn. by rewrite write_bytes_nil.
Qed.

Lemma write_all_ok bytes dest e :
  (length bytes ≤ span_size dest)%nat →
  (_ ← raise_if (span_size dest <? length bytes)%nat e; Ok (write_bytes bytes dest)) =
    Ok (write_bytes bytes dest).
Proof. intros Hs. by destruct (Nat.ltb_spec (span_size dest) (length bytes)); [lia|]. Qed.

Lemma body_spec code b :
  body_for code b →
  body_encoded_size b = Ok (Z.of_nat (length (body_bytes b))) ∧
  (∀ dest, span_ok dest → (length (body_bytes b) ≤ span_size dest)%nat →
     body_encode_to b dest = Ok (write_bytes (body_bytes b) dest)) ∧
  emplace_body code (body_bytes b) = Ok b.
Proof.
  intros Hfor. destruct code, b as [| |name|alg|glb|gtids|tb]; try done; cbn [body_for] in Hfor.
  - (* stop *) split; [done|]. split; [|done]. intros dest _ _. cbn. by rewrite write_bytes_nil.
  - (* rotate *) split; [done|]. split; [|done]. intros dest _ Hs. by apply write_all_ok.
  - (* format description *) split; [done|]. unfold checksum_delimiter in Hfor. split.
    + intros dest _ Hs. cbn [body_encode_to body_bytes length] in *. unfold fde_body_encode_to.
      destruct (Nat.ltb_spec (span_size dest) fde_body_size); [unfold fde_body_size in *; lia|].
      cbn [raise_if mbind result_bind]. unfold insert_fixed_int_to_byte_span. cbn [le_split].
      by rewrite Z.mod_small by lia.
    + assert (alg = 0 ∨ alg = 1) as [-> | ->] by lia; done.
  - (* gtid log *) cbn [body_bytes body_encoded_size]. rewrite length_gtid_log_body_bytes.
    split; [done|]. split; [intros dest Hd Hs; by apply gtid_log_body_encode_ok|].
    cbn [emplace_body]. by rewrite parse_gtid_log_body_bytes.
  - (* anonymous gtid log *) cbn [body_bytes body_encoded_size]. rewrite length_gtid_log_body_bytes.
    split; [done|]. split; [intros dest Hd Hs; by apply gtid_log_body_encode_ok|].
    cbn [emplace_body]. by rewrite parse_gtid_log_body_bytes.
  - (* previous gtids *) split; [done|]. split; [|done]. intros dest _ Hs. by apply write_all_ok.
  - (* tagged *) pose proof (tagged_fits tb Hfor) as Hsz. cbn [body_bytes body_encoded_size].
    destruct (length_tagged_body_bytes tb Hfor Hsz) as [Hl _]. split; [by rewrite Hl|]. split.
    + intros dest Hd Hs. apply tagged_body_encode_ok; [done..|]. lia.
    + cbn [emplace_body]. by rewrite parse_tagged_body_bytes.
Qed.
End components.

(** ** Events that were created *)
Section created.
Context `{Zlib}.
Implicit Types (h : post_header_variant) (b : body_variant) (buffer : list Z).

(** the event, its view and its buffer *)
Definition created_size h b (include : bool) : Z :=
  Z.of_nat (default_common_header_length + length (post_header_bytes h) + length (body_bytes b)) +
  footer_encoded_size include.

Definition created_view (header : common_header) h b (include : bool) : event_view :=
  let rest := common_header_bytes header ++ post_header_bytes h ++ body_bytes b in
  from_parts (common_header_bytes header) (post_header_bytes h) (body_bytes b)
    (if include then le_split 4 (calculate_crc32 rest) else []).

Definition created_crc (header : common_header) h b (include : bool) : option Z :=
  if include
  then Some (calculate_crc32 (common_header_bytes header ++ post_header_bytes h ++ body_bytes b))
  else None.

(** a buffer whose byte for the event code is one: empty, or with an earlier event in it *)
Definition reusable buffer : Prop :=
  buffer = [] ∨ (common_header_size_in_bytes ≤ length buffer)%nat ∧ get_type_code_raw buffer < code_delimiter.

Lemma reusable_resized n buffer :
  (common_header_size_in_bytes ≤ n)%nat → reusable buffer →
  get_type_code_raw (resize_buffer n buffer) < code_delimiter.
Proof.
  intros Hn. rewrite <-get_type_code_take. unfold resize_buffer. intros [-> | [Hl Hc]].
  - rewrite take_nil. cbn [app length]. rewrite take_replicate, Nat.min_l by lia. by vm_compute.
  - rewrite take_app_le by (rewrite length_take; lia). rewrite take_take, Nat.min_l by done.
    by rewrite get_type_code_take.
Qed.

Lemma encode_event_ok header h b code size buffer :
  post_header_for code h → body_for code b → reusable buffer →
  (default_common_header_length + length (post_header_bytes h) + length (body_bytes b) ≤ size)%nat →
  event_encode_to (mk_event header h b None) (span_of (resize_buffer size buffer)) =
    Ok (write_bytes (common_header_bytes header ++ post_header_bytes h ++ body_bytes b)
          (span_of (resize_buffer size buffer))).
Proof.
  intros Hh Hb Hbuf Hs. destruct (post_header_spec code h Hh) as (Hhs & Hhe & _).
  destruct (body_spec code b Hb) as (Hbs & Hbe & _).
  pose proof (length_common_header_bytes header) as Hl.
  set (dest := span_of (resize_buffer size buffer)).
  assert (span_size dest = size) as Hd
    by (unfold dest, span_size; cbn [span_of sp_store sp_pos]; rewrite resize_length; lia).
  assert (span_ok dest) as Hok by (unfold span_ok, dest; cbn [span_of sp_pos]; lia).
  change common_header_size_in_bytes with default_common_header_length in Hl.
  unfold event_encode_to, event_encoded_size. cbn [event_post_header event_body event_footer event_common_header].
  rewrite Hhs, Hbs. cbn [mbind result_bind]. rewrite Hd. rewrite bool_decide_eq_false_2 by (by intros [? ?]).
  unfold footer_encoded_size. destruct (Z.ltb_spec (Z.of_nat size) (Z.of_nat default_common_header_length +
    Z.of_nat (length (post_header_bytes h)) + Z.of_nat (length (body_bytes b)) + 0)); [lia|].
  cbn [raise_if mbind result_bind]. rewrite common_header_encode_ok.
  2: { rewrite Hd. change common_header_size_in_bytes with default_common_header_length. lia. }
  2: { apply reusable_resized; [|done]. change common_header_size_in_bytes with default_common_header_length. lia. }
  cbn [mbind result_bind]. rewrite Hhe.
  2: { apply write_bytes_ok; [done|lia]. }
  2: { rewrite span_size_write by (done || lia). lia. }
  cbn [mbind result_bind]. rewrite write_bytes_app by done. rewrite Hbe.
  2: { apply write_bytes_ok; [done|rewrite length_app; lia]. }
  2: { rewrite span_size_write by (done || rewrite length_app; lia). rewrite length_app. lia. }
  cbn [mbind result_bind]. by rewrite write_bytes_app, <-app_assoc by done.
Qed.

Lemma length_created_view header h b include :
  Z.of_nat (get_total_size (created_view header h b include)) = created_size h b include.
Proof.
  unfold get_total_size, created_view, created_size. cbn [from_parts ev_portion].
  rewrite !length_app, length_common_header_bytes.
  change common_header_size_in_bytes with default_common_header_length.
  destruct include; rewrite ?length_le_split; cbn [length footer_encoded_size]; unfold default_footer_length; lia.
Qed.

(** encoding fills the buffer with the sections of the view *)
Lemma encode_and_checksum_ok header h b code include buffer :
  post_header_for code h → body_for code b → reusable buffer →
  created_size h b include < 2 ^ 32 → ch_event_size header = created_size h b include →
  encode_and_checksum (mk_event header h b None) buffer include =
    Ok (mk_event header h b (created_crc header h b include), ev_portion (created_view header h b include)).
Proof.
  intros Hh Hb Hbuf Hmax Hs. unfold encode_and_checksum. cbn [event_common_header]. rewrite Hs.
  set (size := created_size h b include) in *. set (n := Z.to_nat size).
  set (rest := common_header_bytes header ++ post_header_bytes h ++ body_bytes b).
  assert (Z.of_nat (length rest) + footer_encoded_size include = size) as Hrest.
  { unfold rest, size, created_size. rewrite !length_app, length_common_header_bytes.
    change common_header_size_in_bytes with default_common_header_length. lia. }
  assert (0 ≤ footer_encoded_size include ≤ 4) as Hf by (by destruct include).
  rewrite (encode_event_ok header h b code) by
    (done || (unfold n, size, created_size; destruct include; cbn [footer_encoded_size]; lia)).
  fold rest. cbn [mbind result_bind]. set (old := drop (length rest) (resize_buffer n buffer)).
  assert (Z.of_nat (length old) = footer_encoded_size include) as Hold
    by (unfold old; rewrite length_drop, resize_length; unfold n; lia).
  assert (write_bytes rest (span_of (resize_buffer n buffer)) = mk_span (rest ++ old) (length rest)) as ->
    by done.
  cbn [sp_store sp_pos]. destruct include; cbn [footer_encoded_size] in *.
  - rewrite wrap_small by (unfold in_width; lia).
    replace (Z.to_nat (size - Z.of_nat default_footer_length)) with (length rest) by lia.
    rewrite take_app_length, drop_app_length. unfold footer_view.
    assert (length old = default_footer_length) as Hol by lia.
    rewrite Hol, Nat.eqb_refl. cbn [negb raise_if mbind result_bind]. rewrite set_crc_bytes by done.
    unfold write_bytes. cbn [sp_store sp_pos]. rewrite take_app_length, length_le_split.
    rewrite drop_ge by (rewrite length_app, Hol; unfold default_footer_length; lia).
    unfold created_crc, created_view, emplace_footer. cbn [from_parts ev_portion]. fold rest.
    rewrite app_nil_r. unfold rest. by rewrite <-!app_assoc.
  - assert (old = []) as -> by (apply length_zero_iff_nil; lia).
    unfold created_crc, created_view. cbn [from_parts ev_portion]. unfold rest. by rewrite !app_nil_r.
Qed.

(** the view reads back as the event *)
Lemma created_event_read header h b code include :
  common_header_ok header → ch_type_code header = code → post_header_for code h → body_for code b →
  event_of_view (created_view header h b include) = Ok (mk_event header h b (created_crc header h b include)).
Proof.
  intros Hheader Hcode Hh Hb. destruct (post_header_spec code h Hh) as (_ & _ & Hhp).
  destruct (body_spec code b Hb) as (_ & _ & Hbp).
  pose proof (length_common_header_bytes header : _ = default_common_header_length) as Hl.
  unfold event_of_view, created_view. rewrite parts_common_header, parts_post_header, parts_body by done.
  rewrite parse_common_header_bytes by done. cbn [mbind result_bind]. rewrite Hcode, Hhp, Hbp. cbn [mbind result_bind].
  unfold has_footer. cbn [from_parts ev_footer_size]. unfold created_crc. destruct include; [|done].
  rewrite length_le_split. cbn [Nat.eqb negb].
  fold (from_parts (common_header_bytes header) (post_header_bytes h) (body_bytes b)
    (le_split 4 (calculate_crc32 (common_header_bytes header ++ post_header_bytes h ++ body_bytes b)))).
  rewrite parts_footer by done. unfold footer_view. rewrite length_le_split. cbn [Nat.eqb negb raise_if mbind result_bind default_footer_length].
  pose proof (get_field_app 0 4 [] (calculate_crc32 (common_header_bytes header ++ post_header_bytes h ++ body_bytes b))
    [] eq_refl (calculate_crc32_width _)) as Hg. rewrite app_nil_r in Hg. cbn [app] in Hg.
  unfold get_crc_raw. by rewrite Hg.
Qed.

(** a reader context that takes events with this code, with or without a checksum *)
Definition takes (c : reader_context) (code : code_type) h (include : bool) : Prop :=
  if bool_decide (code = ct_format_description) then include = true
  else rc_footer_expected c = include ∧
       get_current_post_header_length c code = Z.of_nat (length (post_header_bytes h)).

Lemma created_post_header_size c code h b include :
  post_header_for code h → body_for code b → takes c code h include →
  created_size h b include < 2 ^ 32 →
  post_header_size_of c code (Z.to_nat (created_size h b include))
    (if include then default_footer_length else 0%nat) = Ok (length (post_header_bytes h)).
Proof.
  intros Hh Hb Hc Hmax. unfold takes in Hc. unfold post_header_size_of, created_size in *.
  case_bool_decide as Hcode.
  - subst include code. destruct b; try done. cbn [body_bytes length footer_encoded_size] in *.
    unfold fde_body_size. set (k := length (post_header_bytes h)).
    destruct (Nat.ltb_spec (Z.to_nat (Z.of_nat (default_common_header_length + k + 1) + Z.of_nat default_footer_length))
      (default_common_header_length + 1 + default_footer_length)); [lia|].
    cbn [raise_if mbind result_bind]. f_equal. lia.
  - destruct Hc as [_ ->]. unfold unspecified_post_header_length.
    destruct include; cbn [footer_encoded_size] in *;
      (destruct (Z.eqb_spec (Z.of_nat (length (post_header_bytes h))) (2 ^ 64 - 1)); [lia|]);
      cbn [raise_if mbind result_bind]; 
      (match goal with |- context [?x <? ?y] => destruct (Z.ltb_spec x y) end; [lia|]);
      cbn [raise_if mbind result_bind];
      by rewrite Nat2Z.id.
Qed.

Lemma created_accepted c header h b include :
  let code := ch_type_code header in
  common_header_ok header → post_header_for code h → body_for code b → takes c code h include →
  created_size h b include < 2 ^ 32 → ch_event_size header = created_size h b include →
  make_event_view c (ev_portion (created_view header h b include)) = Ok (created_view header h b include).
Proof.
  intros code Hheader Hh Hb Hc Hmax Hs. set (v := created_view header h b include).
  pose proof (length_common_header_bytes header : _ = default_common_header_length) as Hl.
  pose proof (length_created_view header h b include : Z.of_nat (get_total_size v) = _) as Ht.
  assert (ev_footer_size v = if include then default_footer_length else 0%nat) as Hf
    by (unfold v, created_view; cbn [from_parts ev_footer_size]; by destruct include; rewrite ?length_le_split).
  apply (view_accepted c v header).
  - rewrite Hf. unfold created_size in Ht. destruct include; cbn [footer_encoded_size] in Ht; lia.
  - unfold get_common_header, v, created_view. rewrite parts_common_header by done. by apply parse_common_header_bytes.
  - lia.
  - rewrite Hf. unfold takes in Hc. fold code. case_bool_decide; [by subst include|]. by destruct Hc as [-> _].
  - rewrite Hf. fold code. replace (get_total_size v) with (Z.to_nat (created_size h b include)) by lia.
    unfold v, created_view. cbn [from_parts ev_post_header_size]. by apply created_post_header_size.
  - intros Hcode. fold code in Hcode. rewrite Hcode in Hb. unfold v, created_view. rewrite parts_body by done.
    destruct b; try done. cbn [body_for] in Hb. unfold checksum_delimiter in Hb.
    assert (checksum_algorithm = 0 ∨ checksum_algorithm = 1) as [-> | ->] by lia; done.
  - unfold has_footer. rewrite Hf. destruct include; [|done]. intros _. unfold v, created_view.
    rewrite parts_footer, parts_crc by done.
    pose proof (get_field_app 0 4 [] (calculate_crc32 (common_header_bytes header ++ post_header_bytes h ++ body_bytes b))
      [] eq_refl (calculate_crc32_width _)) as Hg. by rewrite app_nil_r in Hg.
Qed.

Lemma create_event_ok code offset timestamp server_id flags h b include buffer :
  post_header_for code h → body_for code b → reusable buffer → created_size h b include < 2 ^ 32 →
  (code = ct_format_description → include = true) →
  let header := create_with_offset offset (created_size h b include) timestamp code server_id flags in
  create_event code offset timestamp server_id flags h b include buffer =
    Ok (mk_event header h b (created_crc header h b include), ev_portion (created_view header h b include)).
Proof.
  intros Hh Hb Hbuf Hmax Hfde header. unfold create_event, make_event.
  destruct (post_header_spec code h Hh) as (-> & _). destruct (body_spec code b Hb) as (-> & _).
  cbn [mbind result_bind].
  assert (0 ≤ created_size h b include) by (unfold created_size; destruct include; cbn [footer_encoded_size]; lia).
  replace (Z.of_nat default_common_header_length + Z.of_nat (length (post_header_bytes h)) +
    Z.of_nat (length (body_bytes b)) + footer_encoded_size include)
    with (created_size h b include) by (unfold created_size; lia).
  rewrite wrap_small by done. fold header.
  assert ((if bool_decide (code = ct_format_description) then true else include) = include) as ->
    by (case_bool_decide; [by rewrite Hfde|done]).
  by apply (encode_and_checksum_ok header h b code).
Qed.

Lemma created_header_ok offset size timestamp code server_id flags :
  in_width 32 size → in_width 32 server_id → in_width 16 flags →
  common_header_ok (create_with_offset offset size timestamp code server_id flags).
Proof.
  intros Hs Hi Hf. unfold create_with_offset. split; [by apply (wrap_bound 32)|]. split; [done|]. split; [done|].
  split; [|done]. cbn [ch_next_event_position]. case_match; [done|by apply (wrap_bound 32)].
Qed.

(** C40: an event created from components that belong to its code is read back from the
    buffer as the same event by any reader that takes such events, its header carrying the
    size of the buffer; the previous contents of the buffer do not matter. *)
Theorem create_event_roundtrip c code offset timestamp server_id flags h b include buffer :
  post_header_for code h → body_for code b → takes c code h include → reusable buffer →
  created_size h b include < 2 ^ 32 → in_width 32 server_id → in_width 16 flags →
  ∃ e buffer', create_event code offset timestamp server_id flags h b include buffer = Ok (e, buffer') ∧
    event_post_header e = h ∧ event_body e = b ∧
    event_common_header e =
      create_with_offset offset (Z.of_nat (length buffer')) timestamp code server_id flags ∧
    parse_event c buffer' = Ok e.
Proof.
  intros Hh Hb Hc Hbuf Hmax Hid Hfl.
  assert (0 ≤ created_size h b include) by (unfold created_size; destruct include; cbn [footer_encoded_size]; lia).
  set (header := create_with_offset offset (created_size h b include) timestamp code server_id flags).
  assert (common_header_ok header) as Hok by (by apply created_header_ok).
  exists (mk_event header h b (created_crc header h b include)), (ev_portion (created_view header h b include)).
  split.
  { apply create_event_ok; try done. intros ->. by unfold takes in Hc. }
  split; [done|]. split; [done|]. split.
  { pose proof (length_created_view header h b include) as Ht. unfold get_total_size in Ht. by rewrite Ht. }
  unfold parse_event. rewrite created_accepted by done. cbn [mbind result_bind]. by apply (created_event_read _ _ _ code).
Qed.

(** the constructor forces a checksum on a format description event, but only after the
    size has been computed without it: asked for such an event without a checksum, it
    always throws. *)
Theorem format_description_without_checksum_fails offset timestamp server_id flags h b buffer :
  post_header_for ct_format_description h → body_for ct_format_description b → reusable buffer →
  created_size h b false < 2 ^ 32 →
  create_event ct_format_description offset timestamp server_id flags h b false buffer =
    Err (invalid_argument "invalid event footer length").
Proof.
  intros Hh Hb Hbuf Hmax. unfold create_event, make_event.
  destruct (post_header_spec _ h Hh) as (-> & _). destruct (body_spec _ b Hb) as (-> & _).
  cbn [mbind result_bind]. unfold encode_and_checksum, created_size in *. cbn [event_common_header create_with_offset ch_event_size].
  set (n := (default_common_header_length + length (post_header_bytes h) + length (body_bytes b))%nat) in *.
  cbn [footer_encoded_size] in *.
  replace (Z.of_nat default_common_header_length + Z.of_nat (length (post_header_bytes h)) +
    Z.of_nat (length (body_bytes b)) + 0) with (Z.of_nat n) by lia.
  rewrite !(wrap_small 32 (Z.of_nat n)) by (unfold in_width; lia). rewrite Nat2Z.id.
  rewrite (encode_event_ok _ h b ct_format_description) by done. cbn [mbind result_bind].
  rewrite drop_ge; [done|]. unfold write_bytes. cbn [span_of sp_store sp_pos].
  rewrite !length_app, length_drop, resize_length, length_common_header_bytes.
  change common_header_size_in_bytes with default_common_header_length. rewrite take_0. cbn [length]. lia.
Qed.
End created.

Module EventExamples.
Import UuidModel ProtocolExamples StreamExamples.

(** A ROTATE event to the second file, written over an older event. *)
Lemma create_event_roundtrip_witness : ∃ e buffer',
  create_event ct_rotate 266 1700000002 1 0 (rotate_post_header 4) (rotate_body (text "binlog.000002"))
    false (query_event 266) = Ok (e, buffer') ∧
  parse_event sample_context buffer' = Ok e ∧ event_body e = rotate_body (text "binlog.000002").
Proof.
  destruct (create_event_roundtrip sample_context ct_rotate 266 1700000002 1 0 (rotate_post_header 4)
    (rotate_body (text "binlog.000002")) false (query_event 266)) as (e & buffer' & Hc & _ & Hb & _ & Hp).
  - apply (bool_decide_unpack _). by vm_compute.
  - exact I.
  - split; by vm_compute.
  - right. split; [apply (bool_decide_unpack _); by vm_compute | by vm_compute].
  - by vm_compute.
  - apply (bool_decide_unpack _). by vm_compute.
  - apply (bool_decide_unpack _). by vm_compute.
  - exists e, buffer'. split; [exact Hc | split; [exact Hp | exact Hb]].
Defined.

Lemma format_description_without_checksum_fails_witness :
  create_event ct_format_description 4 1700000000 1 0 (format_description_post_header sample_fde)
    (format_description_body checksum_off) false [] = Err (invalid_argument "invalid event footer length").
Proof.
  apply format_description_without_checksum_fails.
  - exists sample_version. repeat apply conj; try (apply (bool_decide_unpack _); by vm_compute); by vm_compute.
  - apply (bool_decide_unpack _). by vm_compute.
  - by left.
  - by vm_compute.
Defined.
End EventExamples.
