(* ===== verification/Backend.v ===== *)
(** * Storage backends

    Models basic_storage_backend.{hpp,cpp} and filesystem_storage_backend.{hpp,cpp} of
    src/src/binsrv/.

    An operation that changes an object and may throw is an [action]: exceptions do not
    roll the object back, so an action returns the new state next to its result also
    when it throws.

    The pure virtual functions [do_*] of [basic_storage_backend] are the class
    [StorageBackend]; what the rest of the program relies on is the class
    [StorageBackendLaws].  The filesystem backend discharges it: its state is the
    directory it was given, and every call into the operating system may fail (the
    failures to come are part of the state). *)

From stdpp Require Import gmap.
From S2P Require Import Prelude.

Local Open Scope Z_scope.

(** ** Actions: state and exceptions *)
Definition action (S A : Type) : Type := S → S * result A.

#[export] Instance action_ret {S} : MRet (action S) := λ A a s, (s, Ok a).
#[export] Instance action_bind {S} : MBind (action S) := λ A B f m s,
  match m s with
  | (s, Ok a) => f a s
  | (s, Err e) => (s, Err e)
  end.

Definition throw {S A} (e : error) : action S A := λ s, (s, Err e).
Definition gets {S A} (f : S → A) : action S A := λ s, (s, Ok (f s)).
Definition modify {S} (f : S → S) : action S unit := λ s, (f s, Ok ()).
Definition throw_if {S} (cond : bool) (e : error) : action S unit :=
  if cond then throw e else mret ().
Definition of_result {S A} (r : result A) : action S A := λ s, (s, r).

(** run an action on a member object *)
Definition on_member {S T A} (proj : S → T) (put : T → S → S) (m : action T A) : action S A :=
  λ s, let (t, r) := m (proj s) in (put t s, r).

(** [for] over a container *)
Fixpoint for_each {S A} (f : A → action S unit) (l : list A) : action S unit :=
  match l with
  | [] => mret ()
  | a :: l => _ ← f a; for_each f l
  end.

Lemma action_bind_inv {S A B} (m : action S A) (f : A → action S B) s s' r :
  (m ≫= f) s = (s', r) →
  (∃ e, r = Err e ∧ m s = (s', Err e)) ∨ (∃ s1 a, m s = (s1, Ok a) ∧ f a s1 = (s', r)).
Proof.
  unfold mbind, action_bind. destruct (m s) as [s1 [a|e]]; [right; eauto|left].
  simplify_eq. eauto.
Qed.

(** running an action on a concrete state, whose outcome has a name *)
Lemma action_result {S A} (m : action S A) s s' x : s' = (m s).1 → (m s).2 = x → m s = (s', x).
Proof. destruct (m s). by intros -> <-. Qed.
Ltac run_action :=
  apply action_result; [match goal with |- ?s' = _ => unfold s'; reflexivity end | by vm_compute].

Lemma action_bind_ok {S A B} (m : action S A) (f : A → action S B) s s' b :
  (m ≫= f) s = (s', Ok b) ↔ ∃ s1 a, m s = (s1, Ok a) ∧ f a s1 = (s', Ok b).
Proof.
  unfold mbind, action_bind. destruct (m s) as [s1 [a|e]]; [naive_solver|].
  split; [done | intros (?&?&?&?); simplify_eq].
Qed.

Lemma action_bind_eq {S A B} (m : action S A) (f : A → action S B) s s1 a :
  m s = (s1, Ok a) → (m ≫= f) s = f a s1.
Proof. intros Hm. unfold mbind, action_bind. by rewrite Hm. Qed.
Lemma gets_bind {S A B} (g : S → A) (f : A → action S B) s : (gets g ≫= f) s = f (g s) s.
Proof. done. Qed.
Lemma modify_bind {S B} (g : S → S) (f : unit → action S B) s : (modify g ≫= f) s = f () (g s).
Proof. done. Qed.

Lemma for_each_app {S A} (f : A → action S unit) l1 l2 s :
  for_each f (l1 ++ l2) s = (for_each f l1 ≫= λ _, for_each f l2) s.
Proof.
  revert s. induction l1 as [|a l1 IH]; intros s; [done|]. cbn [for_each app].
  unfold mbind, action_bind in *. destruct (f a s) as [s1 [[]|e]]; [apply IH | done].
Qed.

Lemma throw_if_inv {S} c e (s s' : S) r :
  throw_if c e s = (s', r) → s' = s ∧ (c = true ∧ r = Err e ∨ c = false ∧ r = Ok ()).
Proof. destruct c; intros [= <- <-]; auto. Qed.

(** Split a hypothesis about the run of a chain of actions: one case per step that
    throws, and the case in which none does. *)
Ltac inv_action H :=
  lazymatch type of H with
  | (_ ≫= _) _ = (_, _) =>
      let e := fresh "e" in let s1 := fresh "s" in let a := fresh "a" in
      let Hm := fresh "Hm" in
      apply action_bind_inv in H as [(e & -> & H)|(s1 & a & Hm & H)]; [inv_action H|
        inv_action Hm; inv_action H]
  | throw_if _ _ _ = (_, _) =>
      apply throw_if_inv in H as [? [[? ?]|[? ?]]]; simplify_eq
  | gets _ _ = (_, _) => unfold gets in H; simplify_eq
  | modify _ _ = (_, _) => unfold modify in H; simplify_eq
  | throw _ _ = (_, _) => unfold throw in H; simplify_eq
  | mret _ _ = (_, _) => unfold mret, action_ret in H; simplify_eq
  | _ => idtac
  end.

(** ** [basic_storage_backend] *)
Abbreviation object_name := (list Z).
Abbreviation object_container := (gmap (list Z) Z).

Inductive open_stream_mode := mode_create | mode_append.
#[export] Instance open_stream_mode_eq_dec : EqDecision open_stream_mode.
Proof. solve_decision. Defined.

(** the virtual functions a concrete backend overrides *)
Class StorageBackend (B : Type) := {
  do_list_objects : action B object_container;
  do_get_object : object_name → action B (list Z);
  do_put_object : object_name → list Z → action B unit;
  do_remove_object : object_name → action B unit;
  do_fsync : action B unit;
  do_open_stream : object_name → open_stream_mode → action B Z;
  do_write_data_to_stream : list Z → action B unit;
  do_close_stream : action B unit
}.

Record basic_storage_backend (B : Type) := mk_basic_backend { bb_impl : B; bb_stream_open : bool }.
Arguments mk_basic_backend {B} _ _.
Arguments bb_impl {B} _.
Arguments bb_stream_open {B} _.

Section basic_backend.
Context `{StorageBackend B}.

Definition set_impl (b : B) (bb : basic_storage_backend B) : basic_storage_backend B :=
  mk_basic_backend b (bb_stream_open bb).
Definition set_stream_open (o : bool) (bb : basic_storage_backend B) : basic_storage_backend B :=
  mk_basic_backend (bb_impl bb) o.
Definition virtually {A} : action B A → action (basic_storage_backend B) A :=
  on_member bb_impl set_impl.

Definition list_objects : action (basic_storage_backend B) object_container :=
  virtually do_list_objects.
Definition get_object (n : object_name) : action (basic_storage_backend B) (list Z) :=
  virtually (do_get_object n).
Definition put_object (n : object_name) (content : list Z) : action (basic_storage_backend B) unit :=
  virtually (do_put_object n content).
Definition remove_object (n : object_name) : action (basic_storage_backend B) unit :=
  _ ← virtually (do_remove_object n); virtually do_fsync.

(** the loop of [remove_objects]: every removal is tried, the first failure is kept *)
Fixpoint remove_loop (first_error : option error) (names : list object_name)
    : action (basic_storage_backend B) (option error) :=
  match names with
  | [] => mret first_error
  | n :: names => λ bb,
      match virtually (do_remove_object n) bb with
      | (bb, Ok _) => remove_loop first_error names bb
      | (bb, Err e) => remove_loop (Some (default e first_error)) names bb
      end
  end.

Definition remove_objects (names : list object_name) : action (basic_storage_backend B) unit :=
  first_error ← remove_loop None names;
  _ ← virtually do_fsync;
  match first_error with
  | Some e => throw e
  | None => mret ()
  end.

Definition is_stream_open (bb : basic_storage_backend B) : bool := bb_stream_open bb.

Definition open_stream (n : object_name) (mode : open_stream_mode)
    : action (basic_storage_backend B) Z :=
  is_open ← gets is_stream_open;
  _ ← throw_if is_open
        (logic_error "cannot open a new stream as the previous one has not been closed");
  offset ← virtually (do_open_stream n mode);
  _ ← modify (set_stream_open true);
  mret offset.

Definition write_data_to_stream (data : list Z) : action (basic_storage_backend B) unit :=
  is_open ← gets is_stream_open;
  _ ← throw_if (negb is_open)
        (logic_error "cannot write to the stream as it has not been opened");
  virtually (do_write_data_to_stream data).

Definition close_stream : action (basic_storage_backend B) unit :=
  is_open ← gets is_stream_open;
  _ ← throw_if (negb is_open)
        (logic_error "cannot close the stream as it has not been opened");
  _ ← virtually do_close_stream;
  modify (set_stream_open false).
End basic_backend.

(** ** What a backend promises

    [objects] is what the process sees: the objects, where the one the open stream appends
    to ([stream]) has all that was written to the stream.  [durable] is what a listing shows
    and what a new process would find.  [intact] says that no operation on the open stream has
    failed, [reliable] that no operation is going to fail for a reason of its own. *)
Definition rindex (c : Z) (l : list Z) : option nat :=
  (λ i, (length l - 1 - i)%nat) <$> (list_find (λ x, x = c) (reverse l) ≫= λ p, Some p.1).

(** [std::filesystem::path::extension] of a file name *)
Definition path_extension (n : object_name) : list Z :=
  match rindex 46 n with
  | Some (S i) => drop (S i) n
  | _ => []
  end.

Definition tmp_object_suffix : list Z := text ".tmp".
Definition max_memory_object_size : Z := 1048576.
(** a plain file name that is not one of a temporary file *)
Definition name_ok (n : object_name) : Prop :=
  n ≠ [] ∧ path_extension n ≠ tmp_object_suffix ∧ 47 ∉ n.
Definition old_content (mode : open_stream_mode) (o : option (list Z)) : list Z :=
  match mode with mode_create => [] | mode_append => default [] o end.

(** the open stream, if there is one, does not write to the object [n] *)
Definition stream_apart (n : object_name) (o : option object_name) : Prop :=
  ∀ s, o = Some s → name_ok s ∧ s ≠ n.

Class BackendView (B : Type) := {
  objects : B → gmap (list Z) (list Z);
  durable : B → gmap (list Z) (list Z);
  stream : B → option object_name;
  intact : B → Prop;
  reliable : B → Prop
}.

Definition sizes (O : gmap (list Z) (list Z)) : object_container := (λ c, Z.of_nat (length c)) <$> O.

Lemma sizes_empty : sizes ∅ = ∅.
Proof. apply fmap_empty. Qed.

(** what an operation that only reads leaves alone *)
Definition undisturbed `{BackendView B} (b b' : B) : Prop :=
  objects b' = objects b ∧ durable b' = durable b ∧ stream b' = stream b ∧ (intact b → intact b').
(** an operation that applies [f] to the objects, or fails and may have applied it or not *)
Definition updates `{BackendView B} (f : gmap (list Z) (list Z) → gmap (list Z) (list Z))
    (b b' : B) (ok : bool) : Prop :=
  stream b' = stream b ∧ (intact b → intact b') ∧
  (objects b' = f (objects b) ∧ durable b' = f (durable b) ∨
   objects b' = objects b ∧ durable b' = durable b ∧ ok = false).
(** every byte the stream accepted is in its object *)
Definition settled `{BackendView B} (b : B) : Prop := intact b ∧ durable b = objects b.

Class StorageBackendLaws (B : Type) `{StorageBackend B} `{BackendView B} := {
  closed_law b : stream b = None → objects b = durable b;
  list_law b b' r : do_list_objects b = (b', r) →
    undisturbed b b' ∧ (∀ m, r = Ok m → m = sizes (durable b));
  get_law n b b' r : do_get_object n b = (b', r) → name_ok n →
    undisturbed b b' ∧ (∀ c, r = Ok c → durable b !! n = Some c);
  put_law n c b b' r : do_put_object n c b = (b', r) → name_ok n → stream_apart n (stream b) →
    updates <[n := c]> b b' (is_ok r);
  remove_law n b b' r : do_remove_object n b = (b', r) → name_ok n → stream_apart n (stream b) →
    updates (delete n) b b' (is_ok r);
  fsync_law b b' r : do_fsync b = (b', r) → undisturbed b b';
  open_law n mode b b' r : do_open_stream n mode b = (b', r) → name_ok n → stream b = None →
    match r with
    | Ok offset =>
        let c := old_content mode (objects b !! n) in
        objects b' = <[n := c]> (objects b) ∧ (durable b' = durable b ∨ durable b' = objects b') ∧
        stream b' = Some n ∧ intact b' ∧ offset = Z.of_nat (length c)
    | Err _ => objects b' = objects b ∧ durable b' = durable b ∧ stream b' = None
    end;
  write_law data b b' r n c : do_write_data_to_stream data b = (b', r) → name_ok n →
    stream b = Some n → objects b !! n = Some c → intact b →
    stream b' = Some n ∧
    ∃ d, d `prefix_of` data ∧ objects b' = <[n := c ++ d]> (objects b) ∧
      (durable b' = durable b ∨ durable b' = objects b') ∧ (r = Ok () → d = data ∧ settled b');
  close_law b b' r : do_close_stream b = (b', r) → stream b ≠ None →
    r = Ok () ∧ objects b' = durable b ∧ durable b' = durable b ∧ stream b' = None;

  list_reliable b : reliable b →
    ∃ b', do_list_objects b = (b', Ok (sizes (durable b))) ∧ reliable b';
  get_reliable n c b : reliable b → name_ok n → durable b !! n = Some c →
    Z.of_nat (length c) ≤ max_memory_object_size →
    ∃ b', do_get_object n b = (b', Ok c) ∧ reliable b'
}.

Lemma settled_undisturbed `{BackendView B} (b b' : B) : undisturbed b b' → settled b → settled b'.
Proof. intros (Ho & Hd & _ & Hi) [? ?]. split; [by apply Hi | congruence]. Qed.
Lemma settled_updates `{BackendView B} f (b b' : B) ok : updates f b b' ok → settled b → settled b'.
Proof.
  intros (_ & Hi & Hu) [? Heq]. split; [by apply Hi|].
  destruct Hu as [[-> ->]|(-> & -> & _)]; by rewrite Heq.
Qed.

(** ** [filesystem_storage_backend]

    [fs_dir] holds the regular files of [root_path_], [fs_irregular] tells whether it has
    an entry of another kind.  [fs_ofs] is the member [ofs_] while it is open: the file it
    writes to ([None] once the file has been unlinked or replaced) and whether no write
    has failed yet (a failed write leaves the stream in a bad state).  Each call into the
    operating system takes the next item of [fs_faults]: [Some k] makes it fail, a write
    after [k] bytes; an empty list stands for a system without failures. *)
Record output_stream := mk_ofs { ofs_target : option object_name; ofs_good : bool }.

Record filesystem_backend := mk_filesystem {
  fs_dir : gmap (list Z) (list Z);
  fs_irregular : bool;
  fs_ofs : option output_stream;
  fs_faults : list (option nat)
}.

Definition set_dir (d : gmap (list Z) (list Z)) (b : filesystem_backend) : filesystem_backend :=
  mk_filesystem d (fs_irregular b) (fs_ofs b) (fs_faults b).
Definition set_ofs (o : option output_stream) (b : filesystem_backend) : filesystem_backend :=
  mk_filesystem (fs_dir b) (fs_irregular b) o (fs_faults b).
Definition update_file (n : object_name) (c : list Z) (b : filesystem_backend) : filesystem_backend :=
  set_dir (<[n := c]> (fs_dir b)) b.

Definition os_call : action filesystem_backend (option nat) := λ b,
  (mk_filesystem (fs_dir b) (fs_irregular b) (fs_ofs b) (tail (fs_faults b)),
   Ok (mjoin (head (fs_faults b)))).
Definition failed (fault : option nat) : bool :=
  match fault with Some _ => true | None => false end.
Definition sys (e : error) : action filesystem_backend unit :=
  fault ← os_call; throw_if (failed fault) e.

Definition fs_list_objects : action filesystem_backend object_container :=
  _ ← sys (runtime_error "directory iterator");
  irregular ← gets fs_irregular;
  _ ← throw_if irregular (logic_error
        "filesystem storage directory contains an entry that is not a regular file");
  dir ← gets fs_dir;
  mret ((λ c, Z.of_nat (length c)) <$>
        filter (λ p, path_extension p.1 ≠ tmp_object_suffix) dir).

Definition fs_get_object (n : object_name) : action filesystem_backend (list Z) :=
  _ ← sys (runtime_error "cannot open underlying object file");
  dir ← gets fs_dir;
  match dir !! n with
  | None => throw (runtime_error "cannot open underlying object file")
  | Some content =>
      _ ← sys (runtime_error "cannot seek underlying object file to the end");
      _ ← sys (runtime_error "cannot seek underlying object file to the beginning");
      _ ← throw_if (max_memory_object_size <? Z.of_nat (length content)) out_of_range;
      _ ← sys (runtime_error "cannot read underlying object file content");
      mret content
  end.

(** [util::fsync]: open the path, then flush it *)
Definition native_fsync : action filesystem_backend unit :=
  _ ← sys (runtime_error "cannot open path for fsync"); sys (runtime_error "cannot fsync path").

(** [rename(2)] within the directory: the open stream follows the file it writes to *)
Definition retarget (o n : object_name) (s : output_stream) : output_stream :=
  mk_ofs (match ofs_target s with
          | Some t => if decide (t = o) then Some n else if decide (t = n) then None else Some t
          | None => None
          end) (ofs_good s).
Definition rename_file (o n : object_name) (b : filesystem_backend) : filesystem_backend :=
  match fs_dir b !! o with
  | Some c => set_ofs (retarget o n <$> fs_ofs b) (set_dir (<[n := c]> (delete o (fs_dir b))) b)
  | None => b
  end.

Definition fs_put_object (n : object_name) (content : list Z) : action filesystem_backend unit :=
  let tmp := n ++ tmp_object_suffix in
  _ ← sys (runtime_error "cannot open underlying tmp object file for writing");
  _ ← modify (update_file tmp []);
  fault ← os_call;
  _ ← modify (update_file tmp (match fault with Some k => take k content | None => content end));
  _ ← throw_if (failed fault)
        (runtime_error "cannot write data to underlying tmp object file");
  _ ← sys (runtime_error "cannot close underlying tmp object file");
  _ ← native_fsync;
  _ ← sys (runtime_error "cannot rename underlying tmp object file");
  _ ← modify (rename_file tmp n);
  native_fsync.

Definition unlink_file (n : object_name) (b : filesystem_backend) : filesystem_backend :=
  set_ofs ((λ s, mk_ofs (if decide (ofs_target s = Some n) then None else ofs_target s) (ofs_good s))
             <$> fs_ofs b)
          (set_dir (delete n (fs_dir b)) b).

Definition fs_remove_object (n : object_name) : action filesystem_backend unit :=
  _ ← sys (runtime_error "cannot remove underlying object file");
  dir ← gets fs_dir;
  _ ← throw_if (bool_decide (dir !! n = None))
        (runtime_error "cannot remove underlying object file: file does not exist");
  modify (unlink_file n).

Definition fs_open_stream (n : object_name) (mode : open_stream_mode)
    : action filesystem_backend Z :=
  ofs ← gets fs_ofs;
  _ ← throw_if (bool_decide (is_Some ofs)) (undefined_behaviour "ofs_ is open");
  _ ← sys (runtime_error "cannot open underlying file for the stream");
  dir ← gets fs_dir;
  let content := old_content mode (dir !! n) in
  _ ← modify (update_file n content);
  _ ← modify (set_ofs (Some (mk_ofs (Some n) true)));
  mret (Z.of_nat (length content)).

(** append [data] to the file the stream writes to *)
Definition append_to (target : option object_name) (data : list Z) (b : filesystem_backend)
    : filesystem_backend :=
  match target with
  | Some n => update_file n (default [] (fs_dir b !! n) ++ data) b
  | None => b
  end.

Definition fs_write_data_to_stream (data : list Z) : action filesystem_backend unit :=
  ofs ← gets fs_ofs;
  match ofs with
  | None => throw (undefined_behaviour "ofs_ is not open")
  | Some s =>
      let spoil := set_ofs (Some (mk_ofs (ofs_target s) false)) in
      _ ← throw_if (negb (ofs_good s))
            (runtime_error "cannot write data to the underlying stream file");
      fault ← os_call;
      match fault with
      | Some k =>
          _ ← modify (append_to (ofs_target s) (take k data));
          _ ← modify spoil;
          throw (runtime_error "cannot write data to the underlying stream file")
      | None =>
          _ ← modify (append_to (ofs_target s) data);
          fault ← os_call;
          if failed fault
          then _ ← modify spoil; throw (runtime_error "cannot flush the underlying stream file")
          else mret ()
      end
  end.

Definition fs_close_stream : action filesystem_backend unit :=
  ofs ← gets fs_ofs;
  match ofs with
  | None => throw (undefined_behaviour "ofs_ is not open")
  | Some _ => _ ← os_call; modify (set_ofs None)
  end.

#[export] Instance filesystem_storage_backend : StorageBackend filesystem_backend := {
  do_list_objects := fs_list_objects;
  do_get_object := fs_get_object;
  do_put_object := fs_put_object;
  do_remove_object := fs_remove_object;
  do_fsync := native_fsync;
  do_open_stream := fs_open_stream;
  do_write_data_to_stream := fs_write_data_to_stream;
  do_close_stream := fs_close_stream
}.

(** ** The filesystem backend keeps the promises *)
Definition visible (dir : gmap (list Z) (list Z)) : gmap (list Z) (list Z) :=
  filter (λ p, path_extension p.1 ≠ tmp_object_suffix) dir.

Lemma rindex_app c l e : c ∉ e → rindex c (l ++ c :: e) = Some (length l).
Proof.
  intros He. unfold rindex. rewrite reverse_app, reverse_cons, <-app_assoc.
  assert (list_find (λ x, x = c) (reverse e ++ [c] ++ reverse l) = Some (length e, c)) as ->.
  { apply list_find_Some. rewrite lookup_app_r, length_reverse, Nat.sub_diag by (by rewrite length_reverse).
    split; [done|]. split; [done|]. intros j y Hj Hlt.
    rewrite lookup_app_l in Hj by (by rewrite length_reverse).
    apply list_elem_of_lookup_2 in Hj. rewrite elem_of_reverse in Hj. intros ->. done. }
  cbn. rewrite length_app. cbn [length]. f_equal. lia.
Qed.

Lemma path_extension_app n e :
  n ≠ [] → 46 ∉ e → path_extension (n ++ 46 :: e) = 46 :: e.
Proof.
  intros Hn He. unfold path_extension. rewrite rindex_app by done.
  destruct n as [|z n]; [done|]. cbn [length app]. change (z :: n ++ 46 :: e) with ((z :: n) ++ 46 :: e).
  apply (drop_app_length (z :: n)).
Qed.

Lemma path_extension_tmp n : n ≠ [] → path_extension (n ++ tmp_object_suffix) = tmp_object_suffix.
Proof.
  intros. apply path_extension_app; [done|]. apply (bool_decide_unpack _). by vm_compute.
Qed.

Lemma visible_update n c dir : name_ok n → visible (<[n := c]> dir) = <[n := c]> (visible dir).
Proof. intros (_ & ? & _). by apply map_filter_insert_True. Qed.
Lemma visible_update_tmp n c dir :
  n ≠ [] → visible (<[n ++ tmp_object_suffix := c]> dir) = visible dir.
Proof.
  intros. apply map_filter_insert_not'; cbn; [|intros y _];
    rewrite path_extension_tmp by done; tauto.
Qed.
Lemma visible_delete n dir : visible (delete n dir) = delete n (visible dir).
Proof. apply map_filter_delete. Qed.
Lemma visible_delete_tmp n dir :
  n ≠ [] → visible (delete (n ++ tmp_object_suffix) dir) = visible dir.
Proof.
  intros. apply map_filter_delete_not. intros y _. cbn.
  rewrite path_extension_tmp by done. tauto.
Qed.
Lemma visible_lookup n dir : name_ok n → visible dir !! n = dir !! n.
Proof.
  intros (_ & ? & _). unfold visible. rewrite map_lookup_filter. destruct (dir !! n); cbn; [|done].
  rewrite option_guard_True; done.
Qed.
Lemma visible_name_ok n c dir : visible dir !! n = Some c → path_extension n ≠ tmp_object_suffix.
Proof. by intros [_ ?]%map_lookup_filter_Some. Qed.

(** what a call into the operating system leaves alone *)
Definition same_files (b b' : filesystem_backend) : Prop :=
  fs_dir b' = fs_dir b ∧ fs_ofs b' = fs_ofs b.
Lemma os_call_inv b b' r : os_call b = (b', r) → same_files b b'.
Proof. by intros [= <- <-]. Qed.
Lemma sys_inv e b b' r : sys e b = (b', r) → same_files b b' ∧ (r = Ok () ∨ r = Err e).
Proof.
  unfold sys, mbind, action_bind, os_call, throw_if, throw. cbn.
  destruct (failed _); intros [= <- <-]; (split; [done|by auto]).
Qed.
Lemma native_fsync_inv b b' r : native_fsync b = (b', r) → same_files b b'.
Proof.
  intros H. unfold native_fsync in H. inv_action H.
  - by apply sys_inv in H as [? _].
  - apply sys_inv in Hm as [[? ?] _], H as [[? ?] _]. unfold same_files. split; congruence.
Qed.
Lemma sys_quiet e b : fs_faults b = [] → sys e b = (b, Ok ()).
Proof. destruct b; cbn. by intros ->. Qed.

Ltac fs_inv H :=
  inv_action H;
  repeat match goal with
  | H : sys _ _ = _ |- _ => apply sys_inv in H as [[? ?] ?]
  | H : os_call _ = _ |- _ => apply os_call_inv in H as [? ?]
  | H : native_fsync _ = _ |- _ => apply native_fsync_inv in H as [? ?]
  end.

Lemma fs_list_law b b' r : fs_list_objects b = (b', r) →
  same_files b b' ∧ (∀ m, r = Ok m → m = (λ c, Z.of_nat (length c)) <$> visible (fs_dir b)).
Proof.
  intros H. unfold fs_list_objects in H. unfold same_files.
  fs_inv H; (split; [done|]); intros m Hm; simplify_eq; try by destruct_or!.
  by match goal with E : fs_dir _ = fs_dir b |- _ => rewrite <-E end.
Qed.

Lemma fs_get_law n b b' r : fs_get_object n b = (b', r) →
  same_files b b' ∧ (∀ c, r = Ok c → fs_dir b !! n = Some c).
Proof.
  intros H. unfold fs_get_object in H. unfold same_files.
  fs_inv H; [split; [done|]; intros c Hc; destruct_or!; simplify_eq|].
  destruct (_ !! n) as [c|] eqn:E in H; fs_inv H;
    (split; [split; congruence|]); intros c' Hc; simplify_eq; try (by destruct_or!); congruence.
Qed.

Lemma rename_file_spec o n c b :
  fs_dir b !! o = Some c →
  (fs_ofs b ≫= ofs_target) ≠ Some o → (fs_ofs b ≫= ofs_target) ≠ Some n →
  fs_dir (rename_file o n b) = <[n := c]> (delete o (fs_dir b)) ∧
  (fs_ofs (rename_file o n b) ≫= ofs_target) = (fs_ofs b ≫= ofs_target).
Proof.
  intros Ho Hs1 Hs2. unfold rename_file. rewrite Ho. split; [done|].
  cbn. destruct (fs_ofs b) as [[[t|] g]|]; cbn in *; [|done..].
  by rewrite !decide_False by congruence.
Qed.

(** Follow the directory and the stream through a sequence of system calls. *)
Ltac fs_track :=
  cbn [fs_dir fs_ofs update_file set_dir set_ofs] in *;
  repeat match goal with
  | E : fs_dir ?x = _ |- context [fs_dir ?x] => rewrite E
  | E : fs_ofs ?x = _ |- context [fs_ofs ?x] => rewrite E
  end.

Lemma fs_put_law n c b b' r : fs_put_object n c b = (b', r) →
  name_ok n → stream_apart n (fs_ofs b ≫= ofs_target) →
  (fs_ofs b' ≫= ofs_target) = (fs_ofs b ≫= ofs_target) ∧
  (visible (fs_dir b') = <[n := c]> (visible (fs_dir b)) ∨
   visible (fs_dir b') = visible (fs_dir b) ∧ is_ok r = false).
Proof.
  intros H Hn Hs. pose proof Hn as [Hne _]. unfold fs_put_object in H.
  assert ((fs_ofs b ≫= ofs_target) ≠ Some n) by (by intros [_ ?]%Hs).
  assert ((fs_ofs b ≫= ofs_target) ≠ Some (n ++ tmp_object_suffix)).
  { intros [(_ & Hx & _) _]%Hs. by apply Hx, path_extension_tmp. }
  fs_inv H; fs_track;
    try (split; [done | right; split; [by rewrite ?visible_update_tmp by done | done]]).
  match goal with F : failed ?a = false |- _ => destruct a; [done|] end.
  match goal with |- context [rename_file _ _ ?x] =>
    destruct (rename_file_spec (n ++ tmp_object_suffix) n c x) as [Hd Ho];
      [by fs_track; rewrite lookup_insert_eq | by fs_track | by fs_track |] end.
  rewrite Ho, Hd. fs_track. split; [done|left].
  rewrite visible_update, visible_delete_tmp, !visible_update_tmp by done. done.
Qed.

Lemma fs_remove_law n b b' r : fs_remove_object n b = (b', r) →
  stream_apart n (fs_ofs b ≫= ofs_target) →
  (fs_ofs b' ≫= ofs_target) = (fs_ofs b ≫= ofs_target) ∧
  visible (fs_dir b') = if is_ok r then delete n (visible (fs_dir b)) else visible (fs_dir b).
Proof.
  intros H Hs. unfold fs_remove_object in H.
  assert ((fs_ofs b ≫= ofs_target) ≠ Some n) by (by intros [_ ?]%Hs).
  fs_inv H; fs_track; try (split; [done|]); try done.
  unfold unlink_file. fs_track. rewrite visible_delete. split; [|done].
  destruct (fs_ofs b) as [[t g]|]; cbn in *; [by rewrite decide_False|done].
Qed.

Lemma fs_open_law n mode b b' r : fs_open_stream n mode b = (b', r) → name_ok n →
  (fs_ofs b ≫= ofs_target) = None →
  match r with
  | Ok offset =>
      let c := old_content mode (visible (fs_dir b) !! n) in
      visible (fs_dir b') = <[n := c]> (visible (fs_dir b)) ∧
      (fs_ofs b' ≫= ofs_target) = Some n ∧ offset = Z.of_nat (length c)
  | Err _ => visible (fs_dir b') = visible (fs_dir b) ∧ (fs_ofs b' ≫= ofs_target) = None
  end.
Proof.
  intros H Hn Hs. unfold fs_open_stream in H. fs_inv H; fs_track; try done.
  cbv zeta. by rewrite visible_update, visible_lookup by done.
Qed.

Lemma fs_write_law data b b' r n c : fs_write_data_to_stream data b = (b', r) →
  (fs_ofs b ≫= ofs_target) = Some n → visible (fs_dir b) !! n = Some c →
  (fs_ofs b' ≫= ofs_target) = Some n ∧
  ∃ d, d `prefix_of` data ∧ visible (fs_dir b') = <[n := c ++ d]> (visible (fs_dir b)) ∧
       (r = Ok () → d = data).
Proof.
  intros H Hs Hc. pose proof (visible_name_ok _ _ _ Hc) as Hx.
  assert (∀ d, visible (<[n := c ++ d]> (fs_dir b)) = <[n := c ++ d]> (visible (fs_dir b))) as Hv.
  { intros. by apply map_filter_insert_True. }
  assert (fs_dir b !! n = Some c) as Hd by (by apply map_lookup_filter_Some in Hc as [? _]).
  destruct b as [dir irregular [[t g]|] faults]; [|done]. cbn in Hs, Hc, Hd, Hv |- *. subst t.
  assert (∀ k, take k data `prefix_of` data) as Hk by (intros k; eexists; symmetry; apply take_drop).
  unfold fs_write_data_to_stream, mbind, action_bind in H. destruct g; cbn in H.
  2: { unfold throw in H. simplify_eq. split; [done|]. exists []. cbn [fs_dir].
       rewrite app_nil_r, insert_id by done. split; [apply prefix_nil|]. done. }
  destruct faults as [|[k|] [|[k2|] faults]]; cbn in H; rewrite Hd in H;
    unfold throw, mret, action_ret in H; cbn in H; simplify_eq;
    (split; [done|]); cbn [fs_dir update_file set_dir];
    first [exists (take k data); split; [apply Hk|] | exists data; split; [done|]];
    (split; [apply Hv | done]).
Qed.

Lemma fs_close_law b b' r : fs_close_stream b = (b', r) → (fs_ofs b ≫= ofs_target) ≠ None →
  r = Ok () ∧ visible (fs_dir b') = visible (fs_dir b) ∧ (fs_ofs b' ≫= ofs_target) = None.
Proof.
  intros H Hs. destruct b as [dir irregular [s|] faults]; [|done].
  unfold fs_close_stream, mbind, action_bind, gets, os_call, modify in H. cbn in H.
  by injection H as <- <-.
Qed.

#[export] Instance filesystem_view : BackendView filesystem_backend := {
  objects b := visible (fs_dir b);
  durable b := visible (fs_dir b);
  stream b := fs_ofs b ≫= ofs_target;
  intact b := True;
  reliable b := fs_faults b = [] ∧ fs_irregular b = false
}.

Lemma filesystem_settled (b : filesystem_backend) : settled b.
Proof. done. Qed.
Lemma same_files_undisturbed b b' : same_files b b' → undisturbed b b'.
Proof. unfold undisturbed. cbn. by intros [-> ->]. Qed.

#[export, refine] Instance filesystem_laws : StorageBackendLaws filesystem_backend := {
  closed_law := _; list_law := _; get_law := _; put_law := _; remove_law := _; fsync_law := _;
  open_law := _; write_law := _; close_law := _; list_reliable := _; get_reliable := _
}.
Proof.
  - done.
  - intros b b' r [? ?]%fs_list_law. split; [by apply same_files_undisturbed | done].
  - intros n b b' r [? ?]%fs_get_law Hn. split; [by apply same_files_undisturbed|].
    cbn. rewrite visible_lookup; auto.
  - intros n c b b' r H ? ?. destruct (fs_put_law n c b b' r H) as [? Hd]; [done..|].
    split; [done|]. split; [done|]. cbn. destruct Hd as [-> |[-> ?]]; [by left | by right].
  - intros n b b' r H ? ?. destruct (fs_remove_law n b b' r H) as [? Hd]; [done|].
    split; [done|]. split; [done|]. cbn. rewrite Hd. destruct r; [by left | by right].
  - intros b b' r H. by apply same_files_undisturbed, (native_fsync_inv _ _ r).
  - intros n mode b b' r H ? ?. pose proof (fs_open_law n mode b b' r H) as Hl. cbn in *.
    destruct r; cbv zeta in *; [destruct Hl as (? & ? & ?); [done..|] | destruct Hl; [done..|]]; auto.
  - intros data b b' r n c H _ ? Hc _.
    destruct (fs_write_law data b b' r n c H) as (? & d & ? & ? & Hd); [done..|].
    split; [done|]. exists d. cbn. split_and!; [done|done|by right|]. intros Hr. split; [by apply Hd | done].
  - intros b b' r H ?. by destruct (fs_close_law b b' r H) as (? & ? & ?).
  - intros [dir irregular ofs faults] [Hf Hi]. cbn in *. subst.
    eexists (mk_filesystem _ _ _ _). split; [reflexivity|]. done.
  - intros n c [dir irregular ofs faults] [Hf Hi] Hn Hc Hl. cbn in *. subst.
    rewrite visible_lookup in Hc by done. eexists. split; [|shelve].
    unfold fs_get_object, sys, mbind, action_bind, os_call, gets, throw_if. cbn. rewrite Hc. cbn.
    destruct (Z.ltb_spec max_memory_object_size (Z.of_nat (length c))); [lia|]. done.
    Unshelve. done.
Defined.

(** ** [basic_storage_backend] over any backend that keeps the promises *)
Section basic_laws.
Context `{StorageBackendLaws B}.
Implicit Types bb : basic_storage_backend B.

Abbreviation objects_of bb := (objects (bb_impl bb)).
Abbreviation stream_of bb := (stream (bb_impl bb)).

Lemma virtually_inv {A} (m : action B A) bb bb' r :
  virtually m bb = (bb', r) →
  m (bb_impl bb) = (bb_impl bb', r) ∧ bb_stream_open bb' = bb_stream_open bb.
Proof.
  unfold virtually, on_member. destruct (m (bb_impl bb)) as [b r0] eqn:E.
  intros [= <- <-]. by destruct bb.
Qed.

Lemma remove_loop_inv names first bb bb' r :
  remove_loop first names bb = (bb', r) →
  Forall (λ n, name_ok n ∧ stream_apart n (stream_of bb)) names →
  bb_stream_open bb' = bb_stream_open bb ∧ stream_of bb' = stream_of bb ∧
  (settled (bb_impl bb) → settled (bb_impl bb')) ∧
  objects_of bb' ⊆ objects_of bb ∧
  (∀ k, k ∉ names → objects_of bb' !! k = objects_of bb !! k) ∧
  ∃ o, r = Ok o ∧ (is_Some first → is_Some o) ∧
       (o = None → ∀ k, k ∈ names → objects_of bb' !! k = None).
Proof.
  revert first bb. induction names as [|n names IH]; intros first bb Hr Hn.
  { injection Hr as <- <-. do 5 (split; [done|]). exists first.
    split; [done|]. split; [done|]. by intros _ k ?%not_elem_of_nil. }
  inversion Hn as [|?? [Hok Hap] Hn']; subst. cbn in Hr.
  destruct (virtually (do_remove_object n) bb) as [b1 r1] eqn:E.
  apply virtually_inv in E as [E Hopen].
  pose proof (remove_law _ _ _ _ E Hok Hap) as Hu. pose proof Hu as (Hst & _ & Hobj).
  assert (∃ first', remove_loop first' names b1 = (bb', r) ∧ (is_Some first → is_Some first') ∧
            (first' = None → is_ok r1 = true)) as (first' & Hr' & Hf & Hr1).
  { destruct r1 as [[]|e]; [by exists first|]. by exists (Some (default e first)). }
  destruct (IH first' b1 Hr') as (Ho & Hs & Hset & Hsub & Hkeep & o & -> & Hfo & Hdel).
  { eapply Forall_impl; [done|]. cbn. by rewrite Hst. }
  assert (objects_of b1 ⊆ objects_of bb) as Hsub1.
  { destruct Hobj as [[-> _]|[-> _]]; [apply delete_subseteq | done]. }
  split; [congruence|]. split; [congruence|].
  split; [by intros ?; eapply Hset, settled_updates|]. split; [by transitivity (objects_of b1)|]. split.
  - intros k [Hne Hk]%not_elem_of_cons. rewrite Hkeep by done.
    destruct Hobj as [[-> _]|[-> _]]; [by rewrite lookup_delete_ne | done].
  - exists o. split; [done|]. split; [by auto|]. intros -> k Hk.
    destruct (decide (k ∈ names)) as [?|Hn0]; [by apply Hdel|].
    rewrite Hkeep by done. apply elem_of_cons in Hk as [->|]; [|done].
    destruct Hobj as [[-> _]|(_ & _ & Hx)]; [apply lookup_delete_eq|].
    rewrite Hr1 in Hx; [done|]. destruct first' as [x|]; [|done]. destruct Hfo as [? ?]; by eauto.
Qed.

Lemma remove_objects_inv names bb bb' r :
  remove_objects names bb = (bb', r) →
  Forall (λ n, name_ok n ∧ stream_apart n (stream_of bb)) names →
  bb_stream_open bb' = bb_stream_open bb ∧ objects_of bb' ⊆ objects_of bb ∧ stream_of bb' = stream_of bb ∧
  (settled (bb_impl bb) → settled (bb_impl bb')) ∧
  (∀ k, k ∉ names → objects_of bb' !! k = objects_of bb !! k) ∧
  (r = Ok () → ∀ k, k ∈ names → objects_of bb' !! k = None).
Proof.
  intros Hr Hn. unfold remove_objects in Hr.
  destruct (remove_loop None names bb) as [b1 r1] eqn:E.
  destruct (remove_loop_inv _ _ _ _ _ E Hn) as (Hopen & Hst & Hset & Hsub & Hkeep & o & -> & _ & Hdel).
  unfold mbind at 1, action_bind at 1 in Hr. rewrite E in Hr.
  destruct (virtually do_fsync b1) as [b2 r2] eqn:Ef.
  unfold mbind, action_bind in Hr. rewrite Ef in Hr.
  apply virtually_inv in Ef as [Hu%fsync_law Hopen']. pose proof Hu as (Ho & _ & Hs & _).
  assert (bb' = b2 ∧ (r = Ok () → o = None)) as [-> Hr'].
  { destruct r2; [destruct o|]; by injection Hr as <- <-. }
  rewrite Ho, Hs. split_and!; [congruence|done|done| |done|].
  - intros ?. by eapply settled_undisturbed, Hset.
  - intros Hok. by apply Hdel, Hr'.
Qed.
(** [remove_objects] is a best effort: names that are not in the batch keep their
    objects whatever happens, no object is created or changed, the durability barrier
    never undoes a removal, and when the call succeeds every object of the batch is gone. *)
Theorem remove_objects_best_effort names bb bb' r :
  remove_objects names bb = (bb', r) →
  Forall (λ n, name_ok n ∧ stream_apart n (stream_of bb)) names →
  objects_of bb' ⊆ objects_of bb ∧ stream_of bb' = stream_of bb ∧
  (∀ k, k ∉ names → objects_of bb' !! k = objects_of bb !! k) ∧
  (r = Ok () → ∀ k, k ∈ names → objects_of bb' !! k = None).
Proof. intros Hr Hn. destruct (remove_objects_inv _ _ _ _ Hr Hn) as (_ & ? & ? & _ & ?). done. Qed.
End basic_laws.

Section filesystem_theorems.
Implicit Types b : filesystem_backend.

(** C38: [do_put_object] of the filesystem backend is an atomic overwrite: at whatever
    system call it fails, the object is afterwards either complete with the new content
    or exactly as it was, every other object is untouched, and the temporary file never
    shows up in a listing. *)
Theorem filesystem_put_atomic n c b b' r :
  name_ok n → stream_apart n (fs_ofs b ≫= ofs_target) →
  fs_put_object n c b = (b', r) →
  (visible (fs_dir b') !! n = Some c ∨
   visible (fs_dir b') !! n = visible (fs_dir b) !! n ∧ is_ok r = false) ∧
  (∀ k, k ≠ n → visible (fs_dir b') !! k = visible (fs_dir b) !! k) ∧
  (∀ k c', visible (fs_dir b') !! k = Some c' → path_extension k ≠ tmp_object_suffix).
Proof.
  intros Hn Hs H. destruct (fs_put_law _ _ _ _ _ H Hn Hs) as [_ Hd].
  split; [destruct Hd as [->|[-> ?]]; [left; apply lookup_insert_eq | auto]|]. split.
  - intros k Hk. destruct Hd as [->|[-> _]]; [by apply lookup_insert_ne | done].
  - intros k c'. apply visible_name_ok.
Qed.

Lemma put_then_lookup n c b :
  name_ok n → fs_ofs b = None → fs_faults b = [] →
  ∃ b', fs_put_object n c b = (b', Ok ()) ∧ fs_dir b' !! n = Some c ∧ fs_faults b' = [].
Proof.
  intros Hn Ho Hf. destruct b as [dir irregular ofs faults]. cbn in *. subst.
  unfold fs_put_object, native_fsync, sys, mbind, action_bind, os_call, modify, throw_if. cbn.
  unfold rename_file. cbn. rewrite lookup_insert_eq. eexists. split; [reflexivity|].
  split; [apply lookup_insert_eq | done].
Qed.

(** the backend stores objects it cannot load: with no system failure at all, putting a
    content of more than 1 MiB succeeds, and getting the same object back throws
    [std::out_of_range]. *)
Theorem oversized_object_unreadable n c b :
  name_ok n → fs_ofs b = None → fs_faults b = [] →
  max_memory_object_size < Z.of_nat (length c) →
  ∃ b', fs_put_object n c b = (b', Ok ()) ∧ snd (fs_get_object n b') = Err out_of_range.
Proof.
  intros Hn Ho Hf Hc. destruct (put_then_lookup n c b Hn Ho Hf) as (b' & Hput & Hd & Hf').
  exists b'. split; [done|]. destruct b' as [dir irregular ofs faults]. cbn in Hd, Hf'. subst.
  unfold fs_get_object, sys, mbind, action_bind, os_call, gets, throw_if. cbn. rewrite Hd. cbn.
  destruct (Z.ltb_spec max_memory_object_size (Z.of_nat (length c))); [done|lia].
Qed.
End filesystem_theorems.

Module BackendExamples.
Definition blank : filesystem_backend := mk_filesystem ∅ false None [].
Definition failing : filesystem_backend :=
  mk_filesystem {[ text "a" := [1] ]} false (Some (mk_ofs (Some (text "b")) true)) [None; Some 1%nat].

Lemma filesystem_put_atomic_witness :
  visible (fs_dir (fs_put_object (text "a") [7; 8] failing).1) !! text "a" = Some [1].
Proof.
  destruct (fs_put_object (text "a") [7; 8] failing) as [b' r] eqn:E.
  destruct (filesystem_put_atomic (text "a") [7; 8] failing b' r) as [[H|[H _]] _].
  - split; apply (bool_decide_unpack _); by vm_compute.
  - intros s Hs. vm_compute in Hs. injection Hs as <-. split; [split|]; apply (bool_decide_unpack _); by vm_compute.
  - done.
  - exfalso. vm_compute in E. injection E as <- <-. vm_compute in H. discriminate H.
  - cbn [fst]. rewrite H. by vm_compute.
Defined.

Lemma oversized_object_unreadable_witness :
  ∃ b', fs_put_object (text "a") (replicate (Z.to_nat (2 ^ 21)) 0) blank = (b', Ok ()) ∧
        snd (fs_get_object (text "a") b') = Err out_of_range.
Proof.
  apply (oversized_object_unreadable (text "a") (replicate (Z.to_nat (2 ^ 21)) 0) blank).
  - split; apply (bool_decide_unpack _); by vm_compute.
  - done.
  - done.
  - rewrite length_replicate, Z2Nat.id by lia. by vm_compute.
Defined.

Definition two_files : basic_storage_backend filesystem_backend :=
  mk_basic_backend (mk_filesystem {[ text "a" := [1]; text "b" := [2] ]} false None []) false.
Lemma remove_objects_best_effort_witness :
  objects (bb_impl (remove_objects [text "a"; text "c"] two_files).1) !! text "b" = Some [2].
Proof.
  destruct (remove_objects [text "a"; text "c"] two_files) as [bb' r] eqn:E.
  destruct (remove_objects_best_effort [text "a"; text "c"] two_files bb' r E)
    as (_ & _ & Hkeep & _).
  - repeat constructor; first [by intros ? | by apply (bool_decide_unpack _); vm_compute].
  - cbn [fst]. rewrite Hkeep; [by vm_compute|]. apply (bool_decide_unpack _). by vm_compute.
Defined.
End BackendExamples.
