(* ===== verification/Wire.v ===== *)
(** * The wire encoding of the MySQL protocol

    Models src/extra/mysql_protocol/mysqlrouter/classic_protocol_codec_base.h,
    classic_protocol_codec_wire.h and classic_protocol_codec_frame.h: what is encoded and
    decoded step by step by the codecs of the messages.

    A codec lists its fields once, and two accumulators go through them, one for the size and
    one for the bytes.  A decoder is an action on the bytes of the buffer that have not been
    consumed; an error of a step is kept by its accumulator, so that the steps after it do
    nothing: here it ends the decoder.  [std::expected] is the [result] of a [system_error]. *)

From S2P Require Import Prelude ByteSpan Util Backend.

Local Open Scope Z_scope.

(** ** Steps *)

(** [FixedInt<size>] and [String]: the other types of the wire are made of these *)
Inductive field :=
  | fixed_int (size : nat) (value : Z)
  | raw_string (value : list Z).

Definition field_size (f : field) : nat :=
  match f with fixed_int size _ => size | raw_string value => length value end.
Definition field_bytes (f : field) : list Z :=
  match f with fixed_int size value => le_split size value | raw_string value => value end.

Definition varint_16 : Z := 0xfc.
Definition varint_24 : Z := 0xfd.
Definition varint_64 : Z := 0xfe.
(** [VarInt]: the value is a signed 64-bit integer *)
Definition varint (value : Z) : list field :=
  let value := to_signed 64 (u64 value) in
  if value <? 251 then [fixed_int 1 value]
  else if value <? Z.shiftl 1 16 then [fixed_int 1 varint_16; fixed_int 2 value]
  else if value <? Z.shiftl 1 24 then [fixed_int 1 varint_24; fixed_int 3 value]
  else [fixed_int 1 varint_64; fixed_int 8 value].

Definition nul_byte : Z := 0xfb.
Definition null : list field := [fixed_int 1 nul_byte].
Definition var_string (value : list Z) : list field :=
  varint (Z.of_nat (length value)) ++ [raw_string value].
Definition nul_term_string (value : list Z) : list field := [raw_string value; fixed_int 1 0].

(** [EncodeSizeAccumulator] *)
Definition encoded_size (fs : list field) : nat := sum_list_with field_size fs.
(** [EncodeBufferAccumulator], over a buffer with room for [space] bytes *)
Fixpoint encode_fields (fs : list field) (space : nat) : result (list Z) :=
  match fs with
  | [] => Ok []
  | f :: fs =>
      _ ← raise_if (space <? field_size f)%nat (system_error no_buffer_space);
      bytes ← encode_fields fs (space - field_size f);
      Ok (field_bytes f ++ bytes)
  end.

(** ** Decoding *)
Abbreviation decoder := (action (list Z)).
Definition size_max : Z := 2 ^ 64 - 1.

(** [DecodeBufferAccumulator::step]: a slice of [sz] bytes is decoded, or what remains *)
Definition step_sized {A} (sz : Z) (decode : decoder A) : decoder A := λ buf,
  if bool_decide (sz = size_max) then
    match decode buf with (rest, Ok a) => (rest, Ok a) | (_, Err e) => (buf, Err e) end
  else if Z.of_nat (length buf) <? sz then (buf, Err (system_error not_enough_input))
  else
    match decode (take (Z.to_nat sz) buf) with
    | (rest, Ok a) => (rest ++ drop (Z.to_nat sz) buf, Ok a)
    | (_, Err e) => (buf, Err e)
    end.
Definition step {A} : decoder A → decoder A := step_sized size_max.
(** [try_step]: an error code is not kept *)
Definition try_step {A} (decode : decoder A) : decoder (option A) := λ buf,
  match step decode buf with
  | (rest, Ok a) => (rest, Ok (Some a))
  | (_, Err (system_error _)) => (buf, Ok None)
  | (_, Err e) => (buf, Err e)
  end.

Definition fail {A} (code : error_code) : decoder A := throw (system_error code).

Definition decode_fixed_int (size : nat) : decoder Z := λ buf,
  if (length buf <? size)%nat then (buf, Err (system_error not_enough_input))
  else (drop size buf, Ok (le_combine (take size buf))).

Definition decode_varint : decoder Z :=
  first_byte ← step (decode_fixed_int 1);
  if first_byte <? 251 then mret first_byte
  else if first_byte =? varint_16 then step (decode_fixed_int 2)
  else if first_byte =? varint_24 then step (decode_fixed_int 3)
  else if first_byte =? varint_64 then value ← step (decode_fixed_int 8); mret (to_signed 64 value)
  else fail invalid_input.

Definition decode_null : decoder unit := λ buf,
  match buf with
  | [] => (buf, Err (system_error not_enough_input))
  | nul_val :: rest =>
      if negb (nul_val =? nul_byte) then (buf, Err (system_error invalid_input)) else (rest, Ok ())
  end.

(** [Codec<void>]: ignored bytes *)
Definition decode_void : decoder nat := λ buf, ([], Ok (length buf)).
Definition decode_string : decoder (list Z) := λ buf, ([], Ok buf).

Definition decode_var_string : decoder (list Z) :=
  len ← step decode_varint;
  step_sized (u64 len) decode_string.

Definition decode_nul_term_string : decoder (list Z) := λ buf,
  if bool_decide (0 ∈ buf) then
    let str := before 0 buf in (drop (S (length str)) buf, Ok str)
  else (buf, Err (system_error missing_nul_term)).

(** ** Codecs *)

(** a [capabilities::value_type], bit by bit *)
Abbreviation capabilities := Z (only parsing).
Abbreviation has caps pos := (Z.testbit caps pos).

(** [Codec<T>]: the fields of a value, and the decoder.  Listing the fields may raise. *)
Class Codec (T : Type) := {
  accumulate_fields : capabilities → T → result (list field);
  decode_value : capabilities → decoder T
}.

(** [encode]: what is appended to the dynamic buffer *)
Definition encode `{Codec T} (v : T) (caps : capabilities) (dyn_buffer : list Z) : result (list Z) :=
  fs ← accumulate_fields caps v;
  bytes ← encode_fields fs (encoded_size fs);
  Ok (dyn_buffer ++ bytes).
(** [decode] *)
Definition decode `{Codec T} (buffer : list Z) (caps : capabilities) : result T :=
  (decode_value caps buffer).2.

#[export] Instance varint_codec : Codec Z := {
  accumulate_fields caps v := Ok (varint v);
  decode_value caps := decode_varint
}.

(** ** Frames *)
Record frame_header := mk_frame_header { fh_payload_size : Z; fh_seq_id : Z }.
Definition frame_header_size : nat := 4.
Definition frame_header_fields (h : frame_header) : list field :=
  [fixed_int 3 (fh_payload_size h); fixed_int 1 (fh_seq_id h)].
Definition decode_frame_header : decoder frame_header :=
  payload_size ← step (decode_fixed_int 3);
  seq_id ← step (decode_fixed_int 1);
  mret (mk_frame_header payload_size seq_id).
#[export] Instance frame_header_codec : Codec frame_header := {
  accumulate_fields caps h := Ok (frame_header_fields h);
  decode_value caps := decode_frame_header
}.

Record frame (T : Type) := mk_frame { fr_seq_id : Z; fr_payload : T }.
Arguments mk_frame {T} _ _.
Arguments fr_seq_id {T} _.
Arguments fr_payload {T} _.
Definition frame_fields `{Codec T} (caps : capabilities) (f : frame T) : result (list field) :=
  payload ← accumulate_fields caps (fr_payload f);
  header ← accumulate_fields caps (mk_frame_header (Z.of_nat (encoded_size payload)) (fr_seq_id f));
  Ok (header ++ payload).
Definition decode_frame `{Codec T} (caps : capabilities) : decoder (frame T) := λ buf,
  (header ← step (decode_value (T := frame_header) caps);
   _ ← throw_if (Z.of_nat (length buf) <? Z.of_nat frame_header_size + fh_payload_size header)
         (system_error not_enough_input);
   payload ← step_sized (fh_payload_size header) (decode_value caps);
   mret (mk_frame (fh_seq_id header) payload)) buf.
#[export] Instance frame_codec `{Codec T} : Codec (frame T) := {
  accumulate_fields := frame_fields;
  decode_value := decode_frame
}.

(** ** What is decoded is what was encoded *)

(** the bytes of fields *)
Definition fields_bytes (fs : list field) : list Z := mjoin (field_bytes <$> fs).

Lemma fields_bytes_app fs1 fs2 : fields_bytes (fs1 ++ fs2) = fields_bytes fs1 ++ fields_bytes fs2.
Proof. unfold fields_bytes. by rewrite fmap_app, join_app. Qed.
Lemma fields_bytes_one f : fields_bytes [f] = field_bytes f.
Proof. apply app_nil_r. Qed.
Lemma length_field_bytes f : length (field_bytes f) = field_size f.
Proof. destruct f; [apply length_le_split|done]. Qed.
Lemma length_fields_bytes fs : length (fields_bytes fs) = encoded_size fs.
Proof.
  induction fs as [|f fs IH]; [done|]. change (fields_bytes (f :: fs)) with (field_bytes f ++ fields_bytes fs).
  change (encoded_size (f :: fs)) with (field_size f + encoded_size fs)%nat.
  by rewrite length_app, length_field_bytes, IH.
Qed.

(** encoding never runs out of room: the sizes are those of the bytes *)
Lemma encode_fields_ok fs space : (encoded_size fs ≤ space)%nat → encode_fields fs space = Ok (fields_bytes fs).
Proof.
  revert space. induction fs as [|f fs IH]; intros space Hs; [done|]. unfold encoded_size in *. cbn in Hs. cbn [encode_fields].
  destruct (Nat.ltb_spec space (field_size f)); [lia|]. cbn [raise_if]. rewrite IH by lia. done.
Qed.
Lemma encode_ok `{Codec T} (v : T) caps buffer fs :
  accumulate_fields caps v = Ok fs → encode v caps buffer = Ok (buffer ++ fields_bytes fs).
Proof. intros Hf. unfold encode. rewrite Hf. cbn. by rewrite encode_fields_ok. Qed.

(** a decoder reads a value from bytes that anything may follow, or that nothing follows *)
Definition parses {A} (d : decoder A) (bytes : list Z) (a : A) : Prop := ∀ rest, d (bytes ++ rest) = (rest, Ok a).
Definition ends {A} (d : decoder A) (bytes : list Z) (a : A) : Prop := d bytes = ([], Ok a).

Lemma parses_ends {A} (d : decoder A) bytes a : parses d bytes a → ends d bytes a.
Proof. intros Hp. unfold ends. rewrite <-(app_nil_r bytes). apply Hp. Qed.
Lemma parses_ret {A} (a : A) : parses (mret a) [] a.
Proof. by intros rest. Qed.
Lemma ends_ret {A} (a : A) : ends (mret a) [] a.
Proof. done. Qed.
Lemma parses_bind {A B} (d : decoder A) (f : A → decoder B) bytes1 bytes2 a b :
  parses d bytes1 a → parses (f a) bytes2 b → parses (d ≫= f) (bytes1 ++ bytes2) b.
Proof. intros Hd Hf rest. rewrite <-app_assoc. rewrite (action_bind_eq _ _ _ _ _ (Hd _)). apply Hf. Qed.
Lemma ends_bind {A B} (d : decoder A) (f : A → decoder B) bytes1 bytes2 a b :
  parses d bytes1 a → ends (f a) bytes2 b → ends (d ≫= f) (bytes1 ++ bytes2) b.
Proof. intros Hd Hf. unfold ends. rewrite (action_bind_eq _ _ _ _ _ (Hd _)). apply Hf. Qed.
(** the last step takes all *)
Lemma ends_bind_last {A B} (d : decoder A) (f : A → decoder B) bytes a b :
  ends d bytes a → ends (f a) [] b → ends (d ≫= f) bytes b.
Proof. intros Hd Hf. unfold ends. rewrite (action_bind_eq _ _ _ _ _ Hd). apply Hf. Qed.

Lemma parses_step {A} (d : decoder A) bytes a : parses d bytes a → parses (step d) bytes a.
Proof. intros Hd rest. unfold step, step_sized. rewrite bool_decide_true by done. by rewrite Hd. Qed.
Lemma ends_step {A} (d : decoder A) bytes a : ends d bytes a → ends (step d) bytes a.
Proof. intros Hd. unfold ends, step, step_sized. rewrite bool_decide_true by done. by rewrite Hd. Qed.
Lemma parses_try_step {A} (d : decoder A) bytes a : parses d bytes a → parses (try_step d) bytes (Some a).
Proof. intros Hd rest. unfold try_step. by rewrite (parses_step _ _ _ Hd). Qed.
(** a slice *)
Lemma parses_sized {A} (d : decoder A) bytes a sz :
  ends d bytes a → sz = Z.of_nat (length bytes) → sz < size_max → parses (step_sized sz d) bytes a.
Proof.
  intros Hd -> Hs rest. unfold step_sized. rewrite bool_decide_false by (intros E; lia). rewrite length_app.
  destruct (Z.ltb_spec (Z.of_nat (length bytes + length rest)) (Z.of_nat (length bytes))); [lia|].
  rewrite Nat2Z.id, take_app_length, drop_app_length. by rewrite Hd.
Qed.

Lemma parses_fixed_int size v :
  in_width (8 * Z.of_nat size) v → parses (decode_fixed_int size) (fields_bytes [fixed_int size v]) v.
Proof.
  intros Hv rest. rewrite fields_bytes_one. cbn [field_bytes]. unfold decode_fixed_int. rewrite length_app, length_le_split.
  destruct (Nat.ltb_spec (size + length rest) size); [lia|].
  rewrite take_app_length', drop_app_length' by (by rewrite length_le_split). by rewrite le_combine_split_small.
Qed.

Lemma to_signed_small v : 0 ≤ v < 2 ^ 63 → to_signed 64 v = v.
Proof. intros [? Hv]. unfold to_signed. destruct (Z.ltb_spec v (2 ^ (64 - 1))) as [|Hge]; [done|]. change (64 - 1) with 63 in Hge. lia. Qed.

Definition varint_ok (v : Z) : Prop := 0 ≤ v < 2 ^ 63.
Lemma parses_varint v : varint_ok v → parses decode_varint (fields_bytes (varint v)) v.
Proof.
  intros Hv. unfold varint. rewrite wrap_small by (unfold in_width, varint_ok in *; lia). rewrite to_signed_small by done.
  unfold varint_ok in Hv. assert (∀ size x (f : Z → decoder Z) bytes b, in_width (8 * Z.of_nat size) x → parses (f x) bytes b →
    parses (step (decode_fixed_int size) ≫= f) (fields_bytes [fixed_int size x] ++ bytes) b) as Hstep.
  { intros size x f bytes b Hx Hf. eapply parses_bind; [|exact Hf]. by apply parses_step, parses_fixed_int. }
  change (Z.shiftl 1 16) with 65536. change (Z.shiftl 1 24) with 16777216.
  destruct (Z.ltb_spec v 251).
  { rewrite <-(app_nil_r (fields_bytes _)). apply Hstep; [unfold in_width; cbn; lia|].
    rewrite (proj2 (Z.ltb_lt v 251)) by done. apply parses_ret. }
  destruct (Z.ltb_spec v 65536); [|destruct (Z.ltb_spec v 16777216)];
    match goal with |- parses _ (fields_bytes [?a; ?b]) _ => change (fields_bytes [a; b]) with (fields_bytes [a] ++ fields_bytes [b]) end;
    (apply Hstep; [by split|]).
  - apply parses_step, parses_fixed_int. unfold in_width; cbn; lia.
  - apply parses_step, parses_fixed_int. unfold in_width; cbn; lia.
  - rewrite <-(app_nil_r (fields_bytes _)). apply Hstep; [unfold in_width; cbn; lia|]. rewrite to_signed_small by done. apply parses_ret.
Qed.

Lemma ends_string s : ends decode_string s s.
Proof. done. Qed.

Definition string_ok (s : list Z) : Prop := Z.of_nat (length s) < 2 ^ 63.
Lemma parses_var_string s : string_ok s → parses decode_var_string (fields_bytes (var_string s)) s.
Proof.
  intros Hs. unfold var_string, decode_var_string. rewrite fields_bytes_app. unfold string_ok in Hs.
  eapply parses_bind; [apply parses_step, parses_varint; unfold varint_ok; lia|].
  rewrite fields_bytes_one. cbn [field_bytes].
  apply parses_sized; [apply ends_string| |]; rewrite wrap_small by (unfold in_width; lia); unfold size_max; [done|lia].
Qed.

Lemma parses_nul_term_string s : 0 ∉ s → parses decode_nul_term_string (fields_bytes (nul_term_string s)) s.
Proof.
  intros Hs rest. change (fields_bytes (nul_term_string s)) with (s ++ [0]). unfold decode_nul_term_string.
  rewrite <-app_assoc. cbn [app].
  rewrite bool_decide_true by (apply elem_of_app; right; left).
  assert (before 0 (s ++ 0 :: rest) = s) as -> by (rewrite before_app by done; cbn; by rewrite app_nil_r).
  rewrite drop_app. by rewrite drop_ge by lia; replace (S (length s) - length s)%nat with 1%nat by lia.
Qed.

Lemma parses_null : parses decode_null (fields_bytes null) ().
Proof. by intros rest. Qed.

Create HintDb wire.
#[export] Hint Resolve parses_fixed_int parses_varint parses_var_string parses_nul_term_string parses_null
  ends_string parses_step ends_step parses_ret : wire.

(** ** Messages in frames *)

(** what a codec promises: a value that is [codec_ok] for the capabilities is written as
    fields from which it is read back, to their last byte *)
Class CodecLaws (T : Type) `{Codec T} := {
  codec_ok : capabilities → T → Prop;
  codec_reads_back caps v : codec_ok caps v →
    ∃ fs, accumulate_fields caps v = Ok fs ∧ ends (decode_value caps) (fields_bytes fs) v
}.

Definition frame_bytes (seq_id : Z) (payload : list Z) : list Z :=
  fields_bytes [fixed_int 3 (Z.of_nat (length payload)); fixed_int 1 seq_id] ++ payload.

Lemma length_frame_bytes seq_id payload : length (frame_bytes seq_id payload) = (frame_header_size + length payload)%nat.
Proof. unfold frame_bytes. by rewrite length_app, length_fields_bytes. Qed.

(** a frame is its header and its payload *)
Lemma accumulate_frame `{Codec T} caps seq_id (v : T) fs :
  accumulate_fields caps v = Ok fs →
  ∃ ffs, accumulate_fields caps (mk_frame seq_id v) = Ok ffs ∧ fields_bytes ffs = frame_bytes seq_id (fields_bytes fs).
Proof.
  intros Hf. exists ([fixed_int 3 (Z.of_nat (encoded_size fs)); fixed_int 1 seq_id] ++ fs). split.
  - cbn [accumulate_fields frame_codec]. unfold frame_fields. cbn. by rewrite Hf.
  - unfold frame_bytes. by rewrite fields_bytes_app, length_fields_bytes.
Qed.
Lemma encode_frame `{Codec T} caps seq_id (v : T) fs buffer :
  accumulate_fields caps v = Ok fs →
  encode (mk_frame seq_id v) caps buffer = Ok (buffer ++ frame_bytes seq_id (fields_bytes fs)).
Proof. intros Hf. destruct (accumulate_frame caps seq_id v fs Hf) as (ffs & Hffs & <-). by apply encode_ok. Qed.

Lemma parses_header caps size seq_id :
  in_width 24 size → in_width 8 seq_id →
  parses (decode_value caps) (fields_bytes [fixed_int 3 size; fixed_int 1 seq_id]) (mk_frame_header size seq_id).
Proof.
  intros Hs Hq. change (fields_bytes [fixed_int 3 size; fixed_int 1 seq_id]) with (fields_bytes [fixed_int 3 size] ++ fields_bytes [fixed_int 1 seq_id]).
  eapply parses_bind; [auto with wire|]. rewrite <-(app_nil_r (fields_bytes [fixed_int 1 seq_id])).
  eapply parses_bind; auto with wire.
Qed.

Lemma parses_frame `{Codec T} caps seq_id (v : T) payload :
  ends (decode_value caps) payload v → Z.of_nat (length payload) < 2 ^ 24 → in_width 8 seq_id →
  parses (decode_value caps) (frame_bytes seq_id payload) (mk_frame seq_id v).
Proof.
  intros Hd Hs Hq rest. cbn [decode_value frame_codec]. unfold decode_frame, frame_bytes. rewrite <-app_assoc.
  set (header := fields_bytes _). assert (length (header ++ payload ++ rest) =
    (frame_header_size + (length payload + length rest))%nat) as -> by (unfold header; by rewrite !length_app, length_fields_bytes).
  rewrite (action_bind_eq _ _ _ _ _ (parses_step _ _ _ (parses_header caps (Z.of_nat (length payload)) seq_id ltac:(unfold in_width; lia) Hq) _)).
  cbn [fh_payload_size fh_seq_id]. rewrite (proj2 (Z.ltb_ge _ _)) by lia.
  rewrite (action_bind_eq _ _ _ (payload ++ rest) ()) by done.
  by rewrite (action_bind_eq _ _ _ rest v) by (apply parses_sized; [done..|unfold size_max; lia]).
Qed.

(** C28: every message travels in a frame: what a codec that keeps its promise encodes, the frame
    decoder reads back, with its sequence number, whatever bytes follow; the header tells the
    size of the payload, and a message of 16 MiB or more is the only one that does not fit. *)
Theorem frame_roundtrip `{CodecLaws T} caps seq_id (v : T) rest :
  codec_ok caps v → in_width 8 seq_id →
  ∃ payload, encode v caps [] = Ok payload ∧
    encode (mk_frame seq_id v) caps [] = Ok (frame_bytes seq_id payload) ∧
    (Z.of_nat (length payload) < 2 ^ 24 →
       decode (frame_bytes seq_id payload ++ rest) caps = Ok (mk_frame seq_id v)).
Proof.
  intros Hv Hq. destruct (codec_reads_back _ _ Hv) as (fs & Hf & He). exists (fields_bytes fs).
  split; [by apply (encode_ok v caps [])|]. split; [by apply (encode_frame caps seq_id v fs [])|].
  intros Hs. unfold decode. by rewrite (parses_frame caps seq_id v _ He Hs Hq rest).
Qed.

(** ** The integers of the wire and those of the events *)

Lemma decode_fixed_extract n buf :
  match extract_fixed_int_from_byte_span_checked n buf with
  | Some (v, rest) => step (decode_fixed_int n) buf = (rest, Ok v)
  | None => step (decode_fixed_int n) buf = (buf, Err (system_error not_enough_input))
  end.
Proof.
  unfold extract_fixed_int_from_byte_span_checked, step, step_sized, decode_fixed_int.
  rewrite bool_decide_true by done. by destruct (length buf <? n)%nat.
Qed.

Lemma packed_bytes_varint v : varint_ok v → packed_bytes v = fields_bytes (varint v).
Proof.
  intros Hv. unfold varint. rewrite wrap_small by (unfold in_width, varint_ok in *; lia). rewrite to_signed_small by done.
  unfold packed_bytes. change (Z.shiftl 1 16) with packed_int_double_boundary.
  change (Z.shiftl 1 24) with packed_int_triple_boundary. change 251 with packed_int_single_boundary.
  repeat case_match; unfold fields_bytes; cbn [fmap list_fmap mjoin list_join field_bytes app]; by rewrite ?app_nil_r.
Qed.

Lemma step_first_byte b buf : step (decode_fixed_int 1) (b :: buf) = (buf, Ok b).
Proof. unfold step, step_sized, decode_fixed_int. rewrite bool_decide_true by done. cbn. by rewrite drop_0, Z.add_0_r. Qed.

Lemma fixed_agrees n buf :
  bytes_ok buf → (n < 8)%nat →
  match extract_fixed_int_from_byte_span_checked n buf with
  | Some (v, rest) => step (decode_fixed_int n) buf = (rest, Ok (to_signed 64 v)) ∧
      (0 ≤ v < 2 ^ 63 → packed_bytes v = fields_bytes (varint v))
  | None => ∃ code, (step (decode_fixed_int n) buf).2 = Err (system_error code)
  end.
Proof.
  intros Hb Hn. pose proof (decode_fixed_extract n buf) as He.
  destruct (extract_fixed_int_from_byte_span_checked n buf) as [[v rest]|] eqn:E; [|by rewrite He; eexists].
  rewrite He. unfold extract_fixed_int_from_byte_span_checked in E. destruct (Nat.ltb_spec (length buf) n); [done|].
  injection E as <- <-. split; [|apply packed_bytes_varint]. rewrite to_signed_small; [done|].
  destruct (le_combine_bound (take n buf)) as [Hlo Hhi]; [by apply Forall_take|]. split; [done|].
  eapply Z.lt_trans; [exact Hhi|]. apply Z.pow_lt_mono_r; [done..|]. rewrite length_take. lia.
Qed.

(** C29: two codecs of the repository for the same integers agree: [decode_varint] of the protocol
    library and the packed integers of util/byte_span_extractors.hpp read the same value from
    the same bytes, but for the marker 251 (a null for the former, 2^64 - 1 for the latter)
    and for the sign of eight bytes; and what they write is the same. *)
Theorem varint_packed_int buf :
  bytes_ok buf → head buf ≠ Some packed_int_max_marker →
  match extract_packed_int_from_byte_span_checked buf with
  | Some (v, rest) => decode_varint buf = (rest, Ok (to_signed 64 v)) ∧
      (0 ≤ v < 2 ^ 63 → packed_bytes v = fields_bytes (varint v))
  | None => ∃ code, (decode_varint buf).2 = Err (system_error code)
  end.
Proof.
  intros Hb Hm. destruct buf as [|b buf]; [by eexists|]. apply Forall_cons in Hb as [Hb Hbuf].
  assert (b ≠ packed_int_max_marker) as Hne by (intros ->; by apply Hm).
  unfold extract_packed_int_from_byte_span_checked. rewrite extract_u8_cons.
  unfold decode_varint. rewrite (action_bind_eq _ _ _ _ _ (step_first_byte b buf)).
  rewrite (proj2 (Z.eqb_neq _ _) Hne). unfold in_width in Hb. unfold packed_int_max_marker in Hne.
  change varint_16 with packed_int_double_marker. change varint_24 with packed_int_triple_marker.
  change varint_64 with packed_int_octuple_marker.
  destruct (Z.ltb_spec b 251).
  { unfold packed_int_double_marker, packed_int_triple_marker, packed_int_octuple_marker, packed_int_forbidden_marker.
    rewrite !(proj2 (Z.eqb_neq b _)) by lia. split; [by rewrite to_signed_small by lia|apply packed_bytes_varint]. }
  destruct (Z.eqb_spec b packed_int_double_marker); [apply (fixed_agrees 2); [done|lia]|].
  destruct (Z.eqb_spec b packed_int_triple_marker); [apply (fixed_agrees 3); [done|lia]|].
  destruct (Z.eqb_spec b packed_int_octuple_marker).
  - pose proof (decode_fixed_extract 8 buf) as He. unfold packed_int_octuple_size.
    destruct (extract_fixed_int_from_byte_span_checked 8 buf) as [[v rest]|].
    + split; [by rewrite (action_bind_eq _ _ _ _ _ He)|apply packed_bytes_varint].
    + exists not_enough_input. unfold mbind, action_bind. by rewrite He.
  - unfold packed_int_double_marker, packed_int_triple_marker, packed_int_octuple_marker, packed_int_forbidden_marker in *.
    rewrite (proj2 (Z.eqb_eq b 255)) by lia. by exists invalid_input.
Qed.
