(* ===== verification/Messages.v ===== *)
(** * The messages of the MySQL protocol

    Models the codecs of src/extra/mysql_protocol/mysqlrouter/classic_protocol_codec_message.h
    that the server of src/src/minimysql uses, with the messages of
    classic_protocol_message.h and the constants of classic_protocol_constants.h.

    A message is a record and an instance of [Codec] (Wire.v); what is announced by the
    capabilities decides which of its fields travel.  Two decoders of server messages, which
    only a client uses, look at a step before they know that it did not fail (a greeting of
    version 9, the columns): here the failed step ends them. *)

From S2P Require Import Prelude ByteSpan Util Backend Wire.

Local Open Scope Z_scope.

(** ** Capabilities: positions of bits *)
Definition long_password : Z := 0.
Definition found_rows : Z := 1.
Definition long_flag : Z := 2.
Definition connect_with_schema : Z := 3.
Definition no_schema : Z := 4.
Definition odbc : Z := 6.
Definition local_files : Z := 7.
Definition protocol_41 : Z := 9.
Definition ssl : Z := 11.
Definition transactions : Z := 13.
Definition secure_connection : Z := 15.
Definition multi_results : Z := 17.
Definition ps_multi_results : Z := 18.
Definition plugin_auth : Z := 19.
Definition connect_attributes : Z := 20.
Definition client_auth_method_data_varint : Z := 21.
Definition session_track : Z := 23.
Definition text_result_with_session_tracking : Z := 24.
Definition query_attributes : Z := 27.

Definition status_autocommit : Z := 1.
Definition session_state_changed : Z := 14.

(** the first byte of a message *)
Definition expect_byte (cmd_byte : Z) : decoder unit :=
  cmd_byte_res ← step (decode_fixed_int 1);
  if negb (cmd_byte_res =? cmd_byte) then fail invalid_input else mret ().

(** [buffer_size(buffer) <= accu.result().value()] *)
Definition at_end : decoder bool := gets (λ buf, bool_decide (buf = [])).

(** ** Messages of the server *)
Record server_greeting := mk_server_greeting {
  sg_protocol_version : Z;
  sg_version : list Z;
  sg_connection_id : Z;
  sg_auth_method_data : list Z;
  sg_capabilities : Z;
  sg_collation : Z;
  sg_status_flags : Z;
  sg_auth_method_name : list Z
}.

(** [substr(8)] *)
Definition substr_from_8 (s : list Z) : result (list Z) :=
  if (length s <? 8)%nat then Err (terminate "std::out_of_range in a noexcept function") else Ok (drop 8 s).

Definition server_greeting_fields (v : server_greeting) : result (list field) :=
  let caps := sg_capabilities v in
  let head := [fixed_int 1 (sg_protocol_version v)] ++ nul_term_string (sg_version v) ++
              [fixed_int 4 (sg_connection_id v)] ++ nul_term_string (take 8 (sg_auth_method_data v)) in
  if sg_protocol_version v =? 0x09 then Ok head
  else
    let auth_method_data_size :=
      if has caps plugin_auth then u8 (Z.of_nat (length (sg_auth_method_data v))) else 0 in
    let head := head ++ [fixed_int 2 (Z.land caps 0xffff)] in
    if (Z.shiftl 1 16 <=? caps) || negb (sg_status_flags v =? 0) || negb (sg_collation v =? 0) then
      let middle := [fixed_int 1 (sg_collation v); fixed_int 2 (sg_status_flags v);
                     fixed_int 2 (Z.land (Z.shiftr caps 16) 0xffff); fixed_int 1 auth_method_data_size;
                     raw_string (replicate 10 0)] in
      if has caps secure_connection then
        data ← substr_from_8 (sg_auth_method_data v);
        Ok (head ++ middle ++ [raw_string data] ++
            (if has caps plugin_auth then nul_term_string (sg_auth_method_name v) else []))
      else Ok (head ++ middle)
    else Ok head.

Definition decode_server_greeting : decoder server_greeting :=
  protocol_version ← step (decode_fixed_int 1);
  if negb (protocol_version =? 0x09) && negb (protocol_version =? 0x0a) then fail invalid_input
  else
    version ← step decode_nul_term_string;
    connection_id ← step (decode_fixed_int 4);
    auth_method_data ← step decode_nul_term_string;
    if protocol_version =? 0x09 then
      mret (mk_server_greeting protocol_version version connection_id auth_method_data 0 0 0 [])
    else
      cap_lower ← step (decode_fixed_int 2);
      ended ← at_end;
      if ended : bool then
        mret (mk_server_greeting protocol_version version connection_id auth_method_data cap_lower 0 0 [])
      else
        collation ← step (decode_fixed_int 1);
        status_flags ← step (decode_fixed_int 2);
        cap_hi ← step (decode_fixed_int 2);
        let caps := Z.lor cap_lower (Z.shiftl cap_hi 16) in
        auth_method_data_len ←
          (if has caps plugin_auth then
             len ← step (decode_fixed_int 1);
             if len <? 8 then fail invalid_input else mret (len - 8)
           else _ ← step_sized 1 decode_void; mret 13);
        _ ← step_sized 10 decode_void;
        '(auth_method_data_2, auth_method) ←
          (if has caps secure_connection then
             auth_method_data_2 ← step_sized auth_method_data_len decode_string;
             auth_method ← (if has caps plugin_auth then step decode_nul_term_string else mret []);
             mret (auth_method_data_2, auth_method)
           else mret ([], []));
        mret (mk_server_greeting protocol_version version connection_id
                (auth_method_data ++ auth_method_data_2) caps collation status_flags auth_method).

#[export] Instance server_greeting_codec : Codec server_greeting := {
  accumulate_fields caps v := server_greeting_fields v;
  decode_value caps := decode_server_greeting
}.

Record auth_method_data := mk_auth_method_data { amd_auth_method_data : list Z }.
Definition server_auth_method_data_fields (v : auth_method_data) : list field :=
  [fixed_int 1 0x01; raw_string (amd_auth_method_data v)].
Definition decode_server_auth_method_data : decoder auth_method_data :=
  _ ← expect_byte 0x01;
  data ← step decode_string;
  mret (mk_auth_method_data data).
#[export] Instance auth_method_data_codec : Codec auth_method_data := {
  accumulate_fields caps v := Ok (server_auth_method_data_fields v);
  decode_value caps := decode_server_auth_method_data
}.

(** [server::Ok]; [server::Eof] is derived from it *)
Record server_ok := mk_server_ok {
  ok_affected_rows : Z;
  ok_last_insert_id : Z;
  ok_status_flags : Z;
  ok_warning_count : Z;
  ok_message : list Z;
  ok_session_changes : list Z
}.
Definition default_ok : server_ok := mk_server_ok 0 0 0 0 [] [].
Record server_eof := mk_server_eof { eof_ok : server_ok }.

Definition server_ok_fields (caps : capabilities) (v : server_ok) : list field :=
  [fixed_int 1 0x00] ++ varint (ok_affected_rows v) ++ varint (ok_last_insert_id v) ++
  (if has caps protocol_41 || has caps transactions then
     fixed_int 2 (ok_status_flags v) ::
     (if has caps protocol_41 then [fixed_int 2 (ok_warning_count v)] else [])
   else []) ++
  (if negb (bool_decide (ok_message v = [])) || has caps session_track then
     var_string (ok_message v) ++
     (if has caps session_track && Z.testbit (ok_status_flags v) session_state_changed
      then var_string (ok_session_changes v) else [])
   else []).

(** the status flags and the warnings *)
Definition decode_status (caps : capabilities) : decoder (Z * Z) :=
  if has caps protocol_41 || has caps transactions then
    status_flags ← step (decode_fixed_int 2);
    warning_count ← (if has caps protocol_41 then step (decode_fixed_int 2) else mret 0);
    mret (status_flags, warning_count)
  else mret (0, 0).

Definition decode_server_ok (caps : capabilities) : decoder server_ok :=
  _ ← expect_byte 0x00;
  affected_rows ← step decode_varint;
  last_insert_id ← step decode_varint;
  '(status_flags, warning_count) ← decode_status caps;
  message ← try_step decode_var_string;
  session_changes ←
    (match message with
     | Some _ =>
         if has caps session_track && Z.testbit status_flags session_state_changed
         then step decode_var_string else mret []
     | None => mret []
     end);
  mret (mk_server_ok (u64 affected_rows) (u64 last_insert_id) status_flags warning_count
          (default [] message) session_changes).
#[export] Instance server_ok_codec : Codec server_ok := {
  accumulate_fields caps v := Ok (server_ok_fields caps v);
  decode_value caps := decode_server_ok caps
}.

Definition server_eof_fields (caps : capabilities) (v : server_ok) : list field :=
  fixed_int 1 0xfe ::
  (if has caps text_result_with_session_tracking then
     varint (ok_affected_rows v) ++ varint (ok_last_insert_id v) ++
     (if has caps protocol_41 || has caps transactions then
        fixed_int 2 (ok_status_flags v) ::
        (if has caps protocol_41 then [fixed_int 2 (ok_warning_count v)] else [])
      else []) ++
     (if has caps session_track then
        if negb (bool_decide (ok_message v = [])) || Z.testbit (ok_status_flags v) session_state_changed then
          var_string (ok_message v) ++
          (if Z.testbit (ok_status_flags v) session_state_changed then var_string (ok_session_changes v) else [])
        else []
      else [raw_string (ok_message v)])
   else if has caps protocol_41 then [fixed_int 2 (ok_warning_count v); fixed_int 2 (ok_status_flags v)]
   else []).

Definition decode_server_eof (caps : capabilities) : decoder server_eof :=
  _ ← expect_byte 0xfe;
  if has caps text_result_with_session_tracking then
    affected_rows ← step decode_varint;
    last_insert_id ← step decode_varint;
    '(status_flags, warning_count) ← decode_status caps;
    '(message, session_changes) ←
      (if has caps session_track then
         var_message ← try_step decode_var_string;
         session_changes ← (if Z.testbit status_flags session_state_changed
                            then step decode_var_string else mret []);
         mret (default [] var_message, session_changes)
       else message ← step decode_string; mret (message, []));
    mret (mk_server_eof (mk_server_ok (u64 affected_rows) (u64 last_insert_id) status_flags warning_count
                           message session_changes))
  else if has caps protocol_41 then
    warning_count ← step (decode_fixed_int 2);
    status_flags ← step (decode_fixed_int 2);
    mret (mk_server_eof (mk_server_ok 0 0 status_flags warning_count [] []))
  else mret (mk_server_eof default_ok).
#[export] Instance server_eof_codec : Codec server_eof := {
  accumulate_fields caps v := Ok (server_eof_fields caps (eof_ok v));
  decode_value caps := decode_server_eof caps
}.

Record server_error := mk_server_error {
  err_error_code : Z;
  err_message : list Z;
  err_sql_state : list Z
}.
Definition server_error_fields (caps : capabilities) (v : server_error) : list field :=
  [fixed_int 1 0xff; fixed_int 2 (err_error_code v)] ++
  (if has caps protocol_41 then [fixed_int 1 35; raw_string (err_sql_state v)] else []) ++
  [raw_string (err_message v)].
Definition decode_server_error (caps : capabilities) : decoder server_error :=
  _ ← expect_byte 0xff;
  code ← step (decode_fixed_int 2);
  sql_state ← (if has caps protocol_41 then
                 _ ← step (decode_fixed_int 1);
                 step_sized 5 decode_string
               else mret []);
  message ← step decode_string;
  mret (mk_server_error code message sql_state).
#[export] Instance server_error_codec : Codec server_error := {
  accumulate_fields caps v := Ok (server_error_fields caps v);
  decode_value caps := decode_server_error caps
}.

Record column_meta := mk_column_meta {
  cm_catalog : list Z;
  cm_schema : list Z;
  cm_table : list Z;
  cm_orig_table : list Z;
  cm_name : list Z;
  cm_orig_name : list Z;
  cm_collation : Z;
  cm_column_length : Z;
  cm_type : Z;
  cm_flags : Z;
  cm_decimals : Z
}.

Definition column_meta_fields (caps : capabilities) (v : column_meta) : list field :=
  if negb (has caps protocol_41) then
    var_string (cm_table v) ++ var_string (cm_name v) ++ varint 3 ++ [fixed_int 3 (cm_column_length v)] ++
    varint 1 ++ [fixed_int 1 (cm_type v)] ++
    (if has caps long_flag then varint 3 ++ [fixed_int 2 (cm_flags v); fixed_int 1 (cm_decimals v)]
     else varint 2 ++ [fixed_int 1 (cm_flags v); fixed_int 1 (cm_decimals v)])
  else
    var_string (cm_catalog v) ++ var_string (cm_schema v) ++ var_string (cm_table v) ++
    var_string (cm_orig_table v) ++ var_string (cm_name v) ++ var_string (cm_orig_name v) ++ varint 12 ++
    [fixed_int 2 (cm_collation v); fixed_int 4 (cm_column_length v); fixed_int 1 (cm_type v);
     fixed_int 2 (cm_flags v); fixed_int 1 (cm_decimals v); fixed_int 2 0].

(** [column_def::value_type] has 15 bits *)
Definition column_flags (value : Z) : Z := wrap 15 value.

(** a length that must have this value *)
Definition expect_varint (expected : Z) : decoder unit :=
  value ← step decode_varint;
  if negb (value =? expected) then fail invalid_input else mret ().

Definition decode_column_meta (caps : capabilities) : decoder column_meta :=
  if negb (has caps protocol_41) then
    let flags_size := if has caps long_flag then 2%nat else 1%nat in
    table ← step decode_var_string;
    name ← step decode_var_string;
    _ ← expect_varint 3;
    column_length ← step (decode_fixed_int 3);
    _ ← expect_varint 1;
    type ← step (decode_fixed_int 1);
    _ ← expect_varint (Z.of_nat flags_size + 1);
    flags_and_decimals ← step (decode_fixed_int (S flags_size));
    mret (mk_column_meta [] [] table [] name [] 0 column_length type
            (column_flags (flags_and_decimals mod 2 ^ (8 * Z.of_nat flags_size)))
            (u8 (Z.shiftr flags_and_decimals (8 * Z.of_nat flags_size))))
  else
    catalog ← step decode_var_string;
    schema ← step decode_var_string;
    table ← step decode_var_string;
    orig_table ← step decode_var_string;
    name ← step decode_var_string;
    orig_name ← step decode_var_string;
    _ ← expect_varint 12;
    collation ← step (decode_fixed_int 2);
    column_length ← step (decode_fixed_int 4);
    type ← step (decode_fixed_int 1);
    flags ← step (decode_fixed_int 2);
    decimals ← step (decode_fixed_int 1);
    _ ← step_sized 2 decode_void;
    mret (mk_column_meta catalog schema table orig_table name orig_name collation column_length type
            (column_flags flags) decimals).
#[export] Instance column_meta_codec : Codec column_meta := {
  accumulate_fields caps v := Ok (column_meta_fields caps v);
  decode_value caps := decode_column_meta caps
}.

(** [server::Row] *)
Record row := mk_row { row_fields : list (option (list Z)) }.
Definition row_field (f : option (list Z)) : list field :=
  match f with Some value => var_string value | None => null end.

(** the loop of the decoder, which takes a byte or more in every round *)
Fixpoint decode_row_fields (fuel : nat) : decoder (list (option (list Z))) :=
  ended ← at_end;
  if ended : bool then mret []
  else
    match fuel with
    | O => throw out_of_fuel
    | S fuel =>
        null_res ← try_step decode_null;
        value ← (match null_res with
                 | Some _ => mret None
                 | None => field ← step decode_var_string; mret (Some field)
                 end);
        rest ← decode_row_fields fuel;
        mret (value :: rest)
    end.
Definition decode_row : decoder row := λ buf, (fields ← decode_row_fields (length buf); mret (mk_row fields)) buf.
#[export] Instance row_codec : Codec row := {
  accumulate_fields caps v := Ok (mjoin (row_field <$> row_fields v));
  decode_value caps := decode_row
}.

(** ** Messages of the client *)

(** [CommandByte] *)
Definition cmd_quit : Z := 0x01.
Definition cmd_query : Z := 0x03.
Definition cmd_ping : Z := 0x0e.
Definition cmd_change_user : Z := 0x11.
Definition cmd_binlog_dump : Z := 0x12.
Definition cmd_binlog_dump_gtid : Z := 0x1e.
Definition cmd_reset_connection : Z := 0x1f.

(** [CodecSimpleCommand] *)
Definition simple_command_fields (cmd_byte : Z) : result (list field) := Ok [fixed_int 1 cmd_byte].
Definition decode_simple_command {T} (cmd_byte : Z) (value : T) : decoder T :=
  _ ← expect_byte cmd_byte; mret value.

Inductive client_quit := mk_client_quit.
Inductive client_reset_connection := mk_client_reset_connection.
Inductive client_ping := mk_client_ping.
#[export] Instance client_quit_codec : Codec client_quit := {
  accumulate_fields _ _ := simple_command_fields cmd_quit;
  decode_value _ := decode_simple_command cmd_quit mk_client_quit
}.
#[export] Instance client_reset_connection_codec : Codec client_reset_connection := {
  accumulate_fields _ _ := simple_command_fields cmd_reset_connection;
  decode_value _ := decode_simple_command cmd_reset_connection mk_client_reset_connection
}.
#[export] Instance client_ping_codec : Codec client_ping := {
  accumulate_fields _ _ := simple_command_fields cmd_ping;
  decode_value _ := decode_simple_command cmd_ping mk_client_ping
}.

(** *** Query, with its attributes *)
Record query_param := mk_query_param {
  qp_type_and_flags : Z;
  qp_name : list Z;
  qp_value : option (list Z)
}.
Record client_query := mk_client_query { cq_statement : list Z; cq_values : list query_param }.

(** how the size of a value of a type is known: [field_type] *)
Inductive value_size := size_varint | size_byte | size_fixed (size : nat).
Definition type_size (type : Z) : option value_size :=
  if bool_decide (type ∈ [0x10; 0xfc; 0x0f; 0xfd; 0xf8; 0xfe; 0xf7; 0xf9; 0xfa; 0xfb; 0x00; 0xf5; 0xf6; 0xff])
  then Some size_varint
  else if bool_decide (type ∈ [0x0a; 0x0c; 0x07; 0x0b]) then Some size_byte
  else if bool_decide (type ∈ [0x08; 0x05]) then Some (size_fixed 8)
  else if bool_decide (type ∈ [0x03; 0x09; 0x04]) then Some (size_fixed 4)
  else if bool_decide (type ∈ [0x02; 0x0d]) then Some (size_fixed 2)
  else if bool_decide (type = 0x01) then Some (size_fixed 1)
  else None.

(** the bits of the parameters that are null, eight a byte *)
Fixpoint null_bits (fuel : nat) (values : list query_param) : list field :=
  match fuel, values with
  | S fuel, _ :: _ =>
      let byte := foldr (λ p bits, 2 * bits + Z.b2z (bool_decide (qp_value p = None))) 0 (take 8 values) in
      fixed_int 1 byte :: null_bits fuel (drop 8 values)
  | _, _ => []
  end.

Definition param_value_fields (p : query_param) : result (list field) :=
  match qp_value p with
  | None => Ok []
  | Some value =>
      let size := Z.of_nat (length value) in
      size_fields ←
        (match type_size (Z.land (qp_type_and_flags p) 0xff) with
         | Some size_varint => Ok (varint size)
         | Some size_byte =>
             _ ← raise_if (255 <? size) (undefined_behaviour "assert(param.value->size() <= 255)");
             Ok [fixed_int 1 size]
         | Some (size_fixed n) =>
             _ ← raise_if (negb (size =? Z.of_nat n)) (undefined_behaviour "assert(param.value->size())");
             Ok []
         | None => Ok []
         end);
      Ok (size_fields ++ [raw_string value])
  end.
Definition param_values_fields (values : list query_param) : result (list field) :=
  foldM (λ fs p, pfs ← param_value_fields p; Ok (fs ++ pfs)) [] values.

Definition client_query_fields (caps : capabilities) (v : client_query) : result (list field) :=
  attributes ←
    (if has caps query_attributes then
       let values := cq_values v in
       values_fields ← param_values_fields values;
       Ok (varint (Z.of_nat (length values)) ++ varint 1 ++
           (if bool_decide (values = []) then []
            else null_bits (length values) values ++ [fixed_int 1 1] ++
                 mjoin ((λ p, fixed_int 2 (qp_type_and_flags p) :: var_string (qp_name p)) <$> values) ++
                 values_fields))
     else Ok []);
  Ok (fixed_int 1 cmd_query :: attributes ++ [raw_string (cq_statement v)]).

Definition decode_field_size (type : Z) : decoder Z :=
  match type_size type with
  | Some size_varint => size ← step decode_varint; mret (u64 size)
  | Some size_byte => step (decode_fixed_int 1)
  | Some (size_fixed n) => mret (Z.of_nat n)
  | None => fail invalid_input
  end.

(** the types and names of [n] parameters *)
Fixpoint decode_params (n : nat) : decoder (list query_param) :=
  match n with
  | O => mret []
  | S n =>
      param_type ← step (decode_fixed_int 2);
      param_name ← step decode_var_string;
      rest ← decode_params n;
      mret (mk_query_param param_type param_name None :: rest)
  end.
(** their values, from the [n]-th parameter on *)
Fixpoint decode_param_values (nullbits : list Z) (n : nat) (params : list query_param) : decoder (list query_param) :=
  match params with
  | [] => mret []
  | p :: params =>
      p ← (if Z.testbit (nth (n / 8) nullbits 0) (Z.of_nat (n mod 8)) then mret p
           else
             field_size ← decode_field_size (Z.land (qp_type_and_flags p) 0xff);
             value ← step_sized field_size decode_string;
             mret (mk_query_param (qp_type_and_flags p) (qp_name p) (Some value)));
      rest ← decode_param_values nullbits (S n) params;
      mret (p :: rest)
  end.

(** [bytes_per_bits] *)
Definition bytes_per_bits (bits : Z) : Z := (bits + 7) / 8.

Definition decode_client_query (caps : capabilities) : decoder client_query :=
  _ ← expect_byte cmd_query;
  params ←
    (if has caps query_attributes then
       param_count ← step decode_varint;
       param_set_count ← step decode_varint;
       if negb (param_set_count =? 1) then fail invalid_input
       else if 0 <? param_count then
         nullbits ← step_sized (bytes_per_bits param_count) decode_string;
         new_params_bound ← step (decode_fixed_int 1);
         if negb (new_params_bound =? 1) then fail invalid_input
         else
           params ← decode_params (Z.to_nat param_count);
           decode_param_values nullbits 0 params
       else mret []
     else mret []);
  statement ← step decode_string;
  mret (mk_client_query statement params).
#[export] Instance client_query_codec : Codec client_query := {
  accumulate_fields caps v := client_query_fields caps v;
  decode_value caps := decode_client_query caps
}.

(** *** Greeting *)
Record client_greeting := mk_client_greeting {
  cg_capabilities : Z;
  cg_max_packet_size : Z;
  cg_collation : Z;
  cg_username : list Z;
  cg_auth_method_data : list Z;
  cg_schema : list Z;
  cg_auth_method_name : list Z;
  cg_attributes : list Z
}.

Definition client_greeting_fields (caps : capabilities) (v : client_greeting) : list field :=
  let shared_caps := Z.land (cg_capabilities v) caps in
  if has shared_caps protocol_41 then
    [fixed_int 4 (cg_capabilities v); fixed_int 4 (cg_max_packet_size v); fixed_int 1 (cg_collation v);
     raw_string (replicate 23 0)] ++
    (if has shared_caps ssl && bool_decide (cg_username v = []) then []
     else
       nul_term_string (cg_username v) ++
       (if has shared_caps client_auth_method_data_varint then var_string (cg_auth_method_data v)
        else if has shared_caps secure_connection then
          [fixed_int 1 (Z.of_nat (length (cg_auth_method_data v))); raw_string (cg_auth_method_data v)]
        else nul_term_string (cg_auth_method_data v)) ++
       (if has shared_caps connect_with_schema then nul_term_string (cg_schema v) else []) ++
       (if negb (has shared_caps connect_attributes) then
          if has shared_caps plugin_auth && negb (bool_decide (cg_auth_method_name v = []))
          then nul_term_string (cg_auth_method_name v) else []
        else
          (if has shared_caps plugin_auth then nul_term_string (cg_auth_method_name v) else []) ++
          var_string (cg_attributes v)))
  else
    [fixed_int 2 (cg_capabilities v); fixed_int 3 (cg_max_packet_size v)] ++ nul_term_string (cg_username v) ++
    (if has shared_caps connect_with_schema then
       nul_term_string (cg_auth_method_data v) ++ [raw_string (cg_schema v)]
     else [raw_string (cg_auth_method_data v)]).

(** the three forms of the authentication data *)
Definition decode_auth_method_data (varint_length byte_length : bool) : decoder (list Z) :=
  if varint_length then step decode_var_string
  else if byte_length then
    auth_method_data_len ← step (decode_fixed_int 1);
    step_sized auth_method_data_len decode_string
  else step decode_nul_term_string.

Definition decode_client_greeting (caps : capabilities) : decoder client_greeting :=
  capabilities_lo ← step (decode_fixed_int 2);
  if has (Z.land caps capabilities_lo) protocol_41 then
    capabilities_hi ← step (decode_fixed_int 2);
    let client_capabilities := Z.lor capabilities_lo (Z.shiftl capabilities_hi 16) in
    let shared_capabilities := Z.land caps client_capabilities in
    max_packet_size ← step (decode_fixed_int 4);
    collation ← step (decode_fixed_int 1);
    _ ← step_sized 23 decode_string;
    (* a greeting without a name asks for TLS; it is only looked at when the name is cut off *)
    username ← (λ buf, match step decode_nul_term_string buf with
                       | (rest, Ok username) => (rest, Ok (Some username))
                       | (rest, Err e) => if has shared_capabilities ssl then (buf, Ok None) else (rest, Err e)
                       end);
    match username with
    | None => mret (mk_client_greeting client_capabilities max_packet_size collation [] [] [] [] [])
    | Some username =>
        auth_method_data ← decode_auth_method_data (has shared_capabilities client_auth_method_data_varint)
                             (has shared_capabilities secure_connection);
        schema ← (if has shared_capabilities connect_with_schema then step decode_nul_term_string else mret []);
        auth_method ←
          (if has shared_capabilities plugin_auth then
             ended ← at_end;
             if ended : bool then mret [] else step decode_nul_term_string
           else mret []);
        attributes ← (if has shared_capabilities connect_attributes then step decode_var_string else mret []);
        mret (mk_client_greeting client_capabilities max_packet_size collation username auth_method_data
                schema auth_method attributes)
    end
  else
    max_packet_size ← step (decode_fixed_int 3);
    username ← step decode_nul_term_string;
    '(auth_method_data, schema) ←
      (if has (Z.land caps capabilities_lo) connect_with_schema then
         auth_method_data ← step decode_nul_term_string;
         schema ← step decode_string;
         mret (auth_method_data, schema)
       else auth_method_data ← step decode_string; mret (auth_method_data, []));
    mret (mk_client_greeting capabilities_lo max_packet_size 0 username auth_method_data schema [] []).
#[export] Instance client_greeting_codec : Codec client_greeting := {
  accumulate_fields caps v := Ok (client_greeting_fields caps v);
  decode_value caps := decode_client_greeting caps
}.

(** *** ChangeUser *)
Record client_change_user := mk_client_change_user {
  cu_username : list Z;
  cu_auth_method_data : list Z;
  cu_schema : list Z;
  cu_collation : Z;
  cu_auth_method_name : list Z;
  cu_attributes : list Z
}.
Definition client_change_user_fields (caps : capabilities) (v : client_change_user) : list field :=
  [fixed_int 1 cmd_change_user] ++ nul_term_string (cu_username v) ++
  (if has caps secure_connection then
     [fixed_int 1 (Z.of_nat (length (cu_auth_method_data v))); raw_string (cu_auth_method_data v)]
   else nul_term_string (cu_auth_method_data v)) ++
  nul_term_string (cu_schema v) ++
  (if negb (cu_collation v =? 0) || has caps plugin_auth || has caps connect_attributes then
     fixed_int 2 (cu_collation v) ::
     (if has caps plugin_auth then nul_term_string (cu_auth_method_name v) else []) ++
     (if has caps connect_attributes then var_string (cu_attributes v) else [])
   else []).
Definition decode_client_change_user (caps : capabilities) : decoder client_change_user :=
  _ ← expect_byte cmd_change_user;
  username ← step decode_nul_term_string;
  auth_method_data ← decode_auth_method_data false (has caps secure_connection);
  schema ← step decode_nul_term_string;
  ended ← at_end;
  if ended : bool then mret (mk_client_change_user username auth_method_data schema 0 [] [])
  else
    collation ← step (decode_fixed_int 2);
    auth_method_name ← (if has caps plugin_auth then step decode_nul_term_string else mret []);
    attributes ← (if has caps connect_attributes then step decode_var_string else mret []);
    mret (mk_client_change_user username auth_method_data schema collation auth_method_name attributes).
#[export] Instance client_change_user_codec : Codec client_change_user := {
  accumulate_fields caps v := Ok (client_change_user_fields caps v);
  decode_value caps := decode_client_change_user caps
}.

(** *** BinlogDump and BinlogDumpGtid *)
Definition flag_non_blocking : Z := 1.
Definition flag_through_gtid : Z := 4.

Record client_binlog_dump := mk_client_binlog_dump {
  bd_flags : Z;
  bd_server_id : Z;
  bd_filename : list Z;
  bd_position : Z
}.
Definition client_binlog_dump_fields (v : client_binlog_dump) : list field :=
  [fixed_int 1 cmd_binlog_dump; fixed_int 4 (bd_position v); fixed_int 2 (bd_flags v);
   fixed_int 4 (bd_server_id v); raw_string (bd_filename v)].
Definition decode_client_binlog_dump : decoder client_binlog_dump :=
  _ ← expect_byte cmd_binlog_dump;
  position ← step (decode_fixed_int 4);
  flags ← step (decode_fixed_int 2);
  server_id ← step (decode_fixed_int 4);
  filename ← step decode_string;
  mret (mk_client_binlog_dump flags server_id filename position).
#[export] Instance client_binlog_dump_codec : Codec client_binlog_dump := {
  accumulate_fields caps v := Ok (client_binlog_dump_fields v);
  decode_value caps := decode_client_binlog_dump
}.

Record client_binlog_dump_gtid := mk_client_binlog_dump_gtid {
  bg_flags : Z;
  bg_server_id : Z;
  bg_filename : list Z;
  bg_position : Z;
  bg_sids : list Z
}.
Definition client_binlog_dump_gtid_fields (v : client_binlog_dump_gtid) : list field :=
  [fixed_int 1 cmd_binlog_dump_gtid; fixed_int 2 (bg_flags v); fixed_int 4 (bg_server_id v);
   fixed_int 4 (Z.of_nat (length (bg_filename v))); raw_string (bg_filename v);
   fixed_int 8 (bg_position v)] ++
  (if negb (Z.land (bg_flags v) flag_through_gtid =? 0)
   then [fixed_int 4 (Z.of_nat (length (bg_sids v))); raw_string (bg_sids v)] else []).
Definition decode_client_binlog_dump_gtid : decoder client_binlog_dump_gtid :=
  _ ← expect_byte cmd_binlog_dump_gtid;
  flags ← step (decode_fixed_int 2);
  server_id ← step (decode_fixed_int 4);
  filename_len ← step (decode_fixed_int 4);
  filename ← step_sized filename_len decode_string;
  position ← step (decode_fixed_int 8);
  if Z.land flags flag_through_gtid =? 0 then mret (mk_client_binlog_dump_gtid flags server_id filename position [])
  else
    sids_len ← step (decode_fixed_int 4);
    sids ← step_sized sids_len decode_string;
    mret (mk_client_binlog_dump_gtid flags server_id filename position sids).
#[export] Instance client_binlog_dump_gtid_codec : Codec client_binlog_dump_gtid := {
  accumulate_fields caps v := Ok (client_binlog_dump_gtid_fields v);
  decode_value caps := decode_client_binlog_dump_gtid
}.
