(* ===== verification/MessageLaws.v ===== *)
(** * What is decoded of a message is the message

    Every codec of Messages.v keeps the promise [CodecLaws] of Wire.v, for the messages that
    are in the range of the format under the capabilities: a message is read back from the
    fields it is written as, and they are read to the last byte.  By [frame_roundtrip] it
    travels in a frame. *)

From S2P Require Import Prelude ByteSpan Util Backend Wire Messages.

Local Open Scope Z_scope.

(** ** Reading field by field *)
Lemma ends_then {A B} (d : decoder A) (f : A → decoder B) fs1 fs2 a b :
  parses d (fields_bytes fs1) a → ends (f a) (fields_bytes fs2) b → ends (d ≫= f) (fields_bytes (fs1 ++ fs2)) b.
Proof. rewrite fields_bytes_app. apply ends_bind. Qed.
Lemma parses_then {A B} (d : decoder A) (f : A → decoder B) fs1 fs2 a b :
  parses d (fields_bytes fs1) a → parses (f a) (fields_bytes fs2) b → parses (d ≫= f) (fields_bytes (fs1 ++ fs2)) b.
Proof. rewrite fields_bytes_app. apply parses_bind. Qed.
Lemma parses_and {A B} (d : decoder A) (g : A → B) fs a :
  parses d (fields_bytes fs) a → parses (x ← d; mret (g x)) (fields_bytes fs) (g a).
Proof. intros Hd. rewrite <-(app_nil_r (fields_bytes fs)). eapply parses_bind; [done|apply parses_ret]. Qed.

Section steps.
Context {A : Type} (b : A).
Implicit Types (f : Z → decoder A) (g : list Z → decoder A).

Lemma ends_fixed_int size v f fs :
  in_width (8 * Z.of_nat size) v → ends (f v) (fields_bytes fs) b →
  ends (step (decode_fixed_int size) ≫= f) (fields_bytes (fixed_int size v :: fs)) b.
Proof. intros Hv. apply (ends_then _ _ [_]). auto with wire. Qed.
Lemma ends_varint v f fs :
  varint_ok v → ends (f v) (fields_bytes fs) b → ends (step decode_varint ≫= f) (fields_bytes (varint v ++ fs)) b.
Proof. intros Hv. apply ends_then. auto with wire. Qed.
Lemma ends_var_string s g fs :
  string_ok s → ends (g s) (fields_bytes fs) b → ends (step decode_var_string ≫= g) (fields_bytes (var_string s ++ fs)) b.
Proof. intros Hs. apply ends_then. auto with wire. Qed.
Lemma ends_nul_term_string s g fs :
  0 ∉ s → ends (g s) (fields_bytes fs) b → ends (step decode_nul_term_string ≫= g) (fields_bytes (nul_term_string s ++ fs)) b.
Proof. intros Hs. apply ends_then. auto with wire. Qed.
Lemma ends_sized_string sz s g fs :
  sz = Z.of_nat (length s) → sz < size_max → ends (g s) (fields_bytes fs) b →
  ends (step_sized sz decode_string ≫= g) (fields_bytes (raw_string s :: fs)) b.
Proof.
  intros Hs Hm. apply (ends_then _ _ [_]). rewrite fields_bytes_one. apply parses_sized; [apply ends_string|done|done].
Qed.
Lemma ends_skipped sz fd (h : nat → decoder A) fs :
  sz = Z.of_nat (field_size fd) → sz < size_max → ends (h (field_size fd)) (fields_bytes fs) b →
  ends (step_sized sz decode_void ≫= h) (fields_bytes (fd :: fs)) b.
Proof.
  intros -> Hm. apply (ends_then _ _ [_]). rewrite fields_bytes_one, <-length_field_bytes. apply parses_sized; [done|done|by rewrite length_field_bytes].
Qed.
Lemma ends_rest s g : ends (g s) [] b → ends (step decode_string ≫= g) (fields_bytes [raw_string s]) b.
Proof. rewrite fields_bytes_one. apply ends_bind_last. auto with wire. Qed.
Lemma ends_expect_byte byte (h : unit → decoder A) fs :
  byte_ok byte → ends (h ()) (fields_bytes fs) b → ends (expect_byte byte ≫= h) (fields_bytes (fixed_int 1 byte :: fs)) b.
Proof.
  intros Hb. apply (ends_then _ _ [_]). rewrite <-(app_nil_r (fields_bytes _)). eapply parses_bind; [auto with wire|].
  rewrite Z.eqb_refl. apply parses_ret.
Qed.
Lemma ends_expect_varint v (h : unit → decoder A) fs :
  varint_ok v → ends (h ()) (fields_bytes fs) b → ends (expect_varint v ≫= h) (fields_bytes (varint v ++ fs)) b.
Proof.
  intros Hv. apply ends_then. rewrite <-(app_nil_r (fields_bytes _)). eapply parses_bind; [auto with wire|].
  rewrite Z.eqb_refl. apply parses_ret.
Qed.
Lemma ends_mret_bind {B} (x : B) (h : B → decoder A) bytes : ends (h x) bytes b → ends (mret x ≫= h) bytes b.
Proof. done. Qed.
Lemma ends_at_end (h : bool → decoder A) bytes :
  ends (h (bool_decide (bytes = []))) bytes b → ends (at_end ≫= h) bytes b.
Proof. done. Qed.
End steps.

Ltac in_range := first [done | by eauto | unfold in_width, varint_ok, string_ok, size_max in *; cbn in *; lia].

Lemma ends_assoc {A B C} (d : decoder A) (f : A → decoder B) (g : B → decoder C) bytes c :
  ends (d ≫= λ a, f a ≫= g) bytes c → ends ((d ≫= f) ≫= g) bytes c.
Proof. unfold ends, mbind, action_bind. by destruct (d bytes) as [? []]. Qed.

(** one field after the other *)
Ltac read_field :=
  lazymatch goal with
  | |- ends (expect_byte _ ≫= _) _ _ => apply ends_expect_byte
  | |- ends (step (decode_fixed_int _) ≫= _) _ _ => apply ends_fixed_int
  | |- ends (expect_varint _ ≫= _) _ _ => apply ends_expect_varint
  | |- ends (step decode_varint ≫= _) _ _ => apply ends_varint
  | |- ends (step decode_var_string ≫= _) _ _ => apply ends_var_string
  | |- ends (step decode_nul_term_string ≫= _) _ _ => apply ends_nul_term_string
  | |- ends (step decode_string ≫= _) _ _ => apply ends_rest
  | |- ends (step_sized _ decode_string ≫= _) _ _ => apply ends_sized_string
  | |- ends (step_sized _ decode_void ≫= _) _ _ => apply ends_skipped
  | |- ends (mret _ ≫= _) _ _ => apply ends_mret_bind
  | |- ends ((_ ≫= _) ≫= _) _ _ => apply ends_assoc
  end; [in_range.. |].
Ltac read_fields := rewrite <-?app_assoc; cbn [app]; repeat read_field.

(** ** Server messages *)
#[export] Program Instance auth_method_data_laws : CodecLaws auth_method_data := { codec_ok caps v := True }.
Next Obligation.
  intros caps [data] _. eexists. split; [done|]. cbn [decode_value auth_method_data_codec]. unfold server_auth_method_data_fields, decode_server_auth_method_data. read_fields. done.
Qed.

Definition server_error_ok (caps : Z) (v : server_error) : Prop :=
  in_width 16 (err_error_code v) ∧ (if has caps protocol_41 then length (err_sql_state v) = 5%nat else err_sql_state v = []).
#[export] Program Instance server_error_laws : CodecLaws server_error := { codec_ok := server_error_ok }.
Next Obligation.
  intros caps [code message state] [Hc Hs]. cbn [err_error_code err_sql_state] in Hc, Hs. eexists. split; [done|]. cbn [decode_value server_error_codec]. unfold server_error_fields, decode_server_error.
  cbn [err_error_code err_message err_sql_state]. destruct (has caps protocol_41).
  - read_fields. done.
  - subst. read_fields. done.
Qed.

Definition status_ok (caps : Z) (v : server_ok) : Prop :=
  if has caps protocol_41 then in_width 16 (ok_status_flags v) ∧ in_width 16 (ok_warning_count v)
  else if has caps transactions then in_width 16 (ok_status_flags v) ∧ ok_warning_count v = 0
  else ok_status_flags v = 0 ∧ ok_warning_count v = 0.

Definition server_ok_ok (caps : Z) (v : server_ok) : Prop :=
  varint_ok (ok_affected_rows v) ∧ varint_ok (ok_last_insert_id v) ∧ status_ok caps v ∧
  string_ok (ok_message v) ∧ string_ok (ok_session_changes v) ∧
  (has caps session_track && Z.testbit (ok_status_flags v) session_state_changed = false → ok_session_changes v = []).

(** the fields of the status are read back *)
Definition status_fields (caps : Z) (v : server_ok) : list field :=
  if has caps protocol_41 || has caps transactions then
    fixed_int 2 (ok_status_flags v) :: (if has caps protocol_41 then [fixed_int 2 (ok_warning_count v)] else [])
  else [].
Lemma parses_status caps v :
  status_ok caps v → parses (decode_status caps) (fields_bytes (status_fields caps v)) (ok_status_flags v, ok_warning_count v).
Proof.
  unfold status_ok, decode_status, status_fields. destruct (has caps protocol_41); cbn [orb].
  - intros [Hs Hw]. apply (parses_then _ _ [_] [_] (ok_status_flags v)); [auto with wire|].
    apply parses_and. auto with wire.
  - destruct (has caps transactions); intros [Hs ->]; [|by rewrite Hs; apply parses_ret].
    apply (parses_then _ _ [_] [] (ok_status_flags v)); [auto with wire|apply parses_ret].
Qed.

Lemma u64_varint v : varint_ok v → u64 v = v.
Proof. intros. apply wrap_small. unfold in_width, varint_ok in *. lia. Qed.

(** nothing is read of an empty buffer *)
Lemma try_nothing : try_step decode_var_string [] = ([], Ok None).
Proof. done. Qed.

#[export] Program Instance server_ok_laws : CodecLaws server_ok := { codec_ok := server_ok_ok }.
Next Obligation.
  intros caps v (Ha & Hi & Hst & Hm & Hsc & Hnone). eexists. split; [done|]. cbn [decode_value server_ok_codec].
  unfold server_ok_fields, decode_server_ok. fold (status_fields caps v). read_fields.
  apply (ends_then _ _ (status_fields caps v) _ (ok_status_flags v, ok_warning_count v)); [by apply parses_status|].
  rewrite !u64_varint by done. destruct (negb (bool_decide (ok_message v = [])) || has caps session_track) eqn:E.
  - apply (ends_then _ _ _ _ (Some (ok_message v))); [apply parses_try_step; auto with wire|]. cbn [default].
    destruct (has caps session_track && Z.testbit (ok_status_flags v) session_state_changed) eqn:Es.
    + rewrite <-(app_nil_r (var_string _)). read_fields. by destruct v.
    + read_fields. specialize (Hnone eq_refl). destruct v. cbn in Hnone. by subst.
  - apply orb_false_iff in E as [Em Et]. apply negb_false_iff, bool_decide_eq_true in Em.
    apply (ends_bind_last _ _ [] None); [apply try_nothing|]. cbn [default]. rewrite Et in Hnone. cbn in Hnone.
    specialize (Hnone eq_refl). destruct v. cbn in Hnone, Em. by subst.
Qed.

(** the intermediate and the final packet of a result set, as this server announces them *)
Definition server_eof_ok (caps : Z) (e : server_eof) : Prop :=
  let v := eof_ok e in
  if has caps text_result_with_session_tracking then
    varint_ok (ok_affected_rows v) ∧ varint_ok (ok_last_insert_id v) ∧ status_ok caps v ∧
    has caps session_track = false ∧ ok_session_changes v = []
  else if has caps protocol_41 then
    ok_affected_rows v = 0 ∧ ok_last_insert_id v = 0 ∧ in_width 16 (ok_status_flags v) ∧
    in_width 16 (ok_warning_count v) ∧ ok_message v = [] ∧ ok_session_changes v = []
  else v = default_ok.
#[export] Program Instance server_eof_laws : CodecLaws server_eof := { codec_ok := server_eof_ok }.
Next Obligation.
  intros caps [v] Hv. eexists. split; [done|]. cbn [decode_value server_eof_codec]. unfold server_eof_ok in Hv. cbn [eof_ok] in Hv |- *.
  unfold server_eof_fields, decode_server_eof. fold (status_fields caps v). read_fields.
  destruct (has caps text_result_with_session_tracking).
  - destruct Hv as (Ha & Hi & Hst & Ht & Hsc). rewrite Ht. read_fields.
    apply (ends_then _ _ (status_fields caps v) _ (ok_status_flags v, ok_warning_count v)); [by apply parses_status|].
    read_fields. rewrite !u64_varint by done. destruct v. cbn in Hsc. by subst.
  - destruct (has caps protocol_41); [|by subst].
    destruct Hv as (Ha & Hi & Hst & Hw & Hm & Hsc). read_fields. destruct v. cbn in *. by subst.
Qed.

Definition column_meta_ok (caps : Z) (v : column_meta) : Prop :=
  has caps protocol_41 = true ∧
  string_ok (cm_catalog v) ∧ string_ok (cm_schema v) ∧ string_ok (cm_table v) ∧ string_ok (cm_orig_table v) ∧
  string_ok (cm_name v) ∧ string_ok (cm_orig_name v) ∧ in_width 16 (cm_collation v) ∧
  in_width 32 (cm_column_length v) ∧ in_width 8 (cm_type v) ∧ in_width 15 (cm_flags v) ∧ in_width 8 (cm_decimals v).
#[export] Program Instance column_meta_laws : CodecLaws column_meta := { codec_ok := column_meta_ok }.
Next Obligation.
  intros caps v (Hc & ? & ? & ? & ? & ? & ? & ? & ? & ? & Hf & ?). eexists. split; [done|]. cbn [decode_value column_meta_codec].
  unfold column_meta_fields, decode_column_meta. rewrite Hc. cbn [negb].
  assert (in_width 16 (cm_flags v)) by (by apply (in_width_mono 15)). read_fields.
  unfold column_flags. rewrite wrap_small by done. by destruct v.
Qed.

(** a field of a row takes a byte or more *)
Lemma row_field_size f : (0 < encoded_size (row_field f))%nat.
Proof.
  destruct f as [s|]; [|by cbn; lia]. unfold row_field, var_string. unfold varint. repeat case_match; cbn; lia.
Qed.
(** a string is not taken for a null *)
Lemma null_not_string s rest : string_ok s → try_step decode_null (fields_bytes (var_string s) ++ rest) = (fields_bytes (var_string s) ++ rest, Ok None).
Proof.
  intros Hs. unfold var_string, varint. unfold string_ok in Hs.
  rewrite wrap_small, to_signed_small by (unfold in_width; lia). change (Z.shiftl 1 16) with 65536. change (Z.shiftl 1 24) with 16777216.
  destruct (Z.ltb_spec (Z.of_nat (length s)) 251); [|by repeat case_match].
  unfold try_step, step, step_sized. rewrite bool_decide_true by done. cbn.
  rewrite Z.mod_small by lia. unfold nul_byte. by rewrite (proj2 (Z.eqb_neq _ _)) by lia.
Qed.

Lemma decode_row_ok fields fuel :
  Forall (λ f, ∀ s, f = Some s → string_ok s) fields → (encoded_size (mjoin (row_field <$> fields)) ≤ fuel)%nat →
  ends (decode_row_fields fuel) (fields_bytes (mjoin (row_field <$> fields))) fields.
Proof.
  revert fuel. induction fields as [|f fields IH]; intros fuel Hf Hs; [by destruct fuel|].
  apply Forall_cons in Hf as [Hf Hfs].
  change (mjoin (row_field <$> f :: fields)) with (row_field f ++ mjoin (row_field <$> fields)) in Hs |- *.
  pose proof (row_field_size f). unfold encoded_size in *. rewrite sum_list_with_app in Hs.
  destruct fuel as [|fuel]; [lia|]. cbn [decode_row_fields]. apply ends_at_end. rewrite fields_bytes_app.
  rewrite bool_decide_false by (intros [E _]%app_eq_nil; apply (f_equal length) in E; rewrite length_fields_bytes in E; cbn in E; unfold encoded_size in E; lia).
  destruct f as [s|].
  - unfold ends. rewrite (action_bind_eq _ _ _ _ _ (null_not_string s _ (Hf s eq_refl))).
    rewrite (action_bind_eq _ _ _ (fields_bytes (mjoin (row_field <$> fields))) (Some s)).
    + eapply ends_bind_last; [apply IH; [done|lia]|done].
    + apply parses_and. auto with wire.
  - eapply ends_bind; [apply parses_try_step, parses_null|].
    eapply (ends_mret_bind). eapply ends_bind_last; [apply IH; [done|lia]|done].
Qed.

(** a row of any bytes: every field takes one, so the loop ends before its fuel *)
Definition takes_a_byte {A} (d : decoder A) : Prop := ∀ buf,
  match d buf with
  | (rest, Ok _) => (length rest < length buf)%nat
  | (_, Err e) => ∃ code, e = system_error code
  end.
Lemma varint_takes_a_byte : takes_a_byte decode_varint.
Proof.
  intros [|b buf]; [by eexists|]. unfold decode_varint. rewrite (action_bind_eq _ _ _ _ _ (step_first_byte b buf)).
  assert (∀ n, match step (decode_fixed_int n) buf with
    | (rest, Ok _) => (length rest < length (b :: buf))%nat | (_, Err e) => ∃ code, e = system_error code end) as Hstep.
  { intros n. pose proof (decode_fixed_extract n buf) as He. unfold extract_fixed_int_from_byte_span_checked in He.
    destruct (Nat.ltb_spec (length buf) n); rewrite He; [by eexists|]. rewrite length_drop. cbn. lia. }
  destruct (b <? 251); [cbn; lia|]. destruct (b =? varint_16); [apply (Hstep 2%nat)|]. destruct (b =? varint_24); [apply (Hstep 3%nat)|].
  destruct (b =? varint_64); [|by eexists]. pose proof (Hstep 8%nat) as H8. unfold mbind, action_bind.
  by destruct (step (decode_fixed_int 8) buf) as [rest [v|e]].
Qed.
Lemma var_string_takes_a_byte : takes_a_byte decode_var_string.
Proof.
  intros buf. unfold decode_var_string, mbind, action_bind, step at 1, step_sized at 1. rewrite bool_decide_true by done.
  pose proof (varint_takes_a_byte buf) as Hv. destruct (decode_varint buf) as [rest [len|e]]; [|done].
  unfold step_sized. destruct (bool_decide _); [cbn; lia|].
  destruct (Z.ltb_spec (Z.of_nat (length rest)) (u64 len)); [by eexists|]. cbn [decode_string app]. rewrite length_drop. lia.
Qed.
Lemma decode_row_fields_nofuel fuel buf :
  (length buf ≤ fuel)%nat → nofuel (decode_row_fields fuel buf).2.
Proof.
  revert buf. induction fuel as [|fuel IH]; intros buf Hf.
  - destruct buf; [done|]. cbn in Hf. lia.
  - cbn [decode_row_fields]. unfold at_end. rewrite gets_bind. case_bool_decide as E; [done|].
    assert (∀ value rest, (length rest < length buf)%nat → nofuel ((rest_fields ← decode_row_fields fuel; mret (value :: rest_fields)) rest).2) as Hnext.
    { intros value rest Hr. specialize (IH rest ltac:(lia)). unfold mbind, action_bind, nofuel in *.
      by destruct (decode_row_fields fuel rest) as [r [fs|e]]. }
    destruct (try_step decode_null buf) as [rest null_res] eqn:Et.
    assert ((∃ b, buf = b :: rest ∧ null_res = Ok (Some ())) ∨ rest = buf ∧ null_res = Ok None) as [(b & -> & ->)|[-> ->]].
    { unfold try_step, step, step_sized in Et. rewrite bool_decide_true in Et by done.
      destruct buf as [|b buf']; [by injection Et as <- <-; right|]. cbn [decode_null] in Et.
      destruct (negb (b =? nul_byte)); injection Et as <- <-; [by right|]. left. eauto. }
    + rewrite (action_bind_eq _ _ _ _ _ Et). change (nofuel ((rest_fields ← decode_row_fields fuel; mret (None :: rest_fields)) rest).2).
      apply Hnext. cbn. lia.
    + rewrite (action_bind_eq _ _ _ _ _ Et). clear Et. pose proof (var_string_takes_a_byte buf) as Hv.
      unfold nofuel, mbind at 1, action_bind at 1. unfold mbind at 1, action_bind at 1. unfold step, step_sized.
      rewrite bool_decide_true by done. destruct (decode_var_string buf) as [rest [s|e]]; cbn [mret action_ret].
      * by apply Hnext.
      * destruct Hv as [code ->]. cbn. done.
Qed.
Lemma decode_row_nofuel buf : nofuel (decode buf 0 : result row).
Proof.
  unfold decode. cbn [decode_value row_codec]. unfold decode_row. pose proof (decode_row_fields_nofuel (length buf) buf ltac:(done)) as Hf.
  unfold nofuel, mbind, action_bind in *. destruct (decode_row_fields (length buf) buf) as [rest [fs|e]]; [done|].
  cbn in *. congruence.
Qed.

Definition row_ok (caps : Z) (v : row) : Prop := Forall (λ f, ∀ s, f = Some s → string_ok s) (row_fields v).
#[export] Program Instance row_laws : CodecLaws row := { codec_ok := row_ok }.
Next Obligation.
  intros caps [fields] Hf. eexists. split; [done|]. unfold ends. cbn [decode_value row_codec row_fields].
  unfold decode_row. rewrite length_fields_bytes. apply ends_bind_last with fields; [by apply decode_row_ok|done].
Qed.

(** ** Client messages *)
#[export] Program Instance client_quit_laws : CodecLaws client_quit := { codec_ok caps v := True }.
Next Obligation. intros caps [] _. by eexists. Qed.
#[export] Program Instance client_reset_connection_laws : CodecLaws client_reset_connection := { codec_ok caps v := True }.
Next Obligation. intros caps [] _. by eexists. Qed.
#[export] Program Instance client_ping_laws : CodecLaws client_ping := { codec_ok caps v := True }.
Next Obligation. intros caps [] _. by eexists. Qed.

(** queries without attributes: no server here announces them *)
Definition client_query_ok (caps : Z) (v : client_query) : Prop := cq_values v = [].
#[export] Program Instance client_query_laws : CodecLaws client_query := { codec_ok := client_query_ok }.
Next Obligation.
  intros caps [statement values] Hv. unfold client_query_ok in Hv. cbn [cq_values] in Hv. subst. cbn [accumulate_fields client_query_codec decode_value].
  unfold client_query_fields, decode_client_query. cbn [cq_values cq_statement].
  destruct (has caps query_attributes); (eexists; split; [done|]); [|read_fields; done].
  cbn [app param_values_fields foldM mbind result_bind length]. rewrite bool_decide_true by done. read_fields.
  change (negb (1 =? 1)) with false. change (0 <? Z.of_nat 0) with false. read_fields. done.
Qed.

Lemma land_bits caps v : Z.land caps v = Z.land v caps.
Proof. apply Z.land_comm. Qed.
(** the low and the high half of the capabilities *)
Lemma capability_halves v : in_width 32 v →
  fields_bytes [fixed_int 4 v] = fields_bytes [fixed_int 2 (v mod 2 ^ 16); fixed_int 2 (v / 2 ^ 16)] ∧
  in_width 16 (v mod 2 ^ 16) ∧ in_width 16 (v / 2 ^ 16) ∧
  Z.lor (v mod 2 ^ 16) (Z.shiftl (v / 2 ^ 16) 16) = v.
Proof.
  intros [Hlo Hhi]. split; [|split; [by apply Z.mod_pos_bound|split]].
  - unfold fields_bytes. cbn [fmap list_fmap mjoin list_join field_bytes le_split app]. change (2 ^ 16) with 65536.
    f_equal; [dlia|]. f_equal; [dlia|]. f_equal; [dlia|]. f_equal. dlia.
  - split; [by apply Z.div_pos|]. apply Z.div_lt_upper_bound; [done|]. by change (2 ^ 16 * 2 ^ 16) with (2 ^ 32).
  - rewrite Z.shiftl_mul_pow2 by done. rewrite <-Z.add_nocarry_lor.
    + rewrite Z.add_comm, Z.mul_comm. symmetry. by apply Z.div_mod.
    + apply Z.bits_inj'. intros n Hn. rewrite Z.land_spec, Z.bits_0. rewrite <-Z.shiftl_mul_pow2 by done.
      destruct (Z.ltb_spec n 16).
      * by rewrite Z.shiftl_spec_low, andb_false_r.
      * by rewrite Z.mod_pow2_bits_high by lia.
Qed.

Lemma low_bit v n : 0 ≤ n < 16 → Z.testbit (v mod 2 ^ 16) n = Z.testbit v n.
Proof. intros []. by apply Z.mod_pow2_bits_low. Qed.
Lemma fields_not_empty f fs fs' : (0 < field_size f)%nat → fields_bytes (fs ++ f :: fs') ≠ [].
Proof.
  intros Hf E. apply (f_equal length) in E. rewrite length_fields_bytes in E. unfold encoded_size in E.
  rewrite sum_list_with_app in E. cbn in E. lia.
Qed.

Definition auth_data_ok (varint_length byte_length : bool) (data : list Z) : Prop :=
  if varint_length then string_ok data else if byte_length then (length data < 256)%nat else 0 ∉ data.
Definition auth_data_fields (varint_length byte_length : bool) (data : list Z) : list field :=
  if varint_length then var_string data
  else if byte_length then [fixed_int 1 (Z.of_nat (length data)); raw_string data]
  else nul_term_string data.
Lemma parses_auth_data varint_length byte_length data :
  auth_data_ok varint_length byte_length data →
  parses (decode_auth_method_data varint_length byte_length) (fields_bytes (auth_data_fields varint_length byte_length data)) data.
Proof.
  unfold auth_data_ok, decode_auth_method_data, auth_data_fields. destruct varint_length; [auto with wire|].
  destruct byte_length; [|auto with wire]. intros Hd.
  apply (parses_then _ _ [_] [_] (Z.of_nat (length data))); [apply parses_step, parses_fixed_int; in_range|].
  rewrite fields_bytes_one. apply parses_sized; [apply ends_string|done|unfold size_max; lia].
Qed.

(** a name that may be cut off is there *)
Lemma ends_username {A} (b : A) username (handler : list Z → error → decoder (option (list Z))) f fs :
  0 ∉ username → ends (f (Some username)) (fields_bytes fs) b →
  ends ((λ buf, match step decode_nul_term_string buf with
                | (rest, Ok username) => (rest, Ok (Some username))
                | (rest, Err e) => handler rest e buf
                end) ≫= f) (fields_bytes (nul_term_string username ++ fs)) b.
Proof.
  intros Hu. apply ends_then. intros rest. by rewrite (parses_step _ _ _ (parses_nul_term_string _ Hu)).
Qed.

Definition client_greeting_ok (caps : Z) (v : client_greeting) : Prop :=
  let shared_caps := Z.land (cg_capabilities v) caps in
  in_width 32 (cg_capabilities v) ∧ has shared_caps protocol_41 = true ∧
  in_width 32 (cg_max_packet_size v) ∧ in_width 8 (cg_collation v) ∧ 0 ∉ cg_username v ∧
  (has shared_caps ssl = true → cg_username v ≠ []) ∧
  auth_data_ok (has shared_caps client_auth_method_data_varint) (has shared_caps secure_connection) (cg_auth_method_data v) ∧
  (if has shared_caps connect_with_schema then 0 ∉ cg_schema v else cg_schema v = []) ∧
  (if has shared_caps plugin_auth then 0 ∉ cg_auth_method_name v else cg_auth_method_name v = []) ∧
  (if has shared_caps connect_attributes then string_ok (cg_attributes v) else cg_attributes v = []).
#[export] Program Instance client_greeting_laws : CodecLaws client_greeting := { codec_ok := client_greeting_ok }.
Next Obligation.
  intros caps v (Hcaps & H41 & Hmax & Hcol & Hu & Hssl & Hauth & Hschema & Hname & Hattr).
  destruct (capability_halves _ Hcaps) as (Hbytes & Hlo & Hhi & Hlor).
  eexists. split; [done|]. cbn [decode_value client_greeting_codec]. unfold client_greeting_fields, decode_client_greeting.
  set (shared_caps := Z.land (cg_capabilities v) caps) in *. rewrite H41.
  assert (has shared_caps ssl && bool_decide (cg_username v = []) = false) as ->.
  { destruct (has shared_caps ssl); [|done]. apply bool_decide_eq_false. by apply Hssl. }
  set (rest := nul_term_string _ ++ _). set (others := [fixed_int 4 (cg_max_packet_size v); _; _]).
  change (fields_bytes _) with (fields_bytes ([fixed_int 4 (cg_capabilities v)] ++ others ++ rest)). rewrite fields_bytes_app, Hbytes, <-fields_bytes_app.
  read_fields.
  assert (has (Z.land caps (cg_capabilities v mod 2 ^ 16)) protocol_41 = true) as ->.
  { rewrite Z.land_spec, low_bit by done. unfold shared_caps in H41. rewrite Z.land_spec in H41. by rewrite andb_comm. }
  read_fields. rewrite Hlor, (Z.land_comm caps). fold shared_caps. unfold others, rest. read_fields.
  apply (ends_username v (cg_username v) (λ rest e buf, if has shared_caps ssl then (buf, Ok None) else (rest, Err e))); [done|].
  eapply (ends_then _ _ (auth_data_fields _ _ _)); [by apply parses_auth_data|].
  apply (ends_then _ _ _ _ (cg_schema v)).
  { destruct (has shared_caps connect_with_schema); [auto with wire|by rewrite Hschema; apply parses_ret]. }
  (* whether a name follows is seen from what is left *)
  assert (∀ fs (g : list Z → decoder client_greeting), 0 ∉ cg_auth_method_name v → ends (g (cg_auth_method_name v)) (fields_bytes fs) v →
    ends ((ended ← at_end; if ended : bool then mret [] else step decode_nul_term_string) ≫= g)
      (fields_bytes (nul_term_string (cg_auth_method_name v) ++ fs)) v) as Hnamed.
  { intros fs g Hn Hg. read_field. apply ends_at_end.
    rewrite bool_decide_false by (apply (fields_not_empty (fixed_int 1 0) [raw_string _]); cbn; lia). by read_field. }
  assert (string_ok (cg_attributes v) → ∀ g : list Z → decoder client_greeting, ends (g (cg_attributes v)) [] v →
    ends (step decode_var_string ≫= g) (fields_bytes (var_string (cg_attributes v))) v) as Hlast.
  { intros Ha g Hg. rewrite <-(app_nil_r (var_string _)). by read_field. }
  destruct (has shared_caps plugin_auth), (has shared_caps connect_attributes); cbn [andb negb app].
  - apply Hnamed; [done|]. apply Hlast; [done|]. by destruct v.
  - destruct (bool_decide (cg_auth_method_name v = [])) eqn:E; cbn [negb].
    + apply bool_decide_eq_true in E. read_field. apply ends_at_end. rewrite bool_decide_true by done. read_fields.
      destruct v. cbn in E, Hattr. by subst.
    + rewrite <-(app_nil_r (nul_term_string _)). apply Hnamed; [done|]. read_fields. destruct v. cbn in Hattr. by subst.
  - read_fields. apply Hlast; [done|]. destruct v. cbn in Hname. by subst.
  - read_fields. destruct v. cbn in Hname, Hattr. by subst.
Qed.

Definition client_change_user_ok (caps : Z) (v : client_change_user) : Prop :=
  0 ∉ cu_username v ∧ auth_data_ok false (has caps secure_connection) (cu_auth_method_data v) ∧ 0 ∉ cu_schema v ∧
  in_width 16 (cu_collation v) ∧
  (if has caps plugin_auth then 0 ∉ cu_auth_method_name v else cu_auth_method_name v = []) ∧
  (if has caps connect_attributes then string_ok (cu_attributes v) else cu_attributes v = []).
#[export] Program Instance client_change_user_laws : CodecLaws client_change_user := { codec_ok := client_change_user_ok }.
Next Obligation.
  intros caps v (Hu & Ha & Hs & Hc & Hn & Hattr). eexists. split; [done|]. cbn [decode_value client_change_user_codec].
  unfold client_change_user_fields, decode_client_change_user. read_fields.
  eapply (ends_then _ _ (auth_data_fields false _ _)); [by apply parses_auth_data|]. read_fields.
  apply ends_at_end. destruct (negb (cu_collation v =? 0) || has caps plugin_auth || has caps connect_attributes) eqn:E.
  - rewrite bool_decide_false by (apply (fields_not_empty (fixed_int 2 _) []); cbn; lia). read_fields.
    apply (ends_then _ _ _ _ (cu_auth_method_name v)).
    { destruct (has caps plugin_auth); [auto with wire|by rewrite Hn; apply parses_ret]. }
    rewrite <-(app_nil_r (if has caps connect_attributes then _ else _)).
    apply (ends_then _ _ _ _ (cu_attributes v)); [|by destruct v].
    destruct (has caps connect_attributes); [auto with wire|by rewrite Hattr; apply parses_ret].
  - apply orb_false_iff in E as [[Hz Hp]%orb_false_iff Hat]. apply negb_false_iff, Z.eqb_eq in Hz. rewrite Hp in Hn. rewrite Hat in Hattr.
    rewrite bool_decide_true by done. destruct v. cbn in *. by subst.
Qed.

Definition client_binlog_dump_ok (caps : Z) (v : client_binlog_dump) : Prop :=
  in_width 32 (bd_position v) ∧ in_width 16 (bd_flags v) ∧ in_width 32 (bd_server_id v).
#[export] Program Instance client_binlog_dump_laws : CodecLaws client_binlog_dump := { codec_ok := client_binlog_dump_ok }.
Next Obligation.
  intros caps v (Hp & Hf & Hs). eexists. split; [done|]. cbn [decode_value client_binlog_dump_codec]. unfold client_binlog_dump_fields, decode_client_binlog_dump. read_fields. by destruct v.
Qed.

Definition client_binlog_dump_gtid_ok (caps : Z) (v : client_binlog_dump_gtid) : Prop :=
  in_width 16 (bg_flags v) ∧ in_width 32 (bg_server_id v) ∧ in_width 64 (bg_position v) ∧
  Z.of_nat (length (bg_filename v)) < 2 ^ 32 ∧ Z.of_nat (length (bg_sids v)) < 2 ^ 32 ∧
  (Z.land (bg_flags v) flag_through_gtid = 0 → bg_sids v = []).
#[export] Program Instance client_binlog_dump_gtid_laws : CodecLaws client_binlog_dump_gtid := { codec_ok := client_binlog_dump_gtid_ok }.
Next Obligation.
  intros caps v (Hf & Hs & Hp & Hl & Hsl & Hn). eexists. split; [done|]. cbn [decode_value client_binlog_dump_gtid_codec]. unfold client_binlog_dump_gtid_fields, decode_client_binlog_dump_gtid. read_fields.
  destruct (Z.eqb_spec (Z.land (bg_flags v) flag_through_gtid) 0) as [E|E]; cbn [negb].
  - specialize (Hn E). destruct v. cbn in Hn. by subst.
  - read_fields. by destruct v.
Qed.

(** ** A greeting and the frame it travels in *)
Module MessageExamples.
Definition sample_capabilities : Z := 2 ^ protocol_41 + 2 ^ secure_connection + 2 ^ plugin_auth.
Definition sample_client_greeting : client_greeting :=
  mk_client_greeting (sample_capabilities + 2 ^ ssl) 16777216 45 (text "rpl") [1; 2; 3; 0; 255] [] (text "caching_sha2_password") [].

Lemma sample_client_greeting_ok : client_greeting_ok sample_capabilities sample_client_greeting.
Proof.
  unfold client_greeting_ok. cbv zeta.
  replace (Z.land _ sample_capabilities) with sample_capabilities by (by vm_compute).
  change (has sample_capabilities protocol_41) with true. change (has sample_capabilities ssl) with false.
  change (has sample_capabilities client_auth_method_data_varint) with false.
  change (has sample_capabilities secure_connection) with true. change (has sample_capabilities connect_with_schema) with false.
  change (has sample_capabilities plugin_auth) with true. change (has sample_capabilities connect_attributes) with false.
  split_and!; try done; try (by eapply bool_decide_unpack; vm_compute).
  unfold auth_data_ok. cbn. lia.
Qed.

Lemma frame_roundtrip_witness :
  ∃ payload, encode sample_client_greeting sample_capabilities [] = Ok payload ∧
    encode (mk_frame 1 sample_client_greeting) sample_capabilities [] = Ok (frame_bytes 1 payload) ∧
    (Z.of_nat (length payload) < 2 ^ 24 →
       decode (frame_bytes 1 payload ++ [7]) sample_capabilities = Ok (mk_frame 1 sample_client_greeting)).
Proof. exact (frame_roundtrip sample_capabilities 1 sample_client_greeting [7] sample_client_greeting_ok ltac:(done)). Defined.

(** an eight-byte integer *)
Lemma varint_packed_int_witness :
  ∃ v rest, extract_packed_int_from_byte_span_checked [254; 1; 0; 0; 0; 0; 0; 0; 128; 5] = Some (v, rest) ∧
    decode_varint [254; 1; 0; 0; 0; 0; 0; 0; 128; 5] = (rest, Ok (to_signed 64 v)).
Proof.
  destruct (varint_packed_int [254; 1; 0; 0; 0; 0; 0; 0; 128; 5]) as [Hd _]; [by eapply bool_decide_unpack; vm_compute|done|].
  by eexists _, _.
Defined.
End MessageExamples.
