(* ===== verification/MiniMysql.v ===== *)
(** * The test server

    Models src/src/minimysql: [connection_context], the authenticator, the reading and writing
    of frames, the sample events and the [session] of network_service.cpp, a coroutine that
    serves one client.

    OpenSSL and Boost.Asio are not under src/: a digest is the class [OpenSsl] with laws, and a
    socket with its timers the class [AsioSocket], whose operations yield bytes or an error
    code.  What a session prints is left out. *)

From S2P Require Import Prelude ByteSpan Gtid Util Backend Wire Messages.

Local Open Scope Z_scope.

Abbreviation network_buffer := (list Z).
Definition max_payload_size : Z := 16 * 1024 * 1024.

(** ** caching_sha2_password_authenticator.cpp *)
Class OpenSsl := {
  EVP_MD_CTX : Type;
  EVP_MD_CTX_new : option EVP_MD_CTX;
  EVP_DigestInit_sha256 : EVP_MD_CTX → option EVP_MD_CTX;
  EVP_DigestUpdate : EVP_MD_CTX → list Z → option EVP_MD_CTX;
  EVP_DigestFinal : EVP_MD_CTX → option (list Z)
}.
(** what is documented: a context accumulates its input, and yields the hash of all of it *)
Class OpenSslLaws `{OpenSsl} := {
  sha256 : list Z → list Z;
  digested : EVP_MD_CTX → list Z;
  init_digested c c' : EVP_DigestInit_sha256 c = Some c' → digested c' = [];
  update_digested c d c' : EVP_DigestUpdate c d = Some c' → digested c' = digested c ++ d;
  final_digest c h : EVP_DigestFinal c = Some h → h = sha256 (digested c);
  sha256_length s : length (sha256 s) = 32%nat
}.

Section digest.
Context `{OpenSsl}.

Definition digest_context : result EVP_MD_CTX :=
  impl ← or_raise EVP_MD_CTX_new (runtime_error "failed to create digest context");
  or_raise (EVP_DigestInit_sha256 impl) (runtime_error "failed to initialize digest context").
Definition digest_update (ctx : EVP_MD_CTX) (data : list Z) : result EVP_MD_CTX :=
  or_raise (EVP_DigestUpdate ctx data) (runtime_error "failed to update digest context").
Definition digest_finalize (ctx : EVP_MD_CTX) : result (list Z) :=
  or_raise (EVP_DigestFinal ctx) (runtime_error "cannot finalize digest context").
Definition calculate_digest (data : list Z) : result (list Z) :=
  ctx ← digest_context; ctx ← digest_update ctx data; digest_finalize ctx.

Definition scramble (password salt : list Z) : result (list Z) :=
  hashed ← calculate_digest password;
  double_hashed_password ← calculate_digest hashed;
  ctx ← digest_context;
  ctx ← digest_update ctx double_hashed_password;
  ctx ← digest_update ctx salt;
  salted_triple_hashed_password ← digest_finalize ctx;
  _ ← raise_if (negb (length hashed =? length salted_triple_hashed_password)%nat)
        (undefined_behaviour "assert(std::size(result) == std::size(salted_triple_hashed_password))");
  Ok (zip_with Z.lxor hashed salted_triple_hashed_password).
End digest.

(** ** connection_context *)

(** mysqld_error.h *)
Class MysqldErrors := { ER_ACCESS_DENIED_ERROR : Z; ER_UNKNOWN_COM_ERROR : Z; ER_PARSE_ERROR : Z }.

Inductive client_command_type :=
  | command_query | command_quit | command_reset_connection | command_change_user
  | command_ping | command_binlog_dump | command_binlog_dump_gtid | command_unknown.
#[export] Instance client_command_type_eq_dec : EqDecision client_command_type.
Proof. solve_decision. Defined.

Record connection_context := mk_connection_context {
  ctx_server_username : list Z;
  ctx_server_password : list Z;
  ctx_connection_id : Z;
  ctx_sequence_number : Z;
  ctx_server_capabilities : Z;
  ctx_server_auth_method : list Z;
  ctx_server_auth_method_data : list Z;
  (** what is taken from the greeting of the client *)
  ctx_client : client_greeting;
  ctx_client_command : client_command_type;
  ctx_client_statement : list Z;
  (** what is taken from a BinlogDump command *)
  ctx_binlog : client_binlog_dump
}.
Definition ctx_client_capabilities (c : connection_context) : Z := cg_capabilities (ctx_client c).

Definition set_sequence_number n c :=
  mk_connection_context (ctx_server_username c) (ctx_server_password c) (ctx_connection_id c) n
    (ctx_server_capabilities c) (ctx_server_auth_method c) (ctx_server_auth_method_data c) (ctx_client c)
    (ctx_client_command c) (ctx_client_statement c) (ctx_binlog c).
Definition set_server caps method data c :=
  mk_connection_context (ctx_server_username c) (ctx_server_password c) (ctx_connection_id c) (ctx_sequence_number c)
    caps method data (ctx_client c) (ctx_client_command c) (ctx_client_statement c) (ctx_binlog c).
Definition set_client g c :=
  mk_connection_context (ctx_server_username c) (ctx_server_password c) (ctx_connection_id c) (ctx_sequence_number c)
    (ctx_server_capabilities c) (ctx_server_auth_method c) (ctx_server_auth_method_data c) g
    (ctx_client_command c) (ctx_client_statement c) (ctx_binlog c).
Definition set_command command statement binlog c :=
  mk_connection_context (ctx_server_username c) (ctx_server_password c) (ctx_connection_id c) (ctx_sequence_number c)
    (ctx_server_capabilities c) (ctx_server_auth_method c) (ctx_server_auth_method_data c) (ctx_client c)
    command statement binlog.

(** the constructor, with the counter of the connections of the process *)
Definition make_connection_context (server_username server_password : list Z) (next_connection_id : Z)
    : connection_context * Z :=
  (mk_connection_context server_username server_password next_connection_id 0 0 [] []
     (mk_client_greeting 0 0 0 [] [] [] [] []) command_unknown [] (mk_client_binlog_dump 0 0 [] 0),
   u32 (next_connection_id + 1)).

Definition get_shared_capabilities (c : connection_context) : Z :=
  Z.land (ctx_client_capabilities c) (ctx_server_capabilities c).
Definition check_shared_plugin_auth_supported c : bool := has (get_shared_capabilities c) plugin_auth.
Definition check_shared_text_result_with_session_tracking_supported c : bool :=
  has (get_shared_capabilities c) text_result_with_session_tracking.
Definition check_binlog_non_blocking_dump c : bool :=
  negb (Z.land (bd_flags (ctx_binlog c)) flag_non_blocking =? 0).

Definition check_client_authentication `{OpenSsl} c : result bool :=
  if negb (bool_decide (cg_username (ctx_client c) = ctx_server_username c)) then Ok false
  else
    expected ← scramble (ctx_server_password c) (ctx_server_auth_method_data c);
    Ok (bool_decide (cg_auth_method_data (ctx_client c) = expected)).

Definition default_server_protocol_version : Z := 10.
Definition default_server_version : list Z := text "9.7.0-pbs".
Definition default_server_status_flags : Z := 0.
Definition default_server_collation : Z := 0.
Definition default_server_auth_method : list Z := text "caching_sha2_password".
Definition get_default_server_capabilities : Z :=
  foldr (λ pos caps, Z.lor (Z.shiftl 1 pos) caps) 0
    [long_password; found_rows; long_flag; connect_with_schema; no_schema; odbc; local_files; protocol_41;
     transactions; secure_connection; multi_results; ps_multi_results; plugin_auth; connect_attributes;
     client_auth_method_data_varint].

Abbreviation ctx_action := (action connection_context).

Definition generate_sequence_number : ctx_action Z :=
  n ← gets ctx_sequence_number; _ ← modify (set_sequence_number (u8 (n + 1))); mret n.
Definition validate_and_update_sequence_number (sequence_number : Z) : ctx_action unit :=
  n ← gets ctx_sequence_number;
  _ ← throw_if (negb (sequence_number =? n)) (system_error protocol_error);
  modify (set_sequence_number (u8 (n + 1))).

Definition generate_server_auth_method_data : list Z := text "01234567890123456789".

(** a message in a frame with the next number *)
Definition encode_message `{Codec T} (caps : capabilities) (message : T) : ctx_action network_buffer :=
  n ← generate_sequence_number; of_result (encode (mk_frame n message) caps []).
Definition encode_shared `{Codec T} (message : T) : ctx_action network_buffer :=
  n ← generate_sequence_number;
  caps ← gets get_shared_capabilities;
  of_result (encode (mk_frame n message) caps []).

Definition generate_encoded_server_greeting : ctx_action network_buffer :=
  _ ← modify (set_server get_default_server_capabilities default_server_auth_method generate_server_auth_method_data);
  c ← gets id;
  encode_message (ctx_server_capabilities c)
    (mk_server_greeting default_server_protocol_version default_server_version (ctx_connection_id c)
       (ctx_server_auth_method_data c ++ [0]) (ctx_server_capabilities c) default_server_collation
       default_server_status_flags (ctx_server_auth_method c)).

Definition parse_client_greeting (payload : network_buffer) : ctx_action unit :=
  caps ← gets ctx_server_capabilities;
  f ← of_result (decode (T := frame client_greeting) payload caps);
  _ ← validate_and_update_sequence_number (fr_seq_id f);
  modify (set_client (fr_payload f)).

Definition generate_encoded_fast_auth : ctx_action network_buffer := encode_shared (mk_auth_method_data [3]).
Definition generate_encoded_ok : ctx_action network_buffer := encode_shared default_ok.
Definition generate_encoded_eof : ctx_action network_buffer := encode_shared (mk_server_eof default_ok).
Definition generate_encoded_error (code : Z) (message sql_state : list Z) : ctx_action network_buffer :=
  encode_shared (mk_server_error code message sql_state).

Definition generate_encoded_access_denied `{MysqldErrors} : ctx_action network_buffer :=
  c ← gets ctx_client;
  generate_encoded_error ER_ACCESS_DENIED_ERROR
    (text "Access Denied for user '" ++ cg_username c ++ text "'@'%'") (text "28000").
Definition generate_encoded_unknown_command `{MysqldErrors} : ctx_action network_buffer :=
  generate_encoded_error ER_UNKNOWN_COM_ERROR (text "Unknown command") (text "HY000").
Definition generate_encoded_syntax_error `{MysqldErrors} : ctx_action network_buffer :=
  generate_encoded_error ER_PARSE_ERROR (text "Syntax error") (text "42000").

Definition generate_encoded_binlog_event (event_data : list Z) : ctx_action network_buffer :=
  n ← generate_sequence_number;
  caps ← gets get_shared_capabilities;
  header ← of_result (encode (mk_frame_header (Z.of_nat (length event_data) + 1) n) caps []);
  mret (header ++ [0] ++ event_data).

Definition enter_command_loop_iteration (c : connection_context) : connection_context :=
  set_sequence_number 0 (set_command command_unknown [] (ctx_binlog c) c).

(** [decode_client_command_frame], with the check of the number that follows it *)
Definition client_command_frame {T} `{Codec T} (payload : network_buffer) : ctx_action T :=
  caps ← gets get_shared_capabilities;
  f ← of_result (decode (T := frame T) payload caps);
  _ ← validate_and_update_sequence_number (fr_seq_id f);
  mret (fr_payload f).
Definition set_client_command (command : client_command_type) : ctx_action unit :=
  modify (λ c, set_command command (ctx_client_statement c) (ctx_binlog c) c).

Definition parse_client_command (payload : network_buffer) : ctx_action unit :=
  match drop frame_header_size payload with
  | [] => throw (system_error protocol_error)
  | command_byte :: _ =>
      if command_byte =? cmd_query then
        query ← client_command_frame payload;
        modify (λ c, set_command command_query (cq_statement query) (ctx_binlog c) c)
      else if command_byte =? cmd_quit then
        _ ← client_command_frame (T := client_quit) payload; set_client_command command_quit
      else if command_byte =? cmd_reset_connection then
        _ ← client_command_frame (T := client_reset_connection) payload; set_client_command command_reset_connection
      else if command_byte =? cmd_change_user then
        _ ← client_command_frame (T := client_change_user) payload; set_client_command command_change_user
      else if command_byte =? cmd_ping then
        _ ← client_command_frame (T := client_ping) payload; set_client_command command_ping
      else if command_byte =? cmd_binlog_dump then
        dump ← client_command_frame payload;
        modify (λ c, set_command command_binlog_dump (ctx_client_statement c) dump c)
      else if command_byte =? cmd_binlog_dump_gtid then
        _ ← client_command_frame (T := client_binlog_dump_gtid) payload; set_client_command command_binlog_dump_gtid
      else set_client_command command_unknown
  end.

(** *** Result sets *)

(** the types of the columns, [std::optional] or not *)
Inductive standard_type := type_uint64 | type_string.
Record column_type := mk_column_type { ct_type : standard_type; ct_optional : bool }.
Inductive value := value_uint64 (n : Z) | value_string (s : list Z).

Definition Latin1SwedishCi : Z := 0x08.
Definition Binary : Z := 0x3f.
Definition LongLong : Z := 0x08.
Definition VarString : Z := 0xfd.
Definition column_not_null : Z := 0.
Definition column_is_unsigned : Z := 5.
Definition column_numeric : Z := 14.

Record datatype_properties_type := mk_datatype_properties {
  dp_collation : Z;
  dp_column_length : Z;
  dp_field_type : Z;
  dp_column_flags : Z;
  dp_decimals : Z
}.
(** [standard_type_translator]; [digits10] of a 64-bit unsigned integer is 19 *)
Definition translate (type : standard_type) : datatype_properties_type :=
  match type with
  | type_uint64 =>
      mk_datatype_properties Binary (19 + 1) LongLong
        (Z.lor (Z.lor (Z.shiftl 1 column_numeric) (Z.shiftl 1 column_is_unsigned)) (Z.shiftl 1 column_not_null)) 0
  | type_string => mk_datatype_properties Latin1SwedishCi 255 VarString (Z.shiftl 1 column_not_null) 31
  end.
Definition get_datatype_properties (type : column_type) : datatype_properties_type :=
  let p := translate (ct_type type) in
  if ct_optional type then
    mk_datatype_properties (dp_collation p) (dp_column_length p) (dp_field_type p)
      (Z.ldiff (dp_column_flags p) (Z.shiftl 1 column_not_null)) (dp_decimals p)
  else p.

Definition textualize_value (v : option value) : option (list Z) :=
  match v with
  | None => None
  | Some (value_uint64 n) => Some (to_string n)
  | Some (value_string s) => Some s
  end.

Definition encode_resultset_number_of_columns (number_of_columns : nat) : ctx_action network_buffer :=
  encode_shared (Z.of_nat number_of_columns).
Definition encode_resultset_column_definition (db_name table_name : list Z) (column_name : list Z * list Z)
    (type : column_type) : ctx_action network_buffer :=
  let p := get_datatype_properties type in
  encode_shared (mk_column_meta (text "def") db_name table_name table_name column_name.1 column_name.2
                   (dp_collation p) (dp_column_length p) (dp_field_type p) (dp_column_flags p) (dp_decimals p)).
Definition encode_resultset_intermediate_eof : ctx_action network_buffer := encode_shared (mk_server_eof default_ok).
Definition encode_resultset_row (values : list (option value)) : ctx_action network_buffer :=
  encode_shared (mk_row (textualize_value <$> values)).
Definition encode_resultset_eof : ctx_action network_buffer :=
  encode_shared (mk_server_eof (mk_server_ok 0 0 (Z.shiftl 1 status_autocommit) 0 [] [])).

(** [f] of every element, in order *)
Fixpoint collect {S A B} (f : A → action S B) (l : list A) : action S (list B) :=
  match l with
  | [] => mret []
  | a :: l => b ← f a; bs ← collect f l; mret (b :: bs)
  end.

(** the columns are the types of a row, with their names *)
Definition encode_resultset (columns : list (column_type * (list Z * list Z))) (rows : list (list (option value)))
    : ctx_action (list network_buffer) :=
  tracking ← gets check_shared_text_result_with_session_tracking_supported;
  count ← encode_resultset_number_of_columns (length columns);
  definitions ← collect (λ column, encode_resultset_column_definition (text "db") (text "tbl") column.2 column.1) columns;
  intermediate ← (if tracking : bool then mret [] else eof ← encode_resultset_intermediate_eof; mret [eof]);
  encoded_rows ← collect encode_resultset_row rows;
  eof ← encode_resultset_eof;
  mret ([count] ++ definitions ++ intermediate ++ encoded_rows ++ [eof]).

(** ** network_io_operations.cpp *)

(** a socket with its timers.  Reading a number of bytes, or writing all of a buffer, yields an
    error code when it fails or when the timer is first. *)
Class AsioSocket (W : Type) := {
  async_read_exactly : nat → W → W * result (list Z);
  async_write : list Z → W → W * result unit
}.
Definition parse_frame_header (payload : network_buffer) : result Z :=
  h ← decode (T := frame_header) payload 0; Ok (fh_payload_size h).

Section io.
Context {W : Type} `{AsioSocket W}.

Definition async_read_mysql_frame : action W network_buffer :=
  header ← async_read_exactly frame_header_size;
  payload_size ← of_result (parse_frame_header header);
  _ ← throw_if (max_payload_size <=? payload_size) (system_error message_size);
  payload ← async_read_exactly (Z.to_nat payload_size);
  mret (header ++ payload).

Definition async_write_mysql_frame (payload : network_buffer) : action W unit :=
  _ ← throw_if (max_payload_size <=? Z.of_nat (length payload)) (system_error message_size);
  async_write payload.
Definition async_write_mysql_frames (payloads : list network_buffer) : action W unit :=
  for_each async_write_mysql_frame payloads.
End io.

(** ** sample_event_collection.cpp *)

(** [boost::algorithm::unhex] *)
Class BoostHex := { unhex : list Z → result (list Z) }.

Definition rotate_artificial : list Z := text (
  "00 00 00 00 04 01 00 00 00 28 00 00 00 00 00 00" ++
  "00 20 00 04 00 00 00 00 00 00 00 62 69 6e 6c 6f" ++
  "67 2e 30 30 30 30 30 31                        ")%string.
Definition fde : list Z := text (
  "1a b2 1c 6a 0f 01 00 00 00 7b 00 00 00 7f 00 00" ++
  "00 00 00 04 00 38 2e 34 2e 37 2d 37 00 00 00 00" ++
  "00 00 00 00 00 00 00 00 00 00 00 00 00 00 00 00" ++
  "00 00 00 00 00 00 00 00 00 00 00 00 00 00 00 00" ++
  "00 00 00 00 00 00 00 1a b2 1c 6a 13 00 0d 00 08" ++
  "00 00 00 00 04 00 04 00 00 00 63 00 04 1a 08 00" ++
  "00 00 00 00 00 02 00 00 00 0a 0a 0a 2a 2a 00 12" ++
  "34 00 0a 28 00 00 01 ee c6 67 82               ")%string.
Definition previous_gtids : list Z := text (
  "1a b2 1c 6a 23 01 00 00 00 1f 00 00 00 9e 00 00" ++
  "00 80 00 00 00 00 00 00 00 00 00 09 5d aa 16   ")%string.
Definition first_gtid_log : list Z := text (
  "52 b2 1c 6a 21 01 00 00 00 4d 00 00 00 eb 00 00" ++
  "00 00 00 01 b1 14 55 0c 5d 3d 11 f1 a7 3a 00 15" ++
  "5d f1 f4 92 01 00 00 00 00 00 00 00 02 00 00 00" ++
  "00 00 00 00 00 01 00 00 00 00 00 00 00 9c 7e f6" ++
  "5f 24 53 06 cb 17 3a 01 00 80 dc f9 5c         ")%string.
Definition first_query : list Z := text (
  "52 b2 1c 6a 02 01 00 00 00 7e 00 00 00 69 01 00" ++
  "00 00 00 09 00 00 00 00 00 00 00 04 00 00 2f 00" ++
  "00 00 00 00 00 01 20 00 a0 45 00 00 00 00 06 03" ++
  "73 74 64 04 ff 00 ff 00 ff 00 0c 01 74 65 73 74" ++
  "00 11 06 00 00 00 00 00 00 00 12 ff 00 13 00 74" ++
  "65 73 74 00 43 52 45 41 54 45 20 54 41 42 4c 45" ++
  "20 74 31 28 69 64 20 53 45 52 49 41 4c 20 50 52" ++
  "49 4d 41 52 59 20 4b 45 59 29 d9 1d 2b 2b      ")%string.
Definition second_gtid_log : list Z := text (
  "57 b2 1c 6a 21 01 00 00 00 4f 00 00 00 b8 01 00" ++
  "00 00 00 00 b1 14 55 0c 5d 3d 11 f1 a7 3a 00 15" ++
  "5d f1 f4 92 02 00 00 00 00 00 00 00 02 01 00 00" ++
  "00 00 00 00 00 02 00 00 00 00 00 00 00 8a 35 4f" ++
  "60 24 53 06 fc 15 01 17 3a 01 00 24 35 52 71   ")%string.
Definition second_query : list Z := text (
  "57 b2 1c 6a 02 01 00 00 00 4b 00 00 00 03 02 00" ++
  "00 08 00 09 00 00 00 00 00 00 00 04 00 00 1d 00" ++
  "00 00 00 00 00 01 20 00 a0 45 00 00 00 00 06 03" ++
  "73 74 64 04 ff 00 ff 00 ff 00 12 ff 00 74 65 73" ++
  "74 00 42 45 47 49 4e c8 4c ce 80               ")%string.
Definition second_table_map : list Z := text (
  "57 b2 1c 6a 13 01 00 00 00 30 00 00 00 33 02 00" ++
  "00 00 00 73 00 00 00 00 00 01 00 04 74 65 73 74" ++
  "00 02 74 31 00 01 08 00 00 01 01 80 21 d6 bc 8c")%string.
Definition second_write_rows : list Z := text (
  "57 b2 1c 6a 1e 01 00 00 00 2c 00 00 00 5f 02 00" ++
  "00 00 00 73 00 00 00 00 00 01 00 02 00 01 ff 00" ++
  "01 00 00 00 00 00 00 00 82 65 a7 86            ")%string.
Definition second_xid : list Z := text (
  "57 b2 1c 6a 10 01 00 00 00 1f 00 00 00 7e 02 00" ++
  "00 00 00 07 00 00 00 00 00 00 00 e3 36 06 8f   ")%string.

Definition hex_to_bin `{BoostHex} (hex : list Z) : result (list Z) := unhex (filter (λ c, c ≠ 32) hex).
Definition sample_event_texts : list (list Z) :=
  [rotate_artificial; fde; previous_gtids; first_gtid_log; first_query; second_gtid_log; second_query;
   second_table_map; second_write_rows; second_xid].
Definition sample_event_collection `{BoostHex} : result (list (list Z)) :=
  foldM (λ events hex, event ← hex_to_bin hex; Ok (events ++ [event])) [] sample_event_texts.

(** ** network_service.cpp *)
Definition text_column name optional : column_type * (list Z * list Z) :=
  (mk_column_type type_string optional, (text name, text name)).
Definition table_columns : list (column_type * (list Z * list Z)) :=
  [(mk_column_type type_uint64 false, (text "id", text "id"));
   (mk_column_type type_uint64 true, (text "optional_id", text "optional_id"));
   text_column "name" false; text_column "optional_name" true].
Definition table_rows : list (list (option value)) :=
  [[Some (value_uint64 1); Some (value_uint64 100); Some (value_string (text "Alice")); Some (value_string (text "Cooper"))];
   [Some (value_uint64 2); None; Some (value_string (text "Bob")); None]].
Definition one_string (name value : string) : ctx_action (list network_buffer) :=
  encode_resultset [(mk_column_type type_string false, (text name, []))] [[Some (value_string (text value))]].

Definition set_checksum_query_handler : ctx_action (list network_buffer) :=
  ok ← generate_encoded_ok; mret [ok].
Definition known_queries : list (list Z * ctx_action (list network_buffer)) :=
  [(text "select * from tbl", encode_resultset table_columns table_rows);
   (text "select @@version_comment limit 1", one_string "@@version_comment" "Percona Binlog Server - GPL");
   (text "SELECT VERSION()", one_string "VERSION()" "9.7.0");
   (text "SET @source_binlog_checksum = 'NONE', @master_binlog_checksum = 'NONE'", set_checksum_query_handler);
   (text "SET @master_binlog_checksum = 'NONE', @source_binlog_checksum = 'NONE'", set_checksum_query_handler)].

Section session.
Context {W : Type} `{AsioSocket W} `{OpenSsl} `{MysqldErrors} `{BoostHex}.

Abbreviation session_action := (action (W * connection_context)).
Definition on_socket {A} : action W A → session_action A := on_member fst (λ w s, (w, s.2)).
Definition on_context {A} : ctx_action A → session_action A := on_member snd (λ c s, (s.1, c)).
(** a packet is generated and written *)
Definition send (generate : ctx_action network_buffer) : session_action unit :=
  packet ← on_context generate; on_socket (async_write_mysql_frame packet).

(** up to the answer to the client's greeting: whether commands follow *)
Definition authenticate : session_action bool :=
  _ ← send generate_encoded_server_greeting;
  data ← on_socket async_read_mysql_frame;
  _ ← on_context (parse_client_greeting data);
  c ← gets snd;
  if negb (check_shared_plugin_auth_supported c) then
    _ ← send generate_encoded_access_denied; mret false
  else if negb (bool_decide (cg_auth_method_name (ctx_client c) = ctx_server_auth_method c)) then mret false
  else
    authentic ← of_result (check_client_authentication c);
    if negb authentic then _ ← send generate_encoded_access_denied; mret false
    else
      _ ← send generate_encoded_fast_auth;
      _ ← send generate_encoded_ok;
      mret true.

(** an iteration of the command loop: whether it was the last *)
Definition serve_command : session_action bool :=
  _ ← on_context (modify enter_command_loop_iteration);
  data ← on_socket async_read_mysql_frame;
  _ ← on_context (parse_client_command data);
  c ← gets snd;
  match ctx_client_command c with
  | command_query =>
      match list_find (λ q, q.1 = ctx_client_statement c) known_queries with
      | Some (_, (_, handler)) =>
          resultset ← on_context handler;
          _ ← on_socket (async_write_mysql_frames resultset);
          mret false
      | None => _ ← send generate_encoded_syntax_error; mret false
      end
  | command_ping => _ ← send generate_encoded_ok; mret false
  | command_binlog_dump =>
      sample_events ← of_result sample_event_collection;
      _ ← for_each (λ event_data, send (generate_encoded_binlog_event event_data)) sample_events;
      _ ← send generate_encoded_eof;
      mret true
  | command_quit => mret true
  | _ => _ ← send generate_encoded_unknown_command; mret false
  end.

(** the command loop; [None] when the fuel runs out *)
Fixpoint command_loop (fuel : nat) : session_action (option unit) :=
  match fuel with
  | O => mret None
  | S fuel =>
      terminated ← serve_command;
      if terminated : bool then mret (Some ()) else command_loop fuel
  end.

Definition session_body (fuel : nat) : session_action (option unit) :=
  authenticated ← authenticate;
  if authenticated : bool then command_loop fuel else mret (Some ()).

(** the coroutine: an exception is logged, and the connection closed.  The state is the socket
    and the counter of connections. *)
Definition session (fuel : nat) (username password : list Z) : action (W * Z) (option unit) := λ '(w, next_connection_id),
  let (context, next_connection_id) := make_connection_context username password next_connection_id in
  match session_body fuel (w, context) with
  | ((w, _), Err (undefined_behaviour what)) => ((w, next_connection_id), Err (undefined_behaviour what))
  | ((w, _), Err (terminate what)) => ((w, next_connection_id), Err (terminate what))
  | ((w, _), Err _) => ((w, next_connection_id), Ok (Some ()))
  | ((w, _), Ok r) => ((w, next_connection_id), Ok r)
  end.
End session.
