(* ===== verification/MiniMysqlLaws.v ===== *)
(** * What a session of the test server sends

    The socket of a session (MiniMysql.v) as a trace, for any socket: every read and every
    write is recorded, and the trace of a session is compared with the protocol, a state
    machine: who speaks, which number the next frame has, what may be sent to a client that
    has not proved that it knows the password, and what a dump consists of. *)

From S2P Require Import Prelude ByteSpan Gtid Util Backend Wire Messages MessageLaws MiniMysql.

Local Open Scope Z_scope.

(** ** Traces *)
Inductive io_event :=
  | asked (size : nat) (data : option (list Z))
  | wrote (data : list Z) (succeeded : bool).

#[export] Instance traced_socket `{AsioSocket W} : AsioSocket (W * list io_event) := {
  async_read_exactly n := λ '(w, tr),
    let (w', r) := async_read_exactly n w in
    ((w', tr ++ [asked n (match r with Ok data => Some data | Err _ => None end)]), r);
  async_write data := λ '(w, tr),
    let (w', r) := async_write data w in ((w', tr ++ [wrote data (is_ok r)]), r)
}.

(** how often bytes came from the client *)
Definition reads (tr : list io_event) : nat :=
  sum_list_with (λ k, match k with asked _ (Some _) => 1%nat | _ => 0%nat end) tr.
Lemma reads_snoc tr k : (reads tr ≤ reads (tr ++ [k]))%nat.
Proof. unfold reads. rewrite sum_list_with_app. lia. Qed.
Lemma reads_asked tr n data : reads (tr ++ [asked n (Some data)]) = S (reads tr).
Proof. unfold reads. rewrite sum_list_with_app. cbn. lia. Qed.

(** ** The protocol *)
Section protocol.
Context `{OpenSslLaws} `{BoostHex} (username password : list Z).

(** what proves the knowledge of the password *)
Definition expected_scramble (salt : list Z) : list Z :=
  zip_with Z.lxor (sha256 password) (sha256 (sha256 (sha256 password) ++ salt)).

(** a buffer that is one frame of this number: the header tells the size of what follows *)
Definition is_frame (number : Z) (data : list Z) : bool :=
  bool_decide (data = frame_bytes number (drop frame_header_size data)) &&
  (Z.of_nat (length data) <? max_payload_size).
Definition frame_payload (data : list Z) : list Z := drop frame_header_size data.

(** a greeting of the client is malformed, or it proves the knowledge or not *)
Definition proves_password (g : client_greeting) : bool :=
  has (Z.land (cg_capabilities g) get_default_server_capabilities) plugin_auth &&
  bool_decide (cg_auth_method_name g = default_server_auth_method) &&
  bool_decide (cg_username g = username) &&
  bool_decide (cg_auth_method_data g = expected_scramble generate_server_auth_method_data).
Definition read_message `{Codec T} (number : Z) (caps : capabilities) (data : list Z) : option T :=
  match decode (T := frame T) data caps with
  | Ok f => if fr_seq_id f =? number then Some (fr_payload f) else None
  | Err _ => None
  end.

Inductive phase :=
  | greets
  | reads_greeting (header : option (list Z))
  | answers (caps : capabilities) (authentic : bool)
  | confirms (caps : capabilities)
  | waits (caps : capabilities)
  | reads_command (caps : capabilities) (header : list Z)
  | replies (caps : capabilities) (number : Z) (answered : bool)
  | dumps (events : list (list Z)) (number : Z)
  | over.

(** after the frame of a command: what is not understood ends the session; a command that the
    server does not know, and has not decoded, is answered by a frame of number 0 *)
Definition after_command (caps : capabilities) (data : list Z) : phase :=
  let answered_if (valid : bool) := if valid then replies caps 1 false else over in
  match frame_payload data with
  | [] => over
  | b :: _ =>
      if b =? cmd_query then answered_if (bool_decide (is_Some (read_message (T := client_query) 0 caps data)))
      else if b =? cmd_quit then over
      else if b =? cmd_reset_connection then
        answered_if (bool_decide (is_Some (read_message (T := client_reset_connection) 0 caps data)))
      else if b =? cmd_change_user then
        answered_if (bool_decide (is_Some (read_message (T := client_change_user) 0 caps data)))
      else if b =? cmd_ping then answered_if (bool_decide (is_Some (read_message (T := client_ping) 0 caps data)))
      else if b =? cmd_binlog_dump then
        match read_message (T := client_binlog_dump) 0 caps data, sample_event_collection with
        | Some _, Ok events => dumps events 1
        | _, _ => over
        end
      else if b =? cmd_binlog_dump_gtid then
        answered_if (bool_decide (is_Some (read_message (T := client_binlog_dump_gtid) 0 caps data)))
      else replies caps 0 false
  end.

Definition header_size (header : list Z) : nat := Z.to_nat (le_combine (take 3 header)).

(** the phase after an event, [None] when the event is not allowed *)
Definition next_if (allowed continues : bool) (ph : phase) : option phase :=
  if allowed then Some (if continues then ph else over) else None.
Definition proceed (ph : phase) (k : io_event) : option phase :=
  match ph, k with
  | greets, wrote data ok => next_if (is_frame 0 data) ok (reads_greeting None)
  | reads_greeting None, asked n (Some header) => next_if (n =? frame_header_size)%nat true (reads_greeting (Some header))
  | reads_greeting (Some header), asked n (Some data) =>
      next_if (n =? header_size header)%nat true
        match read_message (T := client_greeting) 1 get_default_server_capabilities (header ++ data) with
        | Some g => answers (Z.land (cg_capabilities g) get_default_server_capabilities) (proves_password g)
        | None => over
        end
  | answers caps true, wrote data ok => next_if (is_frame 2 data) ok (confirms caps)
  | answers caps false, wrote data ok => next_if (is_frame 2 data) ok over
  | confirms caps, wrote data ok => next_if (is_frame 3 data) ok (waits caps)
  | (waits caps | replies caps _ true), asked n (Some header) =>
      next_if (n =? frame_header_size)%nat true (reads_command caps header)
  | reads_command caps header, asked n (Some data) =>
      next_if (n =? header_size header)%nat true (after_command caps (header ++ data))
  | replies caps number _, wrote data ok => next_if (is_frame number data) ok (replies caps (u8 (number + 1)) true)
  | dumps (event :: events) number, wrote data ok =>
      next_if (is_frame number data && bool_decide (frame_payload data = 0 :: event)) ok (dumps events (u8 (number + 1)))
  | dumps [] number, wrote data ok => next_if (is_frame number data) ok over
  | (reads_greeting _ | waits _ | reads_command _ _ | replies _ _ true), asked _ None => Some over
  | _, _ => None
  end.
Definition proceed_all (tr : list io_event) : option phase :=
  foldl (λ ph k, ph ← ph; proceed ph k) (Some greets) tr.

Lemma proceed_snoc tr k ph : proceed_all tr = Some ph → proceed_all (tr ++ [k]) = proceed ph k.
Proof. intros Ht. unfold proceed_all. rewrite foldl_app. cbn. fold (proceed_all tr). by rewrite Ht. Qed.
End protocol.

(** ** What is generated *)

(** one frame with the next number, and nothing else changes *)
Definition generates (m : action connection_context network_buffer) (ok : list Z → Prop) : Prop :=
  ∀ c c' data, m c = (c', Ok data) →
    c' = set_sequence_number (u8 (ctx_sequence_number c + 1)) c ∧
    ∃ payload, data = frame_bytes (ctx_sequence_number c) payload ∧ ok payload.
Abbreviation generates_frame m := (generates m (λ _, True)).

Lemma encoded_frame `{Codec T} caps number (message : T) data :
  encode (mk_frame number message) caps [] = Ok data → ∃ payload, data = frame_bytes number payload.
Proof.
  intros He. destruct (accumulate_fields caps message) as [fs|e] eqn:Hf.
  - exists (fields_bytes fs). rewrite (encode_frame caps number message fs [] Hf) in He. by injection He as <-.
  - unfold encode in He. cbn [accumulate_fields frame_codec] in He. unfold frame_fields in He. cbn [fr_payload] in He. by rewrite Hf in He.
Qed.

Lemma generates_message `{Codec T} caps (message : T) : generates_frame (encode_message caps message).
Proof.
  intros c c' data Hr. injection Hr as <- He. apply encoded_frame in He as [payload ->]. eauto.
Qed.
Lemma generates_shared `{Codec T} (message : T) : generates_frame (encode_shared message).
Proof.
  intros c c' data Hr. injection Hr as <- He. apply encoded_frame in He as [payload ->]. eauto.
Qed.
Lemma generates_event event : generates (generate_encoded_binlog_event event) (λ payload, payload = 0 :: event).
Proof.
  intros c c' data Hr. unfold generate_encoded_binlog_event, generate_sequence_number in Hr.
  cbv beta iota delta [mbind action_bind gets modify mret action_ret of_result] in Hr. erewrite encode_ok in Hr by done.
  injection Hr as <- <-. split; [done|]. exists (0 :: event). split; [|done]. unfold frame_bytes. cbn [length].
  by replace (Z.of_nat (S (length event))) with (Z.of_nat (length event) + 1) by lia.
Qed.

(** numbered frames *)
Fixpoint frames (number : Z) (packets : list network_buffer) (number' : Z) : Prop :=
  match packets with
  | [] => number' = number
  | data :: packets => (∃ payload, data = frame_bytes number payload) ∧ frames (u8 (number + 1)) packets number'
  end.
(** consecutive frames, and nothing else changes *)
Definition generates_frames (m : action connection_context (list network_buffer)) : Prop :=
  ∀ c c' packets, m c = (c', Ok packets) →
    c' = set_sequence_number (ctx_sequence_number c') c ∧
    frames (ctx_sequence_number c) packets (ctx_sequence_number c').

Lemma frames_app n1 ps1 n2 ps2 n3 : frames n1 ps1 n2 → frames n2 ps2 n3 → frames n1 (ps1 ++ ps2) n3.
Proof.
  revert n1. induction ps1 as [|p ps1 IH]; intros n1; cbn; [by intros ->|]. intros [? ?] ?. split; [done|]. by apply IH.
Qed.

Lemma generates_none : generates_frames (mret []).
Proof. intros c c' ps [= <- <-]. by destruct c. Qed.
Lemma generates_append m1 m2 :
  generates_frames m1 → generates_frames m2 → generates_frames (l1 ← m1; l2 ← m2; mret (l1 ++ l2)).
Proof.
  intros H1 H2 c c' ps Hr. apply action_bind_ok in Hr as (c1 & l1 & Hr1 & Hr).
  apply action_bind_ok in Hr as (c2 & l2 & Hr2 & [= <- <-]).
  destruct (H1 _ _ _ Hr1) as [E1 Hf1]. destruct (H2 _ _ _ Hr2) as [E2 Hf2].
  split; [rewrite E2 at 1; by rewrite E1|]. by eapply frames_app.
Qed.
Lemma generates_one m : generates_frame m → generates_frames (p ← m; mret [p]).
Proof.
  intros Hm c c' ps Hr. apply action_bind_ok in Hr as (c1 & p & Hr1 & [= <- <-]).
  destruct (Hm _ _ _ Hr1) as (-> & payload & -> & _). split; [done|]. split; [by eexists|done].
Qed.
Lemma generates_collect {A} (f : A → action connection_context network_buffer) l :
  (∀ a, generates_frame (f a)) → generates_frames (collect f l).
Proof.
  intros Hf. induction l as [|a l IH]; [apply generates_none|]. cbn [collect]. intros c c' ps Hr.
  apply (generates_append _ _ (generates_one _ (Hf a)) IH). apply action_bind_ok in Hr as (c1 & p & Hr1 & Hr).
  apply action_bind_ok in Hr as (c2 & l2 & Hr2 & [= <- <-]).
  rewrite (action_bind_eq _ _ _ c1 [p]) by by rewrite (action_bind_eq _ _ _ _ _ Hr1).
  by rewrite (action_bind_eq _ _ _ _ _ Hr2).
Qed.

Lemma generates_count n : generates_frame (encode_resultset_number_of_columns n).
Proof. exact (generates_shared (Z.of_nat n)). Qed.
Lemma generates_definition db table names type : generates_frame (encode_resultset_column_definition db table names type).
Proof. exact (generates_shared (T := column_meta) _). Qed.
Lemma generates_row values : generates_frame (encode_resultset_row values).
Proof. exact (generates_shared (T := row) _). Qed.
Lemma generates_intermediate_eof : generates_frame encode_resultset_intermediate_eof.
Proof. exact (generates_shared (T := server_eof) _). Qed.
Lemma generates_resultset_eof : generates_frame encode_resultset_eof.
Proof. exact (generates_shared (T := server_eof) _). Qed.

Lemma generates_resultset columns rows : generates_frames (encode_resultset columns rows).
Proof.
  intros c c' ps Hr. unfold encode_resultset in Hr. rewrite gets_bind in Hr.
  set (tracking := check_shared_text_result_with_session_tracking_supported c) in Hr. clearbody tracking.
  apply action_bind_ok in Hr as (c1 & count & H1 & Hr).
  apply action_bind_ok in Hr as (c2 & definitions & H2 & Hr). apply action_bind_ok in Hr as (c3 & intermediate & H3 & Hr).
  apply action_bind_ok in Hr as (c4 & encoded_rows & H4 & Hr). apply action_bind_ok in Hr as (c5 & eof & H5 & [= <- <-]).
  assert (generates_frames (if tracking then mret [] else p ← encode_resultset_intermediate_eof; mret [p])) as Hi.
  { destruct tracking; [apply generates_none|apply generates_one, generates_intermediate_eof]. }
  destruct (generates_count _ _ _ _ H1) as (E1 & payload1 & -> & _).
  destruct (generates_collect _ _ (λ _, generates_definition _ _ _ _) _ _ _ H2) as [E2 F2].
  destruct (Hi _ _ _ H3) as [E3 F3]. destruct (generates_collect _ _ generates_row _ _ _ H4) as [E4 F4].
  destruct (generates_resultset_eof _ _ _ H5) as (E5 & payload5 & -> & _).
  split; [rewrite E5; cbn [ctx_sequence_number set_sequence_number]; by rewrite E4, E3, E2, E1|].
  split; [by eexists|]. rewrite E1 in F2. eapply frames_app; [exact F2|]. eapply frames_app; [exact F3|].
  eapply frames_app; [exact F4|]. split; [by eexists|]. by rewrite E5.
Qed.
Lemma generates_ok : generates_frame generate_encoded_ok.
Proof. exact (generates_shared default_ok). Qed.

Lemma generates_fast_auth : generates_frame generate_encoded_fast_auth.
Proof. exact (generates_shared (mk_auth_method_data [3])). Qed.
Lemma generates_eof : generates_frame generate_encoded_eof.
Proof. exact (generates_shared (mk_server_eof default_ok)). Qed.
Lemma generates_error code message sql_state : generates_frame (generate_encoded_error code message sql_state).
Proof. exact (generates_shared (mk_server_error code message sql_state)). Qed.
Lemma generates_access_denied `{MysqldErrors} : generates_frame generate_encoded_access_denied.
Proof. intros c c' data Hr. unfold generate_encoded_access_denied in Hr. rewrite gets_bind in Hr. by apply generates_error in Hr. Qed.
Lemma generates_unknown_command `{MysqldErrors} : generates_frame generate_encoded_unknown_command.
Proof. exact (generates_error _ _ _). Qed.
Lemma generates_syntax_error `{MysqldErrors} : generates_frame generate_encoded_syntax_error.
Proof. exact (generates_error _ _ _). Qed.
Lemma generates_set_checksum : generates_frames set_checksum_query_handler.
Proof. apply generates_one, generates_ok. Qed.

(** an answer has a frame at least *)
Definition answers_query m : Prop :=
  generates_frames m ∧ ∀ c c' packets, m c = (c', Ok packets) → packets ≠ [].
Lemma resultset_answers columns rows : answers_query (encode_resultset columns rows).
Proof.
  split; [apply generates_resultset|]. intros c c' ps Hr. unfold encode_resultset in Hr. rewrite gets_bind in Hr.
  repeat apply action_bind_ok in Hr as (? & ? & _ & Hr). by injection Hr as _ <-.
Qed.
Lemma one_string_answers name value : answers_query (one_string name value).
Proof. unfold one_string. apply resultset_answers. Qed.
Lemma set_checksum_answers : answers_query set_checksum_query_handler.
Proof.
  split; [apply generates_set_checksum|]. intros c c' ps Hr. by apply action_bind_ok in Hr as (? & ? & _ & [= _ <-]).
Qed.

Lemma known_answers query handler : (query, handler) ∈ known_queries → answers_query handler.
Proof.
  unfold known_queries. rewrite !elem_of_cons, elem_of_nil.
  intros [Hq|[Hq|[Hq|[Hq|[Hq|[]]]]]]; apply pair_eq in Hq as [_ Hq]; rewrite Hq; clear.
  - apply resultset_answers.
  - apply one_string_answers.
  - apply one_string_answers.
  - apply set_checksum_answers.
  - apply set_checksum_answers.
Qed.

(** ** What is read *)

(** a frame with the number that was expected *)
Lemma numbered_frame `{Codec T} caps data number (f : frame T) c c' r :
  decode data caps = Ok f → ctx_sequence_number c = number →
  validate_and_update_sequence_number (fr_seq_id f) c = (c', Ok r) →
  read_message number caps data = Some (fr_payload f) ∧ c' = set_sequence_number (u8 (number + 1)) c.
Proof.
  intros Hd <- Hv. unfold validate_and_update_sequence_number in Hv. rewrite gets_bind in Hv.
  apply action_bind_ok in Hv as (c1 & [] & Ht & Hm). apply throw_if_inv in Ht as [-> [[_ ?]|[Hn _]]]; [done|].
  injection Hm as <- _. apply negb_false_iff in Hn. unfold read_message. by rewrite Hd, Hn.
Qed.

Lemma client_greeting_read data c c' r :
  ctx_sequence_number c = 1 → parse_client_greeting data c = (c', Ok r) →
  ∃ g, read_message 1 (ctx_server_capabilities c) data = Some g ∧ c' = set_client g (set_sequence_number 2 c).
Proof.
  intros Hn Hr. unfold parse_client_greeting in Hr. rewrite gets_bind in Hr.
  apply action_bind_ok in Hr as (c1 & f & Hd & Hr). injection Hd as <- Hd.
  apply action_bind_ok in Hr as (c2 & [] & Hv & [= <- _]).
  destruct (numbered_frame _ _ _ f _ _ _ Hd Hn Hv) as [Hm ->]. by exists (fr_payload f).
Qed.

Lemma client_command_read `{Codec T} data c c' (v : T) :
  ctx_sequence_number c = 0 → client_command_frame data c = (c', Ok v) →
  read_message 0 (get_shared_capabilities c) data = Some v ∧ c' = set_sequence_number 1 c.
Proof.
  intros Hn Hr. unfold client_command_frame in Hr. rewrite gets_bind in Hr.
  apply action_bind_ok in Hr as (c1 & f & Hd & Hr). injection Hd as <- Hd.
  apply action_bind_ok in Hr as (c2 & [] & Hv & [= <- <-]). by apply (numbered_frame _ _ _ f _ _ _ Hd Hn Hv).
Qed.

(** what is left in the context by a command: its kind, its number, and the client *)
Definition command_context (command : client_command_type) (number : Z) (c c' : connection_context) : Prop :=
  ctx_client_command c' = command ∧ ctx_sequence_number c' = number ∧
  get_shared_capabilities c' = get_shared_capabilities c.

Lemma command_frame_then `{Codec T} data c c' (f : T → connection_context → connection_context) command r :
  ctx_sequence_number c = 0 →
  (∀ v c, command_context command (ctx_sequence_number c) c (f v c)) →
  (v ← client_command_frame data; modify (f v)) c = (c', Ok r) →
  command_context command 1 c c' ∧ is_Some (read_message (T := T) 0 (get_shared_capabilities c) data).
Proof.
  intros Hn Hf Hr. apply action_bind_ok in Hr as (c1 & v & Hv & [= <- _]).
  destruct (client_command_read _ _ _ _ Hn Hv) as [Hm ->]. destruct (Hf v (set_sequence_number 1 c)) as (? & ? & ?).
  split; [by split_and!|by eexists].
Qed.

(** the phase that a command which was understood leads to *)
Definition phase_of_command `{BoostHex} (caps : capabilities) (command : client_command_type) : phase :=
  match command with
  | command_quit => over
  | command_unknown => replies caps 0 false
  | command_binlog_dump => match sample_event_collection with Ok events => dumps events 1 | Err _ => over end
  | _ => replies caps 1 false
  end.
Definition number_of_command (command : client_command_type) : Z :=
  match command with command_unknown => 0 | _ => 1 end.

Lemma command_read `{BoostHex} data c c' r :
  ctx_sequence_number c = 0 → parse_client_command data c = (c', Ok r) →
  let command := ctx_client_command c' in
  command_context command (number_of_command command) c c' ∧
  after_command (get_shared_capabilities c) data = phase_of_command (get_shared_capabilities c) command.
Proof.
  intros Hn Hr. unfold parse_client_command in Hr. unfold after_command, frame_payload.
  destruct (drop frame_header_size data) as [|b rest]; [done|].
  assert (∀ T (HC : Codec T) f command, (∀ v c, command_context command (ctx_sequence_number c) c (f v c)) →
    (v ← client_command_frame (T := T) data; modify (f v)) c = (c', Ok r) →
    ctx_client_command c' = command ∧ command_context command 1 c c' ∧
    is_Some (read_message (T := T) 0 (get_shared_capabilities c) data)) as Hread.
  { intros T HC f command Hf Hc. destruct (command_frame_then _ _ _ f _ _ Hn Hf Hc) as [Hx Hs].
    split_and!; [by destruct Hx|done..]. }
  assert (∀ T (HC : Codec T) command, (_ ← client_command_frame (T := T) data; set_client_command command) c = (c', Ok r) →
    ctx_client_command c' = command ∧ command_context command 1 c c' ∧
    is_Some (read_message (T := T) 0 (get_shared_capabilities c) data)) as Hkind.
  { intros T HC command Hc. by apply (Hread T HC (λ _ c, set_command command (ctx_client_statement c) (ctx_binlog c) c) command). }
  cbv zeta.
  destruct (b =? cmd_query).
  { apply (Hread _ _ (λ query c, set_command command_query (cq_statement query) (ctx_binlog c) c) command_query) in Hr
      as (-> & Hx & Hs); [by rewrite bool_decide_true|by intros]. }
  destruct (b =? cmd_quit); [by apply Hkind in Hr as (-> & Hx & Hs)|].
  do 3 (case_match; [apply Hkind in Hr as (-> & Hx & Hs); by rewrite bool_decide_true|]).
  destruct (b =? cmd_binlog_dump).
  { apply (Hread _ _ (λ dump c, set_command command_binlog_dump (ctx_client_statement c) dump c) command_binlog_dump) in Hr
      as (-> & Hx & [v Hs]); [by rewrite Hs|by intros]. }
  destruct (b =? cmd_binlog_dump_gtid); [apply Hkind in Hr as (-> & Hx & Hs); by rewrite bool_decide_true|].
  injection Hr as <- _. by split; [split_and!|].
Qed.

(** ** The session follows the protocol *)
Section follows.
Context {W : Type} `{AsioSocket W} `{OpenSslLaws} `{MysqldErrors} `{BoostHex} (username password : list Z).
Abbreviation world := (W * list io_event)%type.
Abbreviation proceed_all := (proceed_all username password).
Abbreviation proceed := (proceed username password).

(** run in a phase: whatever happens is allowed, and without an exception [Q] holds of the
    result, of the new phase and of the new context *)
Definition runs {A} (ph : phase) (c : connection_context) (m : action (world * connection_context) A)
    (Q : A → phase → connection_context → Prop) : Prop :=
  ∀ w tr s' r, proceed_all tr = Some ph → m ((w, tr), c) = (s', r) →
    ∃ ph', proceed_all s'.1.2 = Some ph' ∧ match r with Ok a => Q a ph' s'.2 | Err _ => True end.

Lemma runs_bind {A B} ph c (m : action (world * connection_context) A) (f : A → action (world * connection_context) B) Q R :
  runs ph c m Q → (∀ a ph' c', Q a ph' c' → runs ph' c' (f a) R) → runs ph c (m ≫= f) R.
Proof.
  intros Hm Hf w tr s' r Ht Hr. apply action_bind_inv in Hr as [(e & -> & He)|([[w1 tr1] c1] & a & Hf1 & Hf2)].
  - destruct (Hm _ _ _ _ Ht He) as (ph' & Hp & _). by exists ph'.
  - destruct (Hm _ _ _ _ Ht Hf1) as (ph1 & Hp & Hq). by eapply (Hf _ _ _ Hq).
Qed.
Lemma runs_assoc {A B C} ph c (m : action (world * connection_context) A) (f : A → action (world * connection_context) B)
    (g : B → action (world * connection_context) C) Q :
  runs ph c (m ≫= λ a, f a ≫= g) Q ↔ runs ph c ((m ≫= f) ≫= g) Q.
Proof.
  assert (∀ s, (m ≫= λ a, f a ≫= g) s = ((m ≫= f) ≫= g) s) as He.
  { intros s. unfold mbind, action_bind. by destruct (m s) as [? []]. }
  split; intros Hm w tr s' r Ht Hr; eapply Hm; [done|by rewrite He|done|by rewrite <-He].
Qed.
Lemma runs_ret {A} ph c (a : A) (Q : A → phase → connection_context → Prop) : Q a ph c → runs ph c (mret a) Q.
Proof. intros Hq w tr s' r Ht [= <- <-]. by exists ph. Qed.
Lemma runs_of_result {A} ph c (x : result A) (Q : A → phase → connection_context → Prop) :
  (∀ a, x = Ok a → Q a ph c) → runs ph c (of_result x) Q.
Proof. intros Hq w tr s' r Ht [= <- <-]. exists ph. split; [done|]. destruct x; [by apply Hq|done]. Qed.
Lemma runs_context {A} ph c (f : connection_context → action (world * connection_context) A) Q :
  runs ph c (f c) Q → runs ph c (gets snd ≫= f) Q.
Proof. intros Hf w tr s' r Ht Hr. rewrite gets_bind in Hr. by eapply Hf. Qed.
Lemma runs_on_context {A} ph c (m : action connection_context A) (Q : A → phase → connection_context → Prop) :
  (∀ c' a, m c = (c', Ok a) → Q a ph c') → runs ph c (on_context m) Q.
Proof.
  intros Hq w tr s' r Ht Hr. unfold on_context, on_member in Hr. cbn in Hr. destruct (m c) as [c' x] eqn:E.
  injection Hr as <- <-. exists ph. split; [done|]. destruct x; [by apply Hq|done].
Qed.
Lemma runs_weaken {A} ph c m (Q R : A → phase → connection_context → Prop) :
  runs ph c m Q → (∀ a ph' c', Q a ph' c' → R a ph' c') → runs ph c m R.
Proof.
  intros Hm Hq w tr s' r Ht Hr. destruct (Hm _ _ _ _ Ht Hr) as (ph' & Hp & HQ). exists ph'. split; [done|].
  destruct r; [by apply Hq|done].
Qed.

(** a frame is written in a phase in which it is allowed *)
Lemma runs_write ph ph' c data :
  (∀ ok, Z.of_nat (length data) < max_payload_size →
     proceed ph (wrote data ok) = Some (if ok then ph' else over)) →
  runs ph c (on_socket (async_write_mysql_frame data)) (λ _ ph1 c1, ph1 = ph' ∧ c1 = c).
Proof.
  intros Hw w tr s' r Ht Hr. unfold on_socket, on_member in Hr. cbn [fst snd] in Hr.
  unfold async_write_mysql_frame in Hr. destruct (Z.leb_spec max_payload_size (Z.of_nat (length data))); cbn in Hr.
  { injection Hr as <- <-. by exists ph. }
  unfold mbind, action_bind, mret, action_ret in Hr. destruct (async_write data w) as [w' r']. injection Hr as <- <-. cbn [fst snd].
  rewrite (proceed_snoc _ _ _ _ _ Ht), Hw by done. eexists. split; [done|]. by destruct r' as [[]|].
Qed.

(** a frame that is generated is written *)
Lemma runs_send ph ph' c generate ok :
  generates generate ok →
  (∀ payload b, is_frame (ctx_sequence_number c) (frame_bytes (ctx_sequence_number c) payload) = true → ok payload →
     proceed ph (wrote (frame_bytes (ctx_sequence_number c) payload) b) = Some (if b then ph' else over)) →
  runs ph c (send generate) (λ _ ph1 c1, ph1 = ph' ∧ c1 = set_sequence_number (u8 (ctx_sequence_number c + 1)) c).
Proof.
  intros Hg Hw. apply runs_bind with (Q := λ data ph1 c1, ph1 = ph ∧
    c1 = set_sequence_number (u8 (ctx_sequence_number c + 1)) c ∧
    ∃ payload, data = frame_bytes (ctx_sequence_number c) payload ∧ ok payload).
  { apply runs_on_context. intros c' data Hr. by apply Hg in Hr as [-> Hp]. }
  intros data ph1 c1 (-> & -> & payload & -> & Hok). apply runs_write. intros b Hs. apply Hw; [|done].
  unfold is_frame. rewrite (proj2 (Z.ltb_lt _ _) Hs), andb_true_r. by apply bool_decide_eq_true.
Qed.

Lemma parse_frame_header_size header size :
  parse_frame_header header = Ok size → Z.to_nat size = header_size header.
Proof.
  intros Hp. unfold parse_frame_header, decode in Hp. cbn [decode_value frame_header_codec] in Hp. unfold decode_frame_header in Hp.
  apply result_bind_ok in Hp as ([s q] & Hd & [= <-]). unfold header_size. f_equal.
  revert Hd. cbn [fh_payload_size]. unfold mbind, action_bind, step, step_sized. rewrite !bool_decide_true by done.
  unfold decode_fixed_int. destruct (length header <? 3)%nat; [done|]. by destruct (length (drop 3 header) <? 1)%nat; intros [= <- <-].
Qed.

(** a frame is read: its header, then as many bytes as the header tells *)
Lemma runs_read ph (ph1 ph2 : list Z → phase) c :
  (∀ header, proceed ph (asked frame_header_size header) = Some (match header with Some h => ph1 h | None => over end)) →
  (∀ header data, proceed (ph1 header) (asked (header_size header) data) =
     Some (match data with Some d => ph2 (header ++ d) | None => over end)) →
  runs ph c (on_socket async_read_mysql_frame) (λ data ph' c', ph' = ph2 data ∧ c' = c).
Proof.
  intros Hf1 Hf2 w tr s' r Ht Hr. unfold on_socket, on_member, async_read_mysql_frame in Hr. cbn [fst snd] in Hr.
  match type of Hr with (let (_, _) := ?run in _) = _ => destruct run as [t x] eqn:Hx end. injection Hr as <- <-. cbn [fst snd].
  pose proof (proceed_snoc username password tr) as Hsnoc.
  apply action_bind_inv in Hx as [(e & -> & He)|([w1 tr1] & header & Hh & Hx)].
  { cbn in He. destruct (async_read_exactly frame_header_size w) as [w1 []]; [done|]. injection He as <- _.
    cbn [fst snd]. rewrite (Hsnoc _ _ Ht), Hf1. by eexists. }
  cbn in Hh. destruct (async_read_exactly frame_header_size w) as [w2 [h|]]; [|done]. injection Hh as <- <- <-.
  assert (proceed_all (tr ++ [asked frame_header_size (Some h)]) = Some (ph1 h)) as Ht1 by by rewrite (Hsnoc _ _ Ht), Hf1.
  unfold of_result in Hx. apply action_bind_inv in Hx as [(e & -> & [= <- _])|(t1 & size & [= <- Hs] & Hx)]; [by eexists|].
  apply action_bind_inv in Hx as [(e & -> & He)|(t2 & [] & He & Hx)];
    apply throw_if_inv in He as [-> _]; [by eexists|].
  rewrite (parse_frame_header_size _ _ Hs) in Hx.
  apply action_bind_inv in Hx as [(e & -> & He)|([w3 tr3] & payload & Hp & Hx)].
  - cbn in He. destruct (async_read_exactly _ w2) as [w3 []]; [done|]. injection He as <- _. cbn [fst snd].
    rewrite (proceed_snoc _ _ _ _ _ Ht1), Hf2. by eexists.
  - cbn in Hp. destruct (async_read_exactly _ w2) as [w4 [d|]]; [|done]. injection Hp as <- <- <-. injection Hx as <- <-.
    cbn [fst snd]. rewrite (proceed_snoc _ _ _ _ _ Ht1), Hf2. by eexists.
Qed.

(** *** Up to the commands *)
Lemma calculate_sha256 data h : calculate_digest data = Ok h → h = sha256 data.
Proof.
  intros Hd. unfold calculate_digest, digest_context, digest_update, digest_finalize in Hd. inv_ok.
  match goal with Hf : EVP_DigestFinal _ = Some _ |- _ => apply final_digest in Hf as -> end.
  match goal with Hu : EVP_DigestUpdate _ _ = Some _ |- _ => apply update_digested in Hu as -> end.
  match goal with Hi : EVP_DigestInit_sha256 _ = Some _ |- _ => apply init_digested in Hi as -> end. done.
Qed.
Lemma scramble_expected salt x : scramble password salt = Ok x → x = expected_scramble password salt.
Proof.
  intros Hs. unfold scramble in Hs. inv_ok.
  repeat match goal with Hc : calculate_digest _ = Ok _ |- _ => apply calculate_sha256 in Hc as -> end.
  unfold digest_context, digest_update, digest_finalize in *. inv_ok.
  match goal with Hf : EVP_DigestFinal _ = Some _ |- _ => apply final_digest in Hf as -> end.
  do 2 match goal with Hu : EVP_DigestUpdate _ _ = Some _ |- _ => apply update_digested in Hu as Hup; clear Hu; rewrite Hup; clear Hup end.
  match goal with Hi : EVP_DigestInit_sha256 _ = Some _ |- _ => apply init_digested in Hi as -> end. done.
Qed.

(** a client that is served knows the name and the password *)
Lemma authentic_client c b :
  ctx_server_username c = username → ctx_server_password c = password →
  ctx_server_capabilities c = get_default_server_capabilities → ctx_server_auth_method c = default_server_auth_method →
  ctx_server_auth_method_data c = generate_server_auth_method_data →
  check_shared_plugin_auth_supported c = true → cg_auth_method_name (ctx_client c) = ctx_server_auth_method c →
  check_client_authentication c = Ok b → b = proves_password username password (ctx_client c).
Proof.
  intros Hu Hp Hc Hm Hd Hs Hn Hb. unfold proves_password. unfold check_shared_plugin_auth_supported, get_shared_capabilities, ctx_client_capabilities in Hs.
  rewrite Hc in Hs. rewrite Hs, (bool_decide_true (cg_auth_method_name _ = _)) by by rewrite Hn. cbn [andb].
  unfold check_client_authentication in Hb. rewrite Hu, Hp, Hd in Hb. destruct (bool_decide (cg_username _ = _)); cbn [negb andb] in *.
  - apply result_bind_ok in Hb as (x & Hx & [= <-]). by apply scramble_expected in Hx as ->.
  - by injection Hb as <-.
Qed.

Lemma frame_allowed number payload :
  Z.of_nat (length (frame_bytes number payload)) < max_payload_size → is_frame number (frame_bytes number payload) = true.
Proof.
  intros Hs. unfold is_frame. rewrite (proj2 (Z.ltb_lt _ _) Hs), andb_true_r. by apply bool_decide_eq_true.
Qed.

(** the greeting of the server *)
Lemma greeting_runs c :
  ctx_sequence_number c = 0 →
  runs greets c (send generate_encoded_server_greeting) (λ _ ph c', ph = reads_greeting None ∧
    c' = set_sequence_number 1 (set_server get_default_server_capabilities default_server_auth_method
                                  generate_server_auth_method_data c)).
Proof.
  intros Hn. set (c1 := set_server _ _ _ c). apply runs_bind with (Q := λ data ph1 c', ph1 = greets ∧
    c' = set_sequence_number 1 c1 ∧ ∃ payload, data = frame_bytes 0 payload).
  { apply runs_on_context. intros c' data Hr. split; [done|]. unfold generate_encoded_server_greeting in Hr.
    rewrite modify_bind, gets_bind in Hr. fold c1 in Hr. apply generates_message in Hr as (-> & payload & -> & _).
    cbn [c1 ctx_sequence_number set_server]. rewrite Hn. split; [done|]. by exists payload. }
  intros data ph1 c' (-> & -> & payload & ->). apply runs_write. intros ok Hs. cbn [MiniMysqlLaws.proceed].
  rewrite frame_allowed by done. by destruct ok.
Qed.

(** the greeting of the client *)
Lemma client_greeting_runs c :
  ctx_sequence_number c = 1 → ctx_server_capabilities c = get_default_server_capabilities →
  runs (reads_greeting None) c (data ← on_socket async_read_mysql_frame; on_context (parse_client_greeting data))
    (λ _ ph c', ∃ g, c' = set_client g (set_sequence_number 2 c) ∧
       ph = answers (get_shared_capabilities c') (proves_password username password g)).
Proof.
  intros Hn Hc. eapply runs_bind.
  { apply (runs_read _ (λ h, reads_greeting (Some h)) (λ data,
      match read_message (T := client_greeting) 1 get_default_server_capabilities data with
      | Some g => answers (Z.land (cg_capabilities g) get_default_server_capabilities) (proves_password username password g)
      | None => over
      end)); [by intros [h|]|]. intros header [data|]; [|done]. cbn [MiniMysqlLaws.proceed]. by rewrite Nat.eqb_refl. }
  intros data ph1 c1 [-> ->]. apply runs_on_context. intros c' [] Hr.
  destruct (client_greeting_read _ _ _ _ Hn Hr) as (g & Hg & ->). exists g. split; [done|].
  rewrite Hc in Hg. rewrite Hg. unfold get_shared_capabilities, ctx_client_capabilities. cbn [ctx_client ctx_server_capabilities set_client set_sequence_number].
  by rewrite Hc.
Qed.

(** an answer to the greeting *)
Lemma answer_runs ph ph' c generate :
  generates_frame generate →
  (∀ data ok, proceed ph (wrote data ok) = next_if (is_frame (ctx_sequence_number c) data) ok ph') →
  runs ph c (send generate) (λ _ ph1 c1, ph1 = ph' ∧ c1 = set_sequence_number (u8 (ctx_sequence_number c + 1)) c).
Proof.
  intros Hg Hp. apply (runs_send _ _ _ _ _ Hg). intros payload ok Hf _. rewrite Hp, Hf. by destruct ok.
Qed.

(** the answer to the greeting of the client *)
Lemma decision_runs c g :
  let c1 := set_client g c in
  ctx_sequence_number c = 2 → ctx_server_username c = username → ctx_server_password c = password →
  ctx_server_capabilities c = get_default_server_capabilities → ctx_server_auth_method c = default_server_auth_method →
  ctx_server_auth_method_data c = generate_server_auth_method_data →
  runs (answers (get_shared_capabilities c1) (proves_password username password g)) c1
    (if negb (check_shared_plugin_auth_supported c1) then
       _ ← send generate_encoded_access_denied; mret false
     else if negb (bool_decide (cg_auth_method_name (ctx_client c1) = ctx_server_auth_method c1)) then mret false
     else
       authentic ← of_result (check_client_authentication c1);
       if negb authentic then _ ← send generate_encoded_access_denied; mret false
       else _ ← send generate_encoded_fast_auth; _ ← send generate_encoded_ok; mret true)
    (λ authentic ph c', authentic = true → ph = waits (get_shared_capabilities c')).
Proof.
  intros c1 Hn Hu Hp Hc Hm Hd.
  assert (runs (answers (get_shared_capabilities c1) false) c1 (_ ← send generate_encoded_access_denied; mret false)
    (λ authentic ph c', authentic = true → ph = waits (get_shared_capabilities c'))) as Hdeny.
  { eapply runs_bind; [apply (answer_runs _ over); [apply generates_access_denied|]|by intros; apply runs_ret].
    intros data ok. change (ctx_sequence_number c1) with (ctx_sequence_number c). by rewrite Hn. }
  destruct (check_shared_plugin_auth_supported c1) eqn:Hplugin; cbn [negb].
  2: { assert (proves_password username password g = false) as ->; [|done]. unfold proves_password.
    unfold check_shared_plugin_auth_supported, get_shared_capabilities, ctx_client_capabilities in Hplugin.
    cbn [c1 ctx_client ctx_server_capabilities set_client] in Hplugin. by rewrite <-Hc, Hplugin. }
  destruct (bool_decide (cg_auth_method_name (ctx_client c1) = ctx_server_auth_method c1)) eqn:Hmethod; cbn [negb];
    [apply bool_decide_eq_true in Hmethod|by apply runs_ret].
  eapply runs_bind with (Q := λ b ph c', ph = answers (get_shared_capabilities c1) b ∧ c' = c1).
  { apply runs_of_result. intros b Hb. by rewrite (authentic_client c1 b Hu Hp Hc Hm Hd Hplugin Hmethod Hb). }
  intros [] ph c' [-> ->]; cbn [negb]; [|done].
  eapply runs_bind; [apply (answer_runs _ (confirms (get_shared_capabilities c1))); [apply generates_fast_auth|]|].
  { intros data ok. change (ctx_sequence_number c1) with (ctx_sequence_number c). by rewrite Hn. }
  intros _ ph c2 [-> ->]. change (ctx_sequence_number c1) with (ctx_sequence_number c). rewrite Hn.
  eapply runs_bind; [apply (answer_runs _ (waits (get_shared_capabilities c1))); [apply generates_ok|done]|].
  intros _ ph c3 [-> ->]. by apply runs_ret.
Qed.

Lemma authenticate_runs connection_id :
  let c := (make_connection_context username password connection_id).1 in
  runs greets c authenticate (λ authentic ph c', authentic = true → ph = waits (get_shared_capabilities c')).
Proof.
  intros c. unfold authenticate. eapply runs_bind; [by apply greeting_runs|]. intros _ ph c1 [-> ->].
  apply (proj2 (runs_assoc _ _ _ _ _ _)). eapply runs_bind; [by apply client_greeting_runs|]. intros [] ph1 c1 (g & -> & ->).
  apply runs_context. by apply decision_runs.
Qed.

(** *** Commands *)
Definition ready (ph : phase) (c : connection_context) : Prop :=
  ph = waits (get_shared_capabilities c) ∨ ∃ n, ph = replies (get_shared_capabilities c) n true.

(** one frame is the answer *)
Lemma reply_runs c generate :
  generates_frame generate →
  runs (replies (get_shared_capabilities c) (ctx_sequence_number c) false) c (_ ← send generate; mret false)
    (λ terminated ph' c', terminated = false → ready ph' c').
Proof.
  intros Hg. eapply runs_bind; [by apply answer_runs|]. intros _ ph c1 [-> ->]. apply runs_ret. intros _. right. by eexists.
Qed.

Lemma runs_on_socket_bind {A B} ph c (m : action world A) (f : A → action world B) Q :
  runs ph c (on_socket m ≫= λ a, on_socket (f a)) Q → runs ph c (on_socket (m ≫= f)) Q.
Proof.
  intros Hm w tr s' r Ht Hr. apply (Hm w tr); [done|]. rewrite <-Hr. unfold on_socket, on_member, mbind, action_bind. cbn [fst snd].
  destruct (m (w, tr)) as [t [a|e]]; [|done]. cbn [fst snd]. by destruct (f a t).
Qed.

Lemma frames_run c caps n packets n' b :
  frames n packets n' →
  runs (replies caps n b) c (on_socket (async_write_mysql_frames packets)) (λ _ ph c', c' = c ∧
    ph = replies caps n' (if bool_decide (packets = []) then b else true)).
Proof.
  unfold async_write_mysql_frames. revert n b. induction packets as [|data packets IH]; intros n b; cbn [frames for_each].
  - intros -> w tr s' r Ht [= <- <-]. by eexists.
  - intros [[payload ->] Hf]. apply runs_on_socket_bind. eapply runs_bind.
    { apply (runs_write _ (replies caps (u8 (n + 1)) true)). intros ok Hs. cbn [MiniMysqlLaws.proceed].
      rewrite frame_allowed by done. by destruct ok, b. }
    intros [] ph c1 [-> ->]. eapply runs_weaken; [by apply IH|]. intros _ ph c1 [-> ->]. split; [done|].
    by destruct (bool_decide (packets = [])).
Qed.

(** the frames of a result set are the answer *)
Lemma query_runs c handler :
  answers_query handler →
  runs (replies (get_shared_capabilities c) (ctx_sequence_number c) false) c
    (resultset ← on_context handler; _ ← on_socket (async_write_mysql_frames resultset); mret false)
    (λ terminated ph' c', terminated = false → ready ph' c').
Proof.
  intros [Hg Hne]. eapply runs_bind with (Q := λ ps ph' c', ph' = replies (get_shared_capabilities c) (ctx_sequence_number c) false ∧
    get_shared_capabilities c' = get_shared_capabilities c ∧ ps ≠ [] ∧ frames (ctx_sequence_number c) ps (ctx_sequence_number c')).
  { apply runs_on_context. intros c' ps Hr. pose proof (Hne _ _ _ Hr). apply Hg in Hr as [E Hf].
    split_and!; [done|by rewrite E|done..]. }
  intros ps ph' c' (-> & <- & Hps & Hf). eapply runs_bind; [by apply frames_run|]. intros _ ph' c3 [-> ->].
  apply runs_ret. intros _. right. rewrite bool_decide_false by done. by eexists.
Qed.

Lemma events_run events n c :
  ctx_sequence_number c = n →
  runs (dumps events n) c
    (_ ← for_each (λ event_data, send (generate_encoded_binlog_event event_data)) events;
     _ ← send generate_encoded_eof; mret true) (λ terminated ph' c', terminated = true).
Proof.
  revert n c. induction events as [|event events IH]; intros n c Hn; cbn [for_each].
  - eapply runs_bind; [by apply runs_ret with (Q := λ _ ph c', ph = dumps [] n ∧ c' = c)|]. intros _ ph c' [-> ->].
    eapply runs_bind; [apply (answer_runs _ over); [apply generates_eof|by rewrite Hn]|]. by intros; apply runs_ret.
  - apply (proj1 (runs_assoc _ _ _ _ _ _)). eapply runs_bind.
    { apply (runs_send _ (dumps events (u8 (n + 1))) _ _ _ (generates_event event)). intros payload ok Hf ->.
      cbn [MiniMysqlLaws.proceed]. rewrite Hn in *. rewrite Hf. cbn [andb]. rewrite bool_decide_true by done. by destruct ok. }
    intros [] ph c' [-> ->]. apply IH. by rewrite <-Hn.
Qed.

Lemma serve_runs ph c : ready ph c → runs ph c serve_command (λ terminated ph' c', terminated = false → ready ph' c').
Proof.
  intros Hready. unfold serve_command. set (caps := get_shared_capabilities c).
  eapply runs_bind with (Q := λ _ ph' c', ph' = ph ∧ c' = enter_command_loop_iteration c).
  { apply runs_on_context. by intros c' [] [= <-]. }
  intros _ ph1 c1 [-> ->]. set (c1 := enter_command_loop_iteration c). assert (get_shared_capabilities c1 = caps) as Hcaps by done.
  eapply runs_bind.
  { apply (runs_read ph (reads_command caps) (after_command caps)).
    - intros header. destruct Hready as [->|[n ->]]; by destruct header.
    - intros header [data|]; [|done]. cbn [MiniMysqlLaws.proceed]. by rewrite Nat.eqb_refl. }
  intros data ph2 c2 [-> ->].
  eapply runs_bind with (Q := λ _ ph' c', let command := ctx_client_command c' in
    ph' = phase_of_command caps command ∧ ctx_sequence_number c' = number_of_command command ∧ get_shared_capabilities c' = caps).
  { apply runs_on_context. intros c' [] Hr. destruct (command_read data c1 c' _ eq_refl Hr) as [(_ & Hnum & Hsc) Hph].
    by rewrite Hcaps in Hph. }
  intros [] ph2 c2 (-> & Hn & Hsc). apply runs_context. rewrite <-Hsc. clear Hcaps Hsc.
  destruct (ctx_client_command c2); cbn [phase_of_command number_of_command] in *.
  - rewrite <-Hn. destruct (list_find _ known_queries) as [[i [query handler]]|] eqn:Hfind; [|apply reply_runs, generates_syntax_error].
    apply list_find_Some in Hfind as (Hk & _ & _). eapply query_runs, known_answers. by eapply list_elem_of_lookup_2.
  - by apply runs_ret.
  - rewrite <-Hn. apply reply_runs, generates_unknown_command.
  - rewrite <-Hn. apply reply_runs, generates_unknown_command.
  - rewrite <-Hn. apply reply_runs, generates_ok.
  - apply runs_bind with (Q := λ events ph' c', ph' = dumps events 1 ∧ c' = c2).
    { apply runs_of_result. by intros events ->. }
    intros events ph' c' [-> ->]. eapply runs_weaken; [by apply events_run|]. by intros ??? ->.
  - rewrite <-Hn. apply reply_runs, generates_unknown_command.
  - rewrite <-Hn. apply reply_runs, generates_unknown_command.
Qed.

Lemma loop_runs fuel ph c : ready ph c → runs ph c (command_loop fuel) (λ _ _ _, True).
Proof.
  revert ph c. induction fuel as [|fuel IH]; intros ph c Hr; cbn [command_loop]; [by apply runs_ret|].
  eapply runs_bind; [by apply serve_runs|]. intros [] ph' c' Ht; [by apply runs_ret|]. by apply IH, Ht.
Qed.

(** *** Every iteration reads *)
Definition grows {A} (m : action (world * connection_context) A) : Prop :=
  ∀ s s' r, m s = (s', r) → (reads s.1.2 ≤ reads s'.1.2)%nat.

Lemma grows_bind {A B} (m : action (world * connection_context) A) (f : A → action (world * connection_context) B) :
  grows m → (∀ a, grows (f a)) → grows (m ≫= f).
Proof.
  intros Hm Hf s s' r Hr. apply action_bind_inv in Hr as [(e & _ & He)|(s1 & a & Hf1 & Hf2)]; [by eapply Hm|].
  apply Hm in Hf1. apply Hf in Hf2. lia.
Qed.
Lemma grows_ret {A} (a : A) : grows (mret a).
Proof. by intros s s' r [= <- <-]. Qed.
Lemma grows_gets {A} (g : world * connection_context → A) : grows (gets g).
Proof. by intros s s' r [= <- <-]. Qed.
Lemma grows_of_result {A} (x : result A) : grows (of_result x).
Proof. by intros s s' r [= <- <-]. Qed.
Lemma grows_on_context {A} (m : action connection_context A) : grows (on_context m).
Proof. intros s s' r Hr. unfold on_context, on_member in Hr. by destruct (m s.2); injection Hr as <- <-. Qed.
Lemma grows_on_socket {A} (m : action world A) :
  (∀ w w' r, m w = (w', r) → (reads w.2 ≤ reads w'.2)%nat) → grows (on_socket m).
Proof.
  intros Hm s s' r Hr. unfold on_socket, on_member in Hr. destruct (m s.1) as [w' x] eqn:E. injection Hr as <- <-. by apply Hm in E.
Qed.
Lemma write_grows data (w w' : world) r : async_write_mysql_frame data w = (w', r) → (reads w.2 ≤ reads w'.2)%nat.
Proof.
  unfold async_write_mysql_frame. intros Hr. apply action_bind_inv in Hr as [(e & _ & He)|(w1 & a & Hf1 & Hf2)].
  - by apply throw_if_inv in He as [-> _].
  - apply throw_if_inv in Hf1 as [-> _]. destruct w as [w tr]. cbn in Hf2. destruct (async_write data w) as [w1 x].
    injection Hf2 as <- <-. apply reads_snoc.
Qed.
Lemma writes_grow packets (w w' : world) r : async_write_mysql_frames packets w = (w', r) → (reads w.2 ≤ reads w'.2)%nat.
Proof.
  unfold async_write_mysql_frames. revert w. induction packets as [|p ps IH]; intros w Hr; cbn [for_each] in Hr; [by injection Hr as <- _|].
  apply action_bind_inv in Hr as [(e & _ & He)|(w1 & a & Hf1 & Hf2)]; [by eapply write_grows|].
  apply write_grows in Hf1. apply IH in Hf2. lia.
Qed.
Lemma grows_send generate : grows (send generate).
Proof. apply grows_bind; [apply grows_on_context|]. intros data. apply grows_on_socket, write_grows. Qed.
Lemma grows_events events : grows (for_each (λ event_data, send (generate_encoded_binlog_event event_data)) events).
Proof. induction events as [|e es IH]; cbn [for_each]; [apply grows_ret|]. apply grows_bind; [apply grows_send|done]. Qed.

(** a frame that is read is seen in the trace *)
Lemma read_grows (w w' : world) r :
  async_read_mysql_frame w = (w', r) → (reads w.2 + (if is_ok r then 1 else 0) ≤ reads w'.2)%nat.
Proof.
  destruct w as [w tr]. intros Hr. unfold async_read_mysql_frame in Hr.
  apply action_bind_inv in Hr as [(e & -> & He)|([w1 tr1] & header & Hh & Hr)].
  { cbn in He. destruct (async_read_exactly frame_header_size w) as [w1 x]. injection He as <- _. cbn [snd is_ok].
    pose proof (reads_snoc tr (asked frame_header_size (match x with Ok data => Some data | Err _ => None end))). lia. }
  cbn in Hh. destruct (async_read_exactly frame_header_size w) as [w2 [h|]]; [|done]. injection Hh as <- <- <-.
  assert (S (reads tr) ≤ reads w'.2)%nat; [|cbn [snd]; destruct (is_ok r); lia].
  rewrite <-(reads_asked tr frame_header_size h). revert Hr. generalize (tr ++ [asked frame_header_size (Some h)]). intros tr1 Hr.
  apply action_bind_inv in Hr as [(e & _ & [= <- _])|(t1 & size & [= <- _] & Hr)]; [done|].
  apply action_bind_inv in Hr as [(e & _ & He)|(t2 & [] & He & Hr)]; apply throw_if_inv in He as [-> _]; [done|].
  assert (∀ x w3 (y : result network_buffer), async_read_exactly x (w2, tr1) = (w3, y) → (reads tr1 ≤ reads w3.2)%nat) as Hg.
  { intros x w3 y Hy. cbn in Hy. destruct (async_read_exactly x w2) as [w4 z]. injection Hy as <- <-. apply reads_snoc. }
  apply action_bind_inv in Hr as [(e & _ & He)|(w3 & payload & Hp & [= <- _])]; by eapply Hg.
Qed.

Create HintDb grows discriminated.
#[local] Hint Resolve grows_ret grows_gets grows_of_result grows_on_context grows_on_socket write_grows writes_grow grows_send
  grows_events : grows.
Ltac grows := repeat (apply grows_bind; [auto with grows|intros ?]); auto with grows.

Lemma answer_grows data :
  grows (
    _ ← on_context (parse_client_command data);
    c ← gets snd;
    match ctx_client_command c with
    | command_query =>
        match list_find (λ q, q.1 = ctx_client_statement c) known_queries with
        | Some (_, (_, handler)) =>
            resultset ← on_context handler;
            _ ← on_socket (async_write_mysql_frames resultset);
            mret false
        | None => _ ← send generate_encoded_syntax_error; mret false
        end
    | command_ping => _ ← send generate_encoded_ok; mret false
    | command_binlog_dump =>
        sample_events ← of_result sample_event_collection;
        _ ← for_each (λ event_data, send (generate_encoded_binlog_event event_data)) sample_events;
        _ ← send generate_encoded_eof;
        mret true
    | command_quit => mret true
    | _ => _ ← send generate_encoded_unknown_command; mret false
    end).
Proof.
  apply grows_bind; [apply grows_on_context|]. intros _. apply grows_bind; [apply grows_gets|]. intros c.
  destruct (ctx_client_command c); [|grows..]. destruct (list_find _ _) as [[i [query handler]]|]; [|grows].
  apply grows_bind; [apply grows_on_context|]. intros packets.
  apply grows_bind; [apply grows_on_socket, writes_grow|]. intros _. apply grows_ret.
Qed.

Lemma serve_reads s s' b : serve_command s = (s', Ok b) → (S (reads s.1.2) ≤ reads s'.1.2)%nat.
Proof.
  intros Hr. unfold serve_command in Hr. apply action_bind_ok in Hr as (s1 & [] & Hf1 & Hr).
  apply grows_on_context in Hf1. apply action_bind_ok in Hr as (s2 & data & Hf2 & Hr).
  apply (answer_grows data) in Hr. unfold on_socket, on_member in Hf2.
  destruct (async_read_mysql_frame s1.1) as [w x] eqn:E. injection Hf2 as <- ->.
  apply read_grows in E. cbn [is_ok fst] in *. lia.
Qed.

(** a loop that has not ended has read as often as its fuel says *)
Lemma loop_reads fuel s s' : command_loop fuel s = (s', Ok None) → (reads s.1.2 + fuel ≤ reads s'.1.2)%nat.
Proof.
  revert s. induction fuel as [|fuel IH]; intros s Hr; cbn [command_loop] in Hr; [injection Hr as <-; lia|].
  apply action_bind_ok in Hr as (s1 & b & Hs & Hr). apply serve_reads in Hs. destruct b; [done|]. apply IH in Hr. lia.
Qed.

End follows.

(** ** A client that asks for a dump *)
Module MiniMysqlExamples.

(** a socket that yields these chunks *)
#[export] Instance scripted : AsioSocket (list (list Z)) := {
  async_read_exactly n w :=
    match w with
    | chunk :: w' => if (length chunk =? n)%nat then (w', Ok chunk) else (w, Err (system_error timed_out))
    | [] => (w, Err (system_error timed_out))
    end;
  async_write data w := (w, Ok ())
}.
(** a function to 32 bytes for the digest *)
Definition toy_digest (s : list Z) : list Z := le_split 32 (foldl (λ h b, (h * 257 + b + 1) mod 2 ^ 256) 0 s).
#[export] Instance toy_openssl : OpenSsl := {
  EVP_MD_CTX := list Z;
  EVP_MD_CTX_new := Some [];
  EVP_DigestInit_sha256 c := Some [];
  EVP_DigestUpdate c data := Some (c ++ data);
  EVP_DigestFinal c := Some (toy_digest c)
}.
#[export] Program Instance toy_openssl_laws : OpenSslLaws := { sha256 := toy_digest; digested := id }.
Solve Obligations with (by intros; simplify_eq/=).

#[export] Instance mysqld_errors : MysqldErrors :=
  {| ER_ACCESS_DENIED_ERROR := 1045; ER_UNKNOWN_COM_ERROR := 1047; ER_PARSE_ERROR := 1064 |}.

Definition hex_digit (c : Z) : option Z :=
  if (48 <=? c) && (c <=? 57) then Some (c - 48)
  else if (97 <=? c) && (c <=? 102) then Some (c - 87)
  else if (65 <=? c) && (c <=? 70) then Some (c - 55) else None.
Fixpoint unhex_pairs (s : list Z) : result (list Z) :=
  match s with
  | [] => Ok []
  | hi :: lo :: s =>
      hi ← or_raise (hex_digit hi) (runtime_error "non_hex_input");
      lo ← or_raise (hex_digit lo) (runtime_error "non_hex_input");
      bytes ← unhex_pairs s; Ok (16 * hi + lo :: bytes)
  | [_] => Err (runtime_error "not_enough_input")
  end.
#[export] Instance hexadecimal : BoostHex := {| unhex := unhex_pairs |}.

Definition user : list Z := text "rpl".
Definition secret : list Z := text "rpl_password".
Definition chunks_of (packet : result (list Z)) : list (list Z) :=
  match packet with Ok data => [take 4 data; drop 4 data] | Err _ => [] end.
Definition client_capabilities : Z := 2 ^ protocol_41 + 2 ^ secure_connection + 2 ^ plugin_auth.
Definition greeting_of (password : list Z) : list (list Z) :=
  chunks_of (encode (mk_frame 1 (mk_client_greeting client_capabilities 16777216 45 user
    (expected_scramble password generate_server_auth_method_data) [] default_server_auth_method []))
    get_default_server_capabilities []).
Definition command_of `{Codec T} (message : T) : list (list Z) :=
  chunks_of (encode (mk_frame 0 message) client_capabilities []).
Definition script : list (list Z) :=
  greeting_of secret ++ command_of mk_client_ping ++ command_of (mk_client_query (text "SELECT VERSION()") []) ++
  chunks_of (Ok (frame_bytes 0 [77])) ++ command_of (mk_client_binlog_dump 4 0 (text "binlog.000001") 42).

Definition served := session 4 user secret ((script, []), 7).
Definition trace_of {A B C D} (x : (((A * B) * C) * D)) : B := x.1.1.2.
Definition sent (tr : list io_event) : list (list Z) := omap (λ k, match k with wrote data true => Some data | _ => None end) tr.

(** all is served: the greeting, the authentication, two commands, an error for a command that
    is unknown, with the number 0, and the dump *)
Example served_numbers : (λ data, nth 3 data 0) <$> sent (trace_of served) =
  [0; 2; 3; 1; 1; 2; 3; 4; 5; 0; 1; 2; 3; 4; 5; 6; 7; 8; 9; 10; 11].
Proof. by vm_compute. Qed.
Example served_events : ∃ events, sample_event_collection = Ok events ∧
  take 10 (drop 10 (frame_payload <$> sent (trace_of served))) = cons 0 <$> events.
Proof. by eexists; vm_compute. Qed.
(** a wrong password *)
Definition refused := session 4 user (text "other") ((script, []), 8).
Example refused_numbers : (λ data, nth 3 data 0) <$> sent (trace_of refused) = [0; 2].
Proof. by vm_compute. Qed.

End MiniMysqlExamples.
