(* ===== verification/S3Client.v ===== *)
(** * The S3 client

    Models the class [aws_context] of src/src/binsrv/s3_storage_backend.cpp: the requests
    the S3 backend makes, and the paths they are made for.  The AWS SDK is not under src/: its
    client is the class [S3CrtClient], one member per request, and [S3CrtClientLaws] says
    what S3 documents of the requests: they work on a bucket of objects by key, a put is
    atomic, and a listing comes in pages that are chained by continuation tokens.

    [SimulatedS3] is a client that keeps these laws. *)

From stdpp Require Import gmap.
From S2P Require Import Prelude.
From S2P Require Import Backend.

Local Open Scope Z_scope.

(** ** What the backend uses of [std::filesystem::path], on POSIX *)
Definition slash : Z := 47.

Definition path_is_absolute (p : list Z) : bool :=
  match p with c :: _ => c =? slash | [] => false end.
Definition path_has_filename (p : list Z) : bool :=
  match last p with Some c => negb (c =? slash) | None => false end.
(** [operator/=] *)
Definition path_append (p q : list Z) : list Z :=
  if path_is_absolute q then q
  else if path_has_filename p then p ++ slash :: q else p ++ q.
Fixpoint path_relative_path (p : list Z) : list Z :=
  match p with
  | c :: p' => if c =? slash then path_relative_path p' else p
  | [] => []
  end.

(** iteration: the root directory, the file names, and an empty name after a final separator *)
Fixpoint path_names (name p : list Z) : list (list Z) :=
  match p with
  | [] => [name]
  | c :: p =>
      if c =? slash then
        match name with [] => path_names [] p | _ => name :: path_names [] p end
      else path_names (name ++ [c]) p
  end.
Definition path_elements (p : list Z) : list (list Z) :=
  (if path_is_absolute p then [[slash]] else []) ++
  match path_relative_path p with [] => [] | r => path_names [] r end.

(** no empty name between two separators *)
Fixpoint single_slashes (p : list Z) : bool :=
  match p with
  | [] => true
  | c :: p => negb ((c =? slash) && path_is_absolute p) && single_slashes p
  end.

Section paths.
Implicit Types (p q n : list Z).

Lemma relative_app p q :
  path_relative_path (p ++ q) =
  match path_relative_path p with [] => path_relative_path q | r => r ++ q end.
Proof.
  induction p as [|c p IH]; [done|].
  cbn [app path_relative_path]. by destruct (c =? slash).
Qed.

Lemma has_filename_cons c p : p ≠ [] → path_has_filename (c :: p) = path_has_filename p.
Proof. intros Hp. unfold path_has_filename. destruct p; [done|]. reflexivity. Qed.

Lemma has_filename_relative p : path_has_filename (path_relative_path p) = path_has_filename p.
Proof.
  induction p as [|c p IH]; [done|]. cbn [path_relative_path].
  destruct (c =? slash) eqn:E; [|done]. rewrite IH. destruct p as [|d p].
  - unfold path_has_filename. cbn. by rewrite E.
  - symmetry. by apply has_filename_cons.
Qed.

Lemma not_absolute n : slash ∉ n → path_is_absolute n = false.
Proof. destruct n as [|c n]; [done|]. cbn. intros Hn. apply Z.eqb_neq. set_solver. Qed.

Lemma relative_plain n : slash ∉ n → path_relative_path n = n.
Proof. intros Hn%not_absolute. destruct n as [|c n]; [done|]. cbn in *. by rewrite Hn. Qed.

Lemma single_slashes_plain n : slash ∉ n → single_slashes n = true.
Proof.
  induction n as [|c n IH]; [done|]. intros [Hc Hn]%not_elem_of_cons. cbn.
  rewrite (not_absolute _ Hn), andb_false_r. by apply IH.
Qed.

Lemma single_slashes_app p q :
  single_slashes p = true → single_slashes q = true → path_is_absolute q = false →
  single_slashes (p ++ q) = true.
Proof.
  intros Hp Hq Ha. induction p as [|c p IH]; [done|].
  cbn [app single_slashes] in *. apply andb_true_iff in Hp as [Hc Hp].
  rewrite (IH Hp), andb_true_r. destruct p as [|d p]; [|done].
  cbn [app]. by rewrite Ha, andb_false_r.
Qed.

Lemma single_slashes_join p q :
  single_slashes p = true → single_slashes q = true → path_is_absolute q = false →
  path_has_filename p = true → single_slashes (p ++ slash :: q) = true.
Proof.
  intros Hp Hq Ha Hf. induction p as [|c p IH]; [done|]. cbn [single_slashes] in Hp. apply andb_true_iff in Hp as [Hc Hp].
  destruct p as [|d p].
  - unfold path_has_filename in Hf. cbn in Hf. apply negb_true_iff in Hf.
    change (negb ((c =? slash) && true) && single_slashes (slash :: q) = true). rewrite Hf.
    cbn [andb negb single_slashes]. by rewrite Ha, Hq, andb_false_r.
  - rewrite has_filename_cons in Hf by done. specialize (IH Hp Hf).
    change (negb ((c =? slash) && path_is_absolute (d :: p)) && single_slashes ((d :: p) ++ slash :: q) = true).
    by rewrite IH, Hc.
Qed.

Lemma single_slashes_append p n :
  single_slashes p = true → slash ∉ n → single_slashes (path_append p n) = true.
Proof.
  intros Hp Hn. unfold path_append. rewrite (not_absolute _ Hn).
  destruct (path_has_filename p) eqn:Hf.
  - apply single_slashes_join; [done|by apply single_slashes_plain|by apply not_absolute|done].
  - apply single_slashes_app; [done|by apply single_slashes_plain|by apply not_absolute].
Qed.
End paths.

(** ** The AWS SDK *)

(** a page of a listing: [GetKeyCount], [GetContents] (keys and sizes), [GetIsTruncated] and
    [GetNextContinuationToken] *)
Record list_page := mk_page {
  key_count : Z;
  page_contents : list (list Z * Z);
  is_truncated : bool;
  next_continuation_token : list Z
}.

(** [W] is the service with all that happens to it.  A bucket, a key, a region, a token and a
    content are texts.  [PutObject] reads the content from a stream: it also tells where it
    leaves the stream, and whether the stream is still good.  The content length of
    [GetObject] is what the service announces, the content what arrives.  [object_count]
    does not model code: it bounds the number of pages a listing may have. *)
Class S3CrtClient (W : Type) := {
  PutObject : list Z → list Z → list Z → W → W * (nat * bool) * bool;
  GetObject : list Z → list Z → W → W * option (Z * list Z);
  DeleteObject : list Z → list Z → W → W * bool;
  ListObjectsV2 : list Z → option (list Z) → option (list Z) → W → W * option list_page;
  GetBucketLocation : list Z → W → W * option (list Z);
  object_count : W → list Z → nat
}.

(** What the laws are about: the objects of a bucket, the key a request path stands for, the
    keys that are still to be listed after a token, and that requests do not fail. *)
Class S3CrtClientView (W : Type) := {
  contents : W → list Z → gmap (list Z) (list Z);
  request_key : list Z → list Z;
  remaining : gmap (list Z) (list Z) → list Z → list Z → list (list Z);
  responsive : W → Prop
}.

Class S3CrtClientLaws (W : Type) `{S3CrtClient W} `{S3CrtClientView W} := {
  request_key_law k : single_slashes k = true → request_key k = path_relative_path k;
  put_object_law bucket key content w w' pos good ok :
    PutObject bucket key content w = (w', (pos, good), ok) →
    (contents w' bucket = <[request_key key := content]> (contents w bucket) ∨
     contents w' bucket = contents w bucket ∧ ok = false) ∧
    (ok = true → pos = length content ∧ good = true);
  get_object_law bucket key w w' r :
    GetObject bucket key w = (w', r) →
    contents w' bucket = contents w bucket ∧
    ∀ len body, r = Some (len, body) →
      ∃ c, contents w bucket !! request_key key = Some c ∧ len = Z.of_nat (length c) ∧
           body `prefix_of` c;
  delete_object_law bucket key w w' ok :
    DeleteObject bucket key w = (w', ok) →
    contents w' bucket = delete (request_key key) (contents w bucket) ∨
    contents w' bucket = contents w bucket ∧ ok = false;
  remaining_first O prefix :
    remaining O prefix [] ≡ₚ filter (λ k, prefix `prefix_of` k) (elements (dom O));
  list_objects_law bucket prefix token w w' r :
    ListObjectsV2 bucket prefix token w = (w', r) →
    contents w' bucket = contents w bucket ∧
    ∀ page, r = Some page →
      key_count page = Z.of_nat (length (page_contents page)) ∧
      Forall (λ p, sizes (contents w bucket) !! p.1 = Some p.2) (page_contents page) ∧
      remaining (contents w bucket) (default [] prefix) (default [] token) =
        (page_contents page).*1 ++
        (if is_truncated page
         then remaining (contents w bucket) (default [] prefix) (next_continuation_token page)
         else []) ∧
      (is_truncated page = true → next_continuation_token page ≠ [] ∧ page_contents page ≠ []);
  object_count_law w bucket : object_count w bucket = size (contents w bucket);
  list_responsive bucket prefix token w : responsive w →
    ∃ w' page, ListObjectsV2 bucket prefix token w = (w', Some page) ∧ responsive w';
  get_responsive bucket key c w : responsive w → contents w bucket !! request_key key = Some c →
    ∃ w', GetObject bucket key w = (w', Some (Z.of_nat (length c), c)) ∧ responsive w'
}.

(** ** [aws_context] *)
Record qualified_object_path := mk_object_path { bucket : list Z; object_path : list Z }.

(** [raise_s3_error_from_outcome]: an [s3_error] is a [std::system_error], which is a
    [std::runtime_error] *)
Definition s3_error (what : string) : error := runtime_error what.

(** [std::in_range<std::size_t>] of a [long long] *)
Definition in_range_size_t (z : Z) : bool := 0 <=? z.

Module AwsContext.
Section requests.
Context `{S3CrtClient W}.

Definition get_bucket_region (bucket : list Z) : action W (list Z) := λ w,
  match GetBucketLocation bucket w with
  | (w, Some region) => (w, Ok region)
  | (w, None) => (w, Err (s3_error "cannot identify bucket location"))
  end.

(** the content length and the content, for the stream handler of the caller *)
Definition get_object_internal (source : qualified_object_path) : action W (Z * list Z) := λ w,
  match GetObject (bucket source) (object_path source) w with
  | (w, None) => (w, Err (s3_error "cannot get object from S3 bucket"))
  | (w, Some (content_length, body)) =>
      if negb (in_range_size_t content_length)
      then (w, Err (logic_error "invalid S3 object content length"))
      else (w, Ok (content_length, body))
  end.

Definition get_object_into_string (source : qualified_object_path) : action W (list Z) :=
  p ← get_object_internal source;
  let '(content_length, body) := p in
  _ ← throw_if (max_memory_object_size <? content_length) out_of_range;
  _ ← throw_if (Z.of_nat (length body) <? content_length)
        (runtime_error "cannot read S3 object content into a string");
  mret (take (Z.to_nat content_length) body).

(** the result says where the stream is left, also when the request fails *)
Definition put_object_from_stream (dest : qualified_object_path) (content : list Z) (w : W)
    : W * (nat * bool) * result unit :=
  let '(w, stream_left, ok) := PutObject (bucket dest) (object_path dest) content w in
  (w, stream_left, if ok : bool then Ok () else Err (s3_error "cannot put object into S3 bucket")).

Definition put_object_from_span (dest : qualified_object_path) (content : list Z) : action W unit :=
  λ w, let '(w, _, r) := put_object_from_stream dest content w in (w, r).

Definition delete_object (target : qualified_object_path) : action W unit := λ w,
  let '(w, ok) := DeleteObject (bucket target) (object_path target) w in
  (w, if ok : bool then Ok () else Err (s3_error "cannot delete object from S3 bucket")).

(** [emplace] keeps the value a key already has *)
Definition emplace (k : list Z) (v : Z) (m : object_container) : object_container :=
  match m !! k with Some _ => m | None => <[k := v]> m end.

Fixpoint process_list_objects_internal (list_objects : list (list Z * Z)) (prefix : list Z)
    (storage_objects : object_container) : result object_container :=
  match list_objects with
  | [] => Ok storage_objects
  | (key, size) :: list_objects =>
      _ ← raise_if (bool_decide (prefix ≠ []) && negb (bool_decide (prefix `prefix_of` key)))
            (logic_error "encountered an object with unexpected prefix");
      let key := drop (length prefix) key in
      process_list_objects_internal list_objects prefix
        (match key with [] => storage_objects | _ => emplace key size storage_objects end)
  end.

(** the prefix of a listing: relative, and with a separator at its end *)
Definition list_prefix (p : list Z) : list Z := path_append (path_relative_path p) [].
Definition non_empty (l : list Z) : option (list Z) := match l with [] => None | _ => Some l end.

(** [while (has_more)] *)
Fixpoint list_loop (fuel : nat) (bucket prefix token : list Z) (acc : object_container)
    : action W object_container :=
  match fuel with
  | O => throw out_of_fuel
  | S fuel => λ w,
      match ListObjectsV2 bucket (non_empty prefix) (non_empty token) w with
      | (w, None) => (w, Err (s3_error "cannot list objects in the specified bucket"))
      | (w, Some page) =>
          (_ ← throw_if (negb (in_range_size_t (key_count page)))
                 (logic_error "invalid key count in the list objects result");
           _ ← throw_if (negb (key_count page =? Z.of_nat (length (page_contents page))))
                 (logic_error "key count does not match the number of objects in the list objects result");
           acc ← of_result (process_list_objects_internal (page_contents page) prefix acc);
           if is_truncated page then
             _ ← throw_if (bool_decide (next_continuation_token page = []))
                   (logic_error "truncated list objects result is missing continuation token");
             list_loop fuel bucket prefix (next_continuation_token page) acc
           else mret acc) w
      end
  end.

Definition list_bucket_objects (prefix : qualified_object_path) : action W object_container := λ w,
  list_loop (S (object_count w (bucket prefix))) (bucket prefix) (list_prefix (object_path prefix))
    [] ∅ w.
End requests.
End AwsContext.

(** ** What the requests do *)

(** the objects below a prefix, by what follows it *)
Definition entry_under (prefix : list Z) (p : list Z * list Z) : option (list Z * list Z) :=
  if decide (prefix `prefix_of` p.1)
  then match drop (length prefix) p.1 with [] => None | n => Some (n, p.2) end
  else None.
Definition under (prefix : list Z) (O : gmap (list Z) (list Z)) : gmap (list Z) (list Z) :=
  list_to_map (omap (entry_under prefix) (map_to_list O)).

Section under.
Implicit Types (O : gmap (list Z) (list Z)) (prefix n : list Z).

Lemma under_entry prefix n (c : list Z) (p : list Z * list Z) :
  entry_under prefix p = Some (n, c) ↔ n ≠ [] ∧ p = (prefix ++ n, c).
Proof.
  destruct p as [k c']. unfold entry_under. cbn [fst snd]. destruct (decide _) as [[m ->]|Hp].
  - rewrite drop_app_length. destruct m as [|z m].
    + split; [done|]. intros [Hn [= Heq _]]. by apply app_inv_head in Heq.
    + split; [intros [= <- <-]; done|]. intros [_ [= Heq ->]]. by apply app_inv_head in Heq as <-.
  - split; [done|]. intros [_ [= -> _]]. destruct Hp. by eexists.
Qed.

Lemma under_lookup prefix O n c : under prefix O !! n = Some c ↔ n ≠ [] ∧ O !! (prefix ++ n) = Some c.
Proof.
  unfold under. rewrite <-elem_of_list_to_map.
  - rewrite list_elem_of_omap. setoid_rewrite under_entry. split.
    + intros (p & Hp & Hn & ->). by apply elem_of_map_to_list in Hp.
    + intros [Hn Hc]. exists (prefix ++ n, c). by rewrite elem_of_map_to_list.
  - pose proof (NoDup_fst_map_to_list O) as Hnd. induction (map_to_list O) as [|p l IH]; [constructor|].
    cbn in Hnd. apply NoDup_cons in Hnd as [Hp Hnd]. cbn.
    destruct (entry_under prefix p) as [[m c']|] eqn:E; [|by apply IH].
    apply under_entry in E as [Hm ->]. cbn. apply NoDup_cons. split; [|by apply IH].
    intros ([m' c2] & -> & Hin)%list_elem_of_fmap. apply list_elem_of_omap in Hin as (q & Hq & Hx).
    apply under_entry in Hx as [_ ->]. apply Hp. apply list_elem_of_fmap. by exists (prefix ++ m', c2).
Qed.

Lemma under_insert prefix O n c :
  n ≠ [] → under prefix (<[prefix ++ n := c]> O) = <[n := c]> (under prefix O).
Proof.
  intros Hn. apply map_eq. intros m. apply option_eq. intros c'. rewrite under_lookup.
  destruct (decide (m = n)) as [->|Hne].
  - rewrite !lookup_insert_eq. naive_solver.
  - rewrite !lookup_insert_ne, under_lookup; [done|done|]. by intros Heq%app_inv_head.
Qed.

Lemma under_delete prefix O n :
  under prefix (delete (prefix ++ n) O) = delete n (under prefix O).
Proof.
  apply map_eq. intros m. apply option_eq. intros c'. rewrite under_lookup.
  destruct (decide (m = n)) as [->|Hne].
  - rewrite !lookup_delete_eq. naive_solver.
  - rewrite !lookup_delete_ne, under_lookup; [done|done|]. by intros Heq%app_inv_head.
Qed.
End under.

Section client.
Context `{S3CrtClientLaws W}.
Import AwsContext.
Implicit Types (w : W) (prefix token : list Z).

(** the key of an object of the backend lies under the prefix of its listings *)
Lemma request_key_append root n :
  single_slashes root = true → slash ∉ n → n ≠ [] →
  request_key (path_append root n) = list_prefix root ++ n.
Proof.
  intros Hr Hn Hne. rewrite request_key_law by (by apply single_slashes_append).
  unfold list_prefix, path_append. rewrite (not_absolute _ Hn), has_filename_relative.
  cbn [path_is_absolute]. pose proof (has_filename_relative root) as Hf.
  destruct (path_has_filename root); rewrite relative_app.
  - destruct (path_relative_path root) eqn:E; [done|]. by rewrite <-app_assoc.
  - destruct (path_relative_path root) eqn:E; [by apply relative_plain|]. by rewrite app_nil_r.
Qed.

(** what has been collected from the keys [ks] *)
Definition collected prefix (O : gmap (list Z) (list Z)) (ks : list (list Z)) (m : object_container) : Prop :=
  ∀ n z, m !! n = Some z ↔ n ≠ [] ∧ prefix ++ n ∈ ks ∧ sizes O !! (prefix ++ n) = Some z.

Lemma process_page prefix O objs ks m :
  Forall (λ p, sizes O !! p.1 = Some p.2) objs → Forall (λ p, prefix `prefix_of` p.1) objs →
  collected prefix O ks m →
  ∃ m', process_list_objects_internal objs prefix m = Ok m' ∧ collected prefix O (ks ++ objs.*1) m'.
Proof.
  intros Hs. revert ks m. induction Hs as [|[k z] objs Hz Hs IH]; intros ks m Hp Hm.
  { exists m. by rewrite app_nil_r. }
  apply Forall_cons in Hp as [[n Hn] Hp]. cbn in Hn, Hz. subst k. cbn [process_list_objects_internal].
  rewrite (bool_decide_true (prefix `prefix_of` _)) by (by eexists).
  rewrite andb_false_r, drop_app_length. cbn [raise_if mbind result_bind].
  set (m1 := match n with [] => _ | _ => _ end).
  assert (collected prefix O (ks ++ [prefix ++ n]) m1) as Hm1.
  { intros n' z'. rewrite elem_of_app, list_elem_of_singleton. unfold m1, emplace.
    pose proof (Hm n' z') as Hn'. destruct n as [|y n].
    { rewrite Hn'. split; [naive_solver|]. intros (? & [?|Heq%app_inv_head] & ?); done. }
    destruct (m !! (y :: n)) as [z2|] eqn:E.
    - apply Hm in E as (_ & Hin & _). rewrite Hn'.
      split; [naive_solver|]. intros (? & [?|Heq%app_inv_head] & ?); [done|by subst].
    - destruct (decide (n' = y :: n)) as [->|Hne].
      + rewrite lookup_insert_eq. split; [intros [= <-]; by auto|]. intros (_ & _ & ?). congruence.
      + rewrite lookup_insert_ne, Hn' by done. split; [naive_solver|].
        intros (? & [?|Heq%app_inv_head] & ?); [done|by subst]. }
  destruct (IH _ _ Hp Hm1) as (m' & -> & Hm'). exists m'. split; [done|].
  by rewrite <-app_assoc in Hm'.
Qed.

Lemma default_non_empty (l : list Z) : default [] (non_empty l) = l.
Proof. by destruct l. Qed.

(** the loop over the pages: [done_] are the keys of the pages before *)
Lemma list_loop_spec fuel bucket prefix token acc w w' r done_ :
  let O := contents w bucket in
  list_loop fuel bucket prefix token acc w = (w', r) →
  (length (remaining O prefix token) < fuel)%nat →
  Forall (λ k, prefix `prefix_of` k) (remaining O prefix token) →
  collected prefix O done_ acc →
  contents w' bucket = O ∧
  (r = Err (s3_error "cannot list objects in the specified bucket") ∨
   ∃ m, r = Ok m ∧ collected prefix O (done_ ++ remaining O prefix token) m).
Proof.
  cbv zeta. revert token acc w done_. induction fuel as [|fuel IH]; intros token acc w ks Hr Hf Hp Hm; [lia|].
  cbn [list_loop] in Hr.
  destruct (ListObjectsV2 bucket (non_empty prefix) (non_empty token) w) as [w1 [page|]] eqn:E;
    apply list_objects_law in E as [Hc Hpage]; [|injection Hr as <- <-; by auto].
  destruct (Hpage page eq_refl) as (Hcount & Hsz & Hrest & Htrunc). clear Hpage.
  rewrite !default_non_empty in Hrest. rewrite Hrest in Hf, Hp |- *.
  apply Forall_app in Hp as [Hp1 Hp2]. rewrite length_app, length_fmap in Hf.
  rewrite Forall_fmap in Hp1.
  destruct (process_page prefix (contents w bucket) (page_contents page) ks acc) as (m & Hm1 & Hm2); [done..|].
  unfold in_range_size_t in Hr. rewrite Hcount, Z.eqb_refl in Hr.
  rewrite (proj2 (Z.leb_le 0 _)) in Hr by lia.
  unfold mbind, action_bind, throw_if, of_result in Hr. cbn in Hr. rewrite Hm1 in Hr.
  destruct (is_truncated page).
  - destruct (Htrunc eq_refl) as [Hne Hpn]. rewrite bool_decide_false in Hr by done. cbn in Hr.
    rewrite <-Hc in Hm2, Hp2, Hf |- *.
    destruct (IH _ _ _ (ks ++ (page_contents page).*1) Hr) as [Hc2 Hx]; [|done|done|].
    { destruct (page_contents page); [done|]. cbn in Hf. lia. }
    split; [done|]. by rewrite <-app_assoc in Hx.
  - injection Hr as <- <-. split; [done|]. right. exists m. by rewrite app_nil_r.
Qed.

Lemma list_bucket_objects_spec location w w' r :
  list_bucket_objects location w = (w', r) →
  contents w' (bucket location) = contents w (bucket location) ∧
  (r = Err (s3_error "cannot list objects in the specified bucket") ∨
   r = Ok (sizes (under (list_prefix (object_path location)) (contents w (bucket location))))).
Proof.
  unfold list_bucket_objects. set (prefix := list_prefix _). set (O := contents w (bucket location)). intros Hr.
  pose proof (remaining_first O prefix) as Hperm.
  assert (∀ k, k ∈ remaining O prefix [] ↔ prefix `prefix_of` k ∧ k ∈ dom O) as Hin.
  { intros k. rewrite Hperm, list_elem_of_filter. by rewrite elem_of_elements. }
  destruct (list_loop_spec _ _ _ _ _ _ _ _ [] Hr) as [Hc Hx].
  - fold O. rewrite object_count_law, Hperm. fold O.
    pose proof (length_filter (λ k, prefix `prefix_of` k) (elements (dom O))) as Hle.
    rewrite <-size_dom. change (size (dom O)) with (length (elements (dom O))). lia.
  - fold O. apply Forall_forall. intros k Hk. by apply Hin.
  - intros n z. rewrite lookup_empty. split; [done|]. by intros (_ & ?%not_elem_of_nil & _).
  - split; [done|]. destruct Hx as [->|(m & -> & Hm)]; [by left|]. right. f_equal. apply map_eq.
    intros n. apply option_eq. intros z. rewrite (Hm n z). fold O. cbn [app]. rewrite Hin, elem_of_dom.
    unfold sizes. rewrite !lookup_fmap, !fmap_Some. setoid_rewrite under_lookup. split.
    + intros (Hn & _ & c & Hc' & ->). eauto.
    + intros (c & [Hn Hc'] & ->). split; [done|]. split; [|eauto]. split; [by eexists|eauto].
Qed.

Lemma process_page_error objs prefix m e :
  process_list_objects_internal objs prefix m = Err e →
  e = logic_error "encountered an object with unexpected prefix".
Proof.
  revert m. induction objs as [|[k z] objs IH]; intros m He; [done|]. cbn in He.
  inv_err; [done|]. by eapply IH.
Qed.

Lemma list_loop_responsive fuel bucket prefix token acc w w' r :
  list_loop fuel bucket prefix token acc w = (w', r) → responsive w →
  r ≠ Err (s3_error "cannot list objects in the specified bucket") ∧ responsive w'.
Proof.
  revert token acc w. induction fuel as [|fuel IH]; intros token acc w Hr Hw; cbn [list_loop] in Hr.
  { by injection Hr as <- <-. }
  destruct (list_responsive bucket (non_empty prefix) (non_empty token) w Hw) as (w1 & page & E & Hw1).
  rewrite E in Hr. inv_action Hr; try done.
  - unfold of_result in Hr. injection Hr as <- He. split; [|done]. intros [= ->].
    by apply process_page_error in He.
  - unfold of_result in *. simplify_eq. destruct (is_truncated page); inv_action Hr; try done.
    by eapply IH.
Qed.
End client.

(** ** A client that keeps the laws

    A service with pages of two keys, and a client that reads the content to its end.  Every request takes the next of the outcomes to come:
    it succeeds, or it is lost, or it is carried out and its answer is lost. *)
Module SimulatedS3.
Inductive request_outcome := answered | lost | unanswered.
Record service := mk_service {
  sv_buckets : gmap (list Z) (gmap (list Z) (list Z));
  sv_outcomes : list request_outcome
}.
Implicit Types (w : service).

Definition bucket_contents w (bucket : list Z) : gmap (list Z) (list Z) :=
  default ∅ (sv_buckets w !! bucket).
Definition next_outcome w : request_outcome := default answered (head (sv_outcomes w)).
Definition requested w : service := mk_service (sv_buckets w) (tail (sv_outcomes w)).
Definition answers w : bool := match next_outcome w with answered => true | _ => false end.

(** a request that changes the objects of a bucket *)
Definition change_request (bucket : list Z) (f : gmap (list Z) (list Z) → gmap (list Z) (list Z)) w
    : service * bool :=
  (match next_outcome w with
   | lost => requested w
   | _ => mk_service (<[bucket := f (bucket_contents w bucket)]> (sv_buckets w)) (tail (sv_outcomes w))
   end, answers w).
Definition read_request {A} (a : option A) w : service * option A :=
  (requested w, if answers w then a else None).

(** the part of a list after an element *)
Fixpoint after (k : list Z) (l : list (list Z)) : list (list Z) :=
  match l with
  | [] => []
  | x :: l => if decide (x = k) then l else after k l
  end.
Definition all_keys (O : gmap (list Z) (list Z)) (prefix : list Z) : list (list Z) :=
  filter (λ k, prefix `prefix_of` k) (elements (dom O)).
Definition remaining_keys (O : gmap (list Z) (list Z)) (prefix token : list Z) : list (list Z) :=
  match token with
  | [] => all_keys O prefix
  | _ :: k => after k (all_keys O prefix)
  end.
Definition entry (O : gmap (list Z) (list Z)) (k : list Z) : list Z * Z :=
  (k, Z.of_nat (length (default [] (O !! k)))).
Definition page_of (O : gmap (list Z) (list Z)) (rest : list (list Z)) : list_page :=
  match rest with
  | k1 :: k2 :: _ :: _ => mk_page 2 [entry O k1; entry O k2] true (0 :: k2)
  | ks => mk_page (Z.of_nat (length ks)) (entry O <$> ks) false []
  end.

#[export] Instance service_client : S3CrtClient service := {
  PutObject bucket key content w :=
    let '(w, ok) := change_request bucket <[path_relative_path key := content]> w in
    (w, (length content, true), ok);
  GetObject bucket key w :=
    read_request ((λ c, (Z.of_nat (length c), c)) <$>
                  bucket_contents w bucket !! path_relative_path key) w;
  DeleteObject bucket key w := change_request bucket (delete (path_relative_path key)) w;
  ListObjectsV2 bucket prefix token w :=
    let O := bucket_contents w bucket in
    read_request (Some (page_of O (remaining_keys O (default [] prefix) (default [] token)))) w;
  GetBucketLocation _ w := read_request (Some (text "us-east-1")) w;
  object_count w bucket := size (bucket_contents w bucket)
}.

#[export] Instance service_view : S3CrtClientView service := {
  contents := bucket_contents;
  request_key := path_relative_path;
  remaining := remaining_keys;
  responsive w := sv_outcomes w = []
}.

Lemma after_app (pre l : list (list Z)) k : NoDup (pre ++ k :: l) → after k (pre ++ k :: l) = l.
Proof.
  induction pre as [|x pre IH]; intros Hnd; cbn in *; [by rewrite decide_True|].
  apply NoDup_cons in Hnd as [Hx Hnd]. rewrite decide_False; [by apply IH|]. set_solver.
Qed.
Lemma after_suffix k l : ∃ pre, l = pre ++ after k l.
Proof.
  induction l as [|x l [pre IH]]; [by exists []|]. cbn. destruct (decide _).
  - by exists [x].
  - exists (x :: pre). cbn. by f_equal.
Qed.
Lemma all_keys_nodup O prefix : NoDup (all_keys O prefix).
Proof. apply NoDup_filter, NoDup_elements. Qed.
Lemma remaining_suffix O prefix token : ∃ pre, all_keys O prefix = pre ++ remaining_keys O prefix token.
Proof. destruct token as [|z k]; [by exists []|]. apply after_suffix. Qed.

Lemma page_rest O prefix token :
  let rest := remaining_keys O prefix token in
  rest = (page_contents (page_of O rest)).*1 ++
         (if is_truncated (page_of O rest)
          then remaining_keys O prefix (next_continuation_token (page_of O rest)) else []).
Proof.
  cbv zeta. destruct (remaining_suffix O prefix token) as [pre Hpre].
  pose proof (all_keys_nodup O prefix) as Hnd.
  destruct (remaining_keys O prefix token) as [|k1 [|k2 [|k3 ks]]]; [done..|].
  cbn [page_of page_contents is_truncated next_continuation_token remaining_keys fmap list_fmap entry fst app].
  rewrite Hpre in Hnd |- *.
  replace (pre ++ k1 :: k2 :: k3 :: ks) with ((pre ++ [k1]) ++ k2 :: k3 :: ks) in * by (by rewrite <-app_assoc).
  by rewrite after_app.
Qed.

Lemma page_sizes (O : gmap (list Z) (list Z)) rest : (∀ k, k ∈ rest → k ∈ dom O) →
  Forall (λ p, sizes O !! p.1 = Some p.2) (page_contents (page_of O rest)).
Proof.
  intros Hin. assert (Forall (λ p, sizes O !! p.1 = Some p.2) (entry O <$> rest)) as Hall.
  { rewrite Forall_fmap. apply Forall_forall. intros k Hk. unfold entry, sizes. cbn.
    apply Hin, elem_of_dom in Hk as [c Hc]. by rewrite lookup_fmap, Hc. }
  destruct rest as [|k1 [|k2 [|k3 ks]]]; [done..|]. cbn in *.
  apply Forall_cons in Hall as [H1 Hall]. apply Forall_cons in Hall as [H2 _]. by repeat constructor.
Qed.

Lemma change_spec bucket f w w' ok :
  change_request bucket f w = (w', ok) →
  bucket_contents w' bucket = f (bucket_contents w bucket) ∨
  bucket_contents w' bucket = bucket_contents w bucket ∧ ok = false.
Proof.
  unfold change_request, answers. destruct (next_outcome w); intros [= <- <-]; [left|by right|left];
    unfold bucket_contents; cbn; by rewrite lookup_insert_eq.
Qed.

#[export, refine] Instance service_laws : S3CrtClientLaws service := {
  request_key_law := _; put_object_law := _; get_object_law := _; delete_object_law := _;
  remaining_first := _; list_objects_law := _; object_count_law := _; list_responsive := _;
  get_responsive := _
}.
Proof.
  - done.
  - intros bucket key content w w' pos good ok Hp. cbn -[change_request] in Hp.
    destruct (change_request _ _ w) as [w1 ok1] eqn:E. injection Hp as <- <- <- <-.
    apply change_spec in E. by split.
  - intros bucket key w w' r. cbn. unfold read_request. intros [= <- <-]. split; [done|].
    intros len body. destruct (answers w), (bucket_contents w bucket !! _) as [c|] eqn:E; [|done..].
    intros [= <- <-]. by exists c.
  - intros bucket key w w' ok. cbn. apply change_spec.
  - intros O prefix. cbn. done.
  - intros bucket prefix token w w' r. cbn. unfold read_request. intros [= <- <-]. split; [done|].
    intros page. destruct (answers w); [|done]. intros [= <-].
    set (O := bucket_contents w bucket). set (p := default [] prefix). set (t := default [] token).
    split; [by destruct (remaining_keys O p t) as [|k1 [|k2 [|k3 ks]]]|]. split.
    + apply page_sizes. intros k Hk. apply elem_of_elements.
      destruct (remaining_suffix O p t) as [pre Hpre].
      assert (k ∈ all_keys O p) as Hall by (rewrite Hpre; set_solver).
      by apply list_elem_of_filter in Hall as [_ ?].
    + split; [apply page_rest|]. by destruct (remaining_keys O p t) as [|k1 [|k2 [|k3 ks]]].
  - done.
  - intros bucket prefix token w Hw. cbn in Hw |- *. unfold read_request, answers, next_outcome.
    rewrite Hw. cbn. eexists _, _. split; [done|]. cbn. by rewrite Hw.
  - intros bucket key c w Hw Hc. cbn in *. unfold read_request, answers, next_outcome.
    rewrite Hw, Hc. cbn. eexists. split; [done|]. cbn. by rewrite Hw.
Defined.
End SimulatedS3.
