(* ===== verification/S3Backend.v ===== *)
(** * The S3 backend

    Models [s3_storage_backend] of src/src/binsrv/s3_storage_backend.{hpp,cpp}.

    S3 objects cannot be appended to: the open stream writes to a temporary file, and every
    write uploads the whole of it.  The state is the members of the class, the directory of
    the temporary files, and the service ([S3CrtClient]).  As in Backend.v every call into
    the operating system takes the next item of [s3_faults].

    The backend keeps the promises of [StorageBackendLaws]: what the storage proves over
    any backend holds over S3 too. *)

From stdpp Require Import gmap.
From S2P Require Import Prelude.
From S2P Require Import Gtid.
From S2P Require Import Backend.
From S2P Require Import S3Client.
Import AwsContext.

Local Open Scope Z_scope.

(** ** The members *)

(** the members that the constructor sets for good; the credentials, the region and the
    endpoint are members of [aws_context] *)
Record s3_settings := mk_s3_settings {
  s3_bucket : list Z;
  s3_root_path : list Z;
  s3_tmp_file_directory : list Z;
  s3_owns_tmp_file_directory : bool;
  s3_access_key_id : list Z;
  s3_secret_access_key : list Z;
  s3_region : list Z;
  s3_secure : bool;
  s3_endpoint : list Z
}.

(** [tmp_fstream_] while it is open: its position, whether it was opened with [app], and
    whether it is good *)
Record file_stream := mk_fstream { ts_position : nat; ts_append : bool; ts_good : bool }.

Record s3_storage_backend (W : Type) (cfg : s3_settings) := mk_s3 {
  s3_current_name : object_name;
  s3_uuids : nat;
  s3_current_tmp_file_path : list Z;
  s3_tmp_fstream : option file_stream;
  s3_tmp_files : gmap (list Z) (list Z);
  s3_faults : list (option nat);
  s3_client : W
}.
Arguments mk_s3 {W cfg} _ _ _ _ _ _ _.
Arguments s3_current_name {W cfg} _.
Arguments s3_uuids {W cfg} _.
Arguments s3_current_tmp_file_path {W cfg} _.
Arguments s3_tmp_fstream {W cfg} _.
Arguments s3_tmp_files {W cfg} _.
Arguments s3_faults {W cfg} _.
Arguments s3_client {W cfg} _.

(** [boost::uuids::random_generator] is not under src/: the text of the n-th UUID it makes *)
Class RandomUuid := random_uuid : nat → list Z.

Section operations.
Context `{S3CrtClient W} {cfg : s3_settings} `{RandomUuid}.
Abbreviation backend := (s3_storage_backend W cfg).
Implicit Types (b : backend) (n : object_name).

Definition s3_set_name n b : backend :=
  mk_s3 n (s3_uuids b) (s3_current_tmp_file_path b) (s3_tmp_fstream b) (s3_tmp_files b) (s3_faults b) (s3_client b).
Definition s3_set_path (p : list Z) b : backend :=
  mk_s3 (s3_current_name b) (s3_uuids b) p (s3_tmp_fstream b) (s3_tmp_files b) (s3_faults b) (s3_client b).
Definition s3_set_fstream (f : option file_stream) b : backend :=
  mk_s3 (s3_current_name b) (s3_uuids b) (s3_current_tmp_file_path b) f (s3_tmp_files b) (s3_faults b) (s3_client b).
Definition s3_set_files (f : gmap (list Z) (list Z)) b : backend :=
  mk_s3 (s3_current_name b) (s3_uuids b) (s3_current_tmp_file_path b) (s3_tmp_fstream b) f (s3_faults b) (s3_client b).
Definition s3_set_client (w : W) b : backend :=
  mk_s3 (s3_current_name b) (s3_uuids b) (s3_current_tmp_file_path b) (s3_tmp_fstream b) (s3_tmp_files b) (s3_faults b) w.

Definition on_client {A} : action W A → action backend A := on_member s3_client s3_set_client.
Definition s3_os_call : action backend (option nat) := λ b,
  (mk_s3 (s3_current_name b) (s3_uuids b) (s3_current_tmp_file_path b) (s3_tmp_fstream b) (s3_tmp_files b)
     (tail (s3_faults b)) (s3_client b), Ok (mjoin (head (s3_faults b)))).

(** the content of the current temporary file *)
Definition tmp_content b : list Z := default [] (s3_tmp_files b !! s3_current_tmp_file_path b).
Definition s3_set_content (c : list Z) b : backend :=
  s3_set_files (<[s3_current_tmp_file_path b := c]> (s3_tmp_files b)) b.

Definition get_object_path n : list Z := path_append (s3_root_path cfg) n.
Definition location n : qualified_object_path := mk_object_path (s3_bucket cfg) (get_object_path n).

Definition generate_tmp_file_path : action backend (list Z) := λ b,
  (mk_s3 (s3_current_name b) (S (s3_uuids b)) (s3_current_tmp_file_path b) (s3_tmp_fstream b) (s3_tmp_files b)
     (s3_faults b) (s3_client b),
   Ok (path_append (s3_tmp_file_directory cfg) (random_uuid (s3_uuids b)))).

(** [get_object_into_file]: the SDK writes what arrives to a file it opens itself; a stream
    that could not be opened has no end position *)
Definition get_object_into_file n : action backend unit :=
  fault ← s3_os_call;
  let opened := negb (failed fault) in
  _ ← modify (λ b, if opened then s3_set_content [] b else b);
  p ← on_client (get_object_internal (location n));
  let '(content_length, body) := p in
  fault ← s3_os_call;
  let written := match fault with Some k => take k body | None => body end in
  _ ← modify (λ b, if opened then s3_set_content written b else b);
  throw_if (negb opened || negb (Z.of_nat (length written) =? content_length))
    (runtime_error "cannot read S3 object content into a file").

(** [tmp_fstream_.write]: [d] is what reaches the file; a write after a hole fills it *)
Definition write_tmp (s : file_stream) (d : list Z) (good : bool) b : backend :=
  let content := tmp_content b in
  let content' :=
    if ts_append s then content ++ d
    else take (ts_position s) content ++ replicate (ts_position s - length content) 0 ++ d ++
         drop (ts_position s + length d) content in
  let position := if ts_append s then length content' else (ts_position s + length d)%nat in
  s3_set_fstream (Some (mk_fstream position (ts_append s) good)) (s3_set_content content' b).

Definition upload_tmp_stream_internal (s : file_stream) : action backend unit := λ b,
  let '(w, (pos, good), r) := put_object_from_stream (location (s3_current_name b)) (tmp_content b) (s3_client b) in
  (s3_set_client w (s3_set_fstream (Some (mk_fstream pos (ts_append s) good)) b), r).

Definition close_stream_internal : action backend unit :=
  _ ← modify (s3_set_fstream None);
  fault ← s3_os_call;
  modify (λ b, if failed fault then b
               else s3_set_files (delete (s3_current_tmp_file_path b) (s3_tmp_files b)) b).

(** *** The virtual functions *)
Definition s3_list_objects : action backend object_container :=
  on_client (list_bucket_objects (mk_object_path (s3_bucket cfg) (s3_root_path cfg))).
Definition s3_get_object n : action backend (list Z) := on_client (get_object_into_string (location n)).
Definition s3_put_object n (content : list Z) : action backend unit :=
  on_client (put_object_from_span (location n) content).
Definition s3_remove_object n : action backend unit := on_client (delete_object (location n)).
Definition s3_fsync : action backend unit := mret ().

Definition s3_open_stream n (mode : open_stream_mode) : action backend Z :=
  f ← gets s3_tmp_fstream;
  _ ← throw_if (bool_decide (is_Some f)) (undefined_behaviour "tmp_fstream_ is open");
  _ ← modify (s3_set_name n);
  path ← generate_tmp_file_path;
  _ ← modify (s3_set_path path);
  _ ← match mode with mode_append => get_object_into_file n | mode_create => mret () end;
  fault ← s3_os_call;
  _ ← throw_if (failed fault) (runtime_error "cannot open temporary file for S3 object body stream");
  found ← gets tmp_content;
  let content := match mode with mode_create => [] | mode_append => found end in
  _ ← modify (s3_set_content content);
  _ ← modify (s3_set_fstream (Some (mk_fstream (length content) (bool_decide (mode = mode_append)) true)));
  mret (Z.of_nat (length content)).

Definition s3_write_data_to_stream (data : list Z) : action backend unit :=
  f ← gets s3_tmp_fstream;
  match f with
  | None => throw (undefined_behaviour "tmp_fstream_ is not open")
  | Some s =>
      _ ← throw_if (negb (ts_good s))
            (runtime_error "cannot write data to the temporary file for S3 object");
      fault ← s3_os_call;
      _ ← modify (write_tmp s (match fault with Some k => take k data | None => data end) (negb (failed fault)));
      _ ← throw_if (failed fault)
            (runtime_error "cannot write data to the temporary file for S3 object");
      fault ← s3_os_call;
      _ ← modify (λ b, if failed fault
                       then s3_set_fstream ((λ s, mk_fstream (ts_position s) (ts_append s) false) <$> s3_tmp_fstream b) b
                       else b);
      _ ← throw_if (failed fault) (runtime_error "cannot flush the temporary file for S3 object");
      upload_tmp_stream_internal s
  end.

Definition s3_close_stream : action backend unit :=
  f ← gets s3_tmp_fstream;
  _ ← throw_if (bool_decide (f = None)) (undefined_behaviour "tmp_fstream_ is not open");
  _ ← close_stream_internal;
  _ ← modify (s3_set_path []);
  modify (s3_set_name []).

(** the destructor: nothing it does may throw *)
Definition s3_destroy b : backend :=
  let b := if bool_decide (is_Some (s3_tmp_fstream b)) then (close_stream_internal b).1 else b in
  let (b, fault) := s3_os_call b in
  if s3_owns_tmp_file_directory cfg && is_ok (fault ≫= λ f, raise_if (failed f) out_of_range)
  then s3_set_files ∅ b else b.

#[export] Instance s3_backend : StorageBackend backend := {
  do_list_objects := s3_list_objects;
  do_get_object := s3_get_object;
  do_put_object := s3_put_object;
  do_remove_object := s3_remove_object;
  do_fsync := s3_fsync;
  do_open_stream := s3_open_stream;
  do_write_data_to_stream := s3_write_data_to_stream;
  do_close_stream := s3_close_stream
}.
End operations.
Arguments get_object_path cfg n : clear implicits.
Arguments location cfg n : clear implicits.

(** ** The backend keeps the promises *)
Class RootPathOk (cfg : s3_settings) := root_path_ok : single_slashes (s3_root_path cfg) = true.

Section laws.
Context `{S3CrtClientLaws W} {cfg : s3_settings} `{RandomUuid}.
Abbreviation backend := (s3_storage_backend W cfg).
Implicit Types (b : backend) (n : object_name) (c : list Z).

(** the objects of the backend: those of the bucket below the root path *)
Definition s3_objects b : gmap (list Z) (list Z) :=
  under (list_prefix (s3_root_path cfg)) (contents (s3_client b) (s3_bucket cfg)).

#[export] Instance s3_view : BackendView backend := {
  durable := s3_objects;
  objects b :=
    match s3_tmp_fstream b with
    | Some _ => <[s3_current_name b := tmp_content b]> (s3_objects b)
    | None => s3_objects b
    end;
  stream b := match s3_tmp_fstream b with Some _ => Some (s3_current_name b) | None => None end;
  intact b :=
    match s3_tmp_fstream b with
    | Some s => ts_good s = true ∧ ts_position s = length (tmp_content b)
    | None => True
    end;
  reliable b := responsive (s3_client b)
}.

(** the members that a request leaves alone *)
Definition same_stream b b' : Prop :=
  s3_current_name b' = s3_current_name b ∧ s3_tmp_fstream b' = s3_tmp_fstream b ∧
  tmp_content b' = tmp_content b.

Lemma on_client_inv {A} (m : action W A) b b' r :
  on_client m b = (b', r) →
  m (s3_client b) = (s3_client b', r) ∧ same_stream b b'.
Proof.
  unfold on_client, on_member. destruct (m (s3_client b)) as [w r0] eqn:E. by intros [= <- <-].
Qed.

Lemma same_stream_undisturbed b b' :
  same_stream b b' → s3_objects b' = s3_objects b → undisturbed b b'.
Proof.
  intros (Hn & Hf & Hc) Ho. unfold undisturbed. cbn. rewrite Hn, Hf, Hc, Ho. done.
Qed.

Lemma same_stream_updates n b b' f ok :
  same_stream b b' → stream_apart n (stream b) →
  (∀ m x O, m ≠ n → <[m := x]> (f O) = f (<[m := x]> O)) →
  (s3_objects b' = f (s3_objects b) ∨ s3_objects b' = s3_objects b ∧ ok = false) →
  updates f b b' ok.
Proof.
  intros (Hn & Hf & Hc) Hap Hcomm Ho. unfold updates. cbn in *. rewrite Hn, Hf, Hc.
  split; [done|]. split; [done|].
  destruct Ho as [->|[-> ->]]; [left|by right]. split; [|done].
  destruct (s3_tmp_fstream b); [|done]. apply Hcomm. by destruct (Hap _ eq_refl).
Qed.

Lemma s3_key `{RootPathOk cfg} n :
  name_ok n → request_key (get_object_path cfg n) = list_prefix (s3_root_path cfg) ++ n.
Proof. intros (Hne & _ & Hn). by apply request_key_append. Qed.

Lemma get_internal_inv source (w w' : W) r :
  get_object_internal source w = (w', r) →
  contents w' (bucket source) = contents w (bucket source) ∧
  ∀ len body, r = Ok (len, body) →
    ∃ c, contents w (bucket source) !! request_key (object_path source) = Some c ∧
         len = Z.of_nat (length c) ∧ body `prefix_of` c.
Proof.
  unfold get_object_internal. destruct (GetObject _ _ w) as [w1 [[len body]|]] eqn:E;
    apply get_object_law in E as [Hc Hr].
  - destruct (negb _); intros [= <- <-]; (split; [done|]); [done|]. intros ?? [= <- <-]. by apply Hr.
  - by intros [= <- <-].
Qed.

Lemma prefix_whole c d : d `prefix_of` c → Z.of_nat (length c) ≤ Z.of_nat (length d) → d = c.
Proof. intros [m ->] Hl. rewrite length_app in Hl. destruct m; [by rewrite app_nil_r|cbn in Hl; lia]. Qed.

Lemma get_into_string_inv source (w w' : W) r :
  get_object_into_string source w = (w', r) →
  contents w' (bucket source) = contents w (bucket source) ∧
  ∀ c, r = Ok c → contents w (bucket source) !! request_key (object_path source) = Some c.
Proof.
  intros Hr. unfold get_object_into_string in Hr.
  apply action_bind_inv in Hr as [(e & -> & Hr)|(w1 & [len body] & Hg & Hr)].
  { by apply get_internal_inv in Hr as [? _]. }
  apply get_internal_inv in Hg as [Hw Hg]. destruct (Hg _ _ eq_refl) as (c & Hc & -> & Hp).
  inv_action Hr; (split; [done|]); [done..|]. to_prop.
  intros ? [= <-]. rewrite Hc. f_equal. apply prefix_whole in Hp as ->; [|done].
  by rewrite Nat2Z.id, take_ge.
Qed.

Lemma on_bucket b b' :
  contents (s3_client b') (s3_bucket cfg) = contents (s3_client b) (s3_bucket cfg) →
  s3_objects b' = s3_objects b.
Proof. unfold s3_objects. by intros ->. Qed.

(** everything but the faults to come *)
Definition same_members b b' : Prop :=
  s3_client b' = s3_client b ∧ s3_current_name b' = s3_current_name b ∧
  s3_tmp_fstream b' = s3_tmp_fstream b ∧
  s3_current_tmp_file_path b' = s3_current_tmp_file_path b ∧ s3_tmp_files b' = s3_tmp_files b.
Lemma s3_os_call_inv b b' r : s3_os_call b = (b', r) → same_members b b'.
Proof. by intros [= <- <-]. Qed.
Lemma s3_os_call_ok b : ∃ b' f, s3_os_call b = (b', Ok f) ∧ same_members b b'.
Proof. eexists _, _. split; [reflexivity|]. done. Qed.

Lemma tmp_content_set c b : tmp_content (s3_set_content c b) = c.
Proof. unfold tmp_content, s3_set_content. cbn. by rewrite lookup_insert_eq. Qed.

Lemma into_file_inv `{RootPathOk cfg} n b b' r :
  get_object_into_file n b = (b', r) → name_ok n →
  s3_objects b' = s3_objects b ∧ s3_current_name b' = s3_current_name b ∧
  s3_tmp_fstream b' = s3_tmp_fstream b ∧
  (r = Ok () → s3_objects b !! n = Some (tmp_content b')).
Proof.
  intros Hr Hn. unfold get_object_into_file in Hr.
  apply action_bind_inv in Hr as [(e & -> & Hr)|(b1 & f1 & Hf1 & Hr)]; [done|].
  apply s3_os_call_inv in Hf1 as (Hc1 & Hn1 & Hs1 & Hp1 & _).
  rewrite modify_bind in Hr.
  set (b2 := if negb (failed f1) then _ else _) in Hr.
  assert (s3_client b2 = s3_client b1 ∧ s3_current_name b2 = s3_current_name b1 ∧ s3_tmp_fstream b2 = s3_tmp_fstream b1)
    as (Hc2 & Hn2 & Hs2) by (unfold b2; by destruct (failed f1)).
  apply action_bind_inv in Hr as [(e & -> & Hr)|(b3 & [len body] & Hg & Hr)].
  { apply on_client_inv in Hr as [Hr (Hn3 & Hs3 & _)]. apply get_internal_inv in Hr as [Hw _]. cbn in Hw.
    split; [apply on_bucket; congruence|]. split; [congruence|]. split; [congruence|done]. }
  apply on_client_inv in Hg as [Hg (Hn3 & Hs3 & _)]. apply get_internal_inv in Hg as [Hw Hg]. cbn in Hw, Hg.
  destruct (Hg _ _ eq_refl) as (c & Hc & -> & Hp). clear Hg.
  apply action_bind_inv in Hr as [(e & -> & Hr)|(b4 & f2 & Hf2 & Hr)]; [done|].
  apply s3_os_call_inv in Hf2 as (Hc4 & Hn4 & Hs4 & _). rewrite modify_bind in Hr.
  set (written := match f2 with Some k => take k body | None => body end) in Hr.
  assert (written `prefix_of` c) as Hwr.
  { etrans; [|exact Hp]. unfold written. destruct f2; [|done]. eexists. symmetry. apply take_drop. }
  set (b5 := if negb (failed f1) then _ else b4) in Hr.
  assert (s3_client b5 = s3_client b4 ∧ s3_current_name b5 = s3_current_name b4 ∧ s3_tmp_fstream b5 = s3_tmp_fstream b4)
    as (Hc5 & Hn5 & Hs5) by (unfold b5; by destruct (failed f1)).
  apply throw_if_inv in Hr as [-> Hr].
  split; [apply on_bucket; congruence|]. split; [congruence|]. split; [congruence|].
  intros ->. destruct Hr as [[_ [=]]|[Hcond _]]. apply orb_false_iff in Hcond as [Hop Hlen]. to_prop.
  apply prefix_whole in Hwr as Heq; [|lia].
  rewrite s3_key in Hc by done. unfold s3_objects. apply under_lookup. split; [by destruct Hn|].
  unfold b5. rewrite Hop. cbn [negb]. rewrite tmp_content_set, Heq, <-Hc. by rewrite Hc2, Hc1.
Qed.

(** the temporary file a stream is opened on *)
Lemma open_tmp_inv `{RootPathOk cfg} n mode b b' r :
  match mode with mode_append => get_object_into_file n | mode_create => mret () end b = (b', r) →
  name_ok n →
  s3_objects b' = s3_objects b ∧ s3_current_name b' = s3_current_name b ∧
  s3_tmp_fstream b' = s3_tmp_fstream b ∧
  (r = Ok () → match mode with mode_create => [] | mode_append => tmp_content b' end =
               old_content mode (s3_objects b !! n)).
Proof.
  destruct mode; intros Hr Hn.
  - by injection Hr as <- <-.
  - destruct (into_file_inv _ _ _ _ Hr Hn) as (Ho & Hnm & Hs & Hc). split_and!; [done..|].
    intros Hok. cbn. by rewrite (Hc Hok).
Qed.

Lemma s3_open_inv `{RootPathOk cfg} n mode b b' r :
  s3_open_stream n mode b = (b', r) → name_ok n → s3_tmp_fstream b = None →
  s3_objects b' = s3_objects b ∧
  match r with
  | Ok offset =>
      let c := old_content mode (s3_objects b !! n) in
      s3_current_name b' = n ∧ tmp_content b' = c ∧ offset = Z.of_nat (length c) ∧
      ∃ s, s3_tmp_fstream b' = Some s ∧ ts_good s = true ∧ ts_position s = length c
  | Err _ => s3_tmp_fstream b' = None
  end.
Proof.
  intros Hr Hn Hs. unfold s3_open_stream in Hr. rewrite gets_bind, Hs in Hr.
  rewrite (action_bind_eq (throw_if _ _) _ b b ()) in Hr by (by rewrite bool_decide_false by (by intros [])).
  rewrite modify_bind, (action_bind_eq generate_tmp_file_path _ _ _ _ eq_refl), modify_bind in Hr.
  set (b0 := s3_set_path _ _) in Hr.
  assert (s3_objects b0 = s3_objects b ∧ s3_tmp_fstream b0 = None ∧ s3_current_name b0 = n) as (Ho0 & Hs0 & Hn0) by done.
  apply action_bind_inv in Hr as [(e & -> & Hr)|(b1 & [] & Hm & Hr)].
  { apply open_tmp_inv in Hr as (Ho1 & _ & Hs1 & _); [|done]. split; congruence. }
  apply open_tmp_inv in Hm as (Ho1 & Hn1 & Hs1 & Hc1); [|done]. specialize (Hc1 eq_refl).
  apply action_bind_inv in Hr as [(e & -> & Hr)|(b2 & f & Hf & Hr)]; [done|].
  apply s3_os_call_inv in Hf as (Hc2 & Hn2 & Hs2 & Hp2 & Hf2).
  apply action_bind_inv in Hr as [(e & -> & Hr)|(b3 & [] & Ht & Hr)].
  { apply throw_if_inv in Hr as [-> _]. split; [|congruence].
    rewrite <-Ho0, <-Ho1. apply on_bucket. by rewrite Hc2. }
  apply throw_if_inv in Ht as [-> _]. rewrite gets_bind, !modify_bind in Hr.
  assert (tmp_content b2 = tmp_content b1) as Ht2 by (unfold tmp_content; by rewrite Hp2, Hf2).
  rewrite Ht2, Hc1 in Hr. injection Hr as <- <-. rewrite Ho0. cbv zeta.
  split. { rewrite <-Ho0, <-Ho1. apply on_bucket. cbn. by rewrite Hc2. }
  split; [cbn; congruence|]. split; [|split; [done|]].
  - etrans; [|apply (tmp_content_set _ b2)]. done.
  - eexists. split; [reflexivity|]. done.
Qed.

Lemma write_tmp_content s d good b :
  ts_position s = length (tmp_content b) →
  tmp_content (write_tmp s d good b) = tmp_content b ++ d ∧
  s3_tmp_fstream (write_tmp s d good b) = Some (mk_fstream (length (tmp_content b ++ d)) (ts_append s) good) ∧
  s3_current_name (write_tmp s d good b) = s3_current_name b ∧
  s3_objects (write_tmp s d good b) = s3_objects b.
Proof.
  intros Hp.
  assert ((if ts_append s then tmp_content b ++ d
    else take (ts_position s) (tmp_content b) ++ replicate (ts_position s - length (tmp_content b)) 0 ++ d ++
         drop (ts_position s + length d) (tmp_content b)) = tmp_content b ++ d) as Hc.
  { destruct (ts_append s); [done|]. rewrite Hp, firstn_all, Nat.sub_diag, drop_ge by lia. by rewrite app_nil_r. }
  unfold write_tmp. cbv zeta. rewrite Hc. split; [|split; [|done]].
  - etrans; [|apply (tmp_content_set _ b)]. done.
  - cbn. do 2 f_equal. destruct (ts_append s); [done|]. by rewrite Hp, length_app.
Qed.

Lemma upload_inv `{RootPathOk cfg} s b b' r :
  upload_tmp_stream_internal s b = (b', r) → name_ok (s3_current_name b) →
  s3_current_name b' = s3_current_name b ∧ tmp_content b' = tmp_content b ∧
  (s3_objects b' = s3_objects b ∧ is_ok r = false ∨
   s3_objects b' = <[s3_current_name b := tmp_content b]> (s3_objects b)) ∧
  ∃ pos good, s3_tmp_fstream b' = Some (mk_fstream pos (ts_append s) good) ∧
    (r = Ok () → pos = length (tmp_content b) ∧ good = true).
Proof.
  intros Hr Hn. unfold upload_tmp_stream_internal, put_object_from_stream in Hr.
  destruct (PutObject _ _ _ _) as [[w [pos good]] ok] eqn:E.
  apply put_object_law in E as [Ho Hok]. cbn in Ho. injection Hr as <- <-.
  split; [done|]. split; [done|]. split.
  - unfold s3_objects. cbn. destruct Ho as [-> |[-> ->]]; [|by left]. right.
    rewrite s3_key by done. apply under_insert. by destruct Hn.
  - exists pos, good. split; [done|]. intros Hr. apply Hok. by destruct ok.
Qed.

Lemma s3_write_inv `{RootPathOk cfg} data b b' r s :
  s3_write_data_to_stream data b = (b', r) → s3_tmp_fstream b = Some s →
  ts_good s = true → ts_position s = length (tmp_content b) → name_ok (s3_current_name b) →
  s3_current_name b' = s3_current_name b ∧
  ∃ d s', d `prefix_of` data ∧ tmp_content b' = tmp_content b ++ d ∧ s3_tmp_fstream b' = Some s' ∧
    (s3_objects b' = s3_objects b ∧ is_ok r = false ∨
     s3_objects b' = <[s3_current_name b := tmp_content b']> (s3_objects b) ∧ d = data) ∧
    (r = Ok () → d = data ∧ ts_good s' = true ∧ ts_position s' = length (tmp_content b')).
Proof.
  intros Hr Hs Hg Hp Hn. unfold s3_write_data_to_stream in Hr. rewrite gets_bind, Hs, Hg in Hr.
  cbn [negb throw_if] in Hr. rewrite (action_bind_eq (mret ()) _ b b ()) in Hr by done.
  destruct (s3_os_call_ok b) as (b1 & f1 & Hf1 & Hc1 & Hn1 & Hs1 & Hp1 & Hfs1).
  rewrite (action_bind_eq _ _ _ _ _ Hf1), modify_bind in Hr.
  assert (tmp_content b1 = tmp_content b) as Ht1 by (unfold tmp_content; by rewrite Hp1, Hfs1).
  assert (s3_objects b1 = s3_objects b) as Ho1 by (apply on_bucket; by rewrite Hc1).
  set (d := match f1 with Some k => take k data | None => data end) in Hr.
  assert (d `prefix_of` data) as Hd.
  { unfold d. destruct f1; [|done]. eexists. symmetry. apply take_drop. }
  destruct (write_tmp_content s d (negb (failed f1)) b1) as (Ht2 & Hs2 & Hn2 & Ho2); [by rewrite Ht1|].
  set (b2 := write_tmp s d (negb (failed f1)) b1) in *. rewrite Ht1 in Ht2, Hs2. rewrite Ho1 in Ho2. rewrite Hn1 in Hn2.
  destruct f1 as [k|]; cbn [failed negb throw_if] in Hr, Hs2.
  { unfold mbind, action_bind, throw in Hr. injection Hr as <- <-. split; [done|]. exists d. eexists. split_and!; [done..|by left|done]. }
  rewrite (action_bind_eq (mret ()) _ b2 b2 ()) in Hr by done.
  destruct (s3_os_call_ok b2) as (b3 & f3 & Hf3 & Hc3 & Hn3 & Hs3 & Hp3 & Hfs3).
  rewrite (action_bind_eq _ _ _ _ _ Hf3), modify_bind in Hr.
  assert (tmp_content b3 = tmp_content b ++ d) as Ht3 by (rewrite <-Ht2; unfold tmp_content; by rewrite Hp3, Hfs3).
  assert (s3_objects b3 = s3_objects b) as Ho3 by (rewrite <-Ho2; apply on_bucket; by rewrite Hc3).
  destruct f3 as [k|]; cbn [failed throw_if] in Hr.
  { unfold mbind, action_bind, throw in Hr. injection Hr as <- <-.
    split; [cbn; congruence|]. exists d. rewrite Hs3, Hs2. eexists. cbn [fmap option_fmap option_map].
    split; [done|]. split; [exact Ht3|]. split; [done|]. split; [left; split; [exact Ho3|done]|done]. }
  rewrite (action_bind_eq (mret ()) _ b3 b3 ()) in Hr by done.
  apply upload_inv in Hr as (Hn4 & Ht4 & Ho4 & pos & good & Hs4 & Hok); [|by rewrite Hn3, Hn2].
  split; [congruence|]. exists data. eexists. rewrite Ht4, Ho3, Hn3, Hn2 in *.
  split; [done|]. split; [done|]. split; [done|]. split.
  - destruct Ho4 as [[-> ?]|Ho4]; [by left|right; split; [exact Ho4|done]].
  - intros Hx. destruct (Hok Hx) as [-> ->]. done.
Qed.

Lemma s3_close_inv b b' r s :
  s3_close_stream b = (b', r) → s3_tmp_fstream b = Some s →
  r = Ok () ∧ s3_objects b' = s3_objects b ∧ s3_tmp_fstream b' = None.
Proof.
  intros Hr Hs. unfold s3_close_stream in Hr. rewrite gets_bind, Hs in Hr.
  cbn [throw_if] in Hr. rewrite (action_bind_eq (throw_if _ _) _ b b ()) in Hr by done.
  destruct (s3_os_call_ok (s3_set_fstream None b)) as (b1 & f & Hf & Hc & _ & Hs1 & _).
  assert (∃ b2, close_stream_internal b = (b2, Ok ()) ∧ s3_client b2 = s3_client b ∧ s3_tmp_fstream b2 = None)
    as (b2 & Hcl & Hc2 & Hs2).
  { unfold close_stream_internal. rewrite modify_bind, (action_bind_eq _ _ _ _ _ Hf).
    eexists. split; [reflexivity|]. by destruct (failed f). }
  rewrite (action_bind_eq _ _ _ _ _ Hcl), modify_bind in Hr. injection Hr as <- <-.
  split; [done|]. split; [|done]. apply on_bucket. cbn. by rewrite Hc2.
Qed.

(** The promises.  A write that fails may have reached the bucket or not; one that succeeds
    has; the listing and the other requests see the bucket. *)
#[export, refine] Instance s3_laws `{RootPathOk cfg} : StorageBackendLaws backend := {
  closed_law := _; list_law := _; get_law := _; put_law := _; remove_law := _; fsync_law := _;
  open_law := _; write_law := _; close_law := _; Backend.list_reliable := _; get_reliable := _
}.
Proof.
  - intros b. cbn. by destruct (s3_tmp_fstream b).
  - intros b b' r Hr. cbn [do_list_objects s3_backend] in Hr. apply on_client_inv in Hr as [Hr Hs].
    apply list_bucket_objects_spec in Hr as [Hc Hr]. cbn in Hc.
    split; [by apply same_stream_undisturbed, on_bucket|].
    intros m ->. destruct Hr as [[=]|[= ->]]. done.
  - intros n b b' r Hr Hn. cbn [do_get_object s3_backend] in Hr. apply on_client_inv in Hr as [Hr Hs].
    apply get_into_string_inv in Hr as [Hc Hr]. cbn in Hc.
    split; [by apply same_stream_undisturbed, on_bucket|].
    intros c Hok. cbn. apply under_lookup. split; [by destruct Hn|]. rewrite <-s3_key by done. by apply Hr.
  - intros n c b b' r Hr Hn Hap. cbn [do_put_object s3_backend] in Hr. apply on_client_inv in Hr as [Hr Hs].
    apply (same_stream_updates n); [done..|by intros; apply insert_insert_ne|].
    unfold put_object_from_span, put_object_from_stream in Hr.
    destruct (PutObject _ _ _ _) as [[w [pos good]] ok] eqn:E. apply put_object_law in E as [Ho _].
    injection Hr as Hw <-. cbn in Ho. unfold s3_objects. rewrite <-Hw.
    destruct Ho as [-> |[-> ->]]; [left|by right]. rewrite s3_key by done. apply under_insert. by destruct Hn.
  - intros n b b' r Hr Hn Hap. cbn [do_remove_object s3_backend] in Hr. apply on_client_inv in Hr as [Hr Hs].
    apply (same_stream_updates n); [done..|by intros; symmetry; apply delete_insert_ne|].
    unfold delete_object in Hr. destruct (DeleteObject _ _ _) as [w ok] eqn:E. apply delete_object_law in E as Ho.
    injection Hr as Hw <-. cbn in Ho. unfold s3_objects. rewrite <-Hw.
    destruct Ho as [-> |[-> ->]]; [left|by right]. rewrite s3_key by done. apply under_delete.
  - intros b b' r [= <- <-]. done.
  - intros n mode b b' r Hr Hn Hst. cbn [do_open_stream s3_backend] in Hr.
    assert (s3_tmp_fstream b = None) as Hs by (cbn in Hst; by destruct (s3_tmp_fstream b)).
    destruct (s3_open_inv _ _ _ _ _ Hr Hn Hs) as [Ho Hx]. cbn. rewrite Hs, Ho.
    destruct r as [offset|e]; [|by rewrite Hx].
    destruct Hx as (Hnm & Ht & Hoff & s & -> & Hg & Hp). rewrite Hnm, Ht.
    split; [done|]. split; [by left|]. split; [done|]. done.
  - intros data b b' r n c Hr Hn Hst Hc Hi. cbn [do_write_data_to_stream s3_backend] in Hr.
    cbn in Hst, Hc, Hi. destruct (s3_tmp_fstream b) as [s|] eqn:Hs; [|done].
    injection Hst as <-. destruct Hi as [Hg Hp]. rewrite lookup_insert_eq in Hc. injection Hc as <-.
    destruct (s3_write_inv _ _ _ _ _ Hr Hs Hg Hp Hn) as (Hnm & d & s' & Hd & Ht & Hs' & Ho & Hok).
    unfold settled. cbn. rewrite Hs, Hs', Hnm. split; [done|]. exists d. rewrite <-Ht.
    split; [done|]. split; [|split].
    + rewrite insert_insert_eq. destruct Ho as [[-> _]|[Ho _]]; [done|]. by rewrite Ho, insert_insert_eq.
    + destruct Ho as [[-> _]|[Ho _]]; [by left|]. right. by rewrite Ho, insert_insert_eq.
    + intros Hx. destruct (Hok Hx) as (-> & Hg' & Hp'). split; [done|]. split; [done|].
      destruct Ho as [[_ Hf]|[Ho _]]; [by rewrite Hx in Hf|]. by rewrite Ho, insert_insert_eq.
  - intros b b' r Hr Hst. cbn [do_close_stream s3_backend] in Hr. cbn in Hst.
    destruct (s3_tmp_fstream b) as [s|] eqn:Hs; [|done].
    destruct (s3_close_inv _ _ _ _ Hr Hs) as (-> & Ho & Hn). cbn. by rewrite Hn, Ho.
  - intros b Hrel. cbn in Hrel. destruct (s3_list_objects b) as [b' r] eqn:Hr.
    pose proof Hr as Hr2. apply on_client_inv in Hr2 as [Hl _].
    pose proof Hl as Hl2. unfold list_bucket_objects in Hl2. apply list_loop_responsive in Hl2 as [Hne Hrel']; [|done].
    apply list_bucket_objects_spec in Hl as [_ [-> | ->]]; [done|]. exists b'. by split.
  - intros n c b Hrel Hn Hc Hlen. cbn in Hrel, Hc. apply under_lookup in Hc as [_ Hc].
    rewrite <-s3_key in Hc by done.
    destruct (S3Client.get_responsive _ _ _ _ Hrel Hc) as (w & Hg & Hrel').
    exists (s3_set_client w b). split; [|done]. cbn [do_get_object s3_backend].
    unfold s3_get_object, on_client, on_member.
    assert (get_object_into_string (location cfg n) (s3_client b) = (w, Ok c)) as ->; [|done].
    unfold get_object_into_string.
    assert (get_object_internal (location cfg n) (s3_client b) = (w, Ok (Z.of_nat (length c), c))) as Hi.
    { unfold get_object_internal. cbn [bucket object_path location]. rewrite Hg. unfold in_range_size_t.
      by rewrite (proj2 (Z.leb_le 0 _)) by lia. }
    rewrite (action_bind_eq _ _ _ _ _ Hi).
    cbv beta iota. rewrite (proj2 (Z.ltb_ge max_memory_object_size _)) by done.
    rewrite Z.ltb_irrefl, Nat2Z.id, firstn_all. done.
Defined.

(** C18: a listing of an S3 bucket ends, over as many pages as there are, and is complete: it
    shows exactly the objects below the root path, each once, under its name without the
    root path and with its size.  It only fails when a request does; none of the checks on
    the pages of the service ever fires, and nothing in the bucket changes. *)
Theorem s3_listing_complete b b' r :
  s3_list_objects b = (b', r) →
  s3_objects b' = s3_objects b ∧
  (r = Err (s3_error "cannot list objects in the specified bucket") ∨
   r = Ok (sizes (s3_objects b)) ∧
   ∀ n c, s3_objects b !! n = Some c ↔
     n ≠ [] ∧ contents (s3_client b) (s3_bucket cfg) !! (list_prefix (s3_root_path cfg) ++ n) = Some c).
Proof.
  intros Hr. apply on_client_inv in Hr as [Hr _]. apply list_bucket_objects_spec in Hr as [Hc Hr].
  split; [by apply on_bucket|]. destruct Hr as [-> | ->]; [by left|right]. split; [done|].
  intros n c. apply under_lookup.
Qed.

(** the uploads of a stream, one for each write *)
Definition s3_writes (ws : list (list Z)) : action backend unit := for_each s3_write_data_to_stream ws.

Lemma s3_writes_inv `{RootPathOk cfg} ws b b' r s :
  s3_writes ws b = (b', r) → s3_tmp_fstream b = Some s → ts_good s = true →
  ts_position s = length (tmp_content b) → name_ok (s3_current_name b) →
  s3_objects b !! s3_current_name b = Some (tmp_content b) →
  s3_current_name b' = s3_current_name b ∧
  (∀ k, k ≠ s3_current_name b → s3_objects b' !! k = s3_objects b !! k) ∧
  ∃ i, s3_objects b' !! s3_current_name b = Some (tmp_content b ++ mjoin (take i ws)) ∧
       (r = Ok () → i = length ws).
Proof.
  revert b s. induction ws as [|w ws IH]; intros b s Hr Hs Hg Hp Hn Hc.
  { injection Hr as <- <-. split; [done|]. split; [done|]. exists 0%nat. by rewrite app_nil_r. }
  unfold s3_writes in Hr. cbn [for_each] in Hr.
  apply action_bind_inv in Hr as [(e & -> & Hr)|(b1 & [] & Hw & Hr)].
  - destruct (s3_write_inv _ _ _ _ _ Hr Hs Hg Hp Hn) as (Hnm & d & s' & _ & Ht & _ & Ho & _).
    split; [done|]. destruct Ho as [[-> _]|[-> ->]].
    + split; [done|]. exists 0%nat. by rewrite app_nil_r.
    + split; [intros k Hk; by apply lookup_insert_ne|]. exists 1%nat. rewrite lookup_insert_eq, Ht. cbn.
      by rewrite app_nil_r.
  - destruct (s3_write_inv _ _ _ _ _ Hw Hs Hg Hp Hn) as (Hnm & d & s' & _ & Ht & Hs' & Ho & Hok).
    destruct (Hok eq_refl) as (-> & Hg' & Hp'). destruct Ho as [[_ [=]]|[Ho _]].
    destruct (IH _ _ Hr Hs' Hg' Hp') as (Hnm' & Hother & i & Hi & Hlen).
    { by rewrite Hnm. } { by rewrite Hnm, Ho, lookup_insert_eq. }
    rewrite Hnm in *. split; [done|]. split.
    + intros k Hk. rewrite Hother, Ho by done. by apply lookup_insert_ne.
    + exists (S i). rewrite Hi, Ht, <-app_assoc. split; [done|]. intros Hx. cbn. by rewrite Hlen.
Qed.

(** C17: what a stream to S3 leaves in the bucket is always made of whole writes: when a file
    is opened for appending and written to, then wherever a system call or a request fails,
    and also when the answer of a request that was carried out is lost, the object is its
    old content and the first of the writes, each of them complete; when no write fails, it
    is all of them.  No other object changes, and closing the stream or the end of the
    process changes nothing in the bucket. *)
Theorem s3_stream_whole_writes `{RootPathOk cfg} n c ws b b1 b2 r offset :
  name_ok n → s3_tmp_fstream b = None → s3_objects b !! n = Some c →
  s3_open_stream n mode_append b = (b1, Ok offset) → s3_writes ws b1 = (b2, r) →
  offset = Z.of_nat (length c) ∧
  (∃ i, s3_objects b2 !! n = Some (c ++ mjoin (take i ws)) ∧ (r = Ok () → i = length ws)) ∧
  (∀ k, k ≠ n → s3_objects b2 !! k = s3_objects b !! k) ∧
  (∀ b3 x, s3_close_stream b2 = (b3, x) → s3_objects b3 = s3_objects b2) ∧
  s3_objects (s3_destroy b2) = s3_objects b2.
Proof.
  intros Hn Hs Hc Ho Hw.
  destruct (s3_open_inv _ _ _ _ _ Ho Hn Hs) as (Hobj & Hnm & Ht & Hoff & s & Hs1 & Hg & Hp).
  rewrite Hc in Ht, Hoff, Hp. cbn in Ht, Hoff, Hp.
  destruct (s3_writes_inv _ _ _ _ _ Hw Hs1 Hg) as (_ & Hother & i & Hi & Hlen).
  { by rewrite Ht. } { by rewrite Hnm. } { by rewrite Hobj, Hnm, Ht. }
  rewrite Hnm in Hother, Hi. rewrite Ht in Hi.
  split; [done|]. split; [eauto|]. split; [intros k Hk; rewrite Hother by done; by rewrite Hobj|]. split.
  - intros b3 x Hcl. destruct (s3_tmp_fstream b2) as [s2|] eqn:E.
    + by destruct (s3_close_inv _ _ _ _ Hcl E) as (_ & ? & _).
    + unfold s3_close_stream in Hcl. rewrite gets_bind, E in Hcl. by injection Hcl as <- _.
  - apply on_bucket. unfold s3_destroy. repeat case_match; try done; simplify_eq;
      match goal with E : s3_os_call _ = _ |- _ => apply s3_os_call_inv in E as (Hc' & _) end; cbn; rewrite Hc';
      unfold close_stream_internal, mbind, action_bind, modify; cbn; try case_match; done.
Qed.
End laws.

(** ** Construction

    [boost::urls] is not under src/: [uri_view] holds what the constructor asks of a parsed
    URI, and [parse_absolute_uri] is the parser.  [os_paths] is what it asks of the
    filesystem. *)
Inductive uri_scheme_id := scheme_http | scheme_https | scheme_file | scheme_unknown | scheme_other.
#[export] Instance uri_scheme_id_eq_dec : EqDecision uri_scheme_id.
Proof. solve_decision. Defined.

Record uri_view := mk_uri {
  uri_scheme : list Z;
  uri_id : uri_scheme_id;
  uri_has_query : bool;
  uri_has_fragment : bool;
  uri_has_userinfo : bool;
  uri_has_password : bool;
  uri_user : list Z;
  uri_password : list Z;
  uri_host_is_name : bool;
  uri_host : list Z;
  uri_port : option (list Z);
  uri_path : list Z
}.
Class BoostUrl := parse_absolute_uri : list Z → option uri_view.

Inductive file_kind := kind_not_found | kind_directory | kind_other.
Record os_paths := mk_os_paths {
  temp_directory_path : option (list Z);
  path_status : list Z → file_kind;
  create_directories : list Z → bool
}.

Definition original_uri_schema : list Z := text "s3".
Definition default_region : list Z := text "us-east-1".
Definition host_delimiter : Z := 46.
Definition port_delimiter : Z := 58.

Section construction.
Context `{S3CrtClient W} `{RandomUuid} `{BoostUrl}.
Implicit Types (u : uri_view).

(** [tmp_file_directory_], whether it is owned, and the UUIDs used *)
Definition resolve_tmp_directory (os : os_paths) (opt_fs_buffer_directory : option (list Z))
    : result (list Z * bool * nat) :=
  t ← match opt_fs_buffer_directory with
      | Some d => Ok (d, false, 0%nat)
      | None =>
          match temp_directory_path os with
          | None => Err (invalid_argument "unable to resolve default OS temporary directory")
          | Some d => Ok (path_append d (random_uuid 0), true, 1%nat)
          end
      end;
  let '(d, _, _) := t in
  match path_status os d with
  | kind_not_found =>
      if create_directories os d then Ok t
      else Err (invalid_argument "unable to create storage backend filesystem buffer directory")
  | kind_directory => Ok t
  | kind_other => Err (invalid_argument "the specified storage backend filesystem buffer directory is not a directory")
  end.

(** the result: bucket, root path, region, whether the endpoint is secure, endpoint *)
Abbreviation place := (list Z * list Z * list Z * bool * list Z)%type.

Definition init_with_bucket_or_region u : action W place :=
  _ ← throw_if (negb (uri_host_is_name u) || bool_decide (uri_host u = []))
        (invalid_argument "original s3 URI must have host");
  _ ← throw_if (bool_decide (is_Some (uri_port u)))
        (invalid_argument "original s3 URI must not have port");
  match list_find (λ c, c = host_delimiter) (uri_host u) with
  | None =>
      region ← get_bucket_region (uri_host u);
      mret (uri_host u, uri_path u, region, true, [])
  | Some (host_fnd, _) =>
      let region := drop (S host_fnd) (uri_host u) in
      let bucket := take host_fnd (uri_host u) in
      _ ← throw_if (bool_decide (bucket = []))
            (invalid_argument "original s3 URI bucket name must not be empty");
      _ ← throw_if (bool_decide (region = []))
            (invalid_argument "original s3 URI region must not be empty");
      _ ← throw_if (bool_decide (host_delimiter ∈ region))
            (invalid_argument "original s3 URI region must not be a qualified name");
      mret (bucket, uri_path u, region, true, [])
  end.

Definition init_with_endpoint u : action W place :=
  _ ← throw_if (bool_decide (uri_path u = []))
        (invalid_argument "endpoint s3 URI path must not be empty");
  let secure := bool_decide (uri_id u = scheme_https) in
  let endpoint := uri_host u ++
    match uri_port u with Some port => port_delimiter :: port | None => [] end in
  match path_elements (uri_path u) with
  | root :: bucket :: segments =>
      mret (bucket, foldl path_append root segments, default_region, secure, endpoint)
  | _ => throw (invalid_argument "endpoint s3 URI path must include at least one segment")
  end.

Definition make_s3_storage_backend (os : os_paths) (opt_fs_buffer_directory : option (list Z))
    (backend_uri : list Z) : action W (s3_settings * nat) :=
  t ← of_result (resolve_tmp_directory os opt_fs_buffer_directory);
  let '(directory, owns, uuids) := t in
  match parse_absolute_uri backend_uri with
  | None => throw (invalid_argument "invalid storage backend URI")
  | Some u =>
      _ ← throw_if (uri_has_query u) (invalid_argument "s3 URI must not have query");
      _ ← throw_if (uri_has_fragment u) (invalid_argument "s3 URI must not have fragment");
      _ ← throw_if (uri_has_userinfo u && negb (uri_has_password u))
            (invalid_argument "s3 URI must have either both user and password or none");
      p ← match uri_id u with
          | scheme_http | scheme_https => init_with_endpoint u
          | scheme_unknown =>
              _ ← throw_if (negb (bool_decide (uri_scheme u = original_uri_schema)))
                    (invalid_argument "The only supported custom URI scheme is s3");
              init_with_bucket_or_region u
          | scheme_file | scheme_other => throw (invalid_argument "URI of invalid scheme provided")
          end;
      let '(bucket, root, region, secure, endpoint) := p in
      mret (mk_s3_settings bucket root directory owns (uri_user u) (uri_password u) region secure endpoint, uuids)
  end.

(** the backend a constructor leaves: no stream is open *)
Definition fresh_s3 (cfg : s3_settings) (uuids : nat) (faults : list (option nat)) (w : W)
    : s3_storage_backend W cfg := mk_s3 [] uuids [] None ∅ faults w.

(** [do_get_description], for the version of the SDK *)
Definition s3_get_description (cfg : s3_settings) (major minor patch : Z) : list Z :=
  text "AWS S3 (SDK " ++ to_string major ++ 46 :: to_string minor ++ 46 :: to_string patch ++ text ") - " ++
  (if bool_decide (s3_endpoint cfg = [])
   then text "region: " ++ s3_region cfg
   else text "endpoint: " ++ text (if s3_secure cfg then "https" else "http") ++ text "://" ++ s3_endpoint cfg) ++
  text ", bucket: " ++ s3_bucket cfg ++ text ", path: " ++ s3_root_path cfg ++ text ", credentials: " ++
  (if bool_decide (s3_access_key_id cfg = []) && bool_decide (s3_secret_access_key cfg = [])
   then text "none" else text "***hidden***").

(** [do_get_object_uri]; the parts are put together by [boost::urls::url] *)
Class UrlBuilder := {
  url_of_authority : list Z → list Z → list Z → list Z;
  url_of_host : list Z → list Z → list Z → list Z
}.
Definition s3_get_object_uri `{UrlBuilder} (cfg : s3_settings) (n : object_name) : list Z :=
  if bool_decide (s3_endpoint cfg = [])
  then url_of_host original_uri_schema (s3_bucket cfg) (get_object_path cfg n)
  else url_of_authority (text (if s3_secure cfg then "https" else "http")) (s3_endpoint cfg)
         (path_append (path_append [slash] (s3_bucket cfg)) (path_relative_path (get_object_path cfg n))).

(** *** Where a URI leads *)
Lemma path_names_plain name p :
  slash ∉ name → Forall (λ n, slash ∉ n) (path_names name p).
Proof.
  revert name. induction p as [|c p IH]; intros name Hn; cbn [path_names]; [by constructor|].
  destruct (Z.eqb_spec c slash) as [->|Hc].
  - destruct name; [|constructor; [done|]]; apply IH, not_elem_of_nil.
  - apply IH. rewrite elem_of_app, list_elem_of_singleton. intros [?|?]; congruence || done.
Qed.

Lemma path_names_first name p n l : path_names name p = n :: l → name ≠ [] → n ≠ [].
Proof.
  revert name. induction p as [|c p IH]; intros name Hp Hn; cbn [path_names] in Hp; [by simplify_eq|].
  destruct (c =? slash).
  - destruct name; [done|]. by injection Hp as <- _.
  - eapply IH; [exact Hp|]. by destruct name.
Qed.

Lemma relative_head p c r : path_relative_path p = c :: r → c ≠ slash.
Proof.
  induction p as [|d p IH]; [done|]. cbn. destruct (Z.eqb_spec d slash); [done|]. by intros [= <- _].
Qed.

Lemma append_segments root segments :
  single_slashes root = true → Forall (λ n, slash ∉ n) segments →
  single_slashes (foldl path_append root segments) = true.
Proof.
  intros Hr Hs. revert root Hr. induction Hs as [|n segments Hn _ IH]; intros root Hr; [done|].
  cbn. by apply IH, single_slashes_append.
Qed.

(** An endpoint URI leads to the bucket its path starts with, and to a root path without
    empty names, so that the objects are found again by a listing. *)
Lemma endpoint_place u (w w' : W) b root region secure endpoint :
  init_with_endpoint u w = (w', Ok (b, root, region, secure, endpoint)) →
  path_is_absolute (uri_path u) = true →
  w' = w ∧ b ≠ [] ∧ slash ∉ b ∧ single_slashes root = true ∧
  secure = bool_decide (uri_id u = scheme_https).
Proof.
  intros Hr Ha. unfold init_with_endpoint in Hr.
  apply action_bind_ok in Hr as (w1 & [] & Ht & Hr). apply throw_if_inv in Ht as [-> _].
  unfold path_elements in Hr. rewrite Ha in Hr. cbn [app] in Hr.
  destruct (path_relative_path (uri_path u)) as [|c r] eqn:E; [done|].
  pose proof (path_names_plain [] (c :: r) (not_elem_of_nil _)) as Hall.
  destruct (path_names [] (c :: r)) as [|x segments] eqn:Ep; [done|].
  apply Forall_cons in Hall as [Hx Hall]. injection Hr as <- <- <- _ <- _.
  split; [done|]. split; [|split; [done|split; [by apply append_segments|done]]].
  apply relative_head in E. cbn [path_names] in Ep. rewrite (proj2 (Z.eqb_neq c slash)) in Ep by done.
  by eapply path_names_first.
Qed.

(** An original URI names a bucket and perhaps a region, both without a dot. *)
Lemma bucket_place u (w w' : W) b root region secure endpoint :
  init_with_bucket_or_region u w = (w', Ok (b, root, region, secure, endpoint)) →
  b ≠ [] ∧ host_delimiter ∉ b ∧ endpoint = [] ∧ root = uri_path u ∧
  (uri_host u = b ∨
   uri_host u = b ++ host_delimiter :: region ∧ region ≠ [] ∧ host_delimiter ∉ region ∧ w' = w).
Proof.
  intros Hr. unfold init_with_bucket_or_region in Hr.
  apply action_bind_ok in Hr as (w1 & [] & Ht & Hr).
  apply throw_if_inv in Ht as [-> [[_ [=]]|[Hhost _]]]. apply orb_false_iff in Hhost as [_ Hhost]. to_prop.
  apply action_bind_ok in Hr as (w1 & [] & Ht & Hr). apply throw_if_inv in Ht as [-> _].
  destruct (list_find _ _) as [[i c]|] eqn:E.
  - apply list_find_Some in E as (Hi & -> & Hbefore).
    apply action_bind_ok in Hr as (w1 & [] & Ht & Hr). apply throw_if_inv in Ht as [-> [[_ [=]]|[Hb _]]].
    apply action_bind_ok in Hr as (w1 & [] & Ht & Hr). apply throw_if_inv in Ht as [-> [[_ [=]]|[Hreg _]]].
    apply action_bind_ok in Hr as (w1 & [] & Ht & Hr). apply throw_if_inv in Ht as [-> [[_ [=]]|[Hdot _]]].
    to_prop. injection Hr as <- <- <- <- _ <-. split; [done|]. split.
    + intros (j & Hj)%list_elem_of_lookup. apply lookup_take_Some in Hj as [Hj Hlt]. by eapply Hbefore.
    + split; [done|]. split; [done|]. right. split; [|done]. symmetry. by apply take_drop_middle.
  - apply list_find_None in E. apply action_bind_ok in Hr as (w1 & region' & _ & Hr).
    injection Hr as _ <- <- _ _ <-. split; [done|]. split.
    + intros Hin. rewrite Forall_forall in E. by eapply E.
    + split; [done|]. split; [done|]. by left.
Qed.

End construction.

Module S3Examples.
Import SimulatedS3.

#[export] Instance counting_uuid : RandomUuid := λ n, text "tmp" ++ to_string (Z.of_nat n).

(** the bucket "b" of an endpoint, with the root path "/vault" *)
Definition vault : s3_settings :=
  mk_s3_settings (text "b") (text "/vault") (text "/tmp/buffer") false [] [] default_region false (text "host:9000").
#[export] Instance vault_ok : RootPathOk vault := eq_refl.

(** three objects of the vault, one of another directory, and one that is the directory itself *)
Definition bucket_b : gmap (list Z) (list Z) :=
  {[ text "vault/x" := [1]; text "vault/y" := [2; 2]; text "vault/z" := [3; 3; 3];
     text "vaults/q" := [4]; text "vault/" := [] ]}.
Definition in_vault (outcomes : list request_outcome) : s3_storage_backend service vault :=
  fresh_s3 vault 0 [] (mk_service {[ text "b" := bucket_b ]} outcomes).

Definition listed_sizes : object_container :=
  {[ text "x" := 1; text "y" := 2; text "z" := 3 ]}.

Lemma s3_listing_complete_witness :
  s3_list_objects (in_vault []) = ((s3_list_objects (in_vault [])).1, Ok listed_sizes) ∧
  sizes (s3_objects (in_vault [])) = listed_sizes.
Proof.
  assert (s3_list_objects (in_vault []) = ((s3_list_objects (in_vault [])).1, Ok listed_sizes)) as E.
  { apply action_result; [reflexivity|by vm_compute]. }
  split; [exact E|]. destruct (s3_listing_complete _ _ _ E) as [_ [Hf|[Ho _]]]; [discriminate Hf|].
  symmetry. exact (result_inj _ _ Ho).
Defined.

(** the second of two uploads fails *)
Definition appended : s3_storage_backend service vault :=
  (s3_open_stream (text "x") mode_append (in_vault [answered; answered; lost])).1.
Definition half_written : s3_storage_backend service vault := (s3_writes [[7]; [8; 8]] appended).1.

Lemma x_ok : name_ok (text "x").
Proof. split; [|split]; apply (bool_decide_unpack _); by vm_compute. Qed.

Lemma s3_stream_whole_writes_witness :
  ∃ i, s3_objects half_written !! text "x" = Some ([1] ++ mjoin (take i [[7]; [8; 8]])) ∧ i = 1%nat.
Proof.
  assert (s3_open_stream (text "x") mode_append (in_vault [answered; answered; lost]) = (appended, Ok 1)) as Ho
    by run_action.
  assert (s3_writes [[7]; [8; 8]] appended =
    (half_written, Err (s3_error "cannot put object into S3 bucket"))) as Hw by run_action.
  destruct (s3_stream_whole_writes (text "x") [1] [[7]; [8; 8]] (in_vault [answered; answered; lost]) appended
    half_written _ 1 x_ok eq_refl ltac:(by vm_compute) Ho Hw) as (_ & (i & Hi & _) & _).
  exists i. split; [exact Hi|].
  assert (s3_objects half_written !! text "x" = Some [1; 7]) as Hx by (by vm_compute).
  rewrite Hx in Hi. destruct i as [|[|[|i]]]; [discriminate Hi|reflexivity|discriminate Hi..].
Defined.

(** an original URI with a region *)
Definition sample_uri : uri_view :=
  mk_uri (text "s3") scheme_unknown false false false false [] [] true (text "b.eu") None (text "/vault").
#[export] Instance sample_parser : BoostUrl := λ l,
  if decide (l = text "s3://b.eu/vault") then Some sample_uri else None.
Definition sample_os : os_paths := mk_os_paths (Some (text "/tmp")) (λ _, kind_not_found) (λ _, true).
Definition quiet_service : service := mk_service ∅ [].
Definition sample_settings : s3_settings :=
  mk_s3_settings (text "b") (text "/vault") (text "/tmp/tmp0") true [] [] (text "eu") true [].

End S3Examples.
