(* ===== verification/Metadata.v ===== *)
(** * Persistent metadata

    Models storage_metadata.{hpp,cpp}, binlog_file_metadata.{hpp,cpp}, the conversion of
    [nv_tuple]s to and from JSON (util/nv_tuple_to_json.hpp, util/nv_tuple_from_json.hpp)
    for these two tuples, and the stream operators of [replication_mode_type],
    [gtid_set] and [ctime_timestamp] under src/src/ that the conversion calls through
    [boost::lexical_cast].

    Boost.JSON and Boost.Date_Time are parameters: [BoostJson] with the documented round
    trip of its parser and serializer, [BoostPosixTime] with that of ISO extended time
    stamps.  An object of the metadata files only has scalar members, so this is the part
    of [boost::json::value] that is represented. *)

From S2P Require Import Prelude OrderedMap IntervalSet Gtid GtidSet GtidSetText Util ReaderContext.

Local Open Scope Z_scope.

(** ** JSON *)
Inductive json_scalar := json_null | json_number (value : Z) | json_string (value : list Z).
#[export] Instance json_scalar_eq_dec : EqDecision json_scalar.
Proof. solve_decision. Defined.

Abbreviation json_members := (list (list Z * json_scalar)).
Inductive json_value := json_leaf (scalar : json_scalar) | json_object (members : json_members).

Class BoostJson := {
  json_parse : list Z → result json_value;
  json_serialize : json_value → list Z
}.
(** What is serialized comes back from the parser, as long as the keys differ, the numbers
    fit 64 bits and the strings are ASCII (no UTF-8 validation can fail). *)
Definition scalar_plain (v : json_scalar) : Prop :=
  match v with
  | json_null => True
  | json_number z => in_width 64 z
  | json_string s => Forall (in_width 7) s
  end.
Definition members_plain (ms : json_members) : Prop :=
  NoDup ms.*1 ∧ Forall (λ m, Forall (in_width 7) m.1 ∧ scalar_plain m.2) ms.
Class BoostJsonLaws `{BoostJson} : Prop := {
  json_roundtrip ms : members_plain ms → json_parse (json_serialize (json_object ms)) = Ok (json_object ms)
}.

Class BoostPosixTime := {
  to_iso_extended_string : Z → list Z;
  from_iso_extended_string : list Z → result Z
}.
Class BoostPosixTimeLaws `{BoostPosixTime} : Prop := {
  iso_roundtrip t : in_width 32 t → from_iso_extended_string (to_iso_extended_string t) = Ok t;
  iso_text t : in_width 32 t →
    to_iso_extended_string t ≠ [] ∧
    Forall (λ c, in_width 7 c ∧ isspace c = false) (to_iso_extended_string t)
}.

(** ** Text conversions through [boost::lexical_cast]

    The cast reads the value with [operator>>] from a stream that does not skip white
    space, and throws unless the whole text has been read. *)
Definition bad_lexical_cast : error := runtime_error "bad_lexical_cast".

(** [input >> str] for a string, on the whole text *)
Definition read_token (s : list Z) : result (list Z) :=
  if bool_decide (s = []) || existsb isspace s then Err bad_lexical_cast else Ok s.

Definition replication_mode_labels : list (replication_mode_type * list Z) :=
  [(mode_position, text "position"); (mode_gtid, text "gtid")].
Definition replication_mode_to_string (m : replication_mode_type) : list Z :=
  match m with mode_position => text "position" | mode_gtid => text "gtid" end.
Definition replication_mode_from_string (s : list Z) : result replication_mode_type :=
  s ← read_token s;
  match list_find (λ p, p.2 = s) replication_mode_labels with
  | Some (_, (m, _)) => Ok m
  | None => Err bad_lexical_cast
  end.

Section casts.
Context `{IntervalSet} `{BoostUuid} `{BoostPosixTime}.

(** [operator>>] of [gtid_set]: a line, unless the stream is at its end *)
Definition gtid_set_from_string (s : list Z) : result gtid_set :=
  let line := before 10 s in
  match gtid_set_of_string line with
  | Ok set => if bool_decide (length s ≤ length line + 1)%nat then Ok set else Err bad_lexical_cast
  | Err _ => Err bad_lexical_cast
  end.

Definition timestamp_to_string (t : Z) : list Z := to_iso_extended_string t.
Definition timestamp_from_string (s : list Z) : result Z :=
  s ← read_token s;
  match from_iso_extended_string s with
  | Ok t => Ok t
  | Err _ => Err bad_lexical_cast
  end.
End casts.

(** ** [value_from] and [value_to] of the member types *)
Definition unsigned_to (w : Z) (v : json_scalar) : result Z :=
  match v with
  | json_number z => if bool_decide (in_width w z) then Ok z else Err (runtime_error "not exact")
  | _ => Err (runtime_error "not a number")
  end.
Definition as_string (v : json_scalar) : result (list Z) :=
  match v with json_string s => Ok s | _ => Err (runtime_error "not a string") end.
Definition string_convertible_to {A} (cast : list Z → result A) (v : json_scalar) : result A :=
  s ← as_string v; cast s.
Definition optional_to {A} (to : json_scalar → result A) (v : json_scalar) : result (option A) :=
  match v with json_null => Ok None | _ => a ← to v; Ok (Some a) end.
Definition optional_from {A} (from : A → json_scalar) (o : option A) : json_scalar :=
  match o with Some a => from a | None => json_null end.

(** [emplace_element_into_json_value] over the members of a tuple: nulls are left out *)
Definition nv_members (ms : json_members) : json_members := filter (λ m, m.2 ≠ json_null) ms.
(** [json_object.find]; a missing member reads as null *)
Definition json_find (key : list Z) (ms : json_members) : json_scalar :=
  match list_find (λ m, m.1 = key) ms with
  | Some (_, (_, v)) => v
  | None => json_null
  end.
Definition unable_to_extract : error := invalid_argument "unable to extract".
(** every exception of the extraction is reported as [invalid_argument] *)
Definition nv_tuple_from_json {A} (v : json_value) (extract : json_members → result A) : result A :=
  match v with
  | json_object ms => match extract ms with Ok a => Ok a | Err _ => Err unable_to_extract end
  | json_leaf _ => Err unable_to_extract
  end.

(** ** [storage_metadata] *)
Definition expected_storage_metadata_version : Z := 1.
Record storage_metadata := mk_storage_metadata { sm_version : Z; sm_mode : replication_mode_type }.

Section storage_metadata.
Context `{BoostJson}.
Definition storage_metadata_members (m : storage_metadata) : json_members :=
  nv_members
    [(text "version", json_number (sm_version m));
     (text "mode", json_string (replication_mode_to_string (sm_mode m)))].
Definition storage_metadata_str (m : storage_metadata) : list Z :=
  json_serialize (json_object (storage_metadata_members m)).

Definition extract_storage_metadata (ms : json_members) : result storage_metadata :=
  version ← unsigned_to 32 (json_find (text "version") ms);
  mode ← string_convertible_to replication_mode_from_string (json_find (text "mode") ms);
  Ok (mk_storage_metadata version mode).
Definition parse_storage_metadata (data : list Z) : result storage_metadata :=
  v ← json_parse data;
  m ← nv_tuple_from_json v extract_storage_metadata;
  _ ← raise_if (negb (sm_version m =? expected_storage_metadata_version))
        (invalid_argument "unsupported storage metadata version");
  Ok m.
End storage_metadata.

(** ** [binlog_file_metadata] *)
Definition expected_binlog_file_metadata_version : Z := 1.

Section binlog_file_metadata.
Context `{IntervalSet} `{BoostUuid} `{BoostPosixTime} `{BoostJson}.

Record binlog_file_metadata := mk_binlog_file_metadata {
  bm_version : Z;
  bm_size : Z;
  bm_previous_gtids : option gtid_set;
  bm_added_gtids : option gtid_set;
  bm_min_timestamp : Z;
  bm_max_timestamp : Z;
  bm_last_sequence_number : Z
}.

Definition gtids_from (s : gtid_set) : json_scalar := json_string (str s).
Definition gtids_to : json_scalar → result gtid_set := string_convertible_to gtid_set_from_string.

Definition binlog_metadata_members (m : binlog_file_metadata) : json_members :=
  nv_members
    [(text "version", json_number (bm_version m));
     (text "size", json_number (bm_size m));
     (text "previous_gtids", optional_from gtids_from (bm_previous_gtids m));
     (text "added_gtids", optional_from gtids_from (bm_added_gtids m));
     (text "min_timestamp", json_string (timestamp_to_string (bm_min_timestamp m)));
     (text "max_timestamp", json_string (timestamp_to_string (bm_max_timestamp m)));
     (text "last_sequence_number", json_number (bm_last_sequence_number m))].
Definition binlog_metadata_str (m : binlog_file_metadata) : list Z :=
  json_serialize (json_object (binlog_metadata_members m)).

Definition extract_binlog_metadata (ms : json_members) : result binlog_file_metadata :=
  version ← unsigned_to 32 (json_find (text "version") ms);
  size ← unsigned_to 64 (json_find (text "size") ms);
  previous_gtids ← optional_to gtids_to (json_find (text "previous_gtids") ms);
  added_gtids ← optional_to gtids_to (json_find (text "added_gtids") ms);
  min_timestamp ← string_convertible_to timestamp_from_string (json_find (text "min_timestamp") ms);
  max_timestamp ← string_convertible_to timestamp_from_string (json_find (text "max_timestamp") ms);
  last_sequence_number ← unsigned_to 64 (json_find (text "last_sequence_number") ms);
  Ok (mk_binlog_file_metadata version size previous_gtids added_gtids min_timestamp max_timestamp
        last_sequence_number).
Definition parse_binlog_metadata (data : list Z) : result binlog_file_metadata :=
  v ← json_parse data;
  m ← nv_tuple_from_json v extract_binlog_metadata;
  _ ← raise_if (negb (bm_version m =? expected_binlog_file_metadata_version))
        (invalid_argument "unsupported binlog file metadata version");
  Ok m.
End binlog_file_metadata.

(** ** Printed texts are plain *)
Definition printable (c : Z) : Prop := 32 ≤ c < 127.

Lemma printable_width l : Forall printable l → Forall (in_width 7) l.
Proof. intros H. eapply Forall_impl; [done|]. unfold printable, in_width. intros. cbn in *. lia. Qed.
Lemma printable_no_newline l : Forall printable l → 10 ∉ l.
Proof. rewrite Forall_forall. intros H Hin. apply H in Hin. unfold printable in Hin. lia. Qed.
Lemma printable_mjoin {A} (f : A → list Z) l :
  Forall (λ a, Forall printable (f a)) l → Forall printable (mjoin (f <$> l)).
Proof. induction 1; [constructor|]. cbn. by apply Forall_app. Qed.

Lemma printable_to_string z : in_width 64 z → Forall printable (to_string z).
Proof.
  intros Hz. destruct (to_string_spec z) as (_ & Hd & _); [done|].
  eapply Forall_impl; [done|].
  intros c Hc. unfold isdigit in Hc. to_prop. unfold printable. lia.
Qed.
Lemma printable_hex_pair b : byte_ok b → Forall printable (hex_pair b).
Proof.
  unfold hex_pair, hex_digit, printable, in_width. change (2 ^ 8) with 256. intros Hb.
  repeat constructor; case_match; to_prop; dlia.
Qed.
Lemma printable_uuid_groups sizes bs : bytes_ok bs → Forall printable (uuid_groups sizes bs).
Proof.
  assert (∀ l, bytes_ok l → Forall printable (mjoin (hex_pair <$> l))) as Hj.
  { intros l Hl. apply printable_mjoin. eapply Forall_impl; [done|]. apply printable_hex_pair. }
  revert bs. induction sizes as [|n [|m sizes] IH]; intros bs Hb; [constructor| |].
  - by apply Hj, Forall_take.
  - cbn [uuid_groups]. apply Forall_app. split; [by apply Hj, Forall_take|].
    constructor; [unfold printable, group_separator; lia|]. by apply IH, Forall_drop.
Qed.
Lemma printable_tag t : tag_ok t → Forall printable t.
Proof.
  assert (∀ c, tag_other_ok c = true → printable c) as Ho.
  { unfold tag_other_ok, isalnum, isalpha, isupper, islower, isdigit, printable. intros. lia. }
  intros [_ Ht]. destruct t as [|c t]; [constructor|]. destruct Ht as [Hc Ht]. constructor.
  - apply Ho. unfold tag_first_ok in Hc. unfold tag_other_ok, isalnum.
    destruct (c =? 95), (isalpha c); done.
  - eapply Forall_impl; [done|]. apply Ho.
Qed.

Section printed.
Context `{IntervalSetLaws} `{BoostUuidLaws}.

Lemma printable_interval i : interval_ok i → Forall printable (print_interval i).
Proof.
  unfold interval_ok, print_interval, min_gno, max_gno. intros (? & ? & ?).
  assert (in_width 64 i.1) by (unfold in_width; lia).
  constructor; [unfold printable, component_separator; lia|].
  apply Forall_app. split; [by apply printable_to_string|].
  destruct (negb _); [|constructor].
  constructor; [unfold printable, interval_separator; lia|].
  apply printable_to_string, wrap_bound. lia.
Qed.
Lemma printable_tagged q :
  tag_ok q.1 → Forall interval_ok (icl_intervals q.2) → Forall printable (print_tagged q).
Proof.
  intros Ht Hi. unfold print_tagged, print_gnos. apply Forall_app. split.
  - destruct (negb _); [|constructor].
    constructor; [unfold printable, component_separator; lia | by apply printable_tag].
  - apply printable_mjoin. eapply Forall_impl; [done|]. apply printable_interval.
Qed.
Lemma printable_str s : text_ok s → Forall printable (str s).
Proof.
  intros Hs.
  assert (∀ p, p ∈ s → Forall printable (print_uuid p)) as Hp.
  { intros p Hp. unfold text_ok in Hs. rewrite Forall_forall in Hs.
    apply Hs in Hp as ([? ?] & _ & Ht). apply Forall_app. split.
    - unfold uuid_str. rewrite boost_uuid_to_string_spec by done.
      by apply printable_uuid_groups.
    - apply printable_mjoin. eapply Forall_impl; [done|]. intros q []. by apply printable_tagged. }
  destruct s as [|p s]; [constructor|]. cbn [str]. apply Forall_app. split; [apply Hp; left|].
  apply printable_mjoin, Forall_forall. intros q Hq.
  constructor; [unfold printable, uuid_separator; lia|].
  constructor; [unfold printable, uuid_separator_whitespace; lia|]. apply Hp. by right.
Qed.
End printed.

(** ** Round trips *)
Lemma json_find_nv k v ms : NoDup ms.*1 → (k, v) ∈ ms → json_find k (nv_members ms) = v.
Proof.
  unfold json_find, nv_members. induction ms as [|[k' v'] ms IH]; [by intros _ ?%not_elem_of_nil|].
  rewrite fmap_cons. cbn [fst]. intros [Hk Hnd]%NoDup_cons Hin. rewrite filter_cons. cbn [snd].
  apply elem_of_cons in Hin as [[= <- <-]|Hin].
  - case_decide as Hv; [cbn; by rewrite decide_True|].
    subst v. destruct (list_find _ _) as [[i [k2 v2]]|] eqn:E; [|done].
    apply list_find_Some in E as (E & Hk2 & _). cbn in Hk2. subst k2.
    apply list_elem_of_lookup_2, list_elem_of_filter in E as [_ E].
    exfalso. apply Hk. by apply (list_elem_of_fmap_2 fst _ (k, v2)).
  - assert (k' ≠ k) by (intros ->; by apply Hk, (list_elem_of_fmap_2 fst _ (k, v))).
    case_decide; [|by apply IH]. cbn. rewrite decide_False by done.
    specialize (IH Hnd Hin). by destruct (list_find _ _) as [[i [k2 v2]]|].
Qed.

Lemma nv_members_plain ms :
  NoDup ms.*1 → Forall (λ m, Forall (in_width 7) m.1 ∧ scalar_plain m.2) ms →
  members_plain (nv_members ms).
Proof.
  intros Hnd Hms. split; [|apply Forall_forall; intros m [_ Hm]%list_elem_of_filter; by rewrite Forall_forall in Hms; apply Hms].
  eapply sublist_NoDup; [done|]. apply fmap_sublist, sublist_filter.
Qed.

(** Read the members of a tuple that has just been written. *)
Ltac find_member := first [apply list_elem_of_here | apply list_elem_of_further; find_member].
Ltac json_members :=
  repeat match goal with |- context [json_find ?k (nv_members ?ms)] =>
    erewrite (json_find_nv k _ ms);
      [| cbn [fmap list_fmap fst]; apply (bool_decide_unpack _); by vm_compute | find_member]
  end.

Section roundtrips.
Context `{IntervalSetLaws} `{BoostUuidLaws} `{BoostPosixTimeLaws} `{BoostJsonLaws}.

Lemma gtid_set_cast s : wf s → text_ok s → gtid_set_from_string (str s) = Ok s.
Proof.
  intros Hwf Hok. unfold gtid_set_from_string.
  assert (before 10 (str s) = str s) as ->.
  { rewrite <-(app_nil_r (str s)) at 1.
    rewrite before_app by (by apply printable_no_newline, printable_str). apply app_nil_r. }
  rewrite gtid_set_of_str by done. rewrite bool_decide_true by lia. done.
Qed.

Lemma timestamp_cast t : in_width 32 t → timestamp_from_string (timestamp_to_string t) = Ok t.
Proof.
  intros Ht. destruct (iso_text t Ht) as [Hne Hc]. unfold timestamp_from_string, timestamp_to_string.
  assert (read_token (to_iso_extended_string t) = Ok (to_iso_extended_string t)) as ->.
  { unfold read_token. rewrite bool_decide_false by done. cbn.
    destruct (existsb isspace _) eqn:E; [|done]. apply existsb_exists in E as (c & Hin & Hs).
    rewrite Forall_forall in Hc. apply list_elem_of_In, Hc in Hin. destruct Hin. congruence. }
  cbn. by rewrite iso_roundtrip.
Qed.

Definition gtids_text_ok (o : option gtid_set) : Prop :=
  match o with Some s => wf s ∧ text_ok s | None => True end.
Definition metadata_ok (m : binlog_file_metadata) : Prop :=
  bm_version m = expected_binlog_file_metadata_version ∧
  in_width 64 (bm_size m) ∧ gtids_text_ok (bm_previous_gtids m) ∧ gtids_text_ok (bm_added_gtids m) ∧
  in_width 32 (bm_min_timestamp m) ∧ in_width 32 (bm_max_timestamp m) ∧
  in_width 64 (bm_last_sequence_number m).

Lemma optional_gtids_cast o :
  gtids_text_ok o → optional_to gtids_to (optional_from gtids_from o) = Ok o.
Proof.
  destruct o as [s|]; [|done]. intros [Hwf Hok]. cbn. by rewrite gtid_set_cast.
Qed.
Lemma optional_gtids_plain o : gtids_text_ok o → scalar_plain (optional_from gtids_from o).
Proof. destruct o as [s|]; [|done]. intros [_ Hok]. by apply printable_width, printable_str. Qed.
Lemma timestamp_plain t : in_width 32 t → scalar_plain (json_string (timestamp_to_string t)).
Proof.
  intros Ht. destruct (iso_text t Ht) as [_ Hc]. eapply Forall_impl; [exact Hc|]. by intros c [? _].
Qed.

Lemma binlog_metadata_plain m : metadata_ok m → members_plain (binlog_metadata_members m).
Proof.
  intros (Hv & Hs & Hp & Ha & Hmin & Hmax & Hq). apply nv_members_plain.
  - cbn [fmap list_fmap fst]. apply (bool_decide_unpack _). by vm_compute.
  - repeat (constructor; [split; [cbn [fst]; apply (bool_decide_unpack _); by vm_compute|]|]);
      [..|constructor]; cbn [snd];
      auto using optional_gtids_plain, timestamp_plain.
    rewrite Hv. apply (bool_decide_unpack _). by vm_compute.
Qed.

Lemma parse_binlog_metadata_str m :
  metadata_ok m → parse_binlog_metadata (binlog_metadata_str m) = Ok m.
Proof.
  intros Hm. pose proof Hm as (Hv & Hs & Hp & Ha & Hmin & Hmax & Hq).
  unfold parse_binlog_metadata, binlog_metadata_str.
  rewrite json_roundtrip by (by apply binlog_metadata_plain).
  assert (in_width 32 (bm_version m)) by (rewrite Hv; apply (bool_decide_unpack _); by vm_compute).
  assert (extract_binlog_metadata (binlog_metadata_members m) = Ok m) as Hx.
  { unfold extract_binlog_metadata, binlog_metadata_members. json_members.
    unfold unsigned_to, string_convertible_to, as_string.
    rewrite !bool_decide_true by done.
    cbn [mbind result_bind]. rewrite !optional_gtids_cast, !timestamp_cast by done.
    cbn [mbind result_bind]. by destruct m. }
  cbn [mbind result_bind nv_tuple_from_json]. rewrite Hx. cbn [mbind result_bind].
  by rewrite Hv.
Qed.

(** C36: what [binlog_file_metadata::str] writes is read back by its parsing constructor: the
    size, the optional GTID sets (an absent set stays absent, a present one survives its
    text), the two time stamps and the last sequence number, for every record whose
    fields are in range. *)
Theorem binlog_metadata_roundtrip m :
  metadata_ok m → parse_binlog_metadata (binlog_metadata_str m) = Ok m.
Proof. apply parse_binlog_metadata_str. Qed.

Lemma parse_storage_metadata_str mode :
  let m := mk_storage_metadata expected_storage_metadata_version mode in
  parse_storage_metadata (storage_metadata_str m) = Ok m.
Proof.
  intros m. unfold parse_storage_metadata, storage_metadata_str. rewrite json_roundtrip.
  - by destruct mode.
  - apply nv_members_plain; [apply (bool_decide_unpack _); by vm_compute|].
    destruct mode; repeat constructor; apply (bool_decide_unpack _); by vm_compute.
Qed.
End roundtrips.

Module MetadataExamples.
(** Concrete parameters: a value is serialized as a sequence of numbers with explicit
    lengths, a time stamp as its decimal digits. *)
Definition put_text (s : list Z) : list Z := Z.of_nat (length s) :: s.
Definition take_text (l : list Z) : option (list Z * list Z) :=
  match l with
  | k :: l => if bool_decide (0 ≤ k ≤ Z.of_nat (length l))
              then Some (take (Z.to_nat k) l, drop (Z.to_nat k) l) else None
  | [] => None
  end.
Lemma take_put_text s rest : take_text (put_text s ++ rest) = Some (s, rest).
Proof.
  unfold put_text. cbn. rewrite bool_decide_true by (rewrite length_app; lia).
  by rewrite Nat2Z.id, take_app_length, drop_app_length.
Qed.

Definition put_scalar (v : json_scalar) : list Z :=
  match v with json_null => [0] | json_number z => [1; z] | json_string s => 2 :: put_text s end.
Definition take_scalar (l : list Z) : option (json_scalar * list Z) :=
  match l with
  | 0 :: l => Some (json_null, l)
  | 1 :: z :: l => Some (json_number z, l)
  | 2 :: l => '(s, l) ← take_text l; Some (json_string s, l)
  | _ => None
  end.
Lemma take_put_scalar v rest : take_scalar (put_scalar v ++ rest) = Some (v, rest).
Proof.
  destruct v as [|z|s]; [done..|]. cbn [put_scalar app take_scalar]. by rewrite take_put_text.
Qed.

Definition put_members (ms : json_members) : list Z :=
  mjoin ((λ m, put_text m.1 ++ put_scalar m.2) <$> ms).
Fixpoint take_members (fuel : nat) (l : list Z) : option json_members :=
  match l, fuel with
  | [], _ => Some []
  | _, O => None
  | _, S fuel =>
      '(k, l) ← take_text l; '(v, l) ← take_scalar l; ms ← take_members fuel l; Some ((k, v) :: ms)
  end.
Lemma take_put_members ms fuel : (length ms ≤ fuel)%nat → take_members fuel (put_members ms) = Some ms.
Proof.
  revert fuel. induction ms as [|[k v] ms IH]; intros fuel Hf; [by destruct fuel|].
  destruct fuel as [|fuel]; [cbn in Hf; lia|].
  assert (put_members ((k, v) :: ms) = put_text k ++ put_scalar v ++ put_members ms) as ->.
  { unfold put_members. cbn. by rewrite <-app_assoc. }
  change (take_members (S fuel) (put_text k ++ put_scalar v ++ put_members ms)) with
    ('(k, l) ← take_text (put_text k ++ put_scalar v ++ put_members ms);
     '(v, l) ← take_scalar l; ms ← take_members fuel l; Some ((k, v) :: ms)).
  rewrite take_put_text. cbn [mbind option_bind]. rewrite take_put_scalar. cbn [mbind option_bind].
  by rewrite IH by (cbn in Hf; lia).
Qed.

#[export] Instance coded_json : BoostJson := {
  json_serialize v :=
    match v with
    | json_leaf s => 0 :: put_scalar s
    | json_object ms => 1 :: Z.of_nat (length ms) :: put_members ms
    end;
  json_parse data :=
    match data with
    | 0 :: l => or_raise (p ← take_scalar l; Some (json_leaf p.1)) (runtime_error "parse")
    | 1 :: k :: l => or_raise (json_object <$> take_members (Z.to_nat k) l) (runtime_error "parse")
    | _ => Err (runtime_error "parse")
    end
}.
#[export] Instance coded_json_laws : BoostJsonLaws.
Proof.
  constructor. intros ms _. cbn [json_parse json_serialize coded_json].
  by rewrite Nat2Z.id, take_put_members.
Qed.

#[export] Instance decimal_time : BoostPosixTime := {
  to_iso_extended_string := to_string;
  from_iso_extended_string s :=
    match from_chars (2 ^ 32 - 1) s with
    | Some (t, []) => Ok t
    | _ => Err (runtime_error "bad time")
    end
}.
#[export] Instance decimal_time_laws : BoostPosixTimeLaws.
Proof.
  assert (∀ t, in_width 32 t → in_width 64 t) as Hw.
  { intros t. apply in_width_mono. lia. }
  constructor; intros t Ht; destruct (to_string_spec t) as (Hne & Hd & Hv); auto;
    unfold from_iso_extended_string, to_iso_extended_string, decimal_time.
  - rewrite from_chars_app; [by rewrite Hv|done|done|]. rewrite Hv. unfold in_width in Ht. lia.
  - split; [done|]. eapply Forall_impl; [exact Hd|]. intros c Hc. unfold isdigit in Hc. to_prop.
    split; [unfold in_width; change (2 ^ 7) with 128; lia|]. unfold isspace. lia.
Qed.

Import IntervalList UuidModel GtidSetExamples.
Lemma binlog_metadata_roundtrip_witness :
  let m := mk_binlog_file_metadata 1 4 (Some empty_set) (Some sample_set) 0 1700000000 7 in
  parse_binlog_metadata (binlog_metadata_str m) = Ok m.
Proof.
  intros m. apply (binlog_metadata_roundtrip m). subst m. unfold metadata_ok.
  cbn [bm_version bm_size bm_previous_gtids bm_added_gtids bm_min_timestamp bm_max_timestamp
    bm_last_sequence_number gtids_text_ok].
  split; [done|]. split; [by apply (bool_decide_unpack _); vm_compute|].
  split; [split; [apply wf_empty | constructor]|].
  split; [split; [apply sample_set_wf|]|by split_and!; apply (bool_decide_unpack _); vm_compute].
  apply TextExamples.sample_set_text_ok.
Defined.
End MetadataExamples.
