(* ===== verification/Storage.v ===== *)
(** * The binlog storage

    Models the class [storage] of src/src/binsrv/storage.{hpp,cpp}: the list of binlog
    files with their metadata, the event buffer that holds back incomplete transactions,
    checkpointing, the on-disk index and metadata files, and purging.

    Operations are [action]s on the object, which holds its backend: exceptions leave the
    members as they were changed up to that point, and the destructor runs on that state.
    The clock readings of [std::chrono::steady_clock::now()] are arguments.  [assert]s are
    not part of the model; those that matter are proved as invariants. *)

From stdpp Require Import gmap.
From S2P Require Import Prelude OrderedMap IntervalSet Gtid GtidSet GtidSetText Util Protocol.
From S2P Require Import ReaderContext Backend Metadata.

Local Open Scope Z_scope.

Inductive storage_construction_mode_type := querying_only | streaming | purging.
#[export] Instance construction_mode_eq_dec : EqDecision storage_construction_mode_type.
Proof. solve_decision. Defined.
Inductive open_binlog_status :=
  created | opened_empty | opened_at_magic_payload_offset | opened_with_data_present.
#[export] Instance open_binlog_status_eq_dec : EqDecision open_binlog_status.
Proof. solve_decision. Defined.

Definition default_binlog_index_name : object_name := text "binlog.index".
Definition default_binlog_index_entry_path : list Z := text ".".
Definition metadata_name : object_name := text "metadata.json".
Definition binlog_metadata_extension : list Z := text ".json".

(** the exceptions a [catch (const std::exception &)] sees *)
Definition is_exception (e : error) : bool :=
  match e with terminate _ | undefined_behaviour _ => false | _ => true end.

Section storage.
Context `{StorageBackend B} `{IntervalSet} `{BoostUuid} `{BoostPosixTime} `{BoostJson}.

Record binlog_record := mk_binlog_record {
  br_name : composite_binlog_name;
  br_size : Z;
  br_previous_gtids : option gtid_set;
  br_added_gtids : option gtid_set;
  br_timestamps : ctime_timestamp_range;
  br_last_sequence_number : Z
}.

Record storage := mk_storage {
  st_construction_mode : storage_construction_mode_type;
  st_backend : basic_storage_backend B;
  st_replication_mode : replication_mode_type;
  st_purged_gtids : gtid_set;
  st_records : list binlog_record;
  st_checkpoint_size_bytes : Z;
  st_last_checkpoint_position : Z;
  st_checkpoint_interval : Z;
  st_last_checkpoint_timestamp : Z;
  st_event_buffer : list Z;
  st_boundary_position : nat;
  st_buffer_gtids : gtid_set;
  st_ready_timestamps : ctime_timestamp_range;
  st_incomplete_timestamps : ctime_timestamp_range;
  st_ready_sequence_number : Z;
  st_incomplete_sequence_number : Z
}.

Definition set_backend (v : basic_storage_backend B) (s : storage) : storage :=
  mk_storage (st_construction_mode s) v (st_replication_mode s) (st_purged_gtids s) (st_records s)
    (st_checkpoint_size_bytes s) (st_last_checkpoint_position s) (st_checkpoint_interval s)
    (st_last_checkpoint_timestamp s) (st_event_buffer s) (st_boundary_position s)
    (st_buffer_gtids s) (st_ready_timestamps s) (st_incomplete_timestamps s)
    (st_ready_sequence_number s) (st_incomplete_sequence_number s).
Definition set_replication_mode (v : replication_mode_type) (s : storage) : storage :=
  mk_storage (st_construction_mode s) (st_backend s) v (st_purged_gtids s) (st_records s)
    (st_checkpoint_size_bytes s) (st_last_checkpoint_position s) (st_checkpoint_interval s)
    (st_last_checkpoint_timestamp s) (st_event_buffer s) (st_boundary_position s)
    (st_buffer_gtids s) (st_ready_timestamps s) (st_incomplete_timestamps s)
    (st_ready_sequence_number s) (st_incomplete_sequence_number s).
Definition set_purged_gtids (v : gtid_set) (s : storage) : storage :=
  mk_storage (st_construction_mode s) (st_backend s) (st_replication_mode s) v (st_records s)
    (st_checkpoint_size_bytes s) (st_last_checkpoint_position s) (st_checkpoint_interval s)
    (st_last_checkpoint_timestamp s) (st_event_buffer s) (st_boundary_position s)
    (st_buffer_gtids s) (st_ready_timestamps s) (st_incomplete_timestamps s)
    (st_ready_sequence_number s) (st_incomplete_sequence_number s).
Definition set_records (v : list binlog_record) (s : storage) : storage :=
  mk_storage (st_construction_mode s) (st_backend s) (st_replication_mode s) (st_purged_gtids s) v
    (st_checkpoint_size_bytes s) (st_last_checkpoint_position s) (st_checkpoint_interval s)
    (st_last_checkpoint_timestamp s) (st_event_buffer s) (st_boundary_position s)
    (st_buffer_gtids s) (st_ready_timestamps s) (st_incomplete_timestamps s)
    (st_ready_sequence_number s) (st_incomplete_sequence_number s).
Definition set_last_checkpoint_position (v : Z) (s : storage) : storage :=
  mk_storage (st_construction_mode s) (st_backend s) (st_replication_mode s) (st_purged_gtids s)
    (st_records s) (st_checkpoint_size_bytes s) v (st_checkpoint_interval s)
    (st_last_checkpoint_timestamp s) (st_event_buffer s) (st_boundary_position s)
    (st_buffer_gtids s) (st_ready_timestamps s) (st_incomplete_timestamps s)
    (st_ready_sequence_number s) (st_incomplete_sequence_number s).
Definition set_last_checkpoint_timestamp (v : Z) (s : storage) : storage :=
  mk_storage (st_construction_mode s) (st_backend s) (st_replication_mode s) (st_purged_gtids s)
    (st_records s) (st_checkpoint_size_bytes s) (st_last_checkpoint_position s)
    (st_checkpoint_interval s) v (st_event_buffer s) (st_boundary_position s)
    (st_buffer_gtids s) (st_ready_timestamps s) (st_incomplete_timestamps s)
    (st_ready_sequence_number s) (st_incomplete_sequence_number s).
Definition set_event_buffer (v : list Z) (s : storage) : storage :=
  mk_storage (st_construction_mode s) (st_backend s) (st_replication_mode s) (st_purged_gtids s)
    (st_records s) (st_checkpoint_size_bytes s) (st_last_checkpoint_position s)
    (st_checkpoint_interval s) (st_last_checkpoint_timestamp s) v (st_boundary_position s)
    (st_buffer_gtids s) (st_ready_timestamps s) (st_incomplete_timestamps s)
    (st_ready_sequence_number s) (st_incomplete_sequence_number s).
Definition set_boundary_position (v : nat) (s : storage) : storage :=
  mk_storage (st_construction_mode s) (st_backend s) (st_replication_mode s) (st_purged_gtids s)
    (st_records s) (st_checkpoint_size_bytes s) (st_last_checkpoint_position s)
    (st_checkpoint_interval s) (st_last_checkpoint_timestamp s) (st_event_buffer s) v
    (st_buffer_gtids s) (st_ready_timestamps s) (st_incomplete_timestamps s)
    (st_ready_sequence_number s) (st_incomplete_sequence_number s).
Definition set_buffer_gtids (v : gtid_set) (s : storage) : storage :=
  mk_storage (st_construction_mode s) (st_backend s) (st_replication_mode s) (st_purged_gtids s)
    (st_records s) (st_checkpoint_size_bytes s) (st_last_checkpoint_position s)
    (st_checkpoint_interval s) (st_last_checkpoint_timestamp s) (st_event_buffer s)
    (st_boundary_position s) v (st_ready_timestamps s) (st_incomplete_timestamps s)
    (st_ready_sequence_number s) (st_incomplete_sequence_number s).
Definition set_ready_timestamps (v : ctime_timestamp_range) (s : storage) : storage :=
  mk_storage (st_construction_mode s) (st_backend s) (st_replication_mode s) (st_purged_gtids s)
    (st_records s) (st_checkpoint_size_bytes s) (st_last_checkpoint_position s)
    (st_checkpoint_interval s) (st_last_checkpoint_timestamp s) (st_event_buffer s)
    (st_boundary_position s) (st_buffer_gtids s) v (st_incomplete_timestamps s)
    (st_ready_sequence_number s) (st_incomplete_sequence_number s).
Definition set_incomplete_timestamps (v : ctime_timestamp_range) (s : storage) : storage :=
  mk_storage (st_construction_mode s) (st_backend s) (st_replication_mode s) (st_purged_gtids s)
    (st_records s) (st_checkpoint_size_bytes s) (st_last_checkpoint_position s)
    (st_checkpoint_interval s) (st_last_checkpoint_timestamp s) (st_event_buffer s)
    (st_boundary_position s) (st_buffer_gtids s) (st_ready_timestamps s) v
    (st_ready_sequence_number s) (st_incomplete_sequence_number s).
Definition set_ready_sequence_number (v : Z) (s : storage) : storage :=
  mk_storage (st_construction_mode s) (st_backend s) (st_replication_mode s) (st_purged_gtids s)
    (st_records s) (st_checkpoint_size_bytes s) (st_last_checkpoint_position s)
    (st_checkpoint_interval s) (st_last_checkpoint_timestamp s) (st_event_buffer s)
    (st_boundary_position s) (st_buffer_gtids s) (st_ready_timestamps s)
    (st_incomplete_timestamps s) v (st_incomplete_sequence_number s).
Definition set_incomplete_sequence_number (v : Z) (s : storage) : storage :=
  mk_storage (st_construction_mode s) (st_backend s) (st_replication_mode s) (st_purged_gtids s)
    (st_records s) (st_checkpoint_size_bytes s) (st_last_checkpoint_position s)
    (st_checkpoint_interval s) (st_last_checkpoint_timestamp s) (st_event_buffer s)
    (st_boundary_position s) (st_buffer_gtids s) (st_ready_timestamps s)
    (st_incomplete_timestamps s) (st_ready_sequence_number s) v.

Implicit Types (s : storage) (n : composite_binlog_name).
Abbreviation st_action := (action storage).

Definition on_backend {A} : action (basic_storage_backend B) A → st_action A :=
  on_member st_backend set_backend.

(** ** Observers *)
Definition is_in_gtid_replication_mode s : bool := bool_decide (st_replication_mode s = mode_gtid).
Definition storage_is_empty s : bool := bool_decide (st_records s = []).
Definition is_binlog_open s : bool := is_stream_open (st_backend s).
(** [binlog_records_.back()]; [None] on an empty vector *)
Definition get_current_binlog_record s : option binlog_record := last (st_records s).
Definition get_current_binlog_name s : composite_binlog_name :=
  match get_current_binlog_record s with Some r => br_name r | None => empty_binlog_name end.
Definition get_flushed_position s : Z :=
  match get_current_binlog_record s with Some r => br_size r | None => 0 end.
Definition get_current_position s : Z :=
  u64 (get_flushed_position s + Z.of_nat (length (st_event_buffer s))).
Definition get_ready_to_flush_position s : Z :=
  u64 (get_flushed_position s + Z.of_nat (st_boundary_position s)).
Definition has_event_data_to_flush s : bool := negb (st_boundary_position s =? 0)%nat.
Definition size_checkpointing_enabled s : bool := negb (st_checkpoint_size_bytes s =? 0).
Definition interval_checkpointing_enabled s : bool := negb (st_checkpoint_interval s =? 0).
Definition get_last_transaction_sequence_number s : Z := st_incomplete_sequence_number s.

Definition get_gtids s : gtid_set :=
  if negb (is_in_gtid_replication_mode s) then empty_set
  else match get_current_binlog_record s with
       | None => st_purged_gtids s
       | Some r =>
           let result := default empty_set (br_previous_gtids r) in
           match br_added_gtids r with Some added => add_set added result | None => result end
       end.

(** ** Guards *)
Definition ensure_streaming_mode : st_action unit :=
  mode ← gets st_construction_mode;
  throw_if (negb (bool_decide (mode = streaming)))
    (logic_error "operation requires storage to be constructed in streaming mode").
Definition ensure_purging_mode : st_action unit :=
  mode ← gets st_construction_mode;
  throw_if (negb (bool_decide (mode = purging)))
    (logic_error "operation requires storage to be constructed in purging mode").

Definition set_purged (purged_gtids : gtid_set) : st_action unit :=
  gtid_mode ← gets is_in_gtid_replication_mode;
  _ ← throw_if (negb gtid_mode)
        (logic_error "cannot set purged GTIDs in position-based replication mode");
  empty ← gets storage_is_empty;
  _ ← throw_if (negb empty) (logic_error "cannot set purged GTIDs in a non-empty storage");
  modify (set_purged_gtids purged_gtids).

Definition update_last_checkpoint_info (now : Z) : st_action unit :=
  _ ← modify (λ s, if size_checkpointing_enabled s
                   then set_last_checkpoint_position (get_current_position s) s else s);
  modify (λ s, if interval_checkpointing_enabled s then set_last_checkpoint_timestamp now s else s).

(** ** Index and metadata files *)
Definition index_entry (r : binlog_record) : list Z :=
  default_binlog_index_entry_path ++ [preferred_separator] ++ binlog_name_str (br_name r) ++ [10].
Definition index_content (records : list binlog_record) : list Z := mjoin (index_entry <$> records).
Definition save_binlog_index : st_action unit :=
  records ← gets st_records;
  on_backend (put_object default_binlog_index_name (index_content records)).

(** [std::filesystem::path]: what precedes the last separator, and what follows it *)
Fixpoint strip_separators (l : list Z) : list Z :=
  match l with
  | [] => []
  | c :: l =>
      match strip_separators l with
      | [] => if c =? preferred_separator then [] else [c]
      | l => c :: l
      end
  end.
Definition parent_path (p : list Z) : list Z :=
  match rindex preferred_separator p with Some i => strip_separators (take i p) | None => [] end.
Definition filename (p : list Z) : list Z :=
  match rindex preferred_separator p with Some i => drop (S i) p | None => p end.

(** the body of the loop over the lines of the index *)
Definition load_index_line (current_line : list Z) : st_action unit :=
  if bool_decide (current_line = []) then mret ()
  else
    _ ← throw_if (negb (bool_decide (parent_path current_line = default_binlog_index_entry_path)))
          (logic_error "binlog index contains an entry that has an invalid path");
    let current_binlog_name := filename current_line in
    _ ← throw_if (bool_decide (current_binlog_name = default_binlog_index_name))
          (logic_error "binlog index contains a reference to the binlog index name");
    n ← of_result (binlog_name_parse current_binlog_name);
    records ← gets st_records;
    _ ← throw_if (bool_decide (n ∈ br_name <$> records))
          (logic_error "binlog index contains a duplicate entry");
    gtid_mode ← gets is_in_gtid_replication_mode;
    let gtids := if gtid_mode : bool then Some empty_set else None in
    modify (set_records (records ++ [mk_binlog_record n 0 gtids gtids empty_range 0])).

Definition load_binlog_index : st_action unit :=
  index_content ← on_backend (get_object default_binlog_index_name);
  for_each load_index_line (split_parts 10 index_content).

Definition validate_binlog_index (object_names : object_container) : st_action unit :=
  mode ← gets st_construction_mode;
  if bool_decide (mode = querying_only) then mret ()
  else
    records ← gets st_records;
    _ ← throw_if (existsb (λ r, bool_decide (object_names !! binlog_name_str (br_name r) = None)) records)
          (logic_error "binlog index contains a reference to a non-existing object");
    throw_if (negb (size object_names =? length records)%nat)
      (logic_error "storage contains an object that is not referenced in the binlog index").

Definition save_metadata : st_action unit :=
  mode ← gets st_replication_mode;
  on_backend (put_object metadata_name
    (storage_metadata_str (mk_storage_metadata expected_storage_metadata_version mode))).
Definition load_metadata : st_action unit :=
  metadata_content ← on_backend (get_object metadata_name);
  metadata ← of_result (parse_storage_metadata metadata_content);
  modify (set_replication_mode (sm_mode metadata)).
Definition validate_metadata (replication_mode : replication_mode_type) : st_action unit :=
  mode ← gets st_replication_mode;
  throw_if (negb (bool_decide (replication_mode = mode)))
    (logic_error "replication mode provided to initialize storage differs from the one stored in metadata").

Definition generate_binlog_metadata_name n : object_name :=
  binlog_name_str n ++ binlog_metadata_extension.

Definition metadata_of_record (r : binlog_record) : binlog_file_metadata :=
  mk_binlog_file_metadata expected_binlog_file_metadata_version (br_size r) (br_previous_gtids r)
    (br_added_gtids r) (min_timestamp (br_timestamps r)) (max_timestamp (br_timestamps r))
    (br_last_sequence_number r).
Definition record_of_metadata n (m : binlog_file_metadata) : binlog_record :=
  mk_binlog_record n (bm_size m) (bm_previous_gtids m) (bm_added_gtids m)
    (make_range (bm_min_timestamp m) (bm_max_timestamp m)) (bm_last_sequence_number m).

Definition save_binlog_metadata (r : binlog_record) : st_action unit :=
  on_backend (put_object (generate_binlog_metadata_name (br_name r))
    (binlog_metadata_str (metadata_of_record r))).
Definition load_binlog_metadata n : st_action binlog_record :=
  content ← on_backend (get_object (generate_binlog_metadata_name n));
  metadata ← of_result (parse_binlog_metadata content);
  mret (record_of_metadata n metadata).

Definition validate_binlog_metadata (r : binlog_record) : st_action unit :=
  gtid_mode ← gets is_in_gtid_replication_mode;
  if gtid_mode : bool then
    _ ← throw_if (bool_decide (br_previous_gtids r = None)) (logic_error
          "missing previous GTID set in the binlog metadata while in GTID replication mode");
    throw_if (bool_decide (br_added_gtids r = None)) (logic_error
      "missing added GTID set in the binlog metadata while in GTID replication mode")
  else
    _ ← throw_if (negb (bool_decide (br_previous_gtids r = None))) (logic_error
          "found previous GTID set in the binlog metadata while in position replication mode");
    throw_if (negb (bool_decide (br_added_gtids r = None))) (logic_error
      "found added GTID set in the binlog metadata while in position replication mode").

(** ** Loading an existing storage *)

(** [try { m } catch (const std::exception &e) { ... }] *)
Definition try_catch {A} (m : st_action A) : st_action (A + error) := λ s,
  match m s with
  | (s, Ok a) => (s, Ok (inl a))
  | (s, Err e) => if is_exception e then (s, Ok (inr e)) else (s, Err e)
  end.

(** the body of the [try] block for one record *)
Definition load_listed_metadata (object_metadata_names : object_container) n : st_action binlog_record :=
  _ ← throw_if (bool_decide (object_metadata_names !! generate_binlog_metadata_name n = None))
        (logic_error "missing metadata for a binlog listed in the binlog index");
  load_binlog_metadata n.

(** the loop over [binlog_records_]: the records that replace the given ones *)
Fixpoint load_record_set (object_names object_metadata_names : object_container)
    (records : list binlog_record) : st_action (list binlog_record) :=
  match records with
  | [] => mret []
  | r :: records =>
      loaded ← try_catch (load_listed_metadata object_metadata_names (br_name r));
      mode ← gets st_construction_mode;
      match loaded with
      | inr e =>
          if bool_decide (mode = querying_only)
          then load_record_set object_names object_metadata_names records
          else throw e
      | inl loaded =>
          _ ← validate_binlog_metadata loaded;
          _ ← (if bool_decide (mode = querying_only) then mret ()
               else match object_names !! binlog_name_str (br_name r) with
                    | None => throw out_of_range
                    | Some actual =>
                        throw_if (negb (br_size loaded =? actual)) (logic_error
                          "size from the binlog metadata does not match the actual binlog size")
                    end);
          rest ← load_record_set object_names object_metadata_names records;
          mret (loaded :: rest)
      end
  end.

Definition load_and_validate_binlog_metadata_set (object_names object_metadata_names : object_container)
    : st_action unit :=
  records ← gets st_records;
  records ← load_record_set object_names object_metadata_names records;
  _ ← modify (set_records records);
  mode ← gets st_construction_mode;
  _ ← (if bool_decide (mode = querying_only) then mret ()
       else throw_if (negb (size object_metadata_names =? length records)%nat)
              (logic_error "found metadata for a non-existing binlog"));
  match head records with
  | None => throw (undefined_behaviour "front() of an empty vector")
  | Some front =>
      match br_added_gtids front with
      | Some added_gtids => modify (set_purged_gtids added_gtids)
      | None => mret ()
      end
  end.

(** the object before the body of the constructor runs *)
Definition default_storage (construction_mode : storage_construction_mode_type)
    (backend : basic_storage_backend B) (replication_mode : replication_mode_type)
    (checkpoint_size_bytes checkpoint_interval : Z) : storage :=
  mk_storage construction_mode backend replication_mode empty_set [] checkpoint_size_bytes 0
    checkpoint_interval 0 [] 0 empty_set empty_range empty_range 0 0.

(** the body of the constructor, after the configuration has been read and the backend
    has been created *)
Definition load_storage (replication_mode : replication_mode_type) : st_action unit :=
  construction_mode ← gets st_construction_mode;
  storage_objects ← on_backend list_objects;
  if bool_decide (storage_objects = ∅) then
    if bool_decide (construction_mode = streaming) then save_metadata else mret ()
  else
    _ ← throw_if (bool_decide (storage_objects !! metadata_name = None))
          (logic_error "storage is not empty but does not contain metadata");
    let storage_objects := delete metadata_name storage_objects in
    _ ← load_metadata;
    _ ← validate_metadata replication_mode;
    if bool_decide (storage_objects = ∅) then mret ()
    else if bool_decide (storage_objects !! default_binlog_index_name = None) then
      throw_if (negb (bool_decide (construction_mode = querying_only)))
        (logic_error "storage is not empty but does not contain binlog index")
    else
      let storage_objects := delete default_binlog_index_name storage_objects in
      let is_metadata (p : object_name * Z) := path_extension p.1 = binlog_metadata_extension in
      let storage_metadata_objects := filter is_metadata storage_objects in
      let storage_objects := filter (λ p, ¬ is_metadata p) storage_objects in
      _ ← load_binlog_index;
      _ ← validate_binlog_index storage_objects;
      load_and_validate_binlog_metadata_set storage_objects storage_metadata_objects.

(** [storage::storage]: no object exists when the constructor throws *)
Definition make_storage (construction_mode : storage_construction_mode_type)
    (backend : basic_storage_backend B) (replication_mode : replication_mode_type)
    (checkpoint_size_bytes checkpoint_interval : Z) : result storage :=
  match load_storage replication_mode
          (default_storage construction_mode backend replication_mode checkpoint_size_bytes
             checkpoint_interval) with
  | (s, Ok _) => Ok s
  | (_, Err e) => Err e
  end.

(** ** Opening a binlog file *)
Definition append_record (r : binlog_record) s : storage := set_records (st_records s ++ [r]) s.
(** assignments to members of [binlog_records_.back()] *)
Definition update_last {A} (f : A → A) (l : list A) : list A :=
  match last l with Some a => take (length l - 1) l ++ [f a] | None => [] end.
Definition update_current_record (f : binlog_record → binlog_record) s : storage :=
  set_records (update_last f (st_records s)) s.
Definition current_record : st_action binlog_record :=
  o ← gets get_current_binlog_record;
  match o with Some r => mret r | None => throw (undefined_behaviour "back() of an empty vector") end.

Definition open_new_binlog_file_internal n : st_action open_binlog_status :=
  _ ← on_backend (write_data_to_stream magic_binlog_payload);
  gtid_mode ← gets is_in_gtid_replication_mode;
  gtids ← gets get_gtids;
  let previous_binlog_gtids := if gtid_mode : bool then Some gtids else None in
  let added_binlog_gtids := if gtid_mode : bool then Some empty_set else None in
  let r := mk_binlog_record n magic_binlog_offset previous_binlog_gtids added_binlog_gtids empty_range 0 in
  _ ← modify (append_record r);
  _ ← save_binlog_metadata r;
  _ ← save_binlog_index;
  mret created.

Definition with_size (size : Z) (r : binlog_record) : binlog_record :=
  mk_binlog_record (br_name r) size (br_previous_gtids r) (br_added_gtids r) (br_timestamps r)
    (br_last_sequence_number r).

Definition open_existing_binlog_file_internal (open_stream_offset : Z) : st_action open_binlog_status :=
  if magic_binlog_offset <=? open_stream_offset then
    mret (if open_stream_offset =? magic_binlog_offset then opened_at_magic_payload_offset
          else opened_with_data_present)
  else
    _ ← on_backend (write_data_to_stream magic_binlog_payload);
    _ ← current_record;
    _ ← modify (update_current_record (with_size magic_binlog_offset));
    mret opened_empty.

Definition open_binlog (now : Z) n : st_action open_binlog_status :=
  _ ← ensure_streaming_mode;
  records ← gets st_records;
  let binlog_exists := bool_decide (n ∈ br_name <$> records) in
  current ← gets get_current_binlog_name;
  position ← gets get_current_position;
  _ ← throw_if (binlog_exists && negb (bool_decide (n = current))) (logic_error
        "cannot open an existing binlog that is not the latest one for append");
  _ ← throw_if (binlog_exists && (position =? 0))
        (logic_error "invalid position set when opening an existing binlog");
  open_stream_offset ← on_backend (open_stream (binlog_name_str n)
                                     (if binlog_exists then mode_append else mode_create));
  status ←
    (if binlog_exists then
       status ← open_existing_binlog_file_internal open_stream_offset;
       r ← current_record;
       _ ← modify (set_ready_sequence_number (br_last_sequence_number r));
       _ ← modify (set_incomplete_sequence_number (br_last_sequence_number r));
       mret status
     else
       status ← open_new_binlog_file_internal n;
       _ ← modify (set_ready_sequence_number 0);
       _ ← modify (set_incomplete_sequence_number 0);
       mret status);
  _ ← update_last_checkpoint_info now;
  mret status.

(** ** Writing events *)
Definition flushed_record (gtid_mode : bool) s (r : binlog_record) : binlog_record :=
  mk_binlog_record (br_name r)
    (u64 (br_size r + Z.of_nat (st_boundary_position s)))
    (br_previous_gtids r)
    (if gtid_mode then (λ added, add_set (st_buffer_gtids s) added) <$> br_added_gtids r
     else br_added_gtids r)
    (add_range (st_ready_timestamps s) (br_timestamps r))
    (st_ready_sequence_number s).

Definition flush_event_buffer_internal : st_action unit :=
  boundary ← gets st_boundary_position;
  buffer ← gets st_event_buffer;
  _ ← on_backend (write_data_to_stream (take boundary buffer));
  _ ← current_record;
  gtid_mode ← gets is_in_gtid_replication_mode;
  _ ← modify (λ s, update_current_record (flushed_record gtid_mode s) s);
  r ← current_record;
  _ ← save_binlog_metadata r;
  _ ← modify (set_event_buffer (drop boundary buffer));
  _ ← modify (set_boundary_position 0);
  _ ← (if gtid_mode : bool then modify (λ s, set_buffer_gtids (clear (st_buffer_gtids s)) s) else mret ());
  modify (λ s, set_ready_timestamps (range_clear (st_ready_timestamps s)) s).

Definition flush_event_buffer : st_action unit :=
  _ ← ensure_streaming_mode;
  has_data ← gets has_event_data_to_flush;
  if has_data : bool then flush_event_buffer_internal else mret ().

(** the condition [needs_flush] of [write_event] *)
Definition needs_flush (now : Z) s : bool :=
  (size_checkpointing_enabled s &&
   (u64 (st_last_checkpoint_position s + st_checkpoint_size_bytes s) <=? get_ready_to_flush_position s)) ||
  (interval_checkpointing_enabled s &&
   (st_last_checkpoint_timestamp s + st_checkpoint_interval s <=? now)).

(** the part of [write_event] that fills the buffer *)
Definition buffer_event (event_data : list Z) (at_transaction_boundary : bool) (transaction_gtid : gtid)
    (event_timestamp transaction_sequence_number : Z) : st_action unit :=
  _ ← modify (λ s, set_event_buffer (st_event_buffer s ++ event_data) s);
  _ ← modify (λ s, set_incomplete_timestamps (add_timestamp event_timestamp (st_incomplete_timestamps s)) s);
  _ ← (if negb (transaction_sequence_number =? 0)
       then modify (set_incomplete_sequence_number transaction_sequence_number) else mret ());
  if at_transaction_boundary then
    _ ← modify (λ s, set_boundary_position (length (st_event_buffer s)) s);
    gtid_mode ← gets is_in_gtid_replication_mode;
    _ ← (if gtid_mode && negb (gtid_is_empty transaction_gtid) then
           gtids ← gets st_buffer_gtids;
           gtids ← of_result (add_gtid transaction_gtid gtids);
           modify (set_buffer_gtids gtids)
         else mret ());
    _ ← modify (λ s, set_ready_timestamps
                       (add_range (st_incomplete_timestamps s) (st_ready_timestamps s)) s);
    _ ← modify (λ s, set_incomplete_timestamps (range_clear (st_incomplete_timestamps s)) s);
    modify (λ s, set_ready_sequence_number (st_incomplete_sequence_number s) s)
  else mret ().

Definition write_event (now : Z) (event_data : list Z) (at_transaction_boundary : bool)
    (transaction_gtid : gtid) (event_timestamp transaction_sequence_number : Z) : st_action unit :=
  _ ← ensure_streaming_mode;
  _ ← buffer_event event_data at_transaction_boundary transaction_gtid event_timestamp
        transaction_sequence_number;
  has_data ← gets has_event_data_to_flush;
  if has_data : bool then
    ready_to_flush_position ← gets get_ready_to_flush_position;
    flush ← gets (needs_flush now);
    if flush : bool then
      _ ← flush_event_buffer_internal;
      _ ← modify (set_last_checkpoint_position ready_to_flush_position);
      modify (set_last_checkpoint_timestamp now)
    else mret ()
  else mret ().

Definition close_binlog (now : Z) : st_action unit :=
  _ ← ensure_streaming_mode;
  _ ← flush_event_buffer;
  _ ← modify (set_event_buffer []);
  _ ← on_backend close_stream;
  update_last_checkpoint_info now.

Definition discard_incomplete_transaction_events : st_action unit :=
  _ ← ensure_streaming_mode;
  _ ← modify (λ s, set_event_buffer (take (st_boundary_position s) (st_event_buffer s)) s);
  _ ← modify (λ s, set_incomplete_timestamps (range_clear (st_incomplete_timestamps s)) s);
  modify (λ s, set_incomplete_sequence_number (st_ready_sequence_number s) s).

(** [~storage]: the last flush; whatever it throws is swallowed *)
Definition destroy_storage s : storage :=
  if bool_decide (st_construction_mode s = streaming) then (flush_event_buffer s).1 else s.

(** ** Purging *)
Definition victim_object_names (removed : list binlog_record) : list object_name :=
  mjoin ((λ r, [generate_binlog_metadata_name (br_name r); binlog_name_str (br_name r)]) <$> removed).

Definition purge_binlogs (target : composite_binlog_name)
    : st_action (list binlog_record * option error) :=
  _ ← ensure_purging_mode;
  records ← gets st_records;
  match records with
  | [] => throw (runtime_error "cannot purge: binlog storage is empty")
  | front :: _ =>
      _ ← throw_if (negb (bool_decide (bn_base_name target = bn_base_name (br_name front))))
            (runtime_error "cannot purge: target binlog name has a different base name than the binlog records in the storage");
      match list_find (λ r, br_name r = target) records with
      | None => throw (runtime_error "cannot purge: target binlog name is not present in the storage")
      | Some (target_index, _) =>
          _ ← throw_if (target_index =? length records - 1)%nat
                (runtime_error "cannot purge: target is the current tail binlog file; at least one binlog file must remain in the storage to preserve the resume position");
          let victim_count := S target_index in
          let removed_records := take victim_count records in
          _ ← modify (set_records (drop victim_count records));
          _ ← save_binlog_index;
          outcome ← try_catch (on_backend (remove_objects (victim_object_names removed_records)));
          mret (removed_records, match outcome with inl _ => None | inr e => Some e end)
      end
  end.
End storage.

(** ** Object names *)
Section names.
Implicit Types n : composite_binlog_name.

Lemma binlog_name_str_padded n :
  binlog_name_str n = bn_base_name n ++ 46 :: padded (bn_sequence_number n).
Proof. done. Qed.

Lemma padded_no_dot n : binlog_name_ok n → 46 ∉ padded (bn_sequence_number n).
Proof.
  intros (_ & _ & Hq). destruct (padded_spec (bn_sequence_number n) ltac:(lia)) as (_ & Hd & _).
  by apply (digits_not_in 46 _ Hd).
Qed.

Lemma binlog_name_extension n :
  binlog_name_ok n → path_extension (binlog_name_str n) = 46 :: padded (bn_sequence_number n).
Proof.
  intros Hn. rewrite binlog_name_str_padded. pose proof Hn as (Hb & _).
  by apply path_extension_app, padded_no_dot.
Qed.

(** a digit after the dot tells binlog files from all the other objects *)
Lemma binlog_extension_digit n c l :
  binlog_name_ok n → path_extension (binlog_name_str n) = 46 :: c :: l → isdigit c = true.
Proof.
  intros Hn. rewrite binlog_name_extension by done. intros [= Hp]. pose proof Hn as (_ & _ & Hq).
  destruct (padded_spec (bn_sequence_number n) ltac:(lia)) as (_ & Hd & _).
  rewrite Hp in Hd. by apply Forall_cons in Hd as [? _].
Qed.

Lemma binlog_name_no_slash n : binlog_name_ok n → 47 ∉ binlog_name_str n.
Proof.
  intros (_ & Hs & Hq). rewrite binlog_name_str_padded, elem_of_app, elem_of_cons.
  destruct (padded_spec (bn_sequence_number n) ltac:(lia)) as (_ & Hd & _).
  intros [?|[?|?]]; [done|done|]. by apply (digits_not_in 47 _ Hd).
Qed.
Lemma binlog_name_str_ok n : binlog_name_ok n → name_ok (binlog_name_str n).
Proof.
  intros Hn. split; [|split; [|by apply binlog_name_no_slash]].
  - rewrite binlog_name_str_padded. by destruct (bn_base_name n).
  - intros Hx. by apply binlog_extension_digit in Hx.
Qed.

Lemma binlog_name_str_inj n1 n2 :
  binlog_name_ok n1 → binlog_name_ok n2 → binlog_name_str n1 = binlog_name_str n2 → n1 = n2.
Proof.
  intros H1 H2 Heq. apply binlog_name_parse_str in H1, H2. rewrite Heq in H1. congruence.
Qed.

Lemma binlog_name_str_ne n s : binlog_name_ok n → path_extension s = text ".index" ∨
  path_extension s = text ".json" → binlog_name_str n ≠ s.
Proof.
  intros Hn Hs Heq. rewrite <-Heq in Hs.
  destruct Hs as [Hs|Hs]; by apply binlog_extension_digit in Hs.
Qed.

Lemma metadata_name_extension n :
  binlog_name_ok n → path_extension (generate_binlog_metadata_name n) = binlog_metadata_extension.
Proof.
  intros Hn. apply path_extension_app; [apply binlog_name_str_ok; done|].
  apply (bool_decide_unpack _). by vm_compute.
Qed.
Lemma metadata_name_ok n : binlog_name_ok n → name_ok (generate_binlog_metadata_name n).
Proof.
  intros Hn. split; [|split].
  - unfold generate_binlog_metadata_name. rewrite binlog_name_str_padded.
    by destruct (bn_base_name n).
  - by rewrite metadata_name_extension.
  - unfold generate_binlog_metadata_name. rewrite elem_of_app.
    intros [?|?]; [by apply (binlog_name_no_slash n)|].
    by assert (47 ∉ binlog_metadata_extension) by (apply (bool_decide_unpack _); by vm_compute).
Qed.
Lemma metadata_name_inj n1 n2 :
  binlog_name_ok n1 → binlog_name_ok n2 →
  generate_binlog_metadata_name n1 = generate_binlog_metadata_name n2 → n1 = n2.
Proof.
  intros H1 H2 Heq. apply binlog_name_str_inj; [done..|]. by apply app_inj_2 in Heq as [? _].
Qed.
Lemma metadata_name_ne n : generate_binlog_metadata_name n ≠ metadata_name.
Proof.
  intros Heq. change metadata_name with (text "metadata" ++ binlog_metadata_extension) in Heq.
  apply app_inj_2 in Heq as [Heq _]; [|done].
  assert (46 ∉ text "metadata") as Hin by (apply (bool_decide_unpack _); by vm_compute).
  apply Hin. rewrite <-Heq, binlog_name_str_padded. set_solver.
Qed.
Lemma index_name_ok : name_ok default_binlog_index_name.
Proof. split; apply (bool_decide_unpack _); by vm_compute. Qed.
Lemma storage_metadata_name_ok : name_ok metadata_name.
Proof. split; apply (bool_decide_unpack _); by vm_compute. Qed.
End names.
