(* ===== verification/StorageLog.v ===== *)
(** * The storage as a transaction log

    Theorems about the streaming operations of [storage] (Storage.v): what the operations
    do to the backend, step by step, and that any session on an open binlog refines an
    abstract log of whole transactions. *)

From stdpp Require Import gmap.
From S2P Require Import Prelude OrderedMap IntervalSet Gtid GtidSet Util Protocol ReaderContext.
From S2P Require Import Backend Metadata Storage.

Local Open Scope Z_scope.

(** ** Steps on the backend *)
Abbreviation objects_in bb := (objects (bb_impl bb)).
Abbreviation durable_in bb := (durable (bb_impl bb)).
Abbreviation stream_in bb := (stream (bb_impl bb)).
Abbreviation objs s := (objects (bb_impl (st_backend s))).
Abbreviation disk s := (durable (bb_impl (st_backend s))).
Abbreviation strm s := (stream (bb_impl (st_backend s))).

Section storage_steps.
Context `{StorageBackendLaws B} `{IntervalSet} `{BoostUuid} `{BoostPosixTime} `{BoostJson}.
Implicit Types (s : storage (B := B)) (r : binlog_record) (c : list Z).


Lemma on_backend_inv {A} (m : action (basic_storage_backend B) A) s s' x :
  on_backend m s = (s', x) → ∃ bb, m (st_backend s) = (bb, x) ∧ s' = set_backend bb s.
Proof.
  unfold on_backend, on_member. destruct (m (st_backend s)) as [bb y]. intros [= <- <-]. eauto.
Qed.

Lemma write_stream_inv data s s' x n c :
  on_backend (write_data_to_stream data) s = (s', x) →
  is_binlog_open s = true → name_ok n → strm s = Some n → objs s !! n = Some c →
  intact (bb_impl (st_backend s)) →
  ∃ bb d, s' = set_backend bb s ∧ bb_stream_open bb = true ∧ stream_in bb = Some n ∧
    d `prefix_of` data ∧ objects_in bb = <[n := c ++ d]> (objs s) ∧
    (durable (bb_impl bb) = disk s ∨ durable (bb_impl bb) = objects_in bb) ∧
    (is_ok x = true → d = data ∧ settled (bb_impl bb)).
Proof.
  intros (bb & Hw & ->)%on_backend_inv Hopen Hn Hs Hc Hi. unfold write_data_to_stream in Hw.
  unfold is_binlog_open in Hopen. inv_action Hw; [by match goal with E : negb _ = true |- _ => rewrite Hopen in E end|].
  apply virtually_inv in Hw as [Hw Ho].
  destruct (write_law _ _ _ _ _ _ Hw Hn Hs Hc Hi) as (Hs' & d & Hd & Hobj & Hdur & Hok).
  exists bb, d. unfold is_stream_open in Hopen. split_and!; [done|congruence|done..|].
  destruct x as [[]|]; [by intros _; apply Hok | done].
Qed.

Lemma put_inv n c s s' x :
  on_backend (put_object n c) s = (s', x) → name_ok n → stream_apart n (strm s) →
  ∃ bb, s' = set_backend bb s ∧ bb_stream_open bb = is_binlog_open s ∧ stream_in bb = strm s ∧
    (settled (bb_impl (st_backend s)) → settled (bb_impl bb)) ∧
    (objects_in bb = <[n := c]> (objs s) ∨ objects_in bb = objs s ∧ is_ok x = false).
Proof.
  intros (bb & Hp & ->)%on_backend_inv Hn Hs. apply virtually_inv in Hp as [Hp Ho].
  pose proof (put_law _ _ _ _ _ Hp Hn Hs) as Hu. exists bb.
  split_and!; [done|done|by destruct Hu|by eapply settled_updates|].
  destruct Hu as (_ & _ & [[? _]|(? & _ & ?)]); auto.
Qed.

(** the storage has an open stream that appends to the file of its last record *)
Definition positioned s r c : Prop :=
  is_binlog_open s = true ∧ last (st_records s) = Some r ∧ binlog_name_ok (br_name r) ∧
  strm s = Some (binlog_name_str (br_name r)) ∧ objs s !! binlog_name_str (br_name r) = Some c.
(** and nothing has gone wrong on the stream: the file has all that was written to it *)
Definition appending s r c : Prop := settled (bb_impl (st_backend s)) ∧ positioned s r c.

Lemma metadata_apart r o :
  binlog_name_ok (br_name r) → o = Some (binlog_name_str (br_name r)) →
  stream_apart (generate_binlog_metadata_name (br_name r)) o.
Proof.
  intros Hn -> x [= <-]. split; [by apply binlog_name_str_ok|].
  apply binlog_name_str_ne; [done|]. right. by apply metadata_name_extension.
Qed.

Lemma lookup_after_put r c c' (o o' : gmap (list Z) (list Z)) (failed : Prop) :
  binlog_name_ok (br_name r) →
  o' = <[generate_binlog_metadata_name (br_name r) := c']> o ∨ o' = o ∧ failed →
  o !! binlog_name_str (br_name r) = Some c → o' !! binlog_name_str (br_name r) = Some c.
Proof.
  intros Hn [->|[-> _]] Ho; [|done]. rewrite lookup_insert_ne; [done|].
  intros Heq. symmetry in Heq. revert Heq. apply binlog_name_str_ne; [done|].
  right. by apply metadata_name_extension.
Qed.

Definition flushed_state (bb : basic_storage_backend B) s : storage :=
  let gtid_mode := is_in_gtid_replication_mode s in
  let s1 := update_current_record (flushed_record gtid_mode s) s in
  let s2 := set_boundary_position 0
              (set_event_buffer (drop (st_boundary_position s) (st_event_buffer s))
                (set_backend bb s1)) in
  set_ready_timestamps empty_range (if gtid_mode then set_buffer_gtids empty_set s2 else s2).

Lemma last_update_last {A} (f : A → A) l a : last l = Some a → last (update_last f l) = Some (f a).
Proof. intros Hl. unfold update_last. rewrite Hl. by rewrite last_snoc. Qed.

Lemma current_record_last s r : last (st_records s) = Some r → current_record s = (s, Ok r).
Proof.
  intros Hl. unfold current_record, mbind, action_bind, gets, get_current_binlog_record.
  by rewrite Hl.
Qed.

Lemma flush_internal_intact s s' x r c :
  flush_event_buffer_internal s = (s', x) → intact (bb_impl (st_backend s)) → positioned s r c →
  let n := binlog_name_str (br_name r) in
  let data := take (st_boundary_position s) (st_event_buffer s) in
  let r' := flushed_record (is_in_gtid_replication_mode s) s r in
  match x with
  | Ok _ =>
      ∃ bb, s' = flushed_state bb s ∧ bb_stream_open bb = true ∧ stream_in bb = Some n ∧
        settled (bb_impl bb) ∧
        objects_in bb = <[generate_binlog_metadata_name (br_name r) :=
                            binlog_metadata_str (metadata_of_record r')]>
                        (<[n := c ++ data]> (objs s))
  | Err _ =>
      ∃ d r1, d `prefix_of` data ∧ positioned s' r1 (c ++ d) ∧ br_name r1 = br_name r ∧
        (disk s' = disk s ∨ disk s' = objs s') ∧
        st_event_buffer s' = st_event_buffer s ∧ st_boundary_position s' = st_boundary_position s ∧
        st_construction_mode s' = st_construction_mode s
  end.
Proof.
  intros Hf Hint Ha. pose proof Ha as (Hopen & Hlast & Hn & Hs & Hc). cbv zeta.
  unfold flush_event_buffer_internal in Hf. inv_action Hf.
  { destruct (write_stream_inv _ _ _ _ _ _ Hf Hopen (binlog_name_str_ok _ Hn) Hs Hc Hint)
      as (bb & d & -> & Hb & Hst & Hd & Ho & Hdur & _).
    exists d, r. split; [done|]. split; [|split; [done|split; [done|done]]].
    split_and!; [done..|]. cbn. rewrite Ho. apply lookup_insert_eq. }
  all: destruct (write_stream_inv _ _ _ _ _ _ Hm Hopen (binlog_name_str_ok _ Hn) Hs Hc Hint)
      as (bb & d & -> & Hb & Hst & Hd & Ho & _ & Hdata);
    destruct (Hdata eq_refl) as [-> Hset1]; clear Hdata.
  { by rewrite (current_record_last _ r) in Hf. }
  all: rewrite (current_record_last _ r) in Hm0 by done; injection Hm0 as <- <-.
  all: match goal with E : context [update_current_record ?f ?s0] |- _ =>
    remember (update_current_record f s0) as q eqn:Hq end.
  all: assert (last (st_records q) = Some (flushed_record (is_in_gtid_replication_mode s) s r)) as Hlq
    by (subst q; by apply last_update_last).
  all: assert (st_backend q = bb) as Hbq by (by subst q).
  { by rewrite (current_record_last _ _ Hlq) in Hf. }
  all: rewrite (current_record_last _ _ Hlq) in Hm1; injection Hm1 as <- <-.
  all: pose proof (metadata_apart r _ Hn Hst) as Hap; rewrite <-Hbq in Hap, Hb, Hst, Ho, Hset1.
  { destruct (put_inv _ _ _ _ _ Hf (metadata_name_ok _ Hn) Hap) as (bb2 & -> & Hb2 & Hst2 & Hset2 & Ho2).
    exists (take (st_boundary_position s) (st_event_buffer s)),
      (flushed_record (is_in_gtid_replication_mode s) s r).
    split; [done|]. split; [|split; [done|split; [right; by apply Hset2|by subst q]]].
    split_and!; [by rewrite <-Hb | done | done | cbn; congruence |].
    eapply (lookup_after_put r); [done | exact Ho2 |]. rewrite Ho. apply lookup_insert_eq. }
  all: destruct (put_inv _ _ _ _ _ Hm2 (metadata_name_ok _ Hn) Hap) as (bb2 & -> & Hb2 & Hst2 & Hset2 & Ho2);
    destruct Ho2 as [Ho2|[_ [=]]]; rewrite Ho in Ho2.
  { subst q. by destruct (is_in_gtid_replication_mode _). }
  exists bb2. split_and!; [|by rewrite Hb2 | by rewrite Hst2 | by apply Hset2 | done].
  subst q. unfold flushed_state. cbv zeta.
  change (is_in_gtid_replication_mode (set_backend bb s)) with (is_in_gtid_replication_mode s) in *.
  destruct (is_in_gtid_replication_mode s); inv_action Hm3; done.
Qed.

Lemma flush_internal_inv s s' x r c :
  flush_event_buffer_internal s = (s', x) → appending s r c →
  let n := binlog_name_str (br_name r) in
  let data := take (st_boundary_position s) (st_event_buffer s) in
  let r' := flushed_record (is_in_gtid_replication_mode s) s r in
  match x with
  | Ok _ =>
      ∃ bb, s' = flushed_state bb s ∧ bb_stream_open bb = true ∧ stream_in bb = Some n ∧
        settled (bb_impl bb) ∧
        objects_in bb = <[generate_binlog_metadata_name (br_name r) :=
                            binlog_metadata_str (metadata_of_record r')]>
                        (<[n := c ++ data]> (objs s))
  | Err _ =>
      ∃ d r1, d `prefix_of` data ∧ positioned s' r1 (c ++ d) ∧ br_name r1 = br_name r ∧
        (disk s' = disk s ∨ disk s' = objs s') ∧
        st_event_buffer s' = st_event_buffer s ∧ st_boundary_position s' = st_boundary_position s ∧
        st_construction_mode s' = st_construction_mode s
  end.
Proof. intros Hf [[Hint _] Ha]. by apply flush_internal_intact. Qed.
End storage_steps.

(** ** What a session does to the file: the abstract log

    A transaction is the bytes of its events and its GTID.  The log of a session is the
    list of transactions completed so far and the bytes of the incomplete one. *)
Abbreviation transaction := (list Z * gtid)%type.
Record event_log := mk_log { log_committed : list transaction; log_pending : list Z }.

Inductive session_op :=
  | op_write (now : Z) (data : list Z) (boundary : bool) (transaction_gtid : gtid)
      (timestamp sequence_number : Z)
  | op_flush
  | op_discard.

Definition spec_session_op (o : session_op) (l : event_log) : event_log :=
  match o with
  | op_write _ data true g _ _ =>
      mk_log (log_committed l ++ [(log_pending l ++ data, g)]) []
  | op_write _ data false _ _ _ => mk_log (log_committed l) (log_pending l ++ data)
  | op_flush => l
  | op_discard => mk_log (log_committed l) []
  end.
Definition spec_session (ops : list session_op) (l : event_log) : event_log :=
  foldl (λ l o, spec_session_op o l) l ops.

Definition bytes_of (txs : list transaction) : list Z := mjoin (fst <$> txs).
(** the GTIDs of a list of transactions; those without one carry an empty GTID *)
Definition gtids_of (txs : list transaction) (u : uuid) (t : tag) (x : Z) : Prop :=
  ∃ g, g ∈ snd <$> txs ∧ gtid_is_empty g = false ∧ g = mk_gtid u t x.

Definition session_op_ok (o : session_op) : Prop :=
  match o with
  | op_write _ _ _ g _ _ => gtid_is_empty g = true ∨ min_gno ≤ gtid_gno g ≤ max_gno
  | _ => True
  end.

Lemma bytes_of_app l1 l2 : bytes_of (l1 ++ l2) = bytes_of l1 ++ bytes_of l2.
Proof. unfold bytes_of. by rewrite fmap_app, join_app. Qed.
Lemma bytes_of_one d g : bytes_of [(d, g)] = d.
Proof. apply app_nil_r. Qed.
Lemma gtids_of_app l1 l2 u t x : gtids_of (l1 ++ l2) u t x ↔ gtids_of l1 u t x ∨ gtids_of l2 u t x.
Proof. unfold gtids_of. setoid_rewrite fmap_app. setoid_rewrite elem_of_app. naive_solver. Qed.
Lemma gtids_of_one d g u t x :
  gtids_of [(d, g)] u t x ↔ gtid_is_empty g = false ∧ g = mk_gtid u t x.
Proof. unfold gtids_of. cbn. setoid_rewrite list_elem_of_singleton. naive_solver. Qed.

Section session.
Context `{StorageBackendLaws B} `{IntervalSetLaws} `{BoostUuidLaws} `{BoostPosixTime} `{BoostJson}.
Implicit Types (s : storage (B := B)) (l : event_log) (r : binlog_record).

Definition run_session_op (o : session_op) : action storage unit :=
  match o with
  | op_write now data boundary g ts q => write_event now data boundary g ts q
  | op_flush => flush_event_buffer
  | op_discard => discard_incomplete_transaction_events
  end.
Definition run_session (ops : list session_op) : action storage unit := for_each run_session_op ops.

(** the GTIDs recorded for the file and those still in the buffer *)
Definition gtids_accounted s r (A0 : triples) (flushed buffered : list transaction) : Prop :=
  is_in_gtid_replication_mode s = true →
  (∃ A, br_added_gtids r = Some A ∧ refines A (λ u t x, A0 u t x ∨ gtids_of flushed u t x)) ∧
  refines (st_buffer_gtids s) (gtids_of buffered).

(** [s], open for streaming, holds the log [l] for the file [n], which started with the bytes [base] and the
    GTIDs [A0]: some of the transactions are in the file, the others, and the incomplete
    one, are in the buffer. *)
Definition holds_log s (n : composite_binlog_name) (base : list Z) (A0 : triples) l : Prop :=
  st_construction_mode s = streaming ∧
  ∃ r c k,
    appending s r c ∧ br_name r = n ∧ (k ≤ length (log_committed l))%nat ∧
    c = base ++ bytes_of (take k (log_committed l)) ∧
    (st_boundary_position s ≤ length (st_event_buffer s))%nat ∧
    take (st_boundary_position s) (st_event_buffer s) = bytes_of (drop k (log_committed l)) ∧
    drop (st_boundary_position s) (st_event_buffer s) = log_pending l ∧
    br_size r = u64 (Z.of_nat (length c)) ∧
    objs s !! generate_binlog_metadata_name n = Some (binlog_metadata_str (metadata_of_record r)) ∧
    gtids_accounted s r A0 (take k (log_committed l)) (drop k (log_committed l)).

Lemma add_gtid_refines g (S : gtid_set) A :
  gtid_is_empty g = false → min_gno ≤ gtid_gno g ≤ max_gno → refines S A →
  ∃ S', add_gtid g S = Ok S' ∧ refines S' (λ u t x, A u t x ∨ g = mk_gtid u t x).
Proof.
  intros Hg Hgno HA. unfold add_gtid. rewrite Hg. eexists. split; [reflexivity|].
  destruct g as [u t x]. cbn [gtid_uuid gtid_tag gtid_gno] in *.
  destruct (refines_insert u t x x S A) as [Hwf He]; [unfold min_gno in *; lia..|done|].
  split; [done|]. intros u' t' x'. rewrite He. unfold range.
  assert (x ≤ x' ≤ x ↔ x = x') as -> by lia. naive_solver.
Qed.

Lemma refines_iff S A A' : (∀ u t x, A u t x ↔ A' u t x) → refines S A → refines S A'.
Proof. intros HA [Hwf He]. split; [done|]. intros. by rewrite He. Qed.

Lemma u64_add_l a b : u64 (u64 a + b) = u64 (a + b).
Proof. unfold wrap. by rewrite Zplus_mod_idemp_l. Qed.

Lemma flushed_state_members bb s :
  let s' := flushed_state bb s in
  st_backend s' = bb ∧ st_construction_mode s' = st_construction_mode s ∧
  st_records s' = update_last (flushed_record (is_in_gtid_replication_mode s) s) (st_records s) ∧
  is_in_gtid_replication_mode s' = is_in_gtid_replication_mode s ∧
  st_boundary_position s' = 0%nat ∧
  st_event_buffer s' = drop (st_boundary_position s) (st_event_buffer s) ∧
  (is_in_gtid_replication_mode s = true → st_buffer_gtids s' = empty_set).
Proof.
  unfold flushed_state. cbv zeta.
  destruct (is_in_gtid_replication_mode s) eqn:E; split_and!; try done; exact E.
Qed.

Lemma flushed_accounted bb s r A0 flushed buffered :
  gtids_accounted s r A0 flushed buffered →
  gtids_accounted (flushed_state bb s) (flushed_record (is_in_gtid_replication_mode s) s r) A0
    (flushed ++ buffered) [].
Proof.
  intros Hg Hm. destruct (flushed_state_members bb s) as (_ & _ & _ & Hm' & _ & _ & Hb).
  rewrite Hm' in Hm. destruct (Hg Hm) as [(A & HA & Hr) Hbuf]. rewrite (Hb Hm). split.
  - cbn. rewrite Hm, HA. eexists. split; [reflexivity|].
    destruct Hr as [Hwf He], Hbuf as [Hwf2 He2].
    destruct (add_set_elem (st_buffer_gtids s) A Hwf Hwf2) as [Hwf3 He3].
    split; [done|]. intros u t x. rewrite He3, He, He2, gtids_of_app. tauto.
  - split; [apply wf_empty|]. intros u t x. split.
    + by intros (c & ? & _).
    + intros (g & Hg' & _). by apply not_elem_of_nil in Hg'.
Qed.

Lemma flush_holds s s' n base A0 l :
  flush_event_buffer_internal s = (s', Ok ()) →
  holds_log s n base A0 l → holds_log s' n base A0 l.
Proof.
  intros Hf (Hmode & r & c & k & Ha & Hn & Hk & Hc & Hb & Htake & Hdrop & Hsize & Hmeta & Hg).
  pose proof Ha as (_ & Hopen & Hlast & Hnok & Hs & Hobj).
  destruct (flush_internal_inv _ _ _ _ _ Hf Ha) as (bb & -> & Hbo & Hst & Hset & Ho).
  set (r' := flushed_record (is_in_gtid_replication_mode s) s r) in *.
  destruct (flushed_state_members bb s) as (Hbk & Hcm & Hrec & _ & Hb0 & Hbuf & _).
  split; [by rewrite Hcm|].
  exists r', (c ++ take (st_boundary_position s) (st_event_buffer s)), (length (log_committed l)).
  rewrite firstn_all, drop_all, Hb0, Hbuf. unfold appending, positioned, is_binlog_open.
  rewrite Hbk, Hrec. split; [split; [exact Hset|]|]; rewrite Ho; split_and!.
  - done.
  - by apply last_update_last.
  - done.
  - done.
  - eapply (lookup_after_put r _ _ _ _ False); [done | by left |]. apply lookup_insert_eq.
  - done.
  - done.
  - rewrite Htake, Hc, <-app_assoc, <-bytes_of_app. by rewrite take_drop.
  - lia.
  - done.
  - done.
  - cbn. rewrite Hsize, u64_add_l, length_app, length_take, Nat2Z.inj_add.
    by rewrite Nat.min_l.
  - subst n. apply lookup_insert_eq.
  - rewrite <-(take_drop k (log_committed l)). by apply flushed_accounted.
Qed.

(** what is on disk after a failure: the file is a prefix of the log *)
Definition prefix_on_disk s (n : composite_binlog_name) (base : list Z) l : Prop :=
  ∃ c, disk s !! binlog_name_str n = Some c ∧ c `prefix_of` base ++ bytes_of (log_committed l).

Lemma holds_log_prefix s n base A0 l : holds_log s n base A0 l → prefix_on_disk s n base l.
Proof.
  intros (Hmode & r & c & k & ([_ Heq] & _ & _ & _ & _ & Hobj) & Hn & _ & Hc & _). subst n. exists c.
  split; [by rewrite Heq|]. rewrite Hc. apply prefix_app.
  rewrite <-(take_drop k (log_committed l)) at 2. rewrite bytes_of_app. by apply prefix_app_r.
Qed.

Lemma flush_fails_prefix s s' e n base A0 l :
  flush_event_buffer_internal s = (s', Err e) → holds_log s n base A0 l → prefix_on_disk s' n base l.
Proof.
  intros Hf Hl. pose proof (holds_log_prefix _ _ _ _ _ Hl) as (c0 & Hc0 & Hp0).
  destruct Hl as (Hmode & r & c & k & Ha & Hn & Hk & Hc & Hb & Htake & _).
  destruct (flush_internal_inv _ _ _ _ _ Hf Ha)
    as (d & r1 & Hd & (_ & _ & _ & _ & Ho) & Hr1 & [Hdk|Hdk] & _); unfold prefix_on_disk; rewrite Hdk.
  { by exists c0. }
  rewrite Hr1 in Ho. subst n.
  exists (c ++ d). split; [done|]. rewrite Hc, <-app_assoc. apply prefix_app.
  rewrite <-(take_drop k (log_committed l)) at 2. rewrite bytes_of_app. apply prefix_app.
  by rewrite <-Htake.
Qed.

(** the members [buffer_event] leaves behind *)
Lemma buffer_event_spec s data boundary g ts q A :
  (gtid_is_empty g = true ∨ min_gno ≤ gtid_gno g ≤ max_gno) →
  (is_in_gtid_replication_mode s = true → refines (st_buffer_gtids s) A) →
  ∃ s', buffer_event data boundary g ts q s = (s', Ok ()) ∧
    st_backend s' = st_backend s ∧ st_records s' = st_records s ∧
    st_construction_mode s' = st_construction_mode s ∧
    st_replication_mode s' = st_replication_mode s ∧
    st_event_buffer s' = st_event_buffer s ++ data ∧
    st_boundary_position s' =
      (if boundary then length (st_event_buffer s ++ data) else st_boundary_position s) ∧
    (is_in_gtid_replication_mode s = true →
     refines (st_buffer_gtids s') (λ u t x, A u t x ∨
       boundary = true ∧ gtid_is_empty g = false ∧ g = mk_gtid u t x)).
Proof.
  intros Hg HA. unfold is_in_gtid_replication_mode in *.
  unfold buffer_event, mbind, action_bind, modify, gets, is_in_gtid_replication_mode, of_result.
  assert (boundary = true → bool_decide (st_replication_mode s = mode_gtid) = true →
    gtid_is_empty g = false → ∃ S', add_gtid g (st_buffer_gtids s) = Ok S' ∧
      refines S' (λ u t x, A u t x ∨ g = mk_gtid u t x)) as Hadd.
  { intros _ Hm He. apply add_gtid_refines; [done| |auto]. destruct Hg; [congruence|done]. }
  destruct (q =? 0), boundary; cbn -[add_gtid bool_decide gtid_is_empty];
    try (eexists; split; [reflexivity|]; split_and!; try done;
      intros Hm; first [done | eapply refines_iff; [|by apply HA]; naive_solver]).
  all: destruct (bool_decide _) eqn:Em, (gtid_is_empty g) eqn:Eg; cbn -[add_gtid];
    try (eexists; split; [reflexivity|]; split_and!; try done;
      intros Hm; first [done | eapply refines_iff; [|by apply HA]; naive_solver]).
  all: destruct Hadd as (S' & HS & Hr); [done..|]; rewrite HS;
    eexists; split; [reflexivity|]; split_and!; try done;
    intros _; eapply refines_iff; [|exact Hr]; naive_solver.
Qed.

Lemma write_holds s s' now data boundary g ts q n base A0 l x :
  buffer_event data boundary g ts q s = (s', x) →
  (gtid_is_empty g = true ∨ min_gno ≤ gtid_gno g ≤ max_gno) →
  holds_log s n base A0 l →
  x = Ok () ∧
  holds_log s' n base A0 (spec_session_op (op_write now data boundary g ts q) l).
Proof.
  intros Hw Hg (Hmode & r & c & k & Ha & Hn & Hk & Hc & Hb & Htake & Hdrop & Hsize & Hmeta & Hacc).
  destruct (buffer_event_spec s data boundary g ts q (gtids_of (drop k (log_committed l))))
    as (s1 & Hw' & Hbk & Hrec & Hcm & Hrm & Hbuf & Hbd & Hgt); [done|by intros ?; apply Hacc|].
  rewrite Hw in Hw'. injection Hw' as -> ->. split; [done|]. split; [by rewrite Hcm|].
  assert (is_in_gtid_replication_mode s1 = is_in_gtid_replication_mode s) as Hm
    by (unfold is_in_gtid_replication_mode; by rewrite Hrm).
  exists r, c, k. unfold appending, positioned, is_binlog_open, gtids_accounted. rewrite Hbk, Hrec, Hm, Hbuf, Hbd.
  destruct boundary; cbn [spec_session_op log_committed log_pending].
  - rewrite take_app_le, drop_app_le, length_app, bytes_of_app, bytes_of_one by done.
    rewrite firstn_all, drop_all.
    split; [exact Ha|]. split_and!; try done; [lia| |].
    + by rewrite <-Htake, <-Hdrop, app_assoc, take_drop.
    + intros Hgm. split; [by apply Hacc|]. eapply refines_iff; [|by apply Hgt].
      intros u t x. rewrite gtids_of_app, gtids_of_one. naive_solver.
  - rewrite (take_app_le (st_event_buffer s)), (drop_app_le (st_event_buffer s)) by done.
    rewrite length_app. split; [exact Ha|].
    split_and!; try done; [lia|by rewrite Hdrop|].
    intros Hgm. split; [by apply Hacc|]. eapply refines_iff; [|by apply Hgt]. naive_solver.
Qed.

Lemma discard_holds s n base A0 l :
  holds_log s n base A0 l →
  holds_log (set_event_buffer (take (st_boundary_position s) (st_event_buffer s)) s) n base A0
    (mk_log (log_committed l) []).
Proof.
  intros (Hmode & r & c & k & Ha & Hn & Hk & Hc & Hb & Htake & Hdrop & Hrest).
  split; [done|]. exists r, c, k. cbn [st_event_buffer st_boundary_position set_event_buffer log_committed log_pending].
  rewrite take_take, Nat.min_id, length_take_le by done.
  split; [exact Ha|]. split_and!; try done; [|apply Hrest..].
  apply skipn_all2. by rewrite length_take_le.
Qed.

Lemma streaming_ok s : st_construction_mode s = streaming → ensure_streaming_mode s = (s, Ok ()).
Proof. intros Hm. unfold ensure_streaming_mode, mbind, action_bind, gets. by rewrite Hm. Qed.

(** one operation: it succeeds and the storage holds the new log, or it throws and the
    file is still a prefix of the completed transactions *)
Definition step_ok s' (x : result unit) n base A0 l : Prop :=
  match x with
  | Ok _ => holds_log s' n base A0 l
  | Err _ => prefix_on_disk s' n base l
  end.

Lemma committed_grows o l : log_committed l `prefix_of` log_committed (spec_session_op o l).
Proof. destruct o as [? ? [] ? ? ?| |]; cbn; [by apply prefix_app_r | done..]. Qed.

Lemma committed_grows_session ops l :
  log_committed l `prefix_of` log_committed (spec_session ops l).
Proof.
  revert l. induction ops as [|o ops IH]; intros l; [done|]. cbn.
  etransitivity; [apply committed_grows | apply IH].
Qed.

Lemma prefix_bytes base txs txs' c :
  txs `prefix_of` txs' → c `prefix_of` base ++ bytes_of txs → c `prefix_of` base ++ bytes_of txs'.
Proof.
  intros [more ->] Hc. etransitivity; [exact Hc|]. apply prefix_app. rewrite bytes_of_app.
  by apply prefix_app_r.
Qed.

Lemma flush_step s s' x n base A0 l :
  flush_event_buffer_internal s = (s', x) → holds_log s n base A0 l → step_ok s' x n base A0 l.
Proof. destruct x as [[]|e]; [apply flush_holds | apply flush_fails_prefix]. Qed.

Lemma write_step s s' x now data boundary g ts q n base A0 l :
  write_event now data boundary g ts q s = (s', x) →
  (gtid_is_empty g = true ∨ min_gno ≤ gtid_gno g ≤ max_gno) →
  holds_log s n base A0 l →
  step_ok s' x n base A0 (spec_session_op (op_write now data boundary g ts q) l).
Proof.
  intros Hw Hg Hl. pose proof Hl as [Hmode _]. unfold write_event in Hw.
  rewrite (action_bind_eq _ _ _ _ _ (streaming_ok _ Hmode)) in Hw.
  destruct (buffer_event data boundary g ts q s) as [s1 x1] eqn:Hb.
  destruct (write_holds s s1 now data boundary g ts q n base A0 l x1 Hb Hg Hl) as [-> Hl1].
  rewrite (action_bind_eq _ _ _ _ _ Hb), gets_bind in Hw.
  destruct (has_event_data_to_flush s1); [|by injection Hw as <- <-].
  rewrite !gets_bind in Hw. destruct (needs_flush now s1); [|by injection Hw as <- <-].
  destruct (flush_event_buffer_internal s1) as [s2 x2] eqn:Hf.
  pose proof (flush_step _ _ _ _ _ _ _ Hf Hl1) as Hst.
  unfold mbind, action_bind in Hw. rewrite Hf in Hw.
  destruct x2; cbn in Hw; by injection Hw as <- <-.
Qed.

Lemma session_op_step o s s' x n base A0 l :
  run_session_op o s = (s', x) → session_op_ok o →
  holds_log s n base A0 l →
  step_ok s' x n base A0 (spec_session_op o l).
Proof.
  intros Hr Ho Hl. pose proof Hl as [Hmode _]. destruct o as [now data boundary g ts q| |]; cbn [run_session_op] in Hr.
  - by eapply write_step.
  - unfold flush_event_buffer in Hr.
    rewrite (action_bind_eq _ _ _ _ _ (streaming_ok _ Hmode)), gets_bind in Hr.
    destruct (has_event_data_to_flush s); [by eapply flush_step | by injection Hr as <- <-].
  - unfold discard_incomplete_transaction_events in Hr.
    rewrite (action_bind_eq _ _ _ _ _ (streaming_ok _ Hmode)), !modify_bind in Hr.
    injection Hr as <- <-. by apply discard_holds.
Qed.

(** C5: the storage refines the abstract log.  Whatever sequence of [write_event]s (with
    automatic checkpoints at any moment), [flush_event_buffer]s and
    [discard_incomplete_transaction_events] runs on an open binlog: as long as nothing
    throws, the file is its initial content followed by whole transactions, in order; the
    completed transactions that are not in the file, and the incomplete one, are in the
    buffer; the recorded size and the metadata file describe exactly what is in the file,
    and the recorded GTIDs are those of the transactions in it.  When an operation throws,
    the file still is a prefix of the initial content and the completed transactions: a
    byte of an incomplete transaction never reaches it. *)
Theorem storage_refines_log ops s s' x n base A0 l :
  run_session ops s = (s', x) → Forall session_op_ok ops → holds_log s n base A0 l →
  match x with
  | Ok _ => holds_log s' n base A0 (spec_session ops l)
  | Err _ => prefix_on_disk s' n base (spec_session ops l)
  end.
Proof.
  intros Hr Hops. revert s l Hr. induction Hops as [|o ops Ho Hops IH]; intros s l Hr Hl.
  { by injection Hr as <- <-. }
  unfold run_session in Hr. cbn [for_each] in Hr.
  destruct (run_session_op o s) as [s1 x1] eqn:E.
  pose proof (session_op_step _ _ _ _ _ _ _ _ E Ho Hl) as Hst.
  destruct x1 as [[]|e].
  - rewrite (action_bind_eq _ _ _ _ _ E) in Hr. by apply (IH s1).
  - unfold mbind, action_bind in Hr. rewrite E in Hr. injection Hr as <- <-.
    destruct Hst as (c & Hc & Hp). exists c. split; [done|].
    eapply prefix_bytes; [apply (committed_grows_session ops) | done].
Qed.

Lemma flush_empties s s' n base A0 l :
  flush_event_buffer s = (s', Ok ()) → holds_log s n base A0 l →
  holds_log s' n base A0 l ∧ st_boundary_position s' = 0%nat ∧
  is_in_gtid_replication_mode s' = is_in_gtid_replication_mode s.
Proof.
  intros Hf Hl. pose proof Hl as (Hmode & r & c & k & Ha & _). unfold flush_event_buffer in Hf.
  rewrite (action_bind_eq _ _ _ _ _ (streaming_ok _ Hmode)), gets_bind in Hf.
  destruct (has_event_data_to_flush s) eqn:Ed.
  - split; [by eapply flush_holds|].
    destruct (flush_internal_inv _ _ _ _ _ Hf Ha) as (bb & -> & _).
    destruct (flushed_state_members bb s) as (_ & _ & _ & Hm & Hb & _). done.
  - injection Hf as <-. split; [done|]. unfold has_event_data_to_flush in Ed. by to_prop.
Qed.

Lemma bytes_of_nil txs : Forall (λ tx, tx.1 ≠ []) txs → bytes_of txs = [] → txs = [].
Proof.
  destruct 1 as [|[d g] txs Hd _]; [done|]. intros [Hb _]%app_nil. done.
Qed.

Lemma checkpoint_info_members now s s' x :
  update_last_checkpoint_info now s = (s', x) →
  x = Ok () ∧ st_backend s' = st_backend s ∧ st_records s' = st_records s ∧
  st_event_buffer s' = st_event_buffer s.
Proof.
  unfold update_last_checkpoint_info. rewrite modify_bind. unfold modify. intros [= <- <-].
  repeat case_match; done.
Qed.

Lemma close_stream_inv s s' x n :
  on_backend close_stream s = (s', x) → is_binlog_open s = true → strm s = Some n →
  x = Ok () ∧ ∃ bb, s' = set_backend bb s ∧ bb_stream_open bb = false ∧ objects_in bb = disk s ∧
    durable (bb_impl bb) = disk s ∧ stream_in bb = None.
Proof.
  intros (bb & Hc & ->)%on_backend_inv Hopen Hs. unfold close_stream in Hc.
  rewrite gets_bind in Hc. unfold is_binlog_open in Hopen. rewrite Hopen in Hc.
  unfold mbind, action_bind in Hc. cbn in Hc.
  destruct (virtually do_close_stream (st_backend s)) as [b2 x2] eqn:E.
  apply virtually_inv in E as [E _]. destruct (close_law _ _ _ E) as (-> & Ho & Hdur & Hst); [by rewrite Hs|].
  cbn in Hc. injection Hc as <- <-. split; [done|]. by eexists.
Qed.

(** C22: closing a binlog leaves every completed transaction in its file, and the metadata
    file with the size of the file and the GTIDs of its transactions, however the
    checkpoints fell before; an incomplete transaction is dropped. *)
Theorem close_binlog_complete now s s' n base A0 l :
  close_binlog now s = (s', Ok ()) → holds_log s n base A0 l →
  Forall (λ tx, tx.1 ≠ []) (log_committed l) →
  is_binlog_open s' = false ∧ st_event_buffer s' = [] ∧
  disk s' !! binlog_name_str n = Some (base ++ bytes_of (log_committed l)) ∧
  ∃ r, last (st_records s') = Some r ∧ br_name r = n ∧
    br_size r = u64 (Z.of_nat (length (base ++ bytes_of (log_committed l)))) ∧
    disk s' !! generate_binlog_metadata_name n = Some (binlog_metadata_str (metadata_of_record r)) ∧
    (is_in_gtid_replication_mode s = true → ∃ A, br_added_gtids r = Some A ∧
       refines A (λ u t x, A0 u t x ∨ gtids_of (log_committed l) u t x)).
Proof.
  intros Hcl Hl Hne. pose proof Hl as [Hmode _]. unfold close_binlog in Hcl.
  rewrite (action_bind_eq _ _ _ _ _ (streaming_ok _ Hmode)) in Hcl.
  apply action_bind_ok in Hcl as (s1 & [] & Hf & Hcl).
  destruct (flush_empties _ _ _ _ _ _ Hf Hl) as ((_ & r & c & k & Ha & Hn & Hk & Hc & _ & Htake & _ & Hsize & Hmeta & Hacc) & Hb & Hm).
  rewrite modify_bind in Hcl. apply action_bind_ok in Hcl as (s2 & [] & Hclose & Hcl).
  pose proof Ha as ([_ Heq] & Hopen & Hlast & Hnok & Hs & Hobj).
  destruct (close_stream_inv _ _ _ _ Hclose Hopen Hs) as (_ & bb & -> & Hbb & Ho & Hdur & _).
  apply checkpoint_info_members in Hcl as (_ & Hbk & Hrec & Hbuf).
  rewrite Hb in Htake. symmetry in Htake.
  assert (drop k (log_committed l) = []) as Hd.
  { apply bytes_of_nil; [by apply Forall_drop | done]. }
  assert (take k (log_committed l) = log_committed l) as Ht.
  { rewrite <-(take_drop k (log_committed l)) at 2. by rewrite Hd, app_nil_r. }
  rewrite Ht in Hc. unfold is_binlog_open. rewrite Hbk, Hrec, Hbuf. cbn in Hdur |- *. rewrite Hdur, Heq. subst n.
  rewrite <-Hc. split_and!; [done|done|done|]. exists r. split_and!; [done..|].
  intros Hgm. rewrite <-Hm in Hgm. destruct (Hacc Hgm) as [(A & HA & Hr) _]. exists A.
  split; [done|]. by rewrite Ht in Hr.
Qed.

(** C39: a flush whose data have reached the file, or the temporary file of an S3 stream, but
    which fails after that (the metadata could not be saved, or the upload failed), is not
    undone, and the data stay in the buffer: the next flush, such as the one of the
    destructor, appends the same transactions a second time, while the recorded size grows
    by their length only once more. *)
Theorem flush_retry_duplicates s s1 s2 e r c :
  let n := binlog_name_str (br_name r) in
  let data := take (st_boundary_position s) (st_event_buffer s) in
  st_construction_mode s = streaming → has_event_data_to_flush s = true → appending s r c →
  flush_event_buffer s = (s1, Err e) → objs s1 !! n = Some (c ++ data) →
  intact (bb_impl (st_backend s1)) →
  flush_event_buffer s1 = (s2, Ok ()) →
  disk s2 !! n = Some (c ++ data ++ data) ∧
  ∃ r1 r2, last (st_records s1) = Some r1 ∧ last (st_records s2) = Some r2 ∧
    br_size r2 = u64 (br_size r1 + Z.of_nat (st_boundary_position s)).
Proof.
  intros n data Hmode Hd Ha Hf Hobj Hint Hf2. unfold flush_event_buffer in Hf, Hf2.
  rewrite (action_bind_eq _ _ _ _ _ (streaming_ok _ Hmode)), gets_bind, Hd in Hf.
  destruct (flush_internal_inv _ _ _ _ _ Hf Ha) as (d & r1 & _ & Ha1 & Hr1 & _ & Hbuf & Hb & Hm1).
  rewrite <-Hm1 in Hmode. unfold has_event_data_to_flush in Hd. rewrite <-Hb in Hd.
  rewrite (action_bind_eq _ _ _ _ _ (streaming_ok _ Hmode)), gets_bind in Hf2.
  unfold has_event_data_to_flush in Hf2. rewrite Hd in Hf2.
  assert (c ++ d = c ++ data) as Hcd.
  { destruct Ha1 as (_ & _ & _ & _ & Hc1). rewrite Hr1 in Hc1. fold n in Hc1. congruence. }
  rewrite Hcd in Ha1. pose proof Ha1 as (_ & Hl1 & Hn1 & _).
  destruct (flush_internal_intact _ _ _ _ _ Hf2 Hint Ha1) as (bb & -> & _ & _ & [_ Heq2] & Ho).
  destruct (flushed_state_members bb s1) as (Hbk & _ & Hrec & _).
  split.
  - rewrite Hbk, Heq2, Ho, Hbuf, Hb. subst n.
    rewrite <-Hr1. eapply (lookup_after_put r1 _ _ _ _ False); [done|by left|].
    rewrite lookup_insert_eq. by rewrite <-app_assoc.
  - exists r1. eexists. split; [done|]. rewrite Hrec. split; [by apply last_update_last|].
    cbn. by rewrite Hb.
Qed.

(** with size-based checkpointing, completed transactions do not pile up in the buffer: after
    a successful [write_event] either everything completed is in the file, or the position
    that could be flushed is still below the next checkpoint. *)
Theorem checkpoint_bounds_buffer now data boundary g ts q s s' r c :
  write_event now data boundary g ts q s = (s', Ok ()) → appending s r c →
  (gtid_is_empty g = true ∨ min_gno ≤ gtid_gno g ≤ max_gno) →
  (is_in_gtid_replication_mode s = true → wf (st_buffer_gtids s)) →
  size_checkpointing_enabled s' = true →
  0 ≤ st_last_checkpoint_position s' + st_checkpoint_size_bytes s' < 2 ^ 64 →
  has_event_data_to_flush s' = false ∨
  get_ready_to_flush_position s' < st_last_checkpoint_position s' + st_checkpoint_size_bytes s'.
Proof.
  intros Hw Ha Hg Hwf Hen Hov. unfold write_event in Hw.
  apply action_bind_ok in Hw as (s0 & [] & Hm & Hw).
  assert (s0 = s) as ->.
  { unfold ensure_streaming_mode in Hm. rewrite gets_bind in Hm. by apply throw_if_inv in Hm as [-> _]. }
  destruct (buffer_event_spec s data boundary g ts q (elem (st_buffer_gtids s)) Hg)
    as (s1 & Hb & Hbk & Hrec & _); [by intros ?; split; auto|].
  rewrite (action_bind_eq _ _ _ _ _ Hb), gets_bind in Hw.
  destruct (has_event_data_to_flush s1) eqn:Ed; [|left; by injection Hw as <-].
  rewrite !gets_bind in Hw. destruct (needs_flush now s1) eqn:En.
  - left. apply action_bind_ok in Hw as (s2 & [] & Hf & Hw). rewrite modify_bind in Hw. injection Hw as <-.
    assert (appending s1 r c) as Ha1.
    { unfold appending, positioned, is_binlog_open. by rewrite Hbk, Hrec. }
    destruct (flush_internal_inv _ _ _ _ _ Hf Ha1) as (bb & -> & _).
    destruct (flushed_state_members bb s1) as (_ & _ & _ & _ & Hb0 & _).
    unfold has_event_data_to_flush.
    cbn [st_boundary_position set_last_checkpoint_timestamp set_last_checkpoint_position]. by rewrite Hb0.
  - right. injection Hw as <-. unfold needs_flush in En. rewrite Hen in En. cbn [andb] in En.
    to_prop. rewrite wrap_small in * by done. done.
Qed.
End session.

Module LogExamples.
Import IntervalList UuidModel MetadataExamples BackendExamples.

Definition binlog_1 : composite_binlog_name := mk_binlog_name (text "binlog") 1.
Definition g7 : gtid := mk_gtid sample_uuid [] 7.
Definition no_gtids : triples := λ _ _ _, False.

(** a storage in GTID mode over an empty directory, with its first binlog open *)
Definition opened : storage :=
  match make_storage streaming (mk_basic_backend blank false) mode_gtid 0 0 with
  | Ok s => (open_binlog 0 binlog_1 s).1
  | Err _ => default_storage streaming (mk_basic_backend blank false) mode_gtid 0 0
  end.

Lemma no_gtids_refined : refines empty_set (λ u t x, no_gtids u t x ∨ gtids_of [] u t x).
Proof.
  split; [apply wf_empty|]. intros u t x. split.
  - by intros (c & ? & _).
  - intros [[]|(g & Hg & _)]. by apply not_elem_of_nil in Hg.
Qed.

(** the record [open_binlog] made of it *)
Definition opened_record : binlog_record :=
  mk_binlog_record binlog_1 4 (Some empty_set) (Some empty_set) (mk_range 0 0) 0.

Lemma binlog_1_ok : binlog_name_ok binlog_1.
Proof. apply (bool_decide_unpack _). by vm_compute. Qed.

Lemma opened_last : last (st_records opened) = Some opened_record.
Proof. by vm_compute. Qed.

Lemma opened_appending : appending opened opened_record magic_binlog_payload.
Proof.
  split; [apply filesystem_settled|]. split; [by vm_compute|]. split; [apply opened_last|]. split; [apply binlog_1_ok|].
  split; by vm_compute.
Qed.

Lemma opened_metadata : objs opened !! generate_binlog_metadata_name binlog_1 =
  Some (binlog_metadata_str (metadata_of_record opened_record)).
Proof. by vm_compute. Qed.

Lemma opened_holds : holds_log opened binlog_1 magic_binlog_payload no_gtids (mk_log [] []).
Proof.
  split; [by vm_compute|].
  exists opened_record, magic_binlog_payload, 0%nat. split; [apply opened_appending|]. split; [done|].
  split; [by vm_compute|]. split; [by vm_compute|]. split; [by vm_compute; lia|].
  split; [by vm_compute|]. split; [by vm_compute|]. split; [by vm_compute|].
  split; [apply opened_metadata|].
  intros _. split; [exists empty_set; split; [done | apply no_gtids_refined]|].
  assert (st_buffer_gtids opened = empty_set) as -> by (by vm_compute).
  eapply refines_iff; [|apply no_gtids_refined]. intros. unfold no_gtids. cbn [drop log_committed]. tauto.
Qed.

Definition session : list session_op :=
  [op_write 0 [1; 2] false empty_gtid 5 0; op_write 0 [3] true g7 6 1; op_flush;
   op_write 0 [9] false empty_gtid 7 0; op_discard].

Lemma session_ok : Forall session_op_ok session.
Proof.
  repeat first [apply Forall_nil_2 | apply Forall_cons_2]; cbn;
    first [exact I | left; by vm_compute | right; split; by vm_compute].
Qed.

Lemma storage_refines_log_witness :
  (run_session session opened).2 = Ok () ∧
  objs (run_session session opened).1 !! binlog_name_str binlog_1 = Some (magic_binlog_payload ++ [1; 2; 3]) ∧
  holds_log (run_session session opened).1 binlog_1 magic_binlog_payload no_gtids
    (mk_log [([1; 2; 3], g7)] []).
Proof.
  split; [by vm_compute|]. split; [by vm_compute|].
  apply (storage_refines_log session opened (run_session session opened).1 (Ok ())
    binlog_1 magic_binlog_payload no_gtids (mk_log [] [])); [|apply session_ok | apply opened_holds].
  apply action_result; [done | by vm_compute].
Defined.

Definition committed_7 : event_log := mk_log [([1; 2; 3], g7)] [].
Definition after_session : storage := (run_session (take 2 session) opened).1.

Lemma after_session_holds : holds_log after_session binlog_1 magic_binlog_payload no_gtids committed_7.
Proof.
  assert (Forall session_op_ok (take 2 session)) as Hops by (apply Forall_take, session_ok).
  pose proof opened_holds as Hl. unfold after_session, run_session. cbn [take session for_each] in *.
  apply Forall_cons in Hops as [Ho1 Hops]. apply Forall_cons in Hops as [Ho2 _].
  set (o1 := op_write 0 [1; 2] false empty_gtid 5 0) in *. set (o2 := op_write 0 [3] true g7 6 1) in *.
  destruct (run_session_op o1 opened) as [s1 x1] eqn:E1.
  assert (x1 = Ok ()) as -> by (change x1 with (s1, x1).2; rewrite <-E1; by vm_compute).
  rewrite (action_bind_eq _ _ _ _ _ E1).
  pose proof (session_op_step _ _ _ _ _ _ _ _ E1 Ho1 Hl) as Hl1.
  destruct (run_session_op o2 s1) as [s2 x2] eqn:E2.
  assert (x2 = Ok ()) as ->.
  { change s1 with (s1, Ok ()).1 in E2. rewrite <-E1 in E2. change x2 with (s2, x2).2. rewrite <-E2. by vm_compute. }
  rewrite (action_bind_eq _ _ _ _ _ E2). exact (session_op_step _ _ _ _ _ _ _ _ E2 Ho2 Hl1).
Qed.

(** closing the binlog of [after_session] flushes its one transaction *)
Definition closed_session : storage := (close_binlog 0 after_session).1.

Lemma close_binlog_complete_witness :
  st_event_buffer after_session = [1; 2; 3] ∧
  disk closed_session !! binlog_name_str binlog_1 = Some (magic_binlog_payload ++ [1; 2; 3]) ∧
  is_binlog_open closed_session = false.
Proof.
  split; [by vm_compute|].
  assert (close_binlog 0 after_session = (closed_session, Ok ())) as Hc
    by (run_action).
  destruct (close_binlog_complete 0 after_session closed_session binlog_1 magic_binlog_payload no_gtids
    committed_7 Hc after_session_holds) as (Ho & _ & Hf & _); [by repeat constructor|].
  by split.
Defined.

(** the backend of [after_session] on a disk that fails to create the temporary file of the
    metadata, after the transaction was written *)
Definition on_failing_disk : storage :=
  let b := bb_impl (st_backend after_session) in
  set_backend (mk_basic_backend (mk_filesystem (fs_dir b) (fs_irregular b) (fs_ofs b) [None; None; Some 0%nat])
                 (bb_stream_open (st_backend after_session))) after_session.
Definition after_failed_flush : storage := (flush_event_buffer on_failing_disk).1.
Definition after_retry : storage := (flush_event_buffer after_failed_flush).1.

Lemma on_failing_disk_appending : appending on_failing_disk opened_record magic_binlog_payload.
Proof.
  split; [apply filesystem_settled|]. split; [by vm_compute|]. split; [by vm_compute|]. split; [apply binlog_1_ok|]. split; by vm_compute.
Qed.

Lemma flush_retry_duplicates_witness :
  disk after_retry !! binlog_name_str binlog_1 = Some (magic_binlog_payload ++ [1; 2; 3] ++ [1; 2; 3]).
Proof.
  assert (flush_event_buffer on_failing_disk = (after_failed_flush,
    Err (runtime_error "cannot open underlying tmp object file for writing"))) as E1
    by (run_action).
  assert (flush_event_buffer after_failed_flush = (after_retry, Ok ())) as E2
    by (run_action).
  refine (proj1 (flush_retry_duplicates on_failing_disk after_failed_flush after_retry _ opened_record
    magic_binlog_payload _ _ _ E1 _ _ E2));
    [by vm_compute|by vm_compute|apply on_failing_disk_appending|by vm_compute|exact I].
Defined.

(** the same storage with a checkpoint every 10 bytes *)
Definition opened_10 : storage :=
  match make_storage streaming (mk_basic_backend blank false) mode_gtid 10 0 with
  | Ok s => (open_binlog 0 binlog_1 s).1
  | Err _ => default_storage streaming (mk_basic_backend blank false) mode_gtid 10 0
  end.
Definition buffered_10 : storage := (write_event 0 [1; 2; 3] true g7 5 1 opened_10).1.

Lemma opened_10_appending : appending opened_10 opened_record magic_binlog_payload.
Proof.
  split; [apply filesystem_settled|].
  split; [by vm_compute|]. split; [by vm_compute|]. split; [apply binlog_1_ok|]. split; by vm_compute.
Qed.

Lemma checkpoint_bounds_buffer_witness :
  has_event_data_to_flush buffered_10 = true ∧
  (has_event_data_to_flush buffered_10 = false ∨
   get_ready_to_flush_position buffered_10 <
     st_last_checkpoint_position buffered_10 + st_checkpoint_size_bytes buffered_10).
Proof.
  split; [by vm_compute|].
  assert (write_event 0 [1; 2; 3] true g7 5 1 opened_10 = (buffered_10, Ok ())) as E1
    by (run_action).
  apply (checkpoint_bounds_buffer 0 [1; 2; 3] true g7 5 1 opened_10 buffered_10 opened_record magic_binlog_payload);
    [exact E1|apply opened_10_appending|right; split; by vm_compute| |by vm_compute|split; by vm_compute].
  intros _. assert (st_buffer_gtids opened_10 = empty_set) as -> by (by vm_compute). apply wf_empty.
Defined.
End LogExamples.
