(* ===== verification/StorageDisk.v ===== *)
(** * The storage on disk

    Theorems about what [storage] (Storage.v) keeps in its backend: the objects that
    describe a list of records, that a restart loads exactly these records, and that every
    operation that succeeds preserves this. *)

From stdpp Require Import gmap.
From S2P Require Import Prelude OrderedMap IntervalSet Gtid GtidSet GtidSetText Util Protocol.
From S2P Require Import ReaderContext Backend Metadata Storage StorageLog.

Local Open Scope Z_scope.

(** ** The storage on disk *)
Section on_disk.
Context `{StorageBackendLaws B} `{IntervalSetLaws} `{BoostUuidLaws} `{BoostPosixTimeLaws} `{BoostJsonLaws}.
Implicit Types (s : storage (B := B)) (r : binlog_record) (records : list binlog_record).

(** what a record must be like to survive a restart *)
Definition record_ok (gtid_mode : bool) r : Prop :=
  binlog_name_ok (br_name r) ∧ 10 ∉ bn_base_name (br_name r) ∧
  metadata_ok (metadata_of_record r) ∧
  (min_timestamp (br_timestamps r) = 0 ↔ max_timestamp (br_timestamps r) = 0) ∧
  (if gtid_mode then br_previous_gtids r ≠ None ∧ br_added_gtids r ≠ None
   else br_previous_gtids r = None ∧ br_added_gtids r = None).

Lemma record_of_metadata_of m r : record_ok m r → record_of_metadata (br_name r) (metadata_of_record r) = r.
Proof.
  intros (_ & _ & _ & Hts & _). destruct r as [n sz p a [mn mx] q]. cbn in *.
  unfold record_of_metadata, make_range, is_epoch. cbn.
  destruct (mn =? 0) eqn:E1, (mx =? 0) eqn:E2; cbn; rewrite ?E1, ?E2; cbn; try done; to_prop; lia.
Qed.

(** *** Reading the index back *)
Lemma binlog_name_str_no_separator r c :
  binlog_name_ok (br_name r) → c ∉ bn_base_name (br_name r) → c ≠ 46 → isdigit c = false →
  c ∉ binlog_name_str (br_name r).
Proof.
  intros (_ & _ & Hq) Hb Hc Hd. destruct (padded_spec (bn_sequence_number (br_name r)) ltac:(lia)) as (_ & Hp & _).
  rewrite binlog_name_str_padded. apply not_elem_of_app. split; [done|].
  apply not_elem_of_cons. split; [done|]. by apply (digits_not_in c _ Hp).
Qed.

Definition index_line r : list Z :=
  default_binlog_index_entry_path ++ preferred_separator :: binlog_name_str (br_name r).

Lemma index_lines m records :
  Forall (record_ok m) records →
  split_parts 10 (index_content records) = (index_line <$> records) ++ [[]].
Proof.
  induction 1 as [|r records (Hn & Hnl & _) _ IH]; [done|].
  change (index_content (r :: records)) with (index_entry r ++ index_content records).
  assert (index_entry r = index_line r ++ [10]) as ->.
  { unfold index_entry, index_line. by rewrite <-!app_assoc. }
  rewrite <-app_assoc. cbn [app].
  rewrite split_parts_app; [by rewrite IH|].
  unfold index_line. apply not_elem_of_app. split; [by apply (bool_decide_unpack _); vm_compute|].
  apply not_elem_of_cons. split; [done|]. by apply binlog_name_str_no_separator.
Qed.

Lemma index_line_path r :
  binlog_name_ok (br_name r) →
  parent_path (index_line r) = default_binlog_index_entry_path ∧
  filename (index_line r) = binlog_name_str (br_name r).
Proof.
  intros Hn. unfold parent_path, filename, index_line. rewrite rindex_app.
  - split; [by rewrite take_app_length|].
    rewrite cons_middle, app_assoc. apply (drop_app_length' (_ ++ [_])). done.
  - pose proof Hn as (_ & Hs & _). by apply binlog_name_str_no_separator.
Qed.

(** the record [load_binlog_index] makes of an entry *)
Definition stub (m : bool) r : binlog_record :=
  let gtids := if m then Some empty_set else None in
  mk_binlog_record (br_name r) 0 gtids gtids empty_range 0.

Lemma load_index_lines m s loaded records :
  is_in_gtid_replication_mode s = m → Forall (record_ok m) records →
  NoDup (br_name <$> (loaded ++ records)) → st_records s = stub m <$> loaded →
  for_each load_index_line (index_line <$> records) s =
    (set_records (stub m <$> (loaded ++ records)) s, Ok ()).
Proof.
  intros Hm Hrec. revert s loaded Hm. induction Hrec as [|r records Hr Hrec IH]; intros s loaded Hm Hnd Hs.
  { rewrite app_nil_r, <-Hs. by destruct s. }
  pose proof Hr as (Hn & _). destruct (index_line_path r Hn) as [Hp Hf].
  assert (load_index_line (index_line r) s = (set_records (stub m <$> (loaded ++ [r])) s, Ok ())) as Hl.
  { unfold load_index_line. rewrite bool_decide_false by done. rewrite Hp, Hf.
    rewrite (bool_decide_true (default_binlog_index_entry_path = _)) by done. cbn [negb throw_if].
    rewrite (bool_decide_false (_ = default_binlog_index_name)).
    2: { apply binlog_name_str_ne; [done|]. left. by vm_compute. }
    cbn [throw_if]. rewrite binlog_name_parse_str by done.
    rewrite (action_bind_eq (mret ()) _ s s ()), (action_bind_eq (mret ()) _ s s ()) by done.
    rewrite (action_bind_eq (of_result (Ok (br_name r))) _ s s (br_name r)) by done.
    rewrite gets_bind, Hs, (bool_decide_false (_ ∈ _)).
    - cbn [throw_if]. rewrite (action_bind_eq (mret ()) _ s s ()), gets_bind, Hm by done.
      by rewrite fmap_app.
    - intros Hin. rewrite fmap_app, NoDup_app in Hnd. destruct Hnd as (_ & Hnd & _).
      rewrite <-list_fmap_compose in Hin. apply (Hnd (br_name r)); [done|]. left. }
  rewrite fmap_cons. cbn [for_each]. rewrite (action_bind_eq _ _ _ _ _ Hl), (IH _ (loaded ++ [r])).
  - by rewrite <-app_assoc.
  - done.
  - by rewrite <-app_assoc.
  - done.
Qed.

(** *** What is on disk *)
Definition loadable (c : list Z) : Prop := Z.of_nat (length c) ≤ max_memory_object_size.
Definition stored (O : gmap (list Z) (list Z)) r : Prop :=
  O !! generate_binlog_metadata_name (br_name r) = Some (binlog_metadata_str (metadata_of_record r)) ∧
  ∃ c, O !! binlog_name_str (br_name r) = Some c ∧ br_size r = Z.of_nat (length c).
Definition listed (records : list binlog_record) (k : object_name) : Prop :=
  ∃ r, r ∈ records ∧ (k = binlog_name_str (br_name r) ∨ k = generate_binlog_metadata_name (br_name r)).

(** The objects are the storage metadata, the index, and for every record the file and its
    metadata, with the contents the records describe; there is no other object. *)
Definition on_disk (mode : replication_mode_type) (records : list binlog_record)
    (O : gmap (list Z) (list Z)) : Prop :=
  NoDup (br_name <$> records) ∧ Forall (record_ok (bool_decide (mode = mode_gtid))) records ∧
  Forall (stored O) records ∧
  O !! metadata_name = Some (storage_metadata_str (mk_storage_metadata expected_storage_metadata_version mode)) ∧
  O !! default_binlog_index_name = (if decide (records = []) then None else Some (index_content records)) ∧
  (∀ k, is_Some (O !! k) → k = metadata_name ∨ k = default_binlog_index_name ∨ listed records k).

(** the objects a restart loads into memory are small enough *)
Definition all_loadable (mode : replication_mode_type) (records : list binlog_record) : Prop :=
  loadable (storage_metadata_str (mk_storage_metadata expected_storage_metadata_version mode)) ∧
  loadable (index_content records) ∧
  Forall (λ r, loadable (binlog_metadata_str (metadata_of_record r))) records.

(** a backend with the same objects and the same stream: what a read leaves *)
Definition same_view (bb' bb : basic_storage_backend B) : Prop :=
  undisturbed (bb_impl bb) (bb_impl bb') ∧ bb_stream_open bb' = bb_stream_open bb.

#[local] Instance same_view_preorder : PreOrder same_view.
Proof.
  unfold same_view, undisturbed. split; [intros x; by split_and!|].
  intros x y z [(-> & -> & -> & Hi) ->] [(-> & -> & -> & Hj) ->]. by split_and!; auto.
Qed.

Lemma get_ok n c s :
  reliable (bb_impl (st_backend s)) → name_ok n → disk s !! n = Some c → loadable c →
  ∃ bb, on_backend (get_object n) s = (set_backend bb s, Ok c) ∧ reliable (bb_impl bb) ∧
        same_view bb (st_backend s).
Proof.
  intros Hr Hn Hc Hl. destruct (get_reliable _ _ _ Hr Hn Hc Hl) as (b & Hg & Hr').
  exists (set_impl b (st_backend s)). unfold on_backend, get_object, virtually, on_member.
  rewrite Hg. split; [done|]. split; [done|]. by apply get_law in Hg as [? _].
Qed.

Lemma validate_record_ok s r :
  record_ok (is_in_gtid_replication_mode s) r → validate_binlog_metadata r s = (s, Ok ()).
Proof.
  intros (_ & _ & _ & _ & Hm). unfold validate_binlog_metadata. rewrite gets_bind.
  unfold mbind, action_bind, throw_if.
  destruct (is_in_gtid_replication_mode s); destruct Hm as [Hp Ha].
  - by rewrite !bool_decide_false.
  - by rewrite Hp, Ha.
Qed.

Lemma load_records names metas s records :
  let m := is_in_gtid_replication_mode s in
  reliable (bb_impl (st_backend s)) → Forall (record_ok m) records → Forall (stored (disk s)) records →
  Forall (λ r, loadable (binlog_metadata_str (metadata_of_record r))) records →
  (∀ r, r ∈ records → is_Some (metas !! generate_binlog_metadata_name (br_name r)) ∧
                      names !! binlog_name_str (br_name r) = Some (br_size r)) →
  ∃ bb, load_record_set names metas (stub m <$> records) s = (set_backend bb s, Ok records) ∧
        same_view bb (st_backend s).
Proof.
  intros m Hrel Hok Hst Hld. subst m. revert s Hrel Hok Hst.
  induction Hld as [|r records Hl Hld IH]; intros s Hrel Hok Hst Hnames.
  { exists (st_backend s). split; [by destruct s | done]. }
  apply Forall_cons in Hok as [Hr Hok]. apply Forall_cons in Hst as [[Hmeta _] Hst].
  pose proof Hr as (Hn & _ & Hmok & _ & Hmode).
  destruct (Hnames r ltac:(left)) as [[z Hz] Hsz].
  destruct (get_ok _ _ _ Hrel (metadata_name_ok _ Hn) Hmeta Hl) as (bb & Hg & Hrel' & Hview).
  pose proof Hview as [(_ & Hobj & _) _].
  assert (try_catch (load_listed_metadata metas (br_name r)) s = (set_backend bb s, Ok (inl r))) as Hload.
  { unfold try_catch, load_listed_metadata, load_binlog_metadata. rewrite Hz.
    rewrite bool_decide_false by done. unfold mbind, action_bind. cbn. rewrite Hg.
    unfold of_result. rewrite parse_binlog_metadata_str by done. cbn.
    by rewrite (record_of_metadata_of _ _ Hr). }
  destruct (IH (set_backend bb s)) as (bb2 & Hrest & Hview2).
  { done. } { done. } { cbn. by rewrite Hobj. } { intros r' Hr'. apply Hnames. by right. }
  exists bb2. split; [|by etrans].
  rewrite fmap_cons. cbn [load_record_set]. rewrite (action_bind_eq _ _ _ _ _ Hload), gets_bind.
  rewrite (action_bind_eq _ _ _ _ _ (validate_record_ok (set_backend bb s) r Hr)).
  change (br_name (stub (is_in_gtid_replication_mode s) r)) with (br_name r).
  rewrite Hsz, Z.eqb_refl. rewrite (action_bind_eq _ _ _ (set_backend bb s) ()) by (by case_bool_decide).
  by rewrite (action_bind_eq _ _ _ _ _ Hrest).
Qed.

(** *** How the constructor sorts the objects it finds *)
Definition data_objects (O : gmap (list Z) (list Z)) : object_container :=
  filter (λ p, ¬ path_extension p.1 = binlog_metadata_extension)
    (delete default_binlog_index_name (delete metadata_name (sizes O))).
Definition metadata_objects (O : gmap (list Z) (list Z)) : object_container :=
  filter (λ p, path_extension p.1 = binlog_metadata_extension)
    (delete default_binlog_index_name (delete metadata_name (sizes O))).

Lemma size_by_names {A} (m : gmap (list Z) A) names :
  NoDup names → (∀ k, is_Some (m !! k) ↔ k ∈ names) → size m = length names.
Proof.
  intros Hnd Hm. rewrite <-size_dom, <-(size_list_to_set (C := gset (list Z)) names Hnd).
  f_equal. apply leibniz_equiv. intros k. by rewrite elem_of_dom, elem_of_list_to_set.
Qed.

Lemma object_names_nodup (f : composite_binlog_name → object_name) records :
  NoDup (br_name <$> records) → (∀ r, r ∈ records → binlog_name_ok (br_name r)) →
  (∀ n1 n2, binlog_name_ok n1 → binlog_name_ok n2 → f n1 = f n2 → n1 = n2) →
  NoDup ((λ r, f (br_name r)) <$> records).
Proof.
  intros Hnd Hok Hf.
  change ((λ r, f (br_name r)) <$> records) with ((f ∘ br_name) <$> records).
  rewrite list_fmap_compose. apply NoDup_fmap_2_strong; [|done].
  intros n1 n2 (r1 & -> & Hr1)%list_elem_of_fmap (r2 & -> & Hr2)%list_elem_of_fmap. auto.
Qed.

Lemma listing_lookup O k :
  k ≠ metadata_name → k ≠ default_binlog_index_name →
  delete default_binlog_index_name (delete metadata_name (sizes O)) !! k = sizes O !! k.
Proof. intros. by rewrite !lookup_delete_ne. Qed.

Lemma data_name_apart r :
  binlog_name_ok (br_name r) →
  let k := binlog_name_str (br_name r) in
  k ≠ metadata_name ∧ k ≠ default_binlog_index_name ∧ path_extension k ≠ binlog_metadata_extension.
Proof.
  intros Hn k. split_and!.
  - apply binlog_name_str_ne; [done|]. right. by vm_compute.
  - apply binlog_name_str_ne; [done|]. left. by vm_compute.
  - intros Hx. by apply binlog_extension_digit in Hx.
Qed.
Lemma metadata_object_apart r :
  binlog_name_ok (br_name r) →
  let k := generate_binlog_metadata_name (br_name r) in
  k ≠ metadata_name ∧ k ≠ default_binlog_index_name ∧ path_extension k = binlog_metadata_extension.
Proof.
  intros Hn k. pose proof (metadata_name_extension _ Hn) as Hx. split_and!; [apply metadata_name_ne| |done].
  intros Heq. subst k. rewrite Heq in Hx. by vm_compute in Hx.
Qed.

Lemma data_objects_spec mode records O :
  on_disk mode records O →
  (∀ r, r ∈ records → data_objects O !! binlog_name_str (br_name r) = Some (br_size r)) ∧
  size (data_objects O) = length records.
Proof.
  intros (Hnd & Hok & Hst & _ & _ & Hall). rewrite Forall_forall in Hok, Hst.
  assert (∀ r, r ∈ records → data_objects O !! binlog_name_str (br_name r) = Some (br_size r)) as Hin.
  { intros r Hr. destruct (Hok r Hr) as (Hn & _), (Hst r Hr) as (_ & c & Hc & Hsz).
    destruct (data_name_apart r Hn) as (H1' & H2' & H3'). apply map_lookup_filter_Some.
    split; [|done]. rewrite listing_lookup by done. unfold sizes. by rewrite lookup_fmap, Hc, Hsz. }
  split; [done|]. rewrite <-(length_fmap (λ r, binlog_name_str (br_name r)) records).
  apply size_by_names.
  - apply object_names_nodup; [done| |apply binlog_name_str_inj]. intros r Hr. apply (Hok r Hr).
  - intros k. rewrite list_elem_of_fmap. split.
    + intros [z Hz]. apply map_lookup_filter_Some in Hz as [Hz Hx]. cbn in Hx.
      apply lookup_delete_Some in Hz as [Hk1 Hz]. apply lookup_delete_Some in Hz as [Hk2 Hz].
      unfold sizes in Hz. rewrite lookup_fmap in Hz. apply fmap_Some in Hz as (c & Hc & _).
      destruct (Hall k ltac:(eauto)) as [?|[?|(r & Hr & [-> | ->])]]; [done|done|by exists r|].
      destruct (Hok r Hr) as [Hn _]. by destruct Hx; apply metadata_name_extension.
    + intros (r & -> & Hr). rewrite Hin; eauto.
Qed.

Lemma metadata_objects_spec mode records O :
  on_disk mode records O →
  (∀ r, r ∈ records → is_Some (metadata_objects O !! generate_binlog_metadata_name (br_name r))) ∧
  size (metadata_objects O) = length records.
Proof.
  intros (Hnd & Hok & Hst & _ & _ & Hall). rewrite Forall_forall in Hok, Hst.
  assert (∀ r, r ∈ records → is_Some (metadata_objects O !! generate_binlog_metadata_name (br_name r))) as Hin.
  { intros r Hr. destruct (Hok r Hr) as (Hn & _), (Hst r Hr) as (Hc & _).
    destruct (metadata_object_apart r Hn) as (H1' & H2' & H3'). eexists. apply map_lookup_filter_Some.
    split; [|done]. rewrite listing_lookup by done. unfold sizes. by rewrite lookup_fmap, Hc. }
  split; [done|]. rewrite <-(length_fmap (λ r, generate_binlog_metadata_name (br_name r)) records).
  apply size_by_names.
  - apply object_names_nodup; [done| |apply metadata_name_inj]. intros r Hr. apply (Hok r Hr).
  - intros k. rewrite list_elem_of_fmap. split.
    + intros [z Hz]. apply map_lookup_filter_Some in Hz as [Hz Hx]. cbn in Hx.
      apply lookup_delete_Some in Hz as [Hk1 Hz]. apply lookup_delete_Some in Hz as [Hk2 Hz].
      unfold sizes in Hz. rewrite lookup_fmap in Hz. apply fmap_Some in Hz as (c & Hc & _).
      destruct (Hall k ltac:(eauto)) as [?|[?|(r & Hr & [-> | ->])]]; [done|done| |by exists r].
      destruct (Hok r Hr) as [Hn _]. by destruct (data_name_apart r Hn) as (_ & _ & []).
    + intros (r & -> & Hr). eauto.
Qed.

(** *** Restart *)
Lemma list_ok s :
  reliable (bb_impl (st_backend s)) →
  ∃ bb, on_backend list_objects s = (set_backend bb s, Ok (sizes (disk s))) ∧
        reliable (bb_impl bb) ∧ same_view bb (st_backend s).
Proof.
  intros Hr. destruct (list_reliable _ Hr) as (b & Hl & Hr').
  exists (set_impl b (st_backend s)). unfold on_backend, list_objects, virtually, on_member.
  rewrite Hl. split; [done|]. split; [done|]. by apply list_law in Hl as [? _].
Qed.

Lemma load_metadata_ok mode s :
  let content := storage_metadata_str (mk_storage_metadata expected_storage_metadata_version mode) in
  reliable (bb_impl (st_backend s)) → disk s !! metadata_name = Some content → loadable content →
  st_replication_mode s = mode →
  ∃ bb, load_metadata s = (set_backend bb s, Ok ()) ∧ reliable (bb_impl bb) ∧ same_view bb (st_backend s).
Proof.
  intros content Hr Hm Hl Hmode.
  destruct (get_ok _ _ _ Hr storage_metadata_name_ok Hm Hl) as (bb & Hg & Hr' & Ho).
  exists bb. split; [|done]. unfold load_metadata. rewrite (action_bind_eq _ _ _ _ _ Hg).
  subst content. rewrite parse_storage_metadata_str. cbn. subst mode. by destruct s.
Qed.

Lemma load_index_ok mode s records :
  st_replication_mode s = mode → st_records s = [] → records ≠ [] →
  on_disk mode records (disk s) → reliable (bb_impl (st_backend s)) → loadable (index_content records) →
  ∃ bb, load_binlog_index s =
          (set_records (stub (is_in_gtid_replication_mode s) <$> records) (set_backend bb s), Ok ()) ∧
        reliable (bb_impl bb) ∧ same_view bb (st_backend s).
Proof.
  intros <- Hrec Hne (Hnd & Hok & _ & _ & Hidx & _) Hr Hl. rewrite decide_False in Hidx by done.
  destruct (get_ok _ _ _ Hr index_name_ok Hidx Hl) as (bb & Hg & Hr' & Ho).
  exists bb. split; [|done]. unfold load_binlog_index. rewrite (action_bind_eq _ _ _ _ _ Hg).
  rewrite (index_lines _ _ Hok), for_each_app.
  rewrite (action_bind_eq _ _ _ _ _ (load_index_lines (is_in_gtid_replication_mode s)
    (set_backend bb s) [] records eq_refl Hok Hnd Hrec)). done.
Qed.

Lemma validate_index_ok s mode records O :
  on_disk mode records O →
  st_records s = stub (is_in_gtid_replication_mode s) <$> records →
  validate_binlog_index (data_objects O) s = (s, Ok ()).
Proof.
  intros Hd Hrec. destruct (data_objects_spec _ _ _ Hd) as [Hin Hsz].
  unfold validate_binlog_index. rewrite gets_bind. case_bool_decide; [done|]. rewrite gets_bind.
  assert (existsb (λ r, bool_decide (data_objects O !! binlog_name_str (br_name r) = None)) (st_records s)
    = false) as ->.
  { apply not_true_is_false. intros (r & Hr & Hx)%existsb_exists. to_prop.
    rewrite <-list_elem_of_In, Hrec in Hr. apply list_elem_of_fmap in Hr as (r' & -> & Hr').
    cbn in Hx. by rewrite (Hin r' Hr') in Hx. }
  cbn [throw_if]. rewrite (action_bind_eq (mret ()) _ s s ()) by done.
  rewrite Hsz, Hrec, length_fmap, Nat.eqb_refl. done.
Qed.

(** [s] after the records have been loaded into it; [p] are its purged GTIDs *)
Definition loaded bb records (p : gtid_set) s : storage :=
  set_purged_gtids p (set_records records (set_backend bb s)).
Definition purged_from records (p : gtid_set) s : Prop :=
  p = st_purged_gtids s ∨ ∃ r, r ∈ records ∧ br_added_gtids r = Some p.

Lemma loaded_members bb records p s :
  st_records (loaded bb records p s) = records ∧ st_backend (loaded bb records p s) = bb.
Proof. done. Qed.

Lemma load_set_ok s mode records :
  on_disk mode records (disk s) → st_replication_mode s = mode → records ≠ [] →
  reliable (bb_impl (st_backend s)) → all_loadable mode records →
  st_records s = stub (is_in_gtid_replication_mode s) <$> records →
  ∃ bb p, load_and_validate_binlog_metadata_set (data_objects (disk s)) (metadata_objects (disk s)) s =
          (loaded bb records p s, Ok ()) ∧ same_view bb (st_backend s) ∧ purged_from records p s.
Proof.
  intros Hd Hmode Hne Hr (_ & _ & Hld) Hrec.
  pose proof Hd as (_ & Hok & Hst & _). rewrite <-Hmode in Hok.
  destruct (data_objects_spec _ _ _ Hd) as [Hin _], (metadata_objects_spec _ _ _ Hd) as [Hmin Hmsz].
  destruct (load_records (data_objects (disk s)) (metadata_objects (disk s)) s records)
    as (bb & Hl & Hview); [done..|by auto|].
  unfold load_and_validate_binlog_metadata_set. rewrite gets_bind, Hrec.
  rewrite (action_bind_eq _ _ _ _ _ Hl), modify_bind, gets_bind.
  set (s1 := set_records records (set_backend bb s)).
  rewrite Hmsz, Nat.eqb_refl. cbn [negb throw_if].
  rewrite (action_bind_eq _ _ s1 s1 ()) by (by destruct (bool_decide (_ = querying_only))).
  destruct records as [|front records]; [done|]. cbn [head].
  destruct (br_added_gtids front) as [p|] eqn:Ep.
  - exists bb, p. split; [done|]. split; [done|]. right. exists front. split; [left|done].
  - exists bb, (st_purged_gtids s). split; [done|]. split; [done|]. by left.
Qed.

Lemma load_files_ok s mode records :
  on_disk mode records (disk s) → st_replication_mode s = mode → records ≠ [] → st_records s = [] →
  reliable (bb_impl (st_backend s)) → all_loadable mode records →
  ∃ bb p, (load_binlog_index ≫= λ _, validate_binlog_index (data_objects (disk s)) ≫= λ _,
         load_and_validate_binlog_metadata_set (data_objects (disk s)) (metadata_objects (disk s))) s =
        (loaded bb records p s, Ok ()) ∧ same_view bb (st_backend s) ∧ purged_from records p s.
Proof.
  intros Hd Hmode Hne Hrec Hr Hld. pose proof Hld as (_ & Hl2 & _).
  destruct (load_index_ok mode s records) as (bb & Hli & Hr' & Hview); [done..|].
  pose proof Hview as [(_ & Ho & _) _]. rewrite (action_bind_eq _ _ _ _ _ Hli). set (s1 := set_records _ _).
  rewrite (action_bind_eq _ _ _ _ _ (validate_index_ok s1 mode records (disk s) Hd eq_refl)).
  destruct (load_set_ok s1 mode records) as (bb' & p & Hs & Hv & Hp); try done.
  { cbn. by rewrite Ho. }
  exists bb', p. cbn in Hs. rewrite Ho in Hs. split; [done|]. split; [by etrans|done].
Qed.

Lemma only_metadata mode O :
  on_disk mode [] O → delete metadata_name (sizes O) = ∅.
Proof.
  intros (_ & _ & _ & _ & Hidx & Hall). rewrite decide_True in Hidx by done. apply map_eq. intros k. rewrite lookup_empty.
  apply lookup_delete_None. destruct (decide (k = metadata_name)); [by left|right].
  unfold sizes. rewrite lookup_fmap. destruct (O !! k) as [c|] eqn:E; [|done].
  destruct (Hall k) as [?|[->|(r & Hr & _)]]; [by rewrite E|done|congruence|].
  by apply not_elem_of_nil in Hr.
Qed.

Lemma index_listed mode records O :
  on_disk mode records O → records ≠ [] →
  is_Some (delete metadata_name (sizes O) !! default_binlog_index_name).
Proof.
  intros (_ & _ & _ & _ & Hidx & _) Hne. rewrite decide_False in Hidx by done.
  rewrite lookup_delete_ne by done. unfold sizes. rewrite lookup_fmap, Hidx. by eexists.
Qed.

Lemma load_storage_ok cmode mode checkpoint_size checkpoint_interval bb records :
  let s0 := default_storage cmode bb mode checkpoint_size checkpoint_interval in
  on_disk mode records (durable_in bb) → reliable (bb_impl bb) → all_loadable mode records →
  ∃ bb' p, make_storage cmode bb mode checkpoint_size checkpoint_interval = Ok (loaded bb' records p s0) ∧
    same_view bb' bb ∧ purged_from records p s0.
Proof.
  intros s0 Hd Hr Hld.
  assert (∃ bb' p, load_storage mode s0 = (loaded bb' records p s0, Ok ()) ∧
    same_view bb' bb ∧ purged_from records p s0) as (bb' & p & Hs & Hx).
  2: { exists bb', p. split; [|done]. unfold make_storage. fold s0. by rewrite Hs. }
  pose proof Hd as (_ & _ & _ & Hmeta & Hidx & Hall). pose proof Hld as (Hl1 & Hl2 & _).
  unfold load_storage. rewrite gets_bind.
  destruct (list_ok s0 Hr) as (bb1 & Hlist & Hr1 & Hv1). rewrite (action_bind_eq _ _ _ _ _ Hlist).
  change (disk s0) with (durable_in bb) in *. pose proof Hv1 as [(_ & Ho1 & _) _].
  rewrite (bool_decide_false (sizes (durable_in bb) = ∅)).
  2: { intros He. apply (f_equal (λ m, m !! metadata_name)) in He. unfold sizes in He.
       by rewrite lookup_fmap, Hmeta in He. }
  rewrite (bool_decide_false (_ !! metadata_name = None)).
  2: { unfold sizes. by rewrite lookup_fmap, Hmeta. }
  rewrite (action_bind_eq (throw_if _ _) _ _ (set_backend bb1 s0) ()) by done.
  destruct (load_metadata_ok mode (set_backend bb1 s0)) as (bb2 & Hlm & Hr2 & Hv2).
  { done. } { cbn. by rewrite Ho1. } { done. } { done. }
  rewrite (action_bind_eq _ _ _ _ _ Hlm). assert (same_view bb2 bb) as Hv by (by etrans).
  pose proof Hv as [(_ & Ho2 & _) _].
  set (s1 := set_backend bb2 (set_backend bb1 s0)).
  rewrite (action_bind_eq _ _ s1 s1 ()).
  2: { unfold validate_metadata. rewrite gets_bind, bool_decide_true; done. }
  destruct (decide (records = [])) as [->|Hne].
  { rewrite bool_decide_true by (by eapply only_metadata). exists bb2, (st_purged_gtids s0).
    split; [done|]. split; [done|by left]. }
  destruct (index_listed _ _ _ Hd Hne) as [z Hz].
  rewrite !bool_decide_false.
  2: { by rewrite Hz. }
  2: { intros He. by rewrite He, lookup_empty in Hz. }
  fold (data_objects (durable_in bb)) (metadata_objects (durable_in bb)).
  destruct (load_files_ok s1 mode records) as (bb' & p & Hs & Hv' & Hp); cbn; rewrite ?Ho2; try done.
  cbn in Hs. rewrite Ho2 in Hs. exists bb', p. split; [done|]. split; [by etrans|done].
Qed.

(** a storage survives a restart.  When the objects of the backend are those that a list
    of records describes, constructing a storage over them, in any construction mode,
    succeeds and gives back exactly these records (names, sizes, GTID sets, time stamps
    and sequence numbers), with an empty buffer and without touching an object. *)
Theorem restart_recovers cmode mode checkpoint_size checkpoint_interval bb records :
  on_disk mode records (durable_in bb) → reliable (bb_impl bb) → all_loadable mode records →
  ∃ s, make_storage cmode bb mode checkpoint_size checkpoint_interval = Ok s ∧
    st_records s = records ∧ st_replication_mode s = mode ∧ disk s = durable_in bb ∧
    st_event_buffer s = [].
Proof.
  intros Hd Hr Hl. destruct (load_storage_ok cmode mode checkpoint_size checkpoint_interval bb records Hd Hr Hl)
    as (bb' & p & Hs & [(_ & Ho & _) _] & _).
  eexists. split; [exact Hs|]. done.
Qed.
End on_disk.

(** ** GTID sets that have a text, by their elements *)
Section text_by_elements.
Context `{IntervalSetLaws} `{BoostUuidLaws}.

Definition gtid_parts_ok (u : uuid) (t : tag) (x : Z) : Prop :=
  uuid_ok u ∧ uuid_is_empty u = false ∧ tag_ok t ∧ min_gno ≤ x ≤ max_gno.

Lemma interval_elements (c : gno_container) a b :
  (a, b) ∈ icl_intervals c → a < b ∧ icl_in c a ∧ icl_in c (b - 1).
Proof.
  intros Hin. destruct (icl_canonical c) as [Hne _]. rewrite Forall_forall in Hne.
  specialize (Hne _ Hin). cbn in Hne. split; [done|]. split; exists a, b; (split; [done|lia]).
Qed.

Lemma nonempty_element (c : gno_container) : icl_is_empty c = false → ∃ x, icl_in c x.
Proof.
  unfold icl_is_empty. intros Hc. to_prop. destruct (icl_intervals c) as [|[a b] l] eqn:E; [done|].
  exists a. apply (interval_elements c a b). rewrite E. left.
Qed.

Lemma text_ok_elements (s : gtid_set) :
  wf s → text_ok s ↔ ∀ u t x, elem s u t x → gtid_parts_ok u t x.
Proof.
  intros Hwf. unfold text_ok. setoid_rewrite Forall_forall. split.
  - intros Hs u t x (m & c & Hm & Hc & a & b & Hin & Hx)%elem_entry; [|done].
    destruct (Hs _ Hm) as (Hu & Hne & Ht). rewrite Forall_forall in Ht.
    destruct (Ht _ Hc) as [Htag Hi]. rewrite Forall_forall in Hi.
    destruct (Hi _ Hin) as (? & ? & ?). cbn in *. unfold gtid_parts_ok. split_and!; done || lia.
  - intros He [u m] Hm. pose proof Hwf as [_ Hall]. rewrite Forall_forall in Hall.
    destruct (Hall _ Hm) as [Hne [_ Hin]]. cbn [fst snd] in *. rewrite Forall_forall in Hin.
    assert (∀ t c x, (t, c) ∈ m → icl_in c x → gtid_parts_ok u t x) as Hp.
    { intros t c x Hc Hx. apply He, elem_entry; [done|]. by exists m, c. }
    destruct m as [|[t0 c0] m]; [done|].
    destruct (nonempty_element c0) as [x0 Hx0]; [by apply (Hin (t0, c0)); left|].
    destruct (Hp t0 c0 x0) as (Hu & Hun & _); [by left|done|]. split_and!; [done..|].
    apply Forall_forall. intros [t c] Hc. cbn [fst snd]. split.
    + destruct (nonempty_element c) as [x Hx]; [by apply (Hin (t, c))|]. by apply (Hp t c x).
    + apply Forall_forall. intros [a b] Hi. destruct (interval_elements c a b Hi) as (Hab & Ha & Hb).
      destruct (Hp t c a) as (_ & _ & _ & ?), (Hp t c (b - 1)) as (_ & _ & _ & ?); [done..|].
      unfold interval_ok. cbn. lia.
Qed.

Lemma text_ok_add_set values (s : gtid_set) :
  wf s → wf values → text_ok s → text_ok values → wf (add_set values s) ∧ text_ok (add_set values s).
Proof.
  intros Hs Hv Hts Htv. destruct (add_set_elem values s Hs Hv) as [Hwf He]. split; [done|].
  apply text_ok_elements; [done|]. rewrite text_ok_elements in Hts, Htv by done.
  intros u t x. rewrite He. intros [?|?]; auto.
Qed.

Definition gtid_ok (g : gtid) : Prop := gtid_parts_ok (gtid_uuid g) (gtid_tag g) (gtid_gno g).

Lemma text_ok_add_gtid g (s s' : gtid_set) :
  add_gtid g s = Ok s' → gtid_ok g → wf s → text_ok s → wf s' ∧ text_ok s'.
Proof.
  intros Ha (Hu & Hne & Ht & Hg) Hs Hts.
  assert (gtid_is_empty g = false) as Hg0.
  { unfold gtid_is_empty, min_gno in *. apply Z.eqb_neq. lia. }
  destruct (add_gtid_refines g s (elem s)) as (S' & Ha' & Hwf & He); [done|done|done|].
  rewrite Ha in Ha'. injection Ha' as <-. split; [done|]. apply text_ok_elements; [done|].
  rewrite text_ok_elements in Hts by done. intros u t x. rewrite He.
  intros [?|Heq]; [by apply Hts|]. rewrite Heq in Hu, Hne, Ht, Hg. done.
Qed.
End text_by_elements.

(** ** Changes of the objects that keep them in step with the records *)
Section disk_updates.
Context `{StorageBackendLaws B} `{IntervalSetLaws} `{BoostUuidLaws} `{BoostPosixTimeLaws} `{BoostJsonLaws}.
Implicit Types (r : binlog_record) (records : list binlog_record) (O : gmap (list Z) (list Z)).

Abbreviation data_name r := (binlog_name_str (br_name r)).
Abbreviation meta_name r := (generate_binlog_metadata_name (br_name r)).

Lemma data_meta_ne r1 r2 : binlog_name_ok (br_name r1) → binlog_name_ok (br_name r2) → data_name r1 ≠ meta_name r2.
Proof. intros H1' H2'. apply binlog_name_str_ne; [done|]. right. by apply metadata_name_extension. Qed.

(** the objects of a record with another name stay what they are *)
Lemma stored_other O r r' c m :
  binlog_name_ok (br_name r) → binlog_name_ok (br_name r') → br_name r ≠ br_name r' →
  stored O r → stored (<[meta_name r' := m]> (<[data_name r' := c]> O)) r.
Proof.
  intros Hn Hn' Hne [Hm (c0 & Hc & Hsz)].
  assert (meta_name r ≠ meta_name r') by (intros ?%metadata_name_inj; done).
  assert (data_name r ≠ data_name r') by (intros ?%binlog_name_str_inj; done).
  pose proof (data_meta_ne r r' Hn Hn'). pose proof (data_meta_ne r' r Hn' Hn).
  split; [by rewrite !lookup_insert_ne|]. exists c0. by rewrite !lookup_insert_ne.
Qed.

Lemma stored_same O r' c :
  binlog_name_ok (br_name r') → br_size r' = Z.of_nat (length c) →
  stored (<[meta_name r' := binlog_metadata_str (metadata_of_record r')]> (<[data_name r' := c]> O)) r'.
Proof.
  intros Hn Hsz. pose proof (data_meta_ne r' r' Hn Hn). split; [apply lookup_insert_eq|].
  exists c. rewrite lookup_insert_ne, lookup_insert_eq by done. done.
Qed.

Lemma index_content_names records records' :
  br_name <$> records = br_name <$> records' → index_content records = index_content records'.
Proof.
  intros Hn. unfold index_content.
  assert (∀ l : list binlog_record, index_entry <$> l = (λ n, default_binlog_index_entry_path ++ [preferred_separator] ++
    binlog_name_str n ++ [10]) <$> (br_name <$> l)) as Hi.
  { intros l. by rewrite <-list_fmap_compose. }
  by rewrite !Hi, Hn.
Qed.

Lemma fixed_names_kept O r c m :
  binlog_name_ok (br_name r) →
  let O' := <[meta_name r := m]> (<[data_name r := c]> O) in
  O' !! metadata_name = O !! metadata_name ∧
  O' !! default_binlog_index_name = O !! default_binlog_index_name.
Proof.
  intros Hn O'. destruct (data_name_apart r Hn) as (? & ? & _), (metadata_object_apart r Hn) as (? & ? & _).
  split; unfold O'; by rewrite !lookup_insert_ne.
Qed.

Lemma on_disk_flush mode records r r' O c :
  on_disk mode (records ++ [r]) O → br_name r' = br_name r →
  record_ok (bool_decide (mode = mode_gtid)) r' → br_size r' = Z.of_nat (length c) →
  on_disk mode (records ++ [r'])
    (<[meta_name r' := binlog_metadata_str (metadata_of_record r')]> (<[data_name r' := c]> O)).
Proof.
  intros (Hnd & Hok & Hst & Hmeta & Hidx & Hall) Hname Hr' Hsz.
  assert (br_name <$> records ++ [r'] = br_name <$> records ++ [r]) as Hnames
    by (rewrite !fmap_app; cbn; by rewrite Hname).
  pose proof Hr' as [Hn' _]. apply Forall_app in Hok as [Hok Hr], Hst as [Hst _].
  apply Forall_singleton in Hr.
  destruct (fixed_names_kept O r' c (binlog_metadata_str (metadata_of_record r')) Hn') as [Hf1 Hf2].
  split_and!.
  - by rewrite Hnames.
  - apply Forall_app. split; [done|]. by apply Forall_singleton.
  - apply Forall_app. split; [|by apply Forall_singleton, stored_same].
    rewrite Forall_forall in Hok, Hst |- *. intros r0 Hr0. apply stored_other; auto.
    + apply (Hok r0 Hr0).
    + intros Heq. rewrite fmap_app in Hnd. apply NoDup_app in Hnd as (_ & Hnd & _).
      apply (Hnd (br_name r0)); [by apply list_elem_of_fmap_2|]. rewrite Heq, Hname. left.
  - by rewrite Hf1.
  - rewrite Hf2, Hidx. rewrite !decide_False by (by destruct records). f_equal.
    by apply index_content_names.
  - intros k Hk. destruct (decide (k = meta_name r')) as [->|Hk1].
    { right; right. exists r'. split; [set_solver|]. by right. }
    destruct (decide (k = data_name r')) as [->|Hk2].
    { right; right. exists r'. split; [set_solver|]. by left. }
    rewrite !lookup_insert_ne in Hk by done.
    destruct (Hall k Hk) as [?|[?|(r0 & Hr0 & Hk0)]]; [by auto..|]. right; right.
    apply elem_of_app in Hr0 as [Hr0| ->%list_elem_of_singleton].
    + exists r0. split; [set_solver|done].
    + rewrite Hname in Hk1, Hk2. by destruct Hk0.
Qed.

Lemma index_apart O r content :
  binlog_name_ok (br_name r) → stored O r → stored (<[default_binlog_index_name := content]> O) r.
Proof.
  intros Hn [Hm (c & Hc & Hsz)].
  destruct (data_name_apart r Hn) as (_ & ? & _), (metadata_object_apart r Hn) as (_ & ? & _).
  split; [by rewrite lookup_insert_ne|]. exists c. by rewrite lookup_insert_ne.
Qed.

Lemma on_disk_append mode records r O c :
  on_disk mode records O → br_name r ∉ br_name <$> records →
  record_ok (bool_decide (mode = mode_gtid)) r → br_size r = Z.of_nat (length c) →
  on_disk mode (records ++ [r])
    (<[default_binlog_index_name := index_content (records ++ [r])]>
      (<[meta_name r := binlog_metadata_str (metadata_of_record r)]> (<[data_name r := c]> O))).
Proof.
  intros (Hnd & Hok & Hst & Hmeta & Hidx & Hall) Hnew Hr Hsz. pose proof Hr as [Hn _].
  destruct (fixed_names_kept O r c (binlog_metadata_str (metadata_of_record r)) Hn) as [Hf1 _].
  split_and!.
  - rewrite fmap_app. apply NoDup_app. split_and!; [done| |apply NoDup_singleton].
    intros n Hin ->%list_elem_of_singleton. done.
  - apply Forall_app. split; [done|]. by apply Forall_singleton.
  - apply Forall_app. split.
    + rewrite Forall_forall in Hok, Hst |- *. intros r0 Hr0. destruct (Hok r0 Hr0) as [Hn0 _].
      apply index_apart, stored_other; auto.
      intros Heq. apply Hnew. rewrite <-Heq. by apply list_elem_of_fmap_2.
    + by apply Forall_singleton, index_apart, stored_same.
  - rewrite lookup_insert_ne by done. by rewrite Hf1.
  - rewrite lookup_insert_eq, decide_False by (by destruct records). done.
  - intros k Hk. destruct (decide (k = default_binlog_index_name)) as [->|Hk0]; [by auto|].
    rewrite lookup_insert_ne in Hk by done.
    destruct (decide (k = meta_name r)) as [->|Hk1].
    { right; right. exists r. split; [set_solver|]. by right. }
    destruct (decide (k = data_name r)) as [->|Hk2].
    { right; right. exists r. split; [set_solver|]. by left. }
    rewrite !lookup_insert_ne in Hk by done.
    destruct (Hall k Hk) as [?|[?|(r0 & Hr0 & Hk3)]]; [by auto..|]. right; right.
    exists r0. split; [set_solver|done].
Qed.

Lemma elem_of_victims removed k : k ∈ victim_object_names removed ↔ listed removed k.
Proof.
  unfold victim_object_names, listed. rewrite list_elem_of_join. setoid_rewrite list_elem_of_fmap.
  split.
  - intros (l & Hk & r & -> & Hr). exists r. set_solver.
  - intros (r & Hr & Hk). eexists. split; [|by exists r]. set_solver.
Qed.

Lemma kept_stored mode removed kept O O' :
  on_disk mode (removed ++ kept) O →
  (∀ k, k ≠ default_binlog_index_name → ¬ listed removed k → O' !! k = O !! k) →
  Forall (stored O') kept.
Proof.
  intros (Hnd & Hok & Hst & _) Hkeep. rewrite fmap_app in Hnd. apply NoDup_app in Hnd as (_ & Hdis & _).
  apply Forall_app in Hok as [Hokr Hok], Hst as [_ Hst]. rewrite Forall_forall in Hokr, Hok, Hst |- *.
  intros r Hr. destruct (Hok r Hr) as [Hn _], (Hst r Hr) as [Hsm (c & Hc & Hsz)].
  assert (∀ v, v ∈ removed → br_name r ≠ br_name v) as Hrv.
  { intros v Hv Heq. apply (Hdis (br_name v)); [by apply list_elem_of_fmap_2|].
    rewrite <-Heq. by apply list_elem_of_fmap_2. }
  assert (¬ listed removed (data_name r) ∧ ¬ listed removed (meta_name r)) as [Hd Hm].
  { split; intros (v & Hv & [Heq|Heq]); destruct (Hokr v Hv) as [Hnv _].
    - by apply (Hrv v Hv), binlog_name_str_inj.
    - by apply (data_meta_ne r v).
    - by apply (data_meta_ne v r).
    - by apply (Hrv v Hv), metadata_name_inj. }
  destruct (data_name_apart r Hn) as (_ & ? & _), (metadata_object_apart r Hn) as (_ & ? & _).
  split; [by rewrite Hkeep|]. exists c. by rewrite Hkeep.
Qed.

Lemma on_disk_purge mode removed kept O O' :
  on_disk mode (removed ++ kept) O → kept ≠ [] →
  (∀ k, k ≠ default_binlog_index_name → ¬ listed removed k → O' !! k = O !! k) →
  O' !! default_binlog_index_name = Some (index_content kept) →
  (∀ k, listed removed k → O' !! k = None) →
  on_disk mode kept O'.
Proof.
  intros Hd Hne Hkeep Hnew Hgone. pose proof (kept_stored _ _ _ _ _ Hd Hkeep) as Hst.
  destruct Hd as (Hnd & Hok & _ & Hmeta & Hidx & Hall).
  rewrite fmap_app in Hnd. apply NoDup_app in Hnd as (_ & _ & Hnd).
  apply Forall_app in Hok as [Hokr Hok]. rewrite Forall_forall in Hokr.
  split_and!; [done|done|done|..].
  - rewrite Hkeep; [done|done|]. intros (v & Hv & Heq). destruct (Hokr v Hv) as [Hnv _].
    destruct (data_name_apart v Hnv) as (? & _), (metadata_object_apart v Hnv) as (? & _).
    by destruct Heq.
  - by rewrite decide_False.
  - intros k Hk. destruct (decide (k = default_binlog_index_name)) as [->|Hk0]; [by auto|].
    destruct (decide (k ∈ victim_object_names removed)) as [Hv|Hv]; rewrite elem_of_victims in Hv.
    { rewrite (Hgone k Hv) in Hk. by destruct Hk. }
    rewrite Hkeep in Hk by done. destruct (Hall k Hk) as [?|[?|(r & Hr & Hk3)]]; [by auto..|].
    apply elem_of_app in Hr as [Hr|Hr]; [by destruct Hv; exists r|]. right; right. by exists r.
Qed.
End disk_updates.

(** ** Purging *)
Section purge.
Context `{StorageBackendLaws B} `{IntervalSetLaws} `{BoostUuidLaws} `{BoostPosixTimeLaws} `{BoostJsonLaws}.
Implicit Types (s : storage (B := B)).

Lemma last_app_ne {A} (l1 l2 : list A) : l2 ≠ [] → last (l1 ++ l2) = last l2.
Proof. destruct l2 using rev_ind; [done|]. by rewrite app_assoc, !last_snoc. Qed.

(** the guards: what the target has to be *)
Lemma purge_guards target s s' removed w :
  purge_binlogs target s = (s', Ok (removed, w)) →
  ∃ i r, list_find (λ r, br_name r = target) (st_records s) = Some (i, r) ∧
    (S i < length (st_records s))%nat ∧ removed = take (S i) (st_records s) ∧
    (save_binlog_index ≫= λ _,
       outcome ← try_catch (on_backend (remove_objects (victim_object_names removed)));
       mret (removed, match outcome with inl _ => None | inr e => Some e end))
      (set_records (drop (S i) (st_records s)) s) = (s', Ok (removed, w)).
Proof.
  intros Hp. unfold purge_binlogs in Hp. apply action_bind_ok in Hp as (s1 & [] & Hm & Hp).
  assert (s1 = s) as ->.
  { unfold ensure_purging_mode in Hm. rewrite gets_bind in Hm. by apply throw_if_inv in Hm as [-> _]. }
  rewrite gets_bind in Hp. destruct (st_records s) as [|front records] eqn:Er; [done|].
  rewrite <-Er in *. apply action_bind_ok in Hp as (s1 & [] & Hm2 & Hp).
  apply throw_if_inv in Hm2 as [-> _].
  destruct (list_find _ _) as [[i r]|] eqn:Ef; [|done].
  apply action_bind_ok in Hp as (s1 & [] & Hm2 & Hp).
  apply throw_if_inv in Hm2 as [-> [[_ [=]]|[Hi _]]]. to_prop. rewrite modify_bind in Hp.
  assert (removed = take (S i) (st_records s)) as ->.
  { apply action_bind_ok in Hp as (? & ? & _ & Hp). apply action_bind_ok in Hp as (? & ? & _ & Hp).
    by injection Hp as _ <- _. }
  exists i, r. split; [done|]. split; [|done].
  apply list_find_Some in Ef as (Hl & _). apply lookup_lt_Some in Hl. lia.
Qed.

Lemma victims_ok m removed :
  Forall (record_ok m) removed → Forall name_ok (victim_object_names removed).
Proof.
  rewrite !Forall_forall. intros Hok k (r & Hr & [-> | ->])%elem_of_victims;
    destruct (Hok r Hr) as [Hn _]; [by apply binlog_name_str_ok | by apply metadata_name_ok].
Qed.

(** the two steps that change the objects: the new index, then the removals *)
Lemma purge_objects s s' kept removed warning m :
  (save_binlog_index ≫= λ _,
     outcome ← try_catch (on_backend (remove_objects (victim_object_names removed)));
     mret (removed, match outcome with inl _ => None | inr e => Some e end))
    (set_records kept s) = (s', Ok (removed, warning)) →
  Forall (record_ok m) removed → strm s = None →
  ∃ bb, s' = set_backend bb (set_records kept s) ∧ stream_in bb = None ∧
    (∀ k, k ≠ default_binlog_index_name → ¬ listed removed k → objs s' !! k = objs s !! k) ∧
    objs s' !! default_binlog_index_name = Some (index_content kept) ∧
    (warning = None → ∀ k, listed removed k → objs s' !! k = None).
Proof.
  intros Hp Hok Hs. apply action_bind_ok in Hp as (s1 & [] & Hidx & Hp).
  unfold save_binlog_index in Hidx. rewrite gets_bind in Hidx.
  apply put_inv in Hidx as (bb1 & -> & _ & Hst & _ & Hobj); [|apply index_name_ok|by intros k; cbn; rewrite Hs].
  cbn in Hst, Hobj. rewrite Hs in Hst. destruct Hobj as [Hobj|[_ [=]]].
  apply action_bind_ok in Hp as (s2 & out & Ht & Hp). injection Hp as <- Hw.
  assert (∃ x, on_backend (remove_objects (victim_object_names removed))
      (set_backend bb1 (set_records kept s)) = (s2, x) ∧ (warning = None → x = Ok ())) as (x & Hrm & Hx).
  { unfold try_catch in Ht. destruct (on_backend _ _) as [s3 [[]|e]]; [|destruct (is_exception e)];
      simplify_eq; by eexists. }
  apply on_backend_inv in Hrm as (bb2 & Hrm & ->). cbn in Hrm. exists bb2. split; [done|].
  destruct (remove_objects_inv _ _ _ _ Hrm) as (_ & _ & Hst2 & _ & Hkeep & Hgone).
  { rewrite Forall_forall. intros k Hk. split.
    - pose proof (victims_ok m removed Hok) as Hv. rewrite Forall_forall in Hv. by apply Hv.
    - intros k'. by rewrite Hst. }
  rewrite Hst in Hst2. split; [done|].
  setoid_rewrite elem_of_victims in Hkeep. setoid_rewrite elem_of_victims in Hgone.
  cbn. split_and!.
  - intros k Hk Hl. rewrite (Hkeep k Hl), Hobj. by rewrite lookup_insert_ne.
  - rewrite Hkeep, Hobj; [apply lookup_insert_eq|]. intros (v & Hv & Heq).
    rewrite Forall_forall in Hok. destruct (Hok v Hv) as [Hnv _].
    destruct (data_name_apart v Hnv) as (_ & ? & _), (metadata_object_apart v Hnv) as (_ & ? & _).
    by destruct Heq.
  - auto.
Qed.

Lemma purge_ok target s s' removed warning :
  purge_binlogs target s = (s', Ok (removed, warning)) →
  on_disk (st_replication_mode s) (st_records s) (disk s) → strm s = None →
  st_records s = removed ++ st_records s' ∧
  (∃ r, last removed = Some r ∧ br_name r = target) ∧ st_records s' ≠ [] ∧
  get_current_binlog_name s' = get_current_binlog_name s ∧
  get_current_position s' = get_current_position s ∧ get_gtids s' = get_gtids s ∧
  Forall (stored (disk s')) (st_records s') ∧
  disk s' !! default_binlog_index_name = Some (index_content (st_records s')) ∧
  (warning = None → on_disk (st_replication_mode s') (st_records s') (disk s')) ∧ strm s' = None.
Proof.
  intros Hp Hd Hs. rewrite <-(closed_law _ Hs) in Hd. destruct (purge_guards _ _ _ _ _ Hp) as (i & r & Hf & Hi & Hrem & Hrest).
  set (kept := drop (S i) (st_records s)) in *.
  assert (st_records s = removed ++ kept) as Hsplit by (subst removed kept; by rewrite take_drop).
  assert (kept ≠ []) as Hne.
  { intros Hk. apply (f_equal length) in Hk. unfold kept in Hk. rewrite length_drop in Hk. cbn in Hk. lia. }
  rewrite Hsplit in Hd. pose proof Hd as (_ & Hok & _). apply Forall_app in Hok as [Hok _].
  destruct (purge_objects _ _ _ _ _ _ Hrest Hok Hs) as (bb & -> & Hst & Hkeep & Hidx & Hgone).
  change (disk (set_backend bb (set_records kept s))) with (durable_in bb). rewrite <-(closed_law _ Hst).
  assert (last (st_records s) = last kept) as Hlast by (rewrite Hsplit; by apply last_app_ne).
  unfold get_current_binlog_name, get_current_position, get_flushed_position, get_gtids,
    get_current_binlog_record, is_in_gtid_replication_mode.
  cbn [st_records set_records set_backend st_event_buffer st_replication_mode st_purged_gtids].
  rewrite Hlast. split_and!; try done.
  - exists r. apply list_find_Some in Hf as (Hl & Hr & _). split; [|done].
    subst removed. by rewrite (take_S_r _ _ _ Hl), last_snoc.
  - by eapply kept_stored.
  - intros Hw. by eapply on_disk_purge; eauto.
Qed.

End purge.

(** ** The invariant of a streaming storage *)
Section ranges_ok.
Implicit Types (rg : ctime_timestamp_range).
Definition range_ok rg : Prop :=
  in_width 32 (min_timestamp rg) ∧ in_width 32 (max_timestamp rg) ∧
  (min_timestamp rg = 0 ↔ max_timestamp rg = 0).

Lemma range_ok_empty : range_ok empty_range.
Proof. done. Qed.
Lemma range_ok_add_timestamp t rg : in_width 32 t → range_ok rg → range_ok (add_timestamp t rg).
Proof.
  unfold range_ok, add_timestamp, is_epoch, range_is_empty, is_epoch, in_width. intros Ht Hr.
  repeat case_match; to_prop; cbn [min_timestamp max_timestamp] in *; lia.
Qed.
Lemma range_ok_add_range rg rg' : range_ok rg → range_ok rg' → range_ok (add_range rg rg').
Proof.
  unfold range_ok, add_range, range_is_empty, is_epoch, in_width. intros Ht Hr.
  repeat case_match; to_prop; cbn [min_timestamp max_timestamp] in *; lia.
Qed.
End ranges_ok.

Section streaming.
Context `{StorageBackendLaws B} `{IntervalSetLaws} `{BoostUuidLaws} `{BoostPosixTimeLaws} `{BoostJsonLaws}.
Implicit Types (s : storage (B := B)) (r : binlog_record).

Abbreviation gtids_ok S := (wf S ∧ text_ok S).

Definition members_ok s : Prop :=
  (st_boundary_position s ≤ length (st_event_buffer s))%nat ∧
  range_ok (st_ready_timestamps s) ∧ range_ok (st_incomplete_timestamps s) ∧
  in_width 64 (st_ready_sequence_number s) ∧ in_width 64 (st_incomplete_sequence_number s) ∧
  gtids_ok (st_purged_gtids s) ∧ gtids_ok (st_buffer_gtids s).

(** an open stream appends to the file of the last record, whose size still fits 64 bits
    with all that is in the buffer; without one there is nothing to flush *)
Definition stream_ok s : Prop :=
  if is_binlog_open s then
    ∃ r, last (st_records s) = Some r ∧ strm s = Some (binlog_name_str (br_name r)) ∧
         br_size r + Z.of_nat (length (st_event_buffer s)) < 2 ^ 64 ∧
         settled (bb_impl (st_backend s))
  else strm s = None ∧ st_event_buffer s = [].

Definition streaming_inv s : Prop :=
  st_construction_mode s = streaming ∧ members_ok s ∧ stream_ok s ∧
  on_disk (st_replication_mode s) (st_records s) (objs s) ∧
  Forall (λ r, magic_binlog_offset ≤ br_size r) (st_records s).

Lemma last_split {A} (l : list A) a : last l = Some a → ∃ l0, l = l0 ++ [a].
Proof. intros Hl. apply last_Some in Hl. done. Qed.
Lemma update_last_snoc {A} (f : A → A) l a : update_last f (l ++ [a]) = l ++ [f a].
Proof.
  unfold update_last. rewrite last_snoc, length_app. cbn. rewrite Nat.add_sub.
  by rewrite take_app_length.
Qed.

Lemma gtids_text_ok_add S o :
  gtids_ok S → gtids_text_ok o → gtids_text_ok ((λ added, add_set S added) <$> o).
Proof. intros [Hw Ht]. destruct o as [A|]; cbn; [|done]. intros [HwA HtA]. by apply text_ok_add_set. Qed.

Lemma flushed_record_ok s r c :
  members_ok s → record_ok (is_in_gtid_replication_mode s) r →
  br_size r = Z.of_nat (length c) → br_size r + Z.of_nat (length (st_event_buffer s)) < 2 ^ 64 →
  let r' := flushed_record (is_in_gtid_replication_mode s) s r in
  record_ok (is_in_gtid_replication_mode s) r' ∧
  br_size r' = Z.of_nat (length (c ++ take (st_boundary_position s) (st_event_buffer s))).
Proof.
  intros (Hb & Hrt & _ & Hseq & _ & _ & Hg) (Hn & Hnl & Hm & Hts & Hmode) Hsz Hlen r'.
  assert (br_size r' = Z.of_nat (length (c ++ take (st_boundary_position s) (st_event_buffer s)))) as Hsz'.
  { subst r'. cbn. rewrite length_app, length_take_le, Nat2Z.inj_add, Hsz by done.
    apply wrap_small. unfold in_width. lia. }
  split; [|done]. destruct Hm as (Hv & _ & Hp & Ha & Hmin & Hmax & _). cbn in Hp, Ha, Hmin, Hmax.
  assert (range_ok (add_range (st_ready_timestamps s) (br_timestamps r))) as (Hr1 & Hr2 & Hr3).
  { apply range_ok_add_range; [done|]. done. }
  split_and!; try done.
  - unfold metadata_ok. cbn [metadata_of_record bm_version bm_size bm_previous_gtids bm_added_gtids
      bm_min_timestamp bm_max_timestamp bm_last_sequence_number]. split_and!; try done.
    + rewrite Hsz', length_app, length_take_le, Nat2Z.inj_add by done. unfold in_width. lia.
    + subst r'. cbn. destruct (is_in_gtid_replication_mode s); [|done]. by apply gtids_text_ok_add.
  - subst r'. cbn. destruct (is_in_gtid_replication_mode s); [|done].
    destruct Hmode as [? ?]. split; [done|]. by destruct (br_added_gtids r).
Qed.

(** the last record and its file, when the stream is open *)
Lemma streaming_appending s :
  streaming_inv s → is_binlog_open s = true →
  ∃ records r c, st_records s = records ++ [r] ∧ appending s r c ∧
    record_ok (is_in_gtid_replication_mode s) r ∧ br_size r = Z.of_nat (length c) ∧
    br_size r + Z.of_nat (length (st_event_buffer s)) < 2 ^ 64.
Proof.
  intros (_ & _ & Hso & (_ & Hok & Hst & _) & _) Hopen. unfold stream_ok in Hso. rewrite Hopen in Hso.
  destruct Hso as (r & Hlast & Hs & Hlen & Hset). destruct (last_split _ _ Hlast) as [records Hrec].
  rewrite Hrec in Hok, Hst. apply Forall_app in Hok as [_ Hok], Hst as [_ Hst].
  rewrite Forall_singleton in Hok, Hst. destruct Hst as [_ (c & Hc & Hsz)].
  exists records, r, c. split; [done|]. split; [|done]. pose proof Hok as [Hn _]. done.
Qed.

Lemma flush_preserves s s' :
  flush_event_buffer_internal s = (s', Ok ()) → is_binlog_open s = true →
  streaming_inv s → streaming_inv s'.
Proof.
  intros Hf Hopen Hi. destruct (streaming_appending s Hi Hopen) as (records & r & c & Hrec & Ha & Hr & Hsz & Hlen).
  destruct Hi as (Hmode & Hmem & _ & Hd & Hmagic).
  destruct (flush_internal_inv _ _ _ _ _ Hf Ha) as (bb & -> & Hbo & Hst & Hset & Ho).
  destruct (flushed_record_ok s r c Hmem Hr Hsz Hlen) as [Hr' Hsz'].
  set (r' := flushed_record (is_in_gtid_replication_mode s) s r) in *.
  destruct (flushed_state_members bb s) as (Hbk & Hcm & Hrec' & Hgm & Hb0 & Hbuf & Hbg).
  rewrite Hrec, update_last_snoc in Hrec'. fold r' in Hrec'.
  destruct Hmem as (Hb & Hrt & Hit & Hrs & His & Hpg & Hg).
  split_and!.
  - by rewrite Hcm.
  - unfold members_ok. rewrite Hb0. unfold flushed_state.
    destruct (is_in_gtid_replication_mode s); cbn; split_and!;
      first [done | lia | apply wf_empty | apply Hpg | apply Hg | constructor].
  - unfold stream_ok, is_binlog_open, is_stream_open. rewrite Hbk, Hbo. exists r'.
    rewrite Hrec', last_snoc, Hbuf, length_drop, Hsz', length_app, length_take_le by done.
    split; [done|]. split; [done|]. split; [|exact Hset]. rewrite Hsz in Hlen. lia.
  - rewrite Hbk, Hrec', Ho.
    assert (st_replication_mode (flushed_state bb s) = st_replication_mode s) as ->.
    { unfold flushed_state. by destruct (is_in_gtid_replication_mode s). }
    rewrite Hrec in Hd. by apply (on_disk_flush _ _ r r').
  - rewrite Hrec in Hmagic. rewrite Hrec'. apply Forall_app in Hmagic as [Hm1 Hm2].
    rewrite Forall_singleton in Hm2. apply Forall_app. split; [done|]. apply Forall_singleton.
    rewrite Hsz', length_app. lia.
Qed.

Lemma checkpoint_preserves p t s :
  streaming_inv s → streaming_inv (set_last_checkpoint_timestamp t (set_last_checkpoint_position p s)).
Proof. done. Qed.

Lemma update_checkpoint_preserves now s s' x :
  update_last_checkpoint_info now s = (s', x) → streaming_inv s → streaming_inv s'.
Proof.
  unfold update_last_checkpoint_info. rewrite modify_bind. unfold modify. intros [= <- <-].
  repeat case_match; done.
Qed.

Definition event_ok s (data : list Z) (g : gtid) (ts q : Z) : Prop :=
  (gtid_is_empty g = true ∨ gtid_ok g) ∧ in_width 32 ts ∧ in_width 64 q ∧
  get_flushed_position s + Z.of_nat (length (st_event_buffer s ++ data)) < 2 ^ 64.

(** [buffer_event] adds the bytes and keeps the other members in shape *)
Lemma buffer_event_members data boundary g ts q s s' x :
  buffer_event data boundary g ts q s = (s', x) → event_ok s data g ts q → members_ok s →
  members_ok s' ∧ st_event_buffer s' = st_event_buffer s ++ data ∧
  st_construction_mode s' = st_construction_mode s ∧ st_backend s' = st_backend s ∧
  st_records s' = st_records s ∧ st_replication_mode s' = st_replication_mode s.
Proof.
  intros Hw (Hg & Hts & Hq & _) (Hb & Hrt & Hit & Hrs & His & Hpg & Hbg).
  assert (range_ok (add_timestamp ts (st_incomplete_timestamps s))) as Hit'
    by (by apply range_ok_add_timestamp).
  assert (range_ok (add_range (add_timestamp ts (st_incomplete_timestamps s)) (st_ready_timestamps s))) as Hrt'
    by (by apply range_ok_add_range).
  assert (∀ S', add_gtid g (st_buffer_gtids s) = Ok S' → gtids_ok S') as Hadd.
  { intros S' HS. destruct Hg as [Hg|Hg]; [unfold add_gtid in HS; by rewrite Hg in HS|].
    destruct Hbg. by eapply text_ok_add_gtid. }
  unfold buffer_event, mbind, action_bind, modify, gets, is_in_gtid_replication_mode, of_result in Hw.
  unfold members_ok.
  destruct (q =? 0), boundary; cbn -[add_gtid bool_decide gtid_is_empty in_width] in Hw.
  all: try (destruct (bool_decide _ && negb _)).
  all: cbn -[add_gtid in_width] in Hw.
  all: try (destruct (add_gtid g (st_buffer_gtids s)) as [S'|e] eqn:ES;
    [specialize (Hadd S' eq_refl)|clear Hadd]; cbn -[in_width] in Hw).
  all: injection Hw as <- <-; cbn -[in_width range_ok wf text_ok]; rewrite ?length_app.
  all: split; [|done].
  all: split; [lia|]; done.
Qed.

Lemma buffer_event_preserves data boundary g ts q s s' x :
  buffer_event data boundary g ts q s = (s', x) → event_ok s data g ts q →
  is_binlog_open s = true → streaming_inv s → streaming_inv s' ∧ is_binlog_open s' = true.
Proof.
  intros Hw He Hopen Hi. destruct (streaming_appending s Hi Hopen) as (records & r & c & Hrec & Ha & _).
  pose proof Ha as (Hset & _ & Hlast & _ & Hs & _). destruct Hi as (Hmode & Hmem & _ & Hd & Hmagic).
  destruct (buffer_event_members _ _ _ _ _ _ _ _ Hw He Hmem) as (Hmem' & Hbuf & Hcm & Hbk & Hr & Hrm).
  assert (is_binlog_open s' = true) as Hopen' by (unfold is_binlog_open; by rewrite Hbk).
  split; [|done]. split; [by rewrite Hcm|]. split; [done|]. split; [|by rewrite Hrm, Hr, Hbk].
  unfold stream_ok. rewrite Hopen', Hbk, Hr, Hbuf. exists r.
  split; [done|]. split; [done|]. split; [|exact Hset].
  destruct He as (_ & _ & _ & Hlen). unfold get_flushed_position, get_current_binlog_record in Hlen.
  by rewrite Hlast in Hlen.
Qed.

Lemma write_preserves now data boundary g ts q s s' :
  write_event now data boundary g ts q s = (s', Ok ()) → event_ok s data g ts q →
  is_binlog_open s = true → streaming_inv s → streaming_inv s'.
Proof.
  intros Hw He Hopen Hi. pose proof Hi as [Hmode _]. unfold write_event in Hw.
  rewrite (action_bind_eq _ _ _ _ _ (streaming_ok _ Hmode)) in Hw.
  apply action_bind_ok in Hw as (s1 & [] & Hb & Hw).
  destruct (buffer_event_preserves _ _ _ _ _ _ _ _ Hb He Hopen Hi) as [Hi1 Hopen1].
  rewrite gets_bind in Hw. destruct (has_event_data_to_flush s1); [|by injection Hw as <-].
  rewrite !gets_bind in Hw. destruct (needs_flush now s1); [|by injection Hw as <-].
  apply action_bind_ok in Hw as (s2 & [] & Hf & Hw). rewrite modify_bind in Hw. injection Hw as <-.
  by eapply checkpoint_preserves, flush_preserves.
Qed.

Lemma flush_event_buffer_preserves s s' :
  flush_event_buffer s = (s', Ok ()) → is_binlog_open s = true → streaming_inv s →
  streaming_inv s' ∧ st_boundary_position s' = 0%nat ∧ is_binlog_open s' = true.
Proof.
  intros Hf Hopen Hi. pose proof Hi as [Hmode _]. unfold flush_event_buffer in Hf.
  rewrite (action_bind_eq _ _ _ _ _ (streaming_ok _ Hmode)), gets_bind in Hf.
  destruct (has_event_data_to_flush s) eqn:Ed.
  - split; [by eapply flush_preserves|].
    destruct (streaming_appending s Hi Hopen) as (records & r & c & Hrec & Ha & _).
    destruct (flush_internal_inv _ _ _ _ _ Hf Ha) as (bb & -> & Hbo & _).
    destruct (flushed_state_members bb s) as (Hbk & _ & _ & _ & Hb & _).
    unfold is_binlog_open. by rewrite Hbk.
  - injection Hf as <-. unfold has_event_data_to_flush in Ed. by to_prop.
Qed.

Lemma discard_preserves s s' :
  discard_incomplete_transaction_events s = (s', Ok ()) → streaming_inv s → streaming_inv s'.
Proof.
  intros Hd Hi. pose proof Hi as [Hmode _]. unfold discard_incomplete_transaction_events in Hd.
  rewrite (action_bind_eq _ _ _ _ _ (streaming_ok _ Hmode)), !modify_bind in Hd. injection Hd as <-.
  destruct Hi as (_ & (Hb & Hrt & Hit & Hrs & His & Hpg & Hbg) & Hso & Hdisk).
  split; [done|]. split; [|split; [|done]].
  - unfold members_ok. cbn -[in_width]. rewrite length_take_le by done. split_and!; try done; apply Hpg || apply Hbg.
  - unfold stream_ok in *. cbn. unfold is_binlog_open in *. cbn. destruct (is_stream_open _).
    + destruct Hso as (r & Hl & Hs & Hlen & Hset). exists r.
      split; [done|]. split; [done|]. split; [|exact Hset]. rewrite length_take_le by done. lia.
    + destruct Hso as [Hs Hbuf]. split; [done|]. by rewrite Hbuf, take_nil.
Qed.

Lemma close_preserves now s s' :
  close_binlog now s = (s', Ok ()) → is_binlog_open s = true → streaming_inv s → streaming_inv s'.
Proof.
  intros Hc Hopen Hi. pose proof Hi as [Hmode _]. unfold close_binlog in Hc.
  rewrite (action_bind_eq _ _ _ _ _ (streaming_ok _ Hmode)) in Hc.
  apply action_bind_ok in Hc as (s1 & [] & Hf & Hc).
  destruct (flush_event_buffer_preserves _ _ Hf Hopen Hi) as (Hi1 & Hb0 & Hopen1).
  rewrite modify_bind in Hc. apply action_bind_ok in Hc as (s2 & [] & Hcl & Hc).
  eapply update_checkpoint_preserves; [done|].
  destruct (streaming_appending s1 Hi1 Hopen1) as (records & r & c & Hrec & ([_ Heq] & _ & _ & _ & Hs & _) & _).
  destruct Hi1 as (Hm1 & (_ & Hrt & Hit & Hrs & His & Hpg & Hbg) & _ & Hdisk & Hmagic).
  destruct (close_stream_inv _ _ _ _ Hcl Hopen1 Hs) as (_ & bb & -> & Hbb & Ho & _ & Hstr).
  cbn in Ho. rewrite Heq in Ho.
  split_and!.
  - done.
  - unfold members_ok. cbn -[in_width]. rewrite Hb0. split_and!; try done; apply Hpg || apply Hbg.
  - unfold stream_ok, is_binlog_open, is_stream_open. cbn. by rewrite Hbb.
  - cbn in Ho |- *. by rewrite Ho.
  - done.
Qed.
End streaming.

(** ** Opening a binlog keeps the invariant *)
Section opening.
Context `{StorageBackendLaws B} `{IntervalSetLaws} `{BoostUuidLaws} `{BoostPosixTimeLaws} `{BoostJsonLaws}.
Implicit Types (s : storage (B := B)) (r : binlog_record) (n : composite_binlog_name).

Lemma open_stream_inv (n : object_name) mode s s' x :
  on_backend (open_stream n mode) s = (s', x) → name_ok n → is_binlog_open s = false → strm s = None →
  match x with
  | Ok offset =>
      ∃ bb, s' = set_backend bb s ∧ bb_stream_open bb = true ∧ stream_in bb = Some n ∧
        intact (bb_impl bb) ∧
        objects_in bb = <[n := old_content mode (objs s !! n)]> (objs s) ∧
        (durable_in bb = objs s ∨ durable_in bb = objects_in bb) ∧
        offset = Z.of_nat (length (old_content mode (objs s !! n)))
  | Err _ => ∃ bb, s' = set_backend bb s ∧ objects_in bb = objs s
  end.
Proof.
  intros (bb & Ho & ->)%on_backend_inv Hn Hopen Hs. unfold open_stream in Ho.
  unfold is_binlog_open in Hopen. rewrite gets_bind, Hopen in Ho.
  rewrite (action_bind_eq (throw_if false _) _ _ (st_backend s) ()) in Ho by done.
  unfold mbind at 1, action_bind at 1 in Ho.
  destruct (virtually (do_open_stream n mode) (st_backend s)) as [b1 [offset|e]] eqn:E;
    apply virtually_inv in E as [E _]; pose proof (open_law _ _ _ _ _ E Hn Hs) as Hlaw; cbv zeta in Hlaw.
  - rewrite modify_bind in Ho. injection Ho as <- <-. destruct Hlaw as (Hobj & Hdur & Hst & Hint & Hoff).
    rewrite <-(closed_law _ Hs) in Hdur. exists (set_stream_open true b1). done.
  - injection Ho as <- <-. destruct Hlaw as [Hobj _]. by exists b1.
Qed.

Definition gtid_set_ok (S : gtid_set) : Prop := wf S ∧ text_ok S.

Lemma get_gtids_ok s :
  streaming_inv s → is_in_gtid_replication_mode s = true → gtid_set_ok (get_gtids s).
Proof.
  intros (_ & (_ & _ & _ & _ & _ & Hpg & _) & _ & (_ & Hok & _) & _) Hm. unfold get_gtids. rewrite Hm. cbn.
  destruct (get_current_binlog_record s) as [r|] eqn:E; [|done].
  unfold get_current_binlog_record in E. apply last_split in E as [l El]. rewrite El in Hok.
  apply Forall_app in Hok as [_ Hok]. rewrite Forall_singleton in Hok.
  destruct Hok as (_ & _ & (_ & _ & Hp & Ha & _) & _ & Hgm). cbn in Hp, Ha.
  unfold is_in_gtid_replication_mode in Hm. rewrite Hm in Hgm. destruct Hgm as [Hp' Ha'].
  destruct (br_previous_gtids r) as [P|]; [|done]. destruct (br_added_gtids r) as [A|]; [|done].
  destruct Hp, Ha. by apply text_ok_add_set.
Qed.

Definition new_record s n : binlog_record :=
  let m := is_in_gtid_replication_mode s in
  mk_binlog_record n magic_binlog_offset (if m then Some (get_gtids s) else None)
    (if m then Some empty_set else None) empty_range 0.

Lemma empty_set_ok : gtid_set_ok empty_set.
Proof. split; [apply wf_empty | constructor]. Qed.

Lemma new_record_ok s n :
  streaming_inv s → binlog_name_ok n → 10 ∉ bn_base_name n →
  record_ok (is_in_gtid_replication_mode s) (new_record s n).
Proof.
  intros Hi Hn Hnl. unfold new_record. split; [done|]. split; [done|]. split; [|split; [done|]].
  - unfold metadata_ok. cbn -[in_width empty_set].
    assert (∀ w, 3 ≤ w → in_width w 0 ∧ in_width w magic_binlog_offset) as Hw.
    { intros w Hw. split; (eapply in_width_mono; [exact Hw|]); apply (bool_decide_unpack _); by vm_compute. }
    split; [done|]. split; [apply Hw; lia|]. split.
    { destruct (is_in_gtid_replication_mode s) eqn:Em; [by apply get_gtids_ok | done]. }
    split; [destruct (is_in_gtid_replication_mode s); [apply empty_set_ok | done]|].
    split_and!; apply Hw; lia.
  - cbn. by destruct (is_in_gtid_replication_mode s).
Qed.

(** the three objects a new file brings along *)
Lemma open_new_inv n s s' status :
  open_new_binlog_file_internal n s = (s', Ok status) → binlog_name_ok n →
  is_binlog_open s = true → strm s = Some (binlog_name_str n) → objs s !! binlog_name_str n = Some [] →
  intact (bb_impl (st_backend s)) →
  let r := new_record s n in
  status = created ∧
  ∃ bb, s' = set_backend bb (append_record r s) ∧ bb_stream_open bb = true ∧
    stream_in bb = Some (binlog_name_str n) ∧ settled (bb_impl bb) ∧
    objects_in bb =
      <[default_binlog_index_name := index_content (st_records s ++ [r])]>
        (<[generate_binlog_metadata_name n := binlog_metadata_str (metadata_of_record r)]>
          (<[binlog_name_str n := magic_binlog_payload]> (objs s))).
Proof.
  intros Hop Hn Hopen Hs Hc Hint r. unfold open_new_binlog_file_internal in Hop.
  apply action_bind_ok in Hop as (s1 & [] & Hw & Hop).
  destruct (write_stream_inv _ _ _ _ _ _ Hw Hopen (binlog_name_str_ok _ Hn) Hs Hc Hint)
    as (bb1 & d & -> & Hb1 & Hst1 & _ & Ho1 & _ & Hd).
  destruct (Hd eq_refl) as [-> Hset1]. rewrite !gets_bind, modify_bind in Hop.
  change (append_record _ (set_backend bb1 s)) with (append_record r (set_backend bb1 s)) in Hop.
  apply action_bind_ok in Hop as (s2 & [] & Hm & Hop). unfold save_binlog_metadata in Hm.
  apply put_inv in Hm as (bb2 & -> & Hb2 & Hst2 & Hset2 & Ho2);
    [|by apply metadata_name_ok|apply (metadata_apart r); [done|exact Hst1]].
  destruct Ho2 as [Ho2|[_ [=]]].
  apply action_bind_ok in Hop as (s3 & [] & Hx & Hop). unfold save_binlog_index in Hx.
  rewrite gets_bind in Hx. apply put_inv in Hx as (bb3 & -> & Hb3 & Hst3 & Hset3 & Ho3); [|apply index_name_ok|].
  2: { intros k. cbn. rewrite Hst2. cbn. rewrite Hst1. intros [= <-].
       split; [by apply binlog_name_str_ok|]. apply binlog_name_str_ne; [done|]. left. by vm_compute. }
  destruct Ho3 as [Ho3|[_ [=]]]. injection Hop as <- <-. split; [done|]. exists bb3.
  unfold is_binlog_open, is_stream_open in *. cbn in *.
  split; [done|]. split; [congruence|]. split; [congruence|].
  split; [by apply Hset3, Hset2|]. rewrite Ho3, Ho2, Ho1. done.
Qed.

Lemma open_existing_inv s s' status (c : list Z) :
  open_existing_binlog_file_internal (Z.of_nat (length c)) s = (s', Ok status) →
  magic_binlog_offset ≤ Z.of_nat (length c) →
  s' = s ∧ status = (if Z.of_nat (length c) =? magic_binlog_offset then opened_at_magic_payload_offset
                     else opened_with_data_present).
Proof.
  intros Hop Hc. unfold open_existing_binlog_file_internal in Hop.
  rewrite (proj2 (Z.leb_le _ _) Hc) in Hop. by injection Hop as <- <-.
Qed.

(** the guards of [open_binlog] *)
Lemma open_binlog_guards now n s s' status :
  open_binlog now n s = (s', Ok status) → streaming_inv s →
  let exists_ := bool_decide (n ∈ br_name <$> st_records s) in
  (exists_ = true → n = get_current_binlog_name s) ∧
  ∃ s1 offset s2,
    on_backend (open_stream (binlog_name_str n) (if exists_ then mode_append else mode_create)) s =
      (s1, Ok offset) ∧
    (if exists_ then
       status ← open_existing_binlog_file_internal offset;
       r ← current_record;
       _ ← modify (set_ready_sequence_number (br_last_sequence_number r));
       _ ← modify (set_incomplete_sequence_number (br_last_sequence_number r));
       mret status
     else
       status ← open_new_binlog_file_internal n;
       _ ← modify (set_ready_sequence_number 0);
       _ ← modify (set_incomplete_sequence_number 0);
       mret status) s1 = (s2, Ok status) ∧
    update_last_checkpoint_info now s2 = (s', Ok ()).
Proof.
  intros Hop [Hmode _] ex. unfold open_binlog in Hop.
  rewrite (action_bind_eq _ _ _ _ _ (streaming_ok _ Hmode)), !gets_bind in Hop.
  apply action_bind_ok in Hop as (s1 & [] & Hg1 & Hop). apply throw_if_inv in Hg1 as [-> [[_ [=]]|[Hg1 _]]].
  apply action_bind_ok in Hop as (s1 & [] & Hg2 & Hop). apply throw_if_inv in Hg2 as [-> _].
  apply action_bind_ok in Hop as (s1 & offset & Ho & Hop).
  apply action_bind_ok in Hop as (s2 & st & Hin & Hop).
  apply action_bind_ok in Hop as (s3 & [] & Hup & Hop). injection Hop as -> ->.
  split; [|by exists s1, offset, s2]. subst ex. intros Hex. rewrite Hex in Hg1. cbn in Hg1. by to_prop.
Qed.

Lemma reset_sequence_preserves q s :
  in_width 64 q → streaming_inv s →
  streaming_inv (set_incomplete_sequence_number q (set_ready_sequence_number q s)).
Proof. intros Hq (Hm & (Hb & Hrt & Hit & _ & _ & Hx) & Hrest). done. Qed.

(** a new file: the invariant holds again once its three objects are written *)
Lemma open_new_preserves n s bb s2 status :
  streaming_inv s → is_binlog_open s = false → binlog_name_ok n → 10 ∉ bn_base_name n →
  n ∉ br_name <$> st_records s →
  bb_stream_open bb = true → stream_in bb = Some (binlog_name_str n) →
  objects_in bb = <[binlog_name_str n := []]> (objs s) → intact (bb_impl bb) →
  open_new_binlog_file_internal n (set_backend bb s) = (s2, Ok status) → streaming_inv s2.
Proof.
  intros Hi Hclosed Hn Hnl Hnew Hb Hst Ho Hint Hop.
  destruct (open_new_inv _ _ _ _ Hop Hn) as (_ & bb2 & -> & Hb2 & Hst2 & Hset2 & Ho2).
  { done. } { done. } { cbn. rewrite Ho. apply lookup_insert_eq. } { done. }
  change (new_record (set_backend bb s) n) with (new_record s n) in *.
  pose proof (new_record_ok s n Hi Hn Hnl) as Hr. destruct Hi as (Hmode & Hmem & Hso & Hd & Hmagic).
  unfold stream_ok in Hso. rewrite Hclosed in Hso. destruct Hso as [_ Hbuf].
  split; [done|]. split; [done|]. split; [|split].
  - unfold stream_ok, is_binlog_open, is_stream_open. cbn. rewrite Hb2.
    exists (new_record s n). rewrite last_snoc, Hbuf.
    split; [done|]. split; [done|]. split; [by vm_compute|exact Hset2].
  - cbn [st_backend set_backend st_records append_record set_records st_replication_mode].
    rewrite Ho2. cbn [st_backend set_backend st_records]. rewrite Ho, insert_insert_eq.
    by apply (on_disk_append _ _ (new_record s n)).
  - cbn. apply Forall_app. split; [done|]. by apply Forall_singleton.
Qed.

(** an existing file: it is the last one, and opening it changes no object *)
Lemma open_existing_preserves n s s1 s2 offset status :
  streaming_inv s → is_binlog_open s = false → n ∈ br_name <$> st_records s →
  n = get_current_binlog_name s →
  on_backend (open_stream (binlog_name_str n) mode_append) s = (s1, Ok offset) →
  open_existing_binlog_file_internal offset s1 = (s2, Ok status) →
  streaming_inv s2 ∧ ∃ r, last (st_records s2) = Some r ∧ in_width 64 (br_last_sequence_number r).
Proof.
  intros Hi Hclosed Hin Hcur Ho Hop. pose proof Hi as (Hmode & Hmem & Hso & Hd & Hmagic).
  unfold stream_ok in Hso. rewrite Hclosed in Hso. destruct Hso as [Hs Hbuf].
  unfold get_current_binlog_name, get_current_binlog_record in Hcur.
  destruct (last (st_records s)) as [r|] eqn:El.
  2: { apply last_None in El. rewrite El in Hin. by apply not_elem_of_nil in Hin. }
  destruct (last_split _ _ El) as [l Hl]. pose proof Hd as (_ & Hok & Hst & _). rewrite Hl in Hok, Hst, Hmagic.
  apply Forall_app in Hok as [_ Hok], Hst as [_ Hst], Hmagic as [Hmg1 Hmg2].
  rewrite Forall_singleton in Hok, Hst, Hmg2. destruct Hst as [_ (c & Hc & Hsz)].
  pose proof Hok as (Hn & _ & (_ & _ & _ & _ & _ & _ & Hq) & _). subst n.
  destruct (open_stream_inv _ _ _ _ _ Ho) as (bb & -> & Hb & Hst & Hint & Hobj & Hdur & Hoff);
    [by apply binlog_name_str_ok|done|done|].
  rewrite Hc in Hobj, Hoff. cbn in Hobj, Hoff. rewrite insert_id in Hobj by done. subst offset.
  assert (settled (bb_impl bb)) as Hset by (split; [done|]; by destruct Hdur as [-> | ->]).
  apply open_existing_inv in Hop as [-> _]; [|by rewrite <-Hsz].
  split; [|exists r; done]. split; [done|]. split; [done|]. split; [|split].
  - unfold stream_ok, is_binlog_open, is_stream_open. cbn. rewrite Hb. exists r. rewrite Hbuf.
    split; [done|]. split; [done|]. split; [|exact Hset].
    destruct Hok as (_ & _ & (_ & [_ Hw] & _) & _). cbn in Hw |- *. lia.
  - cbn [st_backend set_backend]. by rewrite Hobj.
  - cbn. rewrite Hl. apply Forall_app. split; [done|]. by apply Forall_singleton.
Qed.

Lemma open_preserves now n s s' status :
  open_binlog now n s = (s', Ok status) → binlog_name_ok n → 10 ∉ bn_base_name n →
  is_binlog_open s = false → streaming_inv s → streaming_inv s'.
Proof.
  intros Hop Hn Hnl Hclosed Hi.
  destruct (open_binlog_guards _ _ _ _ _ Hop Hi) as (Hcur & s1 & offset & s2 & Ho & Hin & Hup).
  eapply update_checkpoint_preserves; [done|].
  destruct (bool_decide (n ∈ br_name <$> st_records s)) eqn:Ex; to_prop.
  - apply action_bind_ok in Hin as (s3 & st & Hex & Hin).
    destruct (open_existing_preserves _ _ _ _ _ _ Hi Hclosed Ex (Hcur eq_refl) Ho Hex) as (Hi3 & r & Hl & Hq).
    rewrite (action_bind_eq _ _ _ _ _ (current_record_last _ _ Hl)), !modify_bind in Hin.
    injection Hin as <- _. by apply reset_sequence_preserves.
  - apply action_bind_ok in Hin as (s3 & st & Hnew & Hin). rewrite !modify_bind in Hin.
    injection Hin as <- _. apply reset_sequence_preserves; [done|].
    pose proof Hi as (_ & _ & Hso & _). unfold stream_ok in Hso. rewrite Hclosed in Hso.
    destruct Hso as [Hs _].
    destruct (open_stream_inv _ _ _ _ _ Ho) as (bb & -> & Hb & Hst & Hint & Hobj & _ & _);
      [by apply binlog_name_str_ok|done|done|].
    by eapply open_new_preserves.
Qed.
End opening.

(** ** Every state a streaming storage reaches *)
Section reachable.
Context `{StorageBackendLaws B} `{IntervalSetLaws} `{BoostUuidLaws} `{BoostPosixTimeLaws} `{BoostJsonLaws}.
Implicit Types (s : storage (B := B)).

(** a storage that has just been constructed over an empty backend *)
Definition initial_storage s : Prop :=
  ∃ bb mode checkpoint_size checkpoint_interval,
    make_storage streaming bb mode checkpoint_size checkpoint_interval = Ok s ∧
    durable_in bb = ∅ ∧ stream_in bb = None ∧ bb_stream_open bb = false.

(** a new process that constructs a storage over the objects [s] has left *)
Definition reopens (cmode : storage_construction_mode_type) (checkpoint_size checkpoint_interval : Z) s s' : Prop :=
  ∃ bb, durable_in bb = disk s ∧ stream_in bb = None ∧ bb_stream_open bb = false ∧
    reliable (bb_impl bb) ∧ all_loadable (st_replication_mode s) (st_records s) ∧
    make_storage cmode bb (st_replication_mode s) checkpoint_size checkpoint_interval = Ok s'.

(** the operations, as the program uses them, when they succeed; the process may end
    between any two of them, and the purge command may run while it is down *)
Inductive storage_step : storage → storage → Prop :=
  | step_set_purged gtids s s' :
      gtid_set_ok gtids → set_purged gtids s = (s', Ok ()) → storage_step s s'
  | step_open now n status s s' :
      binlog_name_ok n → 10 ∉ bn_base_name n → is_binlog_open s = false →
      open_binlog now n s = (s', Ok status) → storage_step s s'
  | step_write now data boundary g ts q s s' :
      event_ok s data g ts q → is_binlog_open s = true →
      write_event now data boundary g ts q s = (s', Ok ()) → storage_step s s'
  | step_flush s s' :
      is_binlog_open s = true → flush_event_buffer s = (s', Ok ()) → storage_step s s'
  | step_discard s s' :
      discard_incomplete_transaction_events s = (s', Ok ()) → storage_step s s'
  | step_close now s s' :
      is_binlog_open s = true → close_binlog now s = (s', Ok ()) → storage_step s s'
  | step_restart checkpoint_size checkpoint_interval s s' :
      reopens streaming checkpoint_size checkpoint_interval s s' → storage_step s s'
  | step_purge checkpoint_size checkpoint_interval target removed s s1 s2 s' :
      reopens purging checkpoint_size checkpoint_interval s s1 →
      purge_binlogs target s1 = (s2, Ok (removed, None)) →
      reopens streaming checkpoint_size checkpoint_interval s2 s' → storage_step s s'.

Inductive storage_reachable : storage → Prop :=
  | reach_initial s : initial_storage s → storage_reachable s
  | reach_step s s' : storage_reachable s → storage_step s s' → storage_reachable s'.

Lemma initial_inv s : initial_storage s → streaming_inv s.
Proof.
  intros (bb & mode & cs & ci & Hm & Ho & Hs & Hb). unfold make_storage in Hm.
  destruct (load_storage _ _) as [s1 [[]|e]] eqn:E; [|done]. injection Hm as ->.
  unfold load_storage in E. rewrite gets_bind in E.
  apply action_bind_ok in E as (s1 & so & Hl & E). apply on_backend_inv in Hl as (bb1 & Hl & ->).
  apply virtually_inv in Hl as [Hl Hb1]. apply list_law in Hl as [(Ho1 & _ & Hs1 & _) Hso].
  cbn in Ho1, Hs1, Hso, Hb1. rewrite (closed_law _ Hs), Ho in Ho1. rewrite Ho in Hso.
  rewrite (Hso _ eq_refl), sizes_empty in E.
  rewrite !bool_decide_true in E by done. unfold save_metadata in E. rewrite gets_bind in E.
  apply put_inv in E as (bb2 & -> & Hb2 & Hs2 & _ & Ho2);
    [|apply storage_metadata_name_ok|intros k; cbn; by rewrite Hs1, Hs].
  destruct Ho2 as [Ho2|[_ [=]]]. cbn in Hb2, Hs2, Ho2. rewrite Ho1 in Ho2.
  unfold is_binlog_open, is_stream_open in Hb2. cbn in Hb2.
  split; [done|]. split; [|split; [|split; [|done]]].
  - unfold members_ok. cbn -[in_width empty_set]. split_and!; try done; apply wf_empty || constructor.
  - unfold stream_ok, is_binlog_open, is_stream_open. cbn. rewrite Hb2, Hb1, Hb. split; [congruence|done].
  - cbn. rewrite Ho2. split_and!; try done; [constructor|].
    intros k [c Hk]. left. apply lookup_insert_Some in Hk as [[<- _]|[_ Hk]]; done.
Qed.

(** the invariant is about what is on disk, not only about what the process sees *)
Lemma inv_durable s : streaming_inv s → disk s = objs s.
Proof.
  intros (_ & _ & Hso & _). unfold stream_ok in Hso. destruct (is_binlog_open s).
  - by destruct Hso as (r & _ & _ & _ & _ & ?).
  - destruct Hso as [Hs _]. by rewrite (closed_law _ Hs).
Qed.
Lemma inv_on_disk s :
  streaming_inv s → on_disk (st_replication_mode s) (st_records s) (disk s).
Proof. intros Hi. rewrite inv_durable by done. by destruct Hi as (_ & _ & _ & ? & _). Qed.

(** what a reopened storage is, whatever left the objects *)
Lemma reopens_inv cmode cs ci s s' :
  reopens cmode cs ci s s' → on_disk (st_replication_mode s) (st_records s) (disk s) →
  ∃ bb bb' p, s' = loaded bb' (st_records s) p (default_storage cmode bb (st_replication_mode s) cs ci) ∧
    objs s' = disk s ∧ disk s' = disk s ∧ strm s' = None ∧ is_binlog_open s' = false ∧
    (p = empty_set ∨ ∃ r, r ∈ st_records s ∧ br_added_gtids r = Some p).
Proof.
  intros (bb & Ho & Hs & Hb & Hrel & Hld & Hm) Hd. rewrite <-Ho in Hd.
  destruct (load_storage_ok cmode (st_replication_mode s) cs ci bb _ Hd Hrel Hld) as (bb' & p & Hl & [(H1' & H2' & H3' & _) H4'] & Hp).
  rewrite Hm in Hl. injection Hl as ->. exists bb, bb', p. cbn.
  pose proof (closed_law _ Hs).
  split; [done|]. split; [congruence|]. split; [congruence|]. split; [congruence|]. split; [|done].
  unfold is_binlog_open, is_stream_open. cbn. congruence.
Qed.

Lemma reopens_streaming cs ci s s' :
  reopens streaming cs ci s s' → on_disk (st_replication_mode s) (st_records s) (disk s) →
  Forall (λ r, magic_binlog_offset ≤ br_size r) (st_records s) → streaming_inv s'.
Proof.
  intros Hr Hd Hsz. destruct (reopens_inv _ _ _ _ _ Hr Hd) as (bb & bb' & p & -> & Ho & _ & Hs & Hb & Hp).
  split; [done|]. split; [|split; [|split; [|done]]].
  - unfold members_ok. cbn -[in_width empty_set]. split; [lia|].
    split; [apply range_ok_empty|]. split; [apply range_ok_empty|]. split; [done|]. split; [done|].
    split; [|apply empty_set_ok]. destruct Hp as [-> |(r & Hin & Hr')]; [apply empty_set_ok|].
    destruct Hd as (_ & Hok & _). rewrite Forall_forall in Hok.
    destruct (Hok r Hin) as (_ & _ & (_ & _ & _ & Ha & _) & _). cbn in Ha. rewrite Hr' in Ha. done.
  - unfold stream_ok. rewrite Hb. done.
  - change (on_disk (st_replication_mode s) (st_records s) (objs (loaded bb' (st_records s) p
      (default_storage streaming bb (st_replication_mode s) cs ci)))). by rewrite Ho.
Qed.

Lemma purge_reopens cs ci target removed s s1 s2 s' :
  reopens purging cs ci s s1 → purge_binlogs target s1 = (s2, Ok (removed, None)) →
  reopens streaming cs ci s2 s' → streaming_inv s → streaming_inv s'.
Proof.
  intros H1' Hp H2' Hi. pose proof (inv_on_disk s Hi) as Hd. destruct Hi as (_ & _ & _ & _ & Hsz).
  destruct (reopens_inv _ _ _ _ _ H1' Hd) as (bb & bb' & p & Hs1 & _ & Ho & Hs & _).
  assert (st_records s1 = st_records s ∧ st_replication_mode s1 = st_replication_mode s) as [Hrec Hmode]
    by (by rewrite Hs1). clear Hs1.
  rewrite <-Ho, <-Hrec, <-Hmode in Hd. rewrite <-Hrec in Hsz.
  destruct (purge_ok _ _ _ _ _ Hp Hd Hs) as (Hsplit & _ & _ & _ & _ & _ & _ & _ & Hd2 & _).
  rewrite Hsplit in Hsz. apply Forall_app in Hsz as [_ Hsz].
  exact (reopens_streaming _ _ _ _ H2' (Hd2 eq_refl) Hsz).
Qed.

Lemma step_inv s s' : storage_step s s' → streaming_inv s → streaming_inv s'.
Proof.
  intros Hst. destruct Hst as [gtids s s' Hg Hop|now n status s s' Hn Hnl Hc Hop|now data b g ts q s s' He Ho Hop
    |s s' Ho Hop|s s' Hop|now s s' Ho Hop|cs ci s s' Hop|cs ci target removed s s1 s2 s' Hop1 Hop2 Hop3]; intros Hi.
  - unfold set_purged in Hop. rewrite gets_bind in Hop.
    apply action_bind_ok in Hop as (s1 & [] & Hg1 & Hop). apply throw_if_inv in Hg1 as [-> _].
    rewrite gets_bind in Hop. apply action_bind_ok in Hop as (s1 & [] & Hg2 & Hop).
    apply throw_if_inv in Hg2 as [-> _]. injection Hop as <-.
    by destruct Hi as (Hm & (Hb & Hrt & Hit & Hrs & His & _ & Hbg) & Hrest).
  - by eapply open_preserves.
  - by eapply write_preserves.
  - by eapply flush_event_buffer_preserves.
  - by eapply discard_preserves.
  - by eapply close_preserves.
  - pose proof (inv_on_disk s Hi) as Hd. destruct Hi as (_ & _ & _ & _ & Hsz). by eapply reopens_streaming.
  - by eapply purge_reopens.
Qed.

Lemma reachable_inv s : storage_reachable s → streaming_inv s.
Proof. induction 1 as [s Hs|s s' _ IH Hst]; [by apply initial_inv | by eapply step_inv]. Qed.

(** C7: every state a streaming storage reaches satisfies its invariant: the objects of the
    backend are exactly those the records describe (index, metadata, files of the recorded
    sizes), only the end of the buffer is an incomplete transaction, the collected time
    stamps, sequence numbers and GTID sets are in range, and the open stream, if any,
    appends to the last file. *)
Theorem storage_invariant s : storage_reachable s → streaming_inv s.
Proof. apply reachable_inv. Qed.

(** C6: wherever a streaming storage is when the process ends between two operations, a new
    storage constructed over the objects it left accepts them and starts from the same
    records: the same current file, the same flushed position and the same GTIDs. *)
Theorem restart_after_any_run s bb cmode checkpoint_size checkpoint_interval :
  storage_reachable s → durable_in bb = disk s → reliable (bb_impl bb) →
  all_loadable (st_replication_mode s) (st_records s) →
  ∃ s', make_storage cmode bb (st_replication_mode s) checkpoint_size checkpoint_interval = Ok s' ∧
    st_records s' = st_records s ∧
    get_current_binlog_name s' = get_current_binlog_name s ∧
    get_flushed_position s' = get_flushed_position s ∧
    (st_records s ≠ [] → get_gtids s' = get_gtids s).
Proof.
  intros Hr Ho Hrel Hld. pose proof (inv_on_disk s (reachable_inv s Hr)) as Hd.
  rewrite <-Ho in Hd.
  destruct (load_storage_ok cmode _ checkpoint_size checkpoint_interval _ _ Hd Hrel Hld)
    as (bb' & p & Hs' & _).
  eexists. split; [exact Hs'|]. unfold get_current_binlog_name, get_flushed_position, get_gtids,
    get_current_binlog_record, is_in_gtid_replication_mode. cbn. split_and!; [done..|].
  intros Hne. destruct (last (st_records s)) eqn:E; [done|]. by apply last_None in E.
Qed.
End reachable.

Module DiskExamples.
Import IntervalList UuidModel MetadataExamples BackendExamples LogExamples.

(** two binlog files, the first with one transaction *)
Definition binlog_2 : composite_binlog_name := mk_binlog_name (text "binlog") 2.
Definition started : storage :=
  match make_storage streaming (mk_basic_backend blank false) mode_gtid 0 0 with
  | Ok s => s
  | Err _ => default_storage streaming (mk_basic_backend blank false) mode_gtid 0 0
  end.
Definition first_open : storage := (open_binlog 0 binlog_1 started).1.
Definition first_written : storage := (write_event 0 [1; 2; 3] true g7 5 1 first_open).1.
Definition first_closed : storage := (close_binlog 0 first_written).1.
Definition second_open : storage := (open_binlog 0 binlog_2 first_closed).1.

Lemma binlog_2_ok : binlog_name_ok binlog_2.
Proof. apply (bool_decide_unpack _). by vm_compute. Qed.

Lemma g7_ok : gtid_ok g7.
Proof.
  unfold gtid_ok, gtid_parts_ok. split; [apply (bool_decide_unpack _); by vm_compute|].
  split; [by vm_compute|]. split; [|split; by vm_compute]. apply (bool_decide_unpack _); by vm_compute.
Qed.

Lemma started_initial : initial_storage started.
Proof. exists (mk_basic_backend blank false), mode_gtid, 0, 0. split; by vm_compute. Qed.

Lemma second_open_reachable : storage_reachable second_open.
Proof.
  apply (reach_step first_closed); [apply (reach_step first_written); [apply (reach_step first_open);
    [apply (reach_step started); [apply reach_initial, started_initial|]|]|]|].
  - apply (step_open 0 binlog_1 created); [apply binlog_1_ok|set_solver by done|by vm_compute|].
    run_action.
  - apply (step_write 0 [1; 2; 3] true g7 5 1).
    + split; [right; apply g7_ok|]. split; [done|]. split; [done|]. by vm_compute.
    + by vm_compute.
    + run_action.
  - apply (step_close 0); [by vm_compute|]. run_action.
  - apply (step_open 0 binlog_2 created); [apply binlog_2_ok|set_solver by done|by vm_compute|].
    run_action.
Qed.

(** the directory a storage leaves, seen by a new process *)
Definition unplugged (s : storage) : basic_storage_backend filesystem_backend :=
  mk_basic_backend (mk_filesystem (fs_dir (bb_impl (st_backend s))) false None []) false.
Lemma unplugged_objects s : durable_in (unplugged s) = disk s.
Proof. reflexivity. Qed.
Lemma unplugged_reliable s : reliable (bb_impl (unplugged s)).
Proof. exact (conj eq_refl eq_refl). Qed.
Abbreviation left_over := (unplugged second_open).

Definition purged_view : storage :=
  match make_storage purging left_over mode_gtid 0 0 with
  | Ok s => s
  | Err _ => started
  end.
Definition after_purge : storage := (purge_binlogs binlog_1 purged_view).1.

Lemma second_open_loadable : all_loadable (st_replication_mode second_open) (st_records second_open).
Proof.
  split; [by vm_compute|]. split; [by vm_compute|]. apply (bool_decide_unpack _). by vm_compute.
Qed.

Lemma left_over_loadable : all_loadable mode_gtid (st_records second_open).
Proof.
  pose proof second_open_loadable as Hl.
  assert (st_replication_mode second_open = mode_gtid) as Hm by (by vm_compute). by rewrite Hm in Hl.
Qed.

Lemma second_open_on_disk :
  on_disk mode_gtid (st_records second_open) (durable_in left_over).
Proof.
  rewrite unplugged_objects. pose proof (inv_on_disk _ (reachable_inv _ second_open_reachable)) as Hd.
  assert (st_replication_mode second_open = mode_gtid) as Hm by (by vm_compute). by rewrite Hm in Hd.
Qed.

Lemma storage_invariant_witness :
  length (st_records second_open) = 2%nat ∧ streaming_inv second_open.
Proof. split; [by vm_compute|]. apply (storage_invariant second_open), second_open_reachable. Defined.

Lemma restart_recovers_witness :
  ∃ s, make_storage querying_only left_over mode_gtid 0 0 = Ok s ∧
    st_records s = st_records second_open ∧ st_replication_mode s = mode_gtid ∧
    disk s = durable_in left_over ∧ st_event_buffer s = [].
Proof.
  apply (restart_recovers querying_only mode_gtid 0 0 left_over (st_records second_open));
    [apply second_open_on_disk | apply unplugged_reliable |].
  apply left_over_loadable.
Defined.

Lemma restart_after_any_run_witness :
  ∃ s', make_storage streaming left_over (st_replication_mode second_open) 0 0 = Ok s' ∧
    st_records s' = st_records second_open ∧
    get_current_binlog_name s' = get_current_binlog_name second_open ∧
    get_flushed_position s' = get_flushed_position second_open ∧
    (st_records second_open ≠ [] → get_gtids s' = get_gtids second_open).
Proof.
  apply (restart_after_any_run second_open left_over streaming 0 0);
    [apply second_open_reachable | apply unplugged_objects | apply unplugged_reliable | apply second_open_loadable].
Defined.

Lemma purged_view_loaded :
  st_records purged_view = st_records second_open ∧ disk purged_view = durable_in left_over ∧
  strm purged_view = None.
Proof.
  destruct (load_storage_ok purging mode_gtid 0 0 left_over (st_records second_open))
    as (bb & p & Hs & [(_ & Ho & Hst & _) _] & _);
    [apply second_open_on_disk | apply unplugged_reliable | apply left_over_loadable|].
  unfold purged_view. rewrite Hs. destruct (loaded_members bb (st_records second_open) p
    (default_storage purging left_over mode_gtid 0 0)) as [-> ->].
  split; [reflexivity|]. split; [exact Ho|]. rewrite Hst. reflexivity.
Qed.

End DiskExamples.
