(* ===== verification/StorageLoad.v ===== *)
(** * What a storage that opens is made of

    The constructor of [storage] (src/src/binsrv/storage.cpp) checks the objects it finds.
    StorageDisk.v shows that it accepts whatever the program leaves; this file shows that it
    accepts nothing else: a storage that is constructed for streaming or purging is
    consistent with the objects of the backend, file by file.

    The storage over S3 is the example: a failed upload that is repeated leaves a storage
    that is refused. *)

From stdpp Require Import gmap.
From S2P Require Import Prelude.
From S2P Require Import ByteSpan.
From S2P Require Import IntervalSet.
From S2P Require Import Gtid.
From S2P Require Import GtidSet.
From S2P Require Import GtidSetText.
From S2P Require Import Util.
From S2P Require Import Backend.
From S2P Require Import S3Client.
From S2P Require Import S3Backend.
From S2P Require Import Protocol.
From S2P Require Import ReaderContext.
From S2P Require Import Metadata.
From S2P Require Import Storage.
From S2P Require Import StorageLog.
From S2P Require Import StorageDisk.

Local Open Scope Z_scope.

Section loading.
Context `{StorageBackendLaws B} `{IntervalSetLaws} `{BoostUuidLaws} `{BoostPosixTime} `{BoostJson}.
Implicit Types (s : storage (B := B)) (r : binlog_record) (n : composite_binlog_name).

(** a step that only reads objects *)
Definition only_reads s s' : Prop :=
  disk s' = disk s ∧ st_construction_mode s' = st_construction_mode s ∧
  st_replication_mode s' = st_replication_mode s.
#[local] Instance only_reads_preorder : PreOrder only_reads.
Proof. unfold only_reads. split; [done|]. intros ??? (-> & -> & ->). done. Qed.

Lemma get_reads (k : object_name) s s' x :
  on_backend (get_object k) s = (s', x) → name_ok k →
  only_reads s s' ∧ st_records s' = st_records s ∧ (∀ c, x = Ok c → disk s !! k = Some c).
Proof.
  intros (bb & Hg & ->)%on_backend_inv Hk. apply virtually_inv in Hg as [Hg _].
  apply get_law in Hg as [(_ & Hd & _) Hc]; [|done]. done.
Qed.

(** the metadata of [r] are in their object, and the names the listing shows have it *)
Definition backed_by (metas : object_container) s r : Prop :=
  is_Some (metas !! generate_binlog_metadata_name (br_name r)) ∧
  ∃ c m, disk s !! generate_binlog_metadata_name (br_name r) = Some c ∧
         parse_binlog_metadata c = Ok m ∧ r = record_of_metadata (br_name r) m.

Lemma load_listed_inv metas n s s' x :
  try_catch (load_listed_metadata metas n) s = (s', Ok x) → binlog_name_ok n →
  only_reads s s' ∧ st_records s' = st_records s ∧
  (∀ r, x = inl r → br_name r = n ∧ backed_by metas s r).
Proof.
  intros Hl Hn. unfold try_catch in Hl.
  destruct (load_listed_metadata metas n s) as [s1 y] eqn:E.
  assert (only_reads s s1 ∧ st_records s1 = st_records s ∧
    ∀ r, y = Ok r → br_name r = n ∧ backed_by metas s r) as (Hr & Hrec & Hy).
  { unfold load_listed_metadata, load_binlog_metadata in E.
    apply action_bind_inv in E as [(e & -> & E)|(s2 & [] & Ht & E)]; [by apply throw_if_inv in E as [-> _]|].
    apply throw_if_inv in Ht as [-> [[_ [=]]|[Hm _]]]. to_prop.
    apply action_bind_inv in E as [(e & -> & E)|(s2 & c & Hg & E)].
    { by apply get_reads in E as (? & ? & _); [|by apply metadata_name_ok]. }
    apply get_reads in Hg as (Hr & Hrec & Hc); [|by apply metadata_name_ok].
    apply action_bind_inv in E as [(e & -> & E)|(s3 & m & Hp & E)]; [by injection E as <- _|].
    injection Hp as <- Hp. injection E as <- <-. split; [done|]. split; [done|].
    intros r [= <-]. split; [done|]. split; [by apply not_eq_None_Some|]. exists c, m. by rewrite <-Hc. }
  destruct y as [r|e]; [|destruct (is_exception e); [|done]]; injection Hl as <- <-;
    (split; [done|]; split; [done|]); [|done]. intros r' [= ->]. by apply Hy.
Qed.

(** what the loop has checked of a record *)
Definition validated (names metas : object_container) s r : Prop :=
  backed_by metas s r ∧ names !! binlog_name_str (br_name r) = Some (br_size r) ∧
  (if is_in_gtid_replication_mode s
   then br_previous_gtids r ≠ None ∧ br_added_gtids r ≠ None
   else br_previous_gtids r = None ∧ br_added_gtids r = None).

Lemma validated_reads names metas s s' r :
  only_reads s s' → validated names metas s' r → validated names metas s r.
Proof.
  intros (Hd & _ & Hm). unfold validated, backed_by, is_in_gtid_replication_mode. by rewrite Hd, Hm.
Qed.

Lemma validate_record_inv r s s' :
  validate_binlog_metadata r s = (s', Ok ()) →
  s' = s ∧ (if is_in_gtid_replication_mode s
            then br_previous_gtids r ≠ None ∧ br_added_gtids r ≠ None
            else br_previous_gtids r = None ∧ br_added_gtids r = None).
Proof.
  intros Hv. unfold validate_binlog_metadata in Hv. rewrite gets_bind in Hv.
  destruct (is_in_gtid_replication_mode s);
    apply action_bind_ok in Hv as (s1 & [] & Ht & Hv); apply throw_if_inv in Ht as [-> [[_ [=]]|[? _]]];
    apply throw_if_inv in Hv as [-> [[_ [=]]|[? _]]]; to_prop; done.
Qed.

Lemma load_set_inv names metas records s s' records' :
  load_record_set names metas records s = (s', Ok records') →
  st_construction_mode s ≠ querying_only → Forall (λ r, binlog_name_ok (br_name r)) records →
  only_reads s s' ∧ st_records s' = st_records s ∧
  br_name <$> records' = br_name <$> records ∧ Forall (validated names metas s) records'.
Proof.
  revert s records'. induction records as [|r records IH]; intros s records' Hl Hm Hn.
  { by injection Hl as <- <-. }
  apply Forall_cons in Hn as [Hn1 Hn]. cbn [load_record_set] in Hl.
  apply action_bind_ok in Hl as (s1 & x & Ht & Hl).
  apply load_listed_inv in Ht as (Hr1 & Hrec1 & Hx); [|done]. pose proof Hr1 as (Hd1 & Hm1 & Hrm1).
  rewrite gets_bind in Hl. rewrite bool_decide_false in Hl by congruence.
  destruct x as [r'|e]; [|done]. destruct (Hx _ eq_refl) as [Hnm Hback].
  apply action_bind_ok in Hl as (s2 & [] & Hv & Hl). apply validate_record_inv in Hv as [-> Hv].
  assert (is_in_gtid_replication_mode s1 = is_in_gtid_replication_mode s) as Hg
    by (unfold is_in_gtid_replication_mode; by rewrite Hrm1). rewrite Hg in Hv.
  apply action_bind_ok in Hl as (s2 & [] & Hs & Hl).
  destruct (names !! binlog_name_str (br_name r)) as [actual|] eqn:Ea; [|done].
  apply throw_if_inv in Hs as [-> [[_ [=]]|[Hs _]]]. to_prop. subst actual.
  apply action_bind_ok in Hl as (s3 & rest & Hrest & Hl). injection Hl as <- <-.
  destruct (IH s1 rest Hrest) as (Hr2 & Hrec2 & Hnames & Hall); [congruence|done|].
  split; [by etrans|]. split; [congruence|]. split; [cbn; congruence|].
  constructor; [split; [done|by rewrite Hnm]|].
  eapply Forall_impl; [exact Hall|]. intros r0. by apply validated_reads.
Qed.

(** the records that the lines of the index make *)
Definition names_ok (records : list binlog_record) : Prop :=
  NoDup (br_name <$> records) ∧ Forall (λ r, binlog_name_ok (br_name r)) records.

Lemma load_line_inv line s s' :
  load_index_line line s = (s', Ok ()) → names_ok (st_records s) →
  only_reads s s' ∧ names_ok (st_records s').
Proof.
  intros Hl Hn. unfold load_index_line in Hl. case_bool_decide; [by injection Hl as <-|].
  apply action_bind_ok in Hl as (s1 & [] & Ht & Hl). apply throw_if_inv in Ht as [-> _].
  apply action_bind_ok in Hl as (s1 & [] & Ht & Hl). apply throw_if_inv in Ht as [-> _].
  apply action_bind_ok in Hl as (s1 & n & [= <- Hp] & Hl). rewrite gets_bind in Hl.
  apply action_bind_ok in Hl as (s1 & [] & Ht & Hl). apply throw_if_inv in Ht as [-> [[_ [=]]|[Hnew _]]].
  to_prop. rewrite gets_bind in Hl. injection Hl as <-. split; [done|].
  apply binlog_name_parse_inv in Hp as [_ Hok]. destruct Hn as [Hnd Hall]. split; cbn.
  - rewrite fmap_app. cbn. apply NoDup_app. split; [done|]. split; [|apply NoDup_singleton].
    intros k Hk ->%list_elem_of_singleton. done.
  - apply Forall_app. split; [done|]. by apply Forall_singleton.
Qed.

Lemma load_index_inv s s' :
  load_binlog_index s = (s', Ok ()) → names_ok (st_records s) →
  only_reads s s' ∧ names_ok (st_records s').
Proof.
  intros Hl Hn. unfold load_binlog_index in Hl. apply action_bind_ok in Hl as (s1 & c & Hg & Hl).
  apply get_reads in Hg as (Hr & Hrec & _); [|apply index_name_ok]. rewrite <-Hrec in Hn.
  enough (only_reads s1 s' ∧ names_ok (st_records s')) as [? ?] by (split; [by etrans|done]).
  clear Hr Hrec. revert s1 Hl Hn. induction (split_parts 10 c) as [|line lines IH]; intros s1 Hl Hn.
  { by injection Hl as <-. }
  cbn [for_each] in Hl. apply action_bind_ok in Hl as (s2 & [] & Hline & Hl).
  apply load_line_inv in Hline as [Hr2 Hn2]; [|done].
  destruct (IH s2 Hl Hn2) as [? ?]. split; [by etrans|done].
Qed.

(** a map that has as many keys as the names it contains has no others *)
Lemma only_names {A} (m : gmap (list Z) A) names k :
  NoDup names → (∀ x, x ∈ names → is_Some (m !! x)) → size m = length names →
  is_Some (m !! k) → k ∈ names.
Proof.
  intros Hnd Hin Hsz Hk.
  assert (list_to_set names = (dom m : gset (list Z))) as Heq.
  { apply set_subseteq_size_eq; [intros x; rewrite elem_of_list_to_set, elem_of_dom; by apply Hin|].
    rewrite size_dom, Hsz. by rewrite size_list_to_set. }
  rewrite <-(elem_of_list_to_set (C := gset (list Z))), Heq. by apply elem_of_dom.
Qed.

(** the objects of the backend and the records of a storage are consistent *)
Definition consistent (mode : replication_mode_type) (O : gmap (list Z) (list Z))
    (records : list binlog_record) : Prop :=
  NoDup (br_name <$> records) ∧
  Forall (λ r, binlog_name_ok (br_name r) ∧
    (∃ c, O !! binlog_name_str (br_name r) = Some c ∧ br_size r = Z.of_nat (length c)) ∧
    (∃ c m, O !! generate_binlog_metadata_name (br_name r) = Some c ∧
            parse_binlog_metadata c = Ok m ∧ r = record_of_metadata (br_name r) m) ∧
    (mode = mode_gtid → br_previous_gtids r ≠ None ∧ br_added_gtids r ≠ None) ∧
    (mode ≠ mode_gtid → br_previous_gtids r = None ∧ br_added_gtids r = None)) records ∧
  (∃ c m, O !! metadata_name = Some c ∧ parse_storage_metadata c = Ok m ∧ sm_mode m = mode) ∧
  (∀ k, is_Some (O !! k) → k = metadata_name ∨ k = default_binlog_index_name ∨ listed records k).

(** the last phase: data and metadata objects against the records of the index *)
Lemma load_all_inv O s s' :
  load_and_validate_binlog_metadata_set (data_objects O) (metadata_objects O) s = (s', Ok ()) →
  disk s = O → st_construction_mode s ≠ querying_only → names_ok (st_records s) →
  size (data_objects O) = length (st_records s) →
  only_reads s s' ∧ NoDup (br_name <$> st_records s') ∧
  Forall (λ r, binlog_name_ok (br_name r) ∧ validated (data_objects O) (metadata_objects O) s r) (st_records s') ∧
  size (data_objects O) = length (st_records s') ∧ size (metadata_objects O) = length (st_records s').
Proof.
  intros Hl HO Hm [Hnd Hok] Hsz. unfold load_and_validate_binlog_metadata_set in Hl. rewrite gets_bind in Hl.
  apply action_bind_ok in Hl as (s1 & records & Hr & Hl).
  apply load_set_inv in Hr as (Hro & _ & Hnames & Hall); [|done..].
  rewrite modify_bind, gets_bind in Hl. pose proof Hro as (_ & Hm1 & _).
  change (st_construction_mode (set_records records s1)) with (st_construction_mode s1) in Hl.
  rewrite bool_decide_false in Hl by congruence.
  apply action_bind_ok in Hl as (s2 & [] & Ht & Hl). apply throw_if_inv in Ht as [-> [[_ [=]]|[Hcount _]]].
  to_prop.
  assert (only_reads s s' ∧ st_records s' = records) as [Hro' ->].
  { destruct (head records) as [front|]; [|done].
    destruct (br_added_gtids front); injection Hl as <-; done. }
  pose proof (f_equal length Hnames) as Hlen. rewrite !length_fmap in Hlen.
  split; [done|]. split; [by rewrite Hnames|]. split; [|split; congruence].
  apply Forall_and. split; [|done].
  assert (Forall binlog_name_ok (br_name <$> records)) as Hn by (by rewrite Hnames, Forall_fmap).
  by rewrite Forall_fmap in Hn.
Qed.

Lemma data_lookup O k : is_Some (data_objects O !! k) ↔
  is_Some (O !! k) ∧ k ≠ metadata_name ∧ k ≠ default_binlog_index_name ∧
  path_extension k ≠ binlog_metadata_extension.
Proof.
  unfold data_objects, is_Some, sizes. setoid_rewrite map_lookup_filter_Some.
  setoid_rewrite lookup_delete_Some. setoid_rewrite lookup_delete_Some.
  setoid_rewrite lookup_fmap_Some. cbn. naive_solver.
Qed.
Lemma metadata_lookup O k : is_Some (metadata_objects O !! k) ↔
  is_Some (O !! k) ∧ k ≠ metadata_name ∧ k ≠ default_binlog_index_name ∧
  path_extension k = binlog_metadata_extension.
Proof.
  unfold metadata_objects, is_Some, sizes. setoid_rewrite map_lookup_filter_Some.
  setoid_rewrite lookup_delete_Some. setoid_rewrite lookup_delete_Some.
  setoid_rewrite lookup_fmap_Some. cbn. naive_solver.
Qed.

Lemma listed_object (records : list binlog_record) (f : composite_binlog_name → object_name)
    (listing : object_container) k :
  (∀ n1 n2, binlog_name_ok n1 → binlog_name_ok n2 → f n1 = f n2 → n1 = n2) →
  NoDup (br_name <$> records) → Forall (λ r, binlog_name_ok (br_name r)) records →
  (∀ r, r ∈ records → is_Some (listing !! f (br_name r))) → size listing = length records →
  is_Some (listing !! k) → ∃ r, r ∈ records ∧ k = f (br_name r).
Proof.
  intros Hf Hnd Hok Hin Hsz Hk. rewrite Forall_forall in Hok.
  assert (k ∈ (λ r, f (br_name r)) <$> records) as Hx.
  { eapply only_names; [by apply object_names_nodup| | |exact Hk]; [|by rewrite length_fmap].
    intros x (r & -> & Hr)%list_elem_of_fmap. by apply Hin. }
  apply list_elem_of_fmap in Hx as (r & -> & Hr). by exists r.
Qed.

(** C16: the constructor accepts no inconsistent storage.  A storage that was constructed for
    streaming or purging either found no object and has no file, or is consistent with the
    objects of the backend: its file names are valid and different; every file has a data
    object of exactly the recorded size, and a metadata object that reads as its record, with
    GTID sets exactly in the GTID mode; the storage metadata name the replication mode it was
    constructed for; and there is no object that does not belong to it. *)
Theorem opened_storage_consistent cmode mode checkpoint_size checkpoint_interval bb s :
  make_storage cmode bb mode checkpoint_size checkpoint_interval = Ok s →
  cmode ≠ querying_only →
  durable_in bb = ∅ ∧ st_records s = [] ∨
  disk s = durable_in bb ∧ consistent mode (durable_in bb) (st_records s).
Proof.
  intros Hm Hmode. unfold make_storage in Hm.
  destruct (load_storage _ _) as [s1 [[]|e]] eqn:E; [|done]. injection Hm as ->.
  set (s0 := default_storage cmode bb mode checkpoint_size checkpoint_interval) in *.
  unfold load_storage in E. rewrite gets_bind in E.
  apply action_bind_ok in E as (s1 & listing & Hl & E). apply on_backend_inv in Hl as (bb1 & Hl & ->).
  apply virtually_inv in Hl as [Hl _]. apply list_law in Hl as [(_ & Hd1 & _) Hlist].
  rewrite (Hlist _ eq_refl) in E. clear Hlist. change (bb_impl (st_backend s0)) with (bb_impl bb) in *.
  set (O := durable_in bb) in *.
  destruct (bool_decide (sizes O = ∅)) eqn:Ee.
  { to_prop. left. split; [by apply fmap_empty_inv in Ee|].
    destruct (bool_decide _); [|by injection E as <-]. unfold save_metadata in E. rewrite gets_bind in E.
    by apply on_backend_inv in E as (bb2 & _ & ->). }
  right. to_prop. apply action_bind_ok in E as (s2 & [] & Ht & E). apply throw_if_inv in Ht as [-> _].
  apply action_bind_ok in E as (s2 & [] & Hlm & E).
  unfold load_metadata in Hlm. apply action_bind_ok in Hlm as (s3 & c & Hg & Hlm).
  apply get_reads in Hg as (Hr3 & Hrec3 & Hc); [|apply storage_metadata_name_ok].
  apply action_bind_ok in Hlm as (s4 & m & [= <- Hp] & Hlm). injection Hlm as <-.
  apply action_bind_ok in E as (s4 & [] & Hv & E). unfold validate_metadata in Hv. rewrite gets_bind in Hv.
  apply throw_if_inv in Hv as [-> [[_ [=]]|[Hv _]]]. apply negb_false_iff in Hv. to_prop. cbn in Hv.
  set (s4 := set_replication_mode (sm_mode m) s3) in *.
  assert (disk s4 = O ∧ st_construction_mode s4 = cmode ∧ st_replication_mode s4 = mode ∧ st_records s4 = [])
    as (Hd4 & Hm4 & Hrm4 & Hrec4).
  { destruct Hr3 as (Hd & Hcm & _). cbn in Hd, Hcm. cbn. split_and!; [|done|done|done]. by rewrite Hd, Hd1. }
  assert (∃ c m, O !! metadata_name = Some c ∧ parse_storage_metadata c = Ok m ∧ sm_mode m = mode) as Hmeta.
  { exists c, m. split; [|done]. rewrite <-(Hc _ eq_refl). cbn. by rewrite Hd1. }
  destruct (bool_decide (delete metadata_name (sizes O) = ∅)) eqn:Eonly.
  { injection E as <-. to_prop. split; [done|]. rewrite Hrec4. split; [constructor|]. split; [constructor|].
    split; [done|]. intros k [c' Hk]. left. destruct (decide (k = metadata_name)) as [|Hne]; [done|].
    apply (f_equal (lookup k)) in Eonly. unfold sizes in Eonly.
    by rewrite lookup_delete_ne, lookup_fmap, Hk in Eonly. }
  destruct (bool_decide (_ !! default_binlog_index_name = None)).
  { apply throw_if_inv in E as [_ [[_ [=]]|[Hx _]]]. apply negb_false_iff in Hx. by to_prop. }
  fold (data_objects O) (metadata_objects O) in E.
  apply action_bind_ok in E as (s5 & [] & Hli & E). apply load_index_inv in Hli as [Hr5 Hn5].
  2: { rewrite Hrec4. split; constructor. }
  pose proof Hr5 as (Hd5 & Hm5 & Hrm5). rewrite Hd4 in Hd5. rewrite Hm4 in Hm5. rewrite Hrm4 in Hrm5.
  apply action_bind_ok in E as (s6 & [] & Hvi & E). unfold validate_binlog_index in Hvi.
  rewrite gets_bind, bool_decide_false, gets_bind in Hvi by congruence.
  apply action_bind_ok in Hvi as (s7 & [] & Ht & Hvi). apply throw_if_inv in Ht as [-> _].
  apply throw_if_inv in Hvi as [-> [[_ [=]]|[Hsz _]]]. to_prop.
  apply load_all_inv in E as ((Hd & _) & Hnd & Hall & Hsz1 & Hsz2); [|done|congruence|done|done].
  split; [congruence|]. split; [done|].
  assert (Forall (λ r, binlog_name_ok (br_name r)) (st_records s)) as Hok
    by (eapply Forall_impl; [exact Hall|]; by intros r [? _]).
  split; [|split; [done|]].
  - eapply Forall_impl; [exact Hall|]. intros r (Hn & (_ & Hmd) & Hdata & Hg). rewrite Hd5 in Hmd.
    split; [done|]. split; [|split; [done|]].
    + unfold data_objects in Hdata. apply map_lookup_filter_Some in Hdata as [Hdata _].
      apply lookup_delete_Some in Hdata as [_ Hdata]. apply lookup_delete_Some in Hdata as [_ Hdata].
      unfold sizes in Hdata. apply lookup_fmap_Some in Hdata as (c' & <- & Hc'). eauto.
    + unfold is_in_gtid_replication_mode in Hg. rewrite Hrm5 in Hg. by case_bool_decide.
  - intros k Hk. destruct (decide (k = metadata_name)); [by left|].
    destruct (decide (k = default_binlog_index_name)); [by right; left|]. right; right.
    rewrite Forall_forall in Hall.
    destruct (decide (path_extension k = binlog_metadata_extension)) as [Hx|Hx].
    + destruct (listed_object (st_records s) generate_binlog_metadata_name (metadata_objects O) k) as (r & ? & ->);
        [apply metadata_name_inj|done..| |done|by apply metadata_lookup|by exists r; auto].
      intros r Hr. by destruct (Hall r Hr) as (_ & (? & _) & _).
    + destruct (listed_object (st_records s) binlog_name_str (data_objects O) k) as (r & ? & ->);
        [apply binlog_name_str_inj|done..| |done|by apply data_lookup|by exists r; auto].
      intros r Hr. destruct (Hall r Hr) as (_ & _ & -> & _). by eexists.
Qed.
End loading.

Module LoadExamples.
Import IntervalList UuidModel MetadataExamples BackendExamples LogExamples DiskExamples.
Import SimulatedS3 S3Examples.

Lemma opened_storage_consistent_witness :
  make_storage purging left_over mode_gtid 0 0 = Ok purged_view ∧
  consistent mode_gtid (durable_in left_over) (st_records purged_view).
Proof.
  destruct (restart_recovers purging mode_gtid 0 0 left_over (st_records second_open) second_open_on_disk
    (unplugged_reliable second_open) left_over_loadable) as (s & Hs & _).
  assert (purged_view = s) as Hv by (unfold purged_view; by rewrite Hs). rewrite <-Hv in Hs.
  split; [exact Hs|].
  destruct (opened_storage_consistent purging mode_gtid 0 0 left_over purged_view Hs) as [[He _]|[_ Hc]];
    [apply (bool_decide_unpack _); by vm_compute| |exact Hc].
  exfalso. destruct second_open_on_disk as (_ & _ & _ & Hm & _). rewrite He in Hm. discriminate Hm.
Defined.

(** *** A storage over S3

    The first upload of a transaction is lost; it is repeated when the storage is destroyed. *)
Abbreviation s3_vault := (s3_storage_backend service vault).
Definition empty_vault (outcomes : list request_outcome) : basic_storage_backend s3_vault :=
  mk_basic_backend (fresh_s3 vault 0 [] (mk_service ∅ outcomes)) false.

Definition s3_opened (outcomes : list request_outcome) : storage (B := s3_vault) :=
  match make_storage streaming (empty_vault outcomes) mode_gtid 0 0 with
  | Ok s => (open_binlog 0 binlog_1 s).1
  | Err _ => default_storage streaming (empty_vault outcomes) mode_gtid 0 0
  end.

(** the requests up to here: a listing, the metadata, the magic bytes, the metadata of the
    file and the index *)
Definition upload_lost : list request_outcome := replicate 5 answered ++ [lost].
Definition s3_written (outcomes : list request_outcome) : storage (B := s3_vault) :=
  (flush_event_buffer (write_event 0 [1; 2; 3] true g7 5 1 (s3_opened outcomes)).1).1.
Definition s3_left (s : storage (B := s3_vault)) : basic_storage_backend s3_vault :=
  let b := s3_destroy (bb_impl (st_backend (destroy_storage s))) in
  mk_basic_backend (fresh_s3 vault 0 [] (mk_service (sv_buckets (s3_client b)) [])) false.

(** without a failure the storage opens again; after the repeated upload it does not: the
    transaction is in the object twice and counted once *)
Lemma s3_storage_reopens :
  is_ok (make_storage streaming (s3_left (s3_written [])) mode_gtid 0 0) = true ∧
  s3_objects (bb_impl (s3_left (s3_written []))) !! binlog_name_str binlog_1 =
    Some (magic_binlog_payload ++ [1; 2; 3]).
Proof. split; by vm_compute. Qed.

Lemma s3_retried_upload_refused :
  s3_objects (bb_impl (s3_left (s3_written upload_lost))) !! binlog_name_str binlog_1 =
    Some (magic_binlog_payload ++ [1; 2; 3] ++ [1; 2; 3]) ∧
  make_storage streaming (s3_left (s3_written upload_lost)) mode_gtid 0 0 =
    Err (logic_error "size from the binlog metadata does not match the actual binlog size").
Proof. split; by vm_compute. Qed.
End LoadExamples.
