(* ===== verification/Commands.v ===== *)
(** * The commands that query and purge a storage

    Models the command line ([check_cmd_args], [dispatch_stateless_command]) and the
    handlers of src/src/app.cpp for the subcommands [list], [search_by_timestamp],
    [search_by_gtid_set] and [purge_binlogs], and the response objects of src/src/binsrv/models that they fill.  A handler parses its argument, reads
    the configuration, constructs a storage and answers with a [search_response]; an
    exception is caught and answered with an [error_response].

    Left out: the printing of the response, and its field [uri], which the backend makes
    from the name.  The configuration file is a parameter, the outcome of reading it. *)

From stdpp Require Import gmap sorting.
From S2P Require Import Prelude OrderedMap IntervalSet Gtid GtidSet GtidSetText Util Protocol.
From S2P Require Import ReaderContext Backend Metadata Storage StorageLog StorageDisk.

Local Open Scope Z_scope.

(** ** The command line *)
Inductive operation_mode_type :=
  mode_fetch | mode_pull | mode_list | mode_search_by_timestamp | mode_search_by_gtid_set
  | mode_purge_binlogs | mode_version.
#[export] Instance operation_mode_eq_dec : EqDecision operation_mode_type.
Proof. solve_decision. Defined.

Definition operation_mode_labels : list (operation_mode_type * list Z) :=
  [(mode_fetch, text "fetch"); (mode_pull, text "pull"); (mode_list, text "list");
   (mode_search_by_timestamp, text "search_by_timestamp");
   (mode_search_by_gtid_set, text "search_by_gtid_set");
   (mode_purge_binlogs, text "purge_binlogs"); (mode_version, text "version")].
(** [boost::conversion::try_lexical_convert] with the [operator>>] of the type *)
Definition operation_mode_from_string (s : list Z) : result operation_mode_type :=
  s ← read_token s;
  match list_find (λ p, p.2 = s) operation_mode_labels with
  | Some (_, (m, _)) => Ok m
  | None => Err bad_lexical_cast
  end.

(** the operation mode, the path of the configuration file and the value of the subcommand;
    the latter two are empty where the mode has none *)
Definition check_cmd_args (cmd_args : list (list Z))
    : option (operation_mode_type * list Z * list Z) :=
  match cmd_args with
  | _ :: mode :: rest =>
      match operation_mode_from_string mode with
      | Err _ => None
      | Ok operation_mode =>
          match operation_mode, rest with
          | (mode_fetch | mode_pull | mode_list), [config_file_path] =>
              Some (operation_mode, config_file_path, [])
          | (mode_search_by_timestamp | mode_search_by_gtid_set | mode_purge_binlogs),
              [config_file_path; subcommand_value] =>
              Some (operation_mode, config_file_path, subcommand_value)
          | mode_version, [] => Some (operation_mode, [], [])
          | _, _ => None
          end
      end
  | _ => None
  end.

(** ** Responses *)
Inductive response_status_type := status_error | status_warning | status_success.

Section commands.
Context `{StorageBackend B} `{IntervalSet} `{BoostUuid} `{BoostPosixTime} `{BoostJson}.
Implicit Types (s : storage (B := B)) (r : binlog_record) (records : list binlog_record).

Record binlog_file_record := mk_file_record {
  fr_name : list Z;
  fr_size : Z;
  fr_previous_gtids : option gtid_set;
  fr_added_gtids : option gtid_set;
  fr_min_timestamp : Z;
  fr_max_timestamp : Z
}.
Record search_response := mk_search_response {
  sr_status : response_status_type;
  sr_result : list binlog_file_record;
  sr_message : option error
}.
Definition empty_response : search_response := mk_search_response status_success [] None.

Inductive response :=
  | response_search (answer : search_response)
  | response_error (message : error).

Definition append_record_to_response (answer : search_response) r : search_response :=
  mk_search_response (sr_status answer)
    (sr_result answer ++
     [mk_file_record (binlog_name_str (br_name r)) (br_size r) (br_previous_gtids r) (br_added_gtids r)
        (min_timestamp (br_timestamps r)) (max_timestamp (br_timestamps r))])
    (sr_message answer).
Definition append_records (answer : search_response) records : search_response :=
  foldl append_record_to_response answer records.

(** ** What the configuration file says *)
Record configuration := mk_configuration {
  cfg_backend : basic_storage_backend B;
  cfg_replication_mode : replication_mode_type;
  cfg_checkpoint_size : Z;
  cfg_checkpoint_interval : Z
}.
Definition open_storage (mode : storage_construction_mode_type) (c : configuration) : result storage :=
  make_storage mode (cfg_backend c) (cfg_replication_mode c) (cfg_checkpoint_size c)
    (cfg_checkpoint_interval c).

(** the [try] block of a handler and its [catch (const std::exception &)] *)
Definition handled (body : result search_response) : result (bool * response) :=
  match body with
  | Ok answer => Ok (true, response_search answer)
  | Err e => if is_exception e then Ok (false, response_error e) else Err e
  end.

(** ** The handlers *)
Definition handle_list (config : result configuration) : result (bool * response) :=
  handled (
    c ← config;
    s ← open_storage querying_only c;
    Ok (append_records empty_response (st_records s))).

(** [util::ctime_timestamp::try_parse] *)
Definition try_parse_timestamp (value : list Z) : option Z :=
  match from_iso_extended_string value with
  | Ok t => Some t
  | Err _ => None
  end.

(** the [for] loop, with its [break] *)
Fixpoint records_until (timestamp : Z) records : list binlog_record :=
  match records with
  | [] => []
  | r :: records =>
      if timestamp <? min_timestamp (br_timestamps r) then []
      else r :: records_until timestamp records
  end.

Definition handle_search_by_timestamp (config : result configuration) (subcommand_value : list Z)
    : result (bool * response) :=
  handled (
    timestamp ← or_raise (try_parse_timestamp subcommand_value)
                  (runtime_error "Invalid timestamp format");
    c ← config;
    s ← open_storage querying_only c;
    _ ← raise_if (storage_is_empty s) (runtime_error "Binlog storage is empty");
    let answer := append_records empty_response (records_until timestamp (st_records s)) in
    _ ← raise_if (bool_decide (sr_result answer = [])) (runtime_error "Timestamp is too old");
    Ok answer).

(** the [for] loop: what remains to be covered, and the records it appends *)
Fixpoint cover (remaining_gtids : gtid_set) records : gtid_set * list binlog_record :=
  match records with
  | [] => (remaining_gtids, [])
  | r :: records =>
      if is_empty remaining_gtids then (remaining_gtids, [])
      else
        match br_added_gtids r with
        | None => cover remaining_gtids records
        | Some added_gtids =>
            if negb (intersects remaining_gtids added_gtids) then cover remaining_gtids records
            else
              let '(remaining_gtids, appended) :=
                cover (subtract_set added_gtids remaining_gtids) records in
              (remaining_gtids, r :: appended)
        end
  end.

Definition handle_search_by_gtid_set (config : result configuration) (subcommand_value : list Z)
    : result (bool * response) :=
  handled (
    gtids ← gtid_set_of_string subcommand_value;
    c ← config;
    s ← open_storage querying_only c;
    _ ← raise_if (storage_is_empty s) (runtime_error "Binlog storage is empty");
    _ ← raise_if (negb (is_in_gtid_replication_mode s)) (runtime_error
          "GTID set search is not supported in storages created in position-based replication mode");
    let '(remaining_gtids, appended) := cover gtids (st_records s) in
    _ ← raise_if (negb (is_empty remaining_gtids))
          (runtime_error "The specified GTID set cannot be covered");
    Ok (append_records empty_response appended)).

(** The purge changes the backend of its storage, also when it throws. *)
Definition handle_purge_binlogs (config : result configuration) (subcommand_value : list Z)
    : option storage * result (bool * response) :=
  let body : result (configuration * composite_binlog_name) :=
    target_name ← binlog_name_parse subcommand_value;
    c ← config;
    Ok (c, target_name) in
  match body with
  | Err e => (None, handled (Err e))
  | Ok (c, target_name) =>
      match open_storage purging c with
      | Err e => (None, handled (Err e))
      | Ok s =>
          match purge_binlogs target_name s with
          | (s, Err e) => (Some s, handled (Err e))
          | (s, Ok (removed_records, cleanup_warning)) =>
              let answer :=
                match cleanup_warning with
                | Some message => mk_search_response status_warning [] (Some message)
                | None => empty_response
                end in
              (Some s, handled (Ok (append_records answer removed_records)))
          end
      end
  end.

(** [dispatch_stateless_command]: [None] for the modes that stream; whether the command
    succeeded, for the others *)
Definition dispatch_stateless_command (operation_mode : operation_mode_type)
    (config : result configuration) (subcommand_value : list Z) : option (result bool) :=
  match operation_mode with
  | mode_version => Some (Ok true)
  | mode_list => Some (fst <$> handle_list config)
  | mode_search_by_timestamp => Some (fst <$> handle_search_by_timestamp config subcommand_value)
  | mode_search_by_gtid_set => Some (fst <$> handle_search_by_gtid_set config subcommand_value)
  | mode_purge_binlogs => Some (fst <$> (handle_purge_binlogs config subcommand_value).2)
  | mode_fetch | mode_pull => None
  end.
End commands.

(** ** The command lines that are accepted *)
Definition operation_mode_to_string (m : operation_mode_type) : list Z :=
  match m with
  | mode_fetch => text "fetch" | mode_pull => text "pull" | mode_list => text "list"
  | mode_search_by_timestamp => text "search_by_timestamp"
  | mode_search_by_gtid_set => text "search_by_gtid_set"
  | mode_purge_binlogs => text "purge_binlogs" | mode_version => text "version"
  end.
Definition command_line (executable : list Z) (m : operation_mode_type) (config value : list Z) : list (list Z) :=
  executable :: operation_mode_to_string m ::
  match m with
  | mode_fetch | mode_pull | mode_list => [config]
  | mode_search_by_timestamp | mode_search_by_gtid_set | mode_purge_binlogs => [config; value]
  | mode_version => []
  end.

Lemma operation_mode_roundtrip s m : operation_mode_from_string s = Ok m ↔ s = operation_mode_to_string m.
Proof.
  split; [|intros ->; by destruct m; vm_compute].
  unfold operation_mode_from_string. intros Hs. apply result_bind_ok in Hs as (s' & Hr & Hs).
  unfold read_token in Hr. destruct (_ || _); [done|]. injection Hr as <-.
  destruct (list_find _ _) as [[i [m' l]]|] eqn:Ef; [|done]. injection Hs as ->.
  apply list_find_Some in Ef as (Hl & <- & _). cbn [snd].
  unfold operation_mode_labels in Hl. do 7 (destruct i as [|i]; [cbn -[text] in Hl; by simplify_eq|]). done.
Qed.

(** the program accepts exactly the command lines of its usage message: a known mode, the
    configuration file unless the mode is [version], and a value exactly for the searches
    and the purge. *)
Theorem check_cmd_args_spec args m config value :
  check_cmd_args args = Some (m, config, value) ↔
  (∃ executable, args = command_line executable m config value) ∧
  match m with
  | mode_version => config = [] ∧ value = []
  | mode_fetch | mode_pull | mode_list => value = []
  | _ => True
  end.
Proof.
  unfold check_cmd_args, command_line. split.
  - intros Ha. destruct args as [|executable [|mode rest]]; [done..|].
    destruct (operation_mode_from_string mode) as [m'|] eqn:Em; [|done]. apply operation_mode_roundtrip in Em as ->.
    destruct m', rest as [|? [|? [|]]]; simplify_eq; by eauto.
  - intros [[executable ->] Hm]. rewrite (proj2 (operation_mode_roundtrip _ _) eq_refl).
    destruct m; naive_solver.
Qed.

(** ** What the searches find *)
Section searches.
Context `{StorageBackendLaws B} `{IntervalSetLaws} `{BoostUuidLaws} `{BoostPosixTimeLaws} `{BoostJsonLaws}.
Implicit Types (s : storage (B := B)) (r : binlog_record) (records : list binlog_record).

Definition file_record r : binlog_file_record :=
  mk_file_record (binlog_name_str (br_name r)) (br_size r) (br_previous_gtids r) (br_added_gtids r)
    (min_timestamp (br_timestamps r)) (max_timestamp (br_timestamps r)).

Lemma append_records_eq answer records :
  append_records answer records =
    mk_search_response (sr_status answer) (sr_result answer ++ (file_record <$> records)) (sr_message answer).
Proof.
  unfold append_records. revert answer. induction records as [|r records IH]; intros answer; cbn.
  - rewrite app_nil_r. by destruct answer.
  - rewrite IH. cbn. by rewrite <-app_assoc.
Qed.

(** [r] holds the transaction *)
Definition holds_gtid r u t x : Prop := ∃ added, br_added_gtids r = Some added ∧ elem added u t x.
#[local] Instance holds_gtid_dec r u t x : Decision (holds_gtid r u t x).
Proof.
  refine (match br_added_gtids r as o return br_added_gtids r = o → _ with
          | Some added => λ Ho, cast_if (decide (contains added (mk_gtid u t x) = true))
          | None => λ Ho, right _
          end eq_refl).
  - exists added. split; [done|]. by apply (contains_elem added (mk_gtid u t x)).
  - intros (a & Ha & Hx). rewrite Ho in Ha. injection Ha as <-.
    by apply (contains_elem added (mk_gtid u t x)) in Hx.
  - intros (a & Ha & _). congruence.
Defined.

Lemma some_element (gtids : gtid_set) : wf gtids → is_empty gtids = false → ∃ u t x, elem gtids u t x.
Proof.
  intros Hwf He. destruct gtids as [|[u m] gtids]; [done|].
  pose proof Hwf as [_ Hall]. apply Forall_cons in Hall as [[Hne [_ Hin]] _]. cbn in Hne, Hin.
  destruct m as [|[t c] m]; [done|]. apply Forall_cons in Hin as [Hc _].
  destruct (nonempty_element c Hc) as [x Hx]. exists u, t, x. apply elem_entry; [done|].
  exists ((t, c) :: m), c. split; [left|]. split; [left|done].
Qed.

Definition added_wf r : Prop := ∀ added, br_added_gtids r = Some added → wf added.

Lemma cover_spec gtids records :
  wf gtids → Forall added_wf records →
  let '(remaining, appended) := cover gtids records in
  wf remaining ∧
  (∀ u t x, elem remaining u t x ↔ elem gtids u t x ∧ ¬ ∃ r, r ∈ appended ∧ holds_gtid r u t x) ∧
  (∀ u t x, elem gtids u t x → (∃ r, r ∈ records ∧ holds_gtid r u t x) →
     ∃ r, r ∈ appended ∧ holds_gtid r u t x).
Proof.
  intros Hg Hr. revert gtids Hg. induction Hr as [|r records Hrw Hr IH]; intros gtids Hg; cbn [cover].
  { split_and!; [done| |done]. intros u t x. setoid_rewrite elem_of_nil. naive_solver. }
  destruct (is_empty gtids) eqn:Ee.
  { rewrite is_empty_elem in Ee by done. split_and!; [done| |].
    - intros u t x. setoid_rewrite elem_of_nil. naive_solver.
    - intros u t x Hx. by destruct (Ee u t x). }
  assert (∀ P : binlog_record → Prop, (∃ r', r' ∈ r :: records ∧ P r') ↔ P r ∨ ∃ r', r' ∈ records ∧ P r') as Hcons.
  { intros P. setoid_rewrite elem_of_cons. naive_solver. }
  destruct (br_added_gtids r) as [added|] eqn:Ea.
  2: { specialize (IH gtids Hg). destruct (cover gtids records) as [rem app]. destruct IH as (H1' & H2' & H3').
       split_and!; [done..|]. intros u t x Hx. rewrite Hcons. intros [(a & Ha & _)|Hex]; [congruence|by apply H3']. }
  pose proof (Hrw _ Ea) as Haw.
  destruct (intersects gtids added) eqn:Ei; cbn [negb].
  - destruct (subtract_set_elem added gtids Hg Haw) as [Hsw Hs].
    specialize (IH _ Hsw). destruct (cover (subtract_set added gtids) records) as [rem app].
    destruct IH as (H1' & H2' & H3').
    assert (∀ u t x, holds_gtid r u t x ↔ elem added u t x) as Hh.
    { intros u t x. unfold holds_gtid. rewrite Ea. naive_solver. }
    assert (∀ P : binlog_record → Prop, (∃ r', r' ∈ r :: app ∧ P r') ↔ P r ∨ ∃ r', r' ∈ app ∧ P r') as Hcons'.
    { intros P. setoid_rewrite elem_of_cons. naive_solver. }
    split_and!; [done| |].
    + intros u t x. rewrite H2', Hs, Hcons', Hh. naive_solver.
    + intros u t x Hx. rewrite Hcons, Hcons', Hh. intros [?|Hex]; [by left|].
      destruct (decide (holds_gtid r u t x)) as [Hc|Hc]; [left; by apply Hh|].
      right. apply H3'; [|done]. apply Hs. split; [done|]. by rewrite <-Hh.
  - specialize (IH gtids Hg). destruct (cover gtids records) as [rem app]. destruct IH as (H1' & H2' & H3').
    split_and!; [done..|]. intros u t x Hx. rewrite Hcons. intros [(a & Ha & Hin)|Hex]; [|by apply H3'].
    exfalso. rewrite Ea in Ha. injection Ha as <-.
    assert (intersects gtids added = true) as Hc; [|congruence].
    apply intersects_elem; [done|]. eauto.
Qed.

Lemma cover_sublist gtids records : (cover gtids records).2 `sublist_of` records.
Proof.
  revert gtids. induction records as [|r records IH]; intros gtids; cbn [cover]; [done|].
  destruct (is_empty gtids); [by apply sublist_nil_l|].
  destruct (br_added_gtids r) as [added|]; [|by apply sublist_cons, IH].
  destruct (intersects gtids added); cbn [negb]; [|by apply sublist_cons, IH].
  specialize (IH (subtract_set added gtids)).
  destruct (cover (subtract_set added gtids) records). by apply sublist_skip.
Qed.

(** every appended record holds a requested transaction that no earlier one holds *)
Lemma cover_needed gtids records l1 r l2 :
  wf gtids → Forall added_wf records → (cover gtids records).2 = l1 ++ r :: l2 →
  ∃ u t x, elem gtids u t x ∧ holds_gtid r u t x ∧ ∀ r', r' ∈ l1 → ¬ holds_gtid r' u t x.
Proof.
  intros Hg Hr. revert gtids l1 Hg. induction Hr as [|r0 records Hrw Hr IH]; intros gtids l1 Hg; cbn [cover].
  { intros Heq. by apply (f_equal length) in Heq; rewrite length_app in Heq; cbn in Heq; lia. }
  destruct (is_empty gtids).
  { intros Heq. by apply (f_equal length) in Heq; rewrite length_app in Heq; cbn in Heq; lia. }
  destruct (br_added_gtids r0) as [added|] eqn:Ea; [|by apply IH].
  pose proof (Hrw _ Ea) as Haw. destruct (intersects gtids added) eqn:Ei; cbn [negb]; [|by apply IH].
  destruct (subtract_set_elem added gtids Hg Haw) as [Hsw Hs].
  specialize (IH (subtract_set added gtids)). destruct (cover (subtract_set added gtids) records) as [rem app].
  cbn [snd] in *. destruct l1 as [|r1 l1]; intros [= <- Heq].
  - apply intersects_elem in Ei as (u & t & x & Hx & Hin); [|done]. exists u, t, x.
    split; [done|]. split; [by exists added|]. intros r' Hr'. by apply not_elem_of_nil in Hr'.
  - destruct (IH l1 Hsw Heq) as (u & t & x & Hx & Hh & Hn). apply Hs in Hx as [Hx Hna].
    exists u, t, x. split; [done|]. split; [done|]. intros r' [-> |Hr']%elem_of_cons; [|by apply Hn].
    intros (a & Ha & Hin). congruence.
Qed.

(** C32: the search finds a cover: the files it lists, in the order of the storage, hold every
    requested transaction, and each of them holds one that the files before it do not; it
    reports that the set cannot be covered exactly when a requested transaction is in no file. *)
Theorem search_by_gtid_set_covers c s value gtids :
  gtid_set_of_string value = Ok gtids → open_storage querying_only c = Ok s →
  wf gtids → Forall added_wf (st_records s) → st_records s ≠ [] → is_in_gtid_replication_mode s = true →
  match handle_search_by_gtid_set (Ok c) value with
  | Ok (true, response_search answer) =>
      ∃ found, sr_result answer = file_record <$> found ∧ found `sublist_of` st_records s ∧
        (∀ u t x, elem gtids u t x → ∃ r, r ∈ found ∧ holds_gtid r u t x) ∧
        (∀ l1 r l2, found = l1 ++ r :: l2 →
           ∃ u t x, elem gtids u t x ∧ holds_gtid r u t x ∧ ∀ r', r' ∈ l1 → ¬ holds_gtid r' u t x)
  | Ok (false, response_error e) =>
      e = runtime_error "The specified GTID set cannot be covered" ∧
      ∃ u t x, elem gtids u t x ∧ ¬ ∃ r, r ∈ st_records s ∧ holds_gtid r u t x
  | _ => False
  end.
Proof.
  intros Hv Hs Hg Hr Hne Hm. unfold handle_search_by_gtid_set. rewrite Hv. cbn. rewrite Hs. cbn.
  assert (storage_is_empty s = false) as ->.
  { unfold storage_is_empty. by apply bool_decide_eq_false_2. }
  rewrite Hm. cbn.
  pose proof (cover_spec gtids (st_records s) Hg Hr) as Hc.
  pose proof (cover_sublist gtids (st_records s)) as Hsub.
  pose proof (cover_needed gtids (st_records s)) as Hneed.
  destruct (cover gtids (st_records s)) as [rem found]. destruct Hc as (Hrw & Hrem & Hall). cbn [snd] in *.
  destruct (is_empty rem) eqn:Ee; cbn.
  - rewrite append_records_eq. cbn. exists found. split_and!; [done..| |].
    + intros u t x Hx. destruct (decide (Exists (λ r, holds_gtid r u t x) found)) as [He|Hn].
      * by apply Exists_exists in He.
      * rewrite is_empty_elem in Ee by done. destruct (Ee u t x). apply Hrem. split; [done|].
        by rewrite <-Exists_exists.
    + intros l1 r l2 Heq. eapply Hneed; eauto.
  - split; [done|]. destruct (some_element rem Hrw Ee) as (u & t & x & Hx).
    apply Hrem in Hx as [Hx Hno]. exists u, t, x. split; [done|]. intros Hex. by apply Hno, Hall.
Qed.

Definition starts_by (timestamp : Z) r : Prop := min_timestamp (br_timestamps r) ≤ timestamp.

Lemma records_until_spec timestamp records :
  ∃ rest, records = records_until timestamp records ++ rest ∧
    Forall (starts_by timestamp) (records_until timestamp records) ∧
    ∀ r, head rest = Some r → ¬ starts_by timestamp r.
Proof.
  unfold starts_by. induction records as [|r records (rest & Heq & Hf & Hrest)]; cbn [records_until].
  { exists []. split; [done|]. split; [constructor|done]. }
  destruct (Z.ltb_spec timestamp (min_timestamp (br_timestamps r))).
  - exists (r :: records). split; [done|]. split; [constructor|]. intros r' [= <-]. lia.
  - exists rest. cbn. rewrite <-Heq. split; [done|]. split; [|done]. by constructor.
Qed.

(** the search by time stamp lists the files from the first one up to the file in which
    the time stamp falls: the longest run of files that start no later than it, so when the
    files are in the order of their time stamps, exactly the files that start no later; it
    reports a time stamp that is too old exactly when the first file starts later. *)
Theorem search_by_timestamp_prefix c s value timestamp :
  try_parse_timestamp value = Some timestamp → open_storage querying_only c = Ok s →
  st_records s ≠ [] →
  match handle_search_by_timestamp (Ok c) value with
  | Ok (true, response_search answer) =>
      ∃ found rest, sr_result answer = file_record <$> found ∧ st_records s = found ++ rest ∧
        found ≠ [] ∧ Forall (starts_by timestamp) found ∧
        (∀ r, head rest = Some r → ¬ starts_by timestamp r) ∧
        (StronglySorted (λ r1 r2, min_timestamp (br_timestamps r1) ≤ min_timestamp (br_timestamps r2))
           (st_records s) → Forall (λ r, ¬ starts_by timestamp r) rest)
  | Ok (false, response_error e) =>
      e = runtime_error "Timestamp is too old" ∧
      ∃ r, head (st_records s) = Some r ∧ ¬ starts_by timestamp r
  | _ => False
  end.
Proof.
  intros Hv Hs Hne. unfold handle_search_by_timestamp. rewrite Hv. cbn. rewrite Hs. cbn.
  assert (storage_is_empty s = false) as ->.
  { unfold storage_is_empty. by apply bool_decide_eq_false_2. }
  cbn. rewrite append_records_eq. cbn [empty_response sr_result app sr_status sr_message].
  destruct (records_until_spec timestamp (st_records s)) as (rest & Heq & Hf & Hrest).
  set (found := records_until timestamp (st_records s)) in *.
  destruct (decide (found = [])) as [E|E].
  - rewrite E, bool_decide_eq_true_2 by done. cbn. split; [done|]. rewrite E in Heq. cbn in Heq.
    rewrite Heq in *. destruct rest as [|r rest]; [done|]. exists r. split; [done|]. by apply Hrest.
  - rewrite bool_decide_eq_false_2 by (by destruct found). cbn. exists found, rest.
    split_and!; try done. intros Hsort. rewrite Heq in Hsort.
    apply StronglySorted_app in Hsort as (_ & _ & Hsort). destruct rest as [|r rest]; [constructor|].
    specialize (Hrest r eq_refl). apply StronglySorted_inv in Hsort as [_ Hsort].
    constructor; [done|]. eapply Forall_impl; [exact Hsort|]. unfold starts_by in *. cbn. intros; lia.
Qed.

(** when a purge throws a standard exception, nothing but the index may have changed *)
Lemma purge_fails target s s' e k :
  purge_binlogs target s = (s', Err e) → is_exception e = true → strm s = None →
  k ≠ default_binlog_index_name → disk s' !! k = disk s !! k.
Proof.
  intros Hp He Hs Hk. unfold purge_binlogs in Hp.
  assert (∀ x s1, ensure_purging_mode s = (s1, x) → s1 = s) as Hens.
  { intros x s1 Hm. unfold ensure_purging_mode in Hm. rewrite gets_bind in Hm.
    by apply throw_if_inv in Hm as [-> _]. }
  apply action_bind_inv in Hp as [(? & _ & Hm)|(s1 & [] & Hm & Hp)]; apply Hens in Hm as ->; [done|].
  rewrite gets_bind in Hp. destruct (st_records s) as [|front records]; [by unfold throw in Hp; simplify_eq|].
  apply action_bind_inv in Hp as [(? & _ & Hm)|(s1 & [] & Hm & Hp)]; apply throw_if_inv in Hm as [-> _]; [done|].
  destruct (list_find _ _) as [[i r]|]; [|by unfold throw in Hp; simplify_eq].
  apply action_bind_inv in Hp as [(? & _ & Hm)|(s1 & [] & Hm & Hp)]; apply throw_if_inv in Hm as [-> _]; [done|].
  rewrite modify_bind in Hp. set (s1 := set_records _ s) in *.
  assert (∀ x s2, save_binlog_index s1 = (s2, x) → disk s2 !! k = disk s !! k) as Hidx.
  { intros x s2 Hi. unfold save_binlog_index in Hi. rewrite gets_bind in Hi.
    apply put_inv in Hi as (bb & -> & _ & Hst & _ & Ho); [|apply index_name_ok|by intros ?; cbn; rewrite Hs].
    change (strm s1) with (strm s) in Hst. rewrite Hs in Hst.
    cbn in *. rewrite <-(closed_law _ Hst), <-(closed_law _ Hs). destruct Ho as [-> |[-> _]]; [by rewrite lookup_insert_ne|done]. }
  apply action_bind_inv in Hp as [(? & _ & Hm)|(s2 & [] & Hm & Hp)]; [by eapply Hidx|].
  exfalso. apply action_bind_inv in Hp as [(e' & [= ->] & Ht)|(s3 & out & _ & Hp)]; [|done].
  unfold try_catch in Ht. destruct (on_backend _ s2) as [s3 [[]|e'']]; [done|].
  destruct (is_exception e'') eqn:E; [done|]. injection Ht as _ ->. congruence.
Qed.

Lemma purge_mode target s s' x :
  purge_binlogs target s = (s', Ok x) → st_replication_mode s' = st_replication_mode s.
Proof.
  destruct x as [removed w]. intros (i & r & _ & _ & _ & Hp)%purge_guards.
  apply action_bind_ok in Hp as (s1 & [] & Hi & Hp).
  unfold save_binlog_index in Hi. rewrite gets_bind in Hi. apply on_backend_inv in Hi as (bb & _ & ->).
  apply action_bind_ok in Hp as (s2 & out & Ht & Hp). injection Hp as <- _.
  unfold try_catch in Ht. destruct (on_backend _ _) as [s3 y] eqn:E. apply on_backend_inv in E as (bb2 & _ & ->).
  destruct y; [by injection Ht as <-|]. case_match; by simplify_eq.
Qed.

(** the purge command, from the files of one process to the files of the next: on a storage
    that a process has left, the command removes the files up to its argument, answers with
    what it removed, and (unless it warns) leaves a storage with the other files; when it
    answers with an error, every binlog file and every metadata file is as it was. *)
Theorem purge_command c value target records :
  let bb := cfg_backend c in
  binlog_name_parse value = Ok target →
  on_disk (cfg_replication_mode c) records (durable_in bb) → stream_in bb = None →
  reliable (bb_impl bb) → all_loadable (cfg_replication_mode c) records →
  match handle_purge_binlogs (Ok c) value with
  | (Some s', Ok (true, response_search answer)) =>
      ∃ removed kept, records = removed ++ kept ∧ kept ≠ [] ∧
        (∃ r, last removed = Some r ∧ br_name r = target) ∧
        sr_result answer = file_record <$> removed ∧ Forall (stored (disk s')) kept ∧
        (sr_status answer = status_success → on_disk (cfg_replication_mode c) kept (disk s'))
  | (Some s', Ok (false, _)) =>
      ∀ k, k ≠ default_binlog_index_name → disk s' !! k = durable_in bb !! k
  | (Some s', Err e) => is_exception e = false
  | _ => False
  end.
Proof.
  intros bb Hv Hd Hst Hrel Hld. unfold handle_purge_binlogs. rewrite Hv. cbn.
  destruct (load_storage_ok purging _ (cfg_checkpoint_size c) (cfg_checkpoint_interval c) bb records
    Hd Hrel Hld) as (bb' & p & Hs & [(_ & Ho & Hst' & _) _] & _).
  unfold open_storage. fold bb. rewrite Hs. set (s := loaded _ _ _ _) in *.
  change (durable_in bb') with (disk s) in Ho. change (stream_in bb') with (strm s) in Hst'.
  rewrite Hst in Hst'. destruct (purge_binlogs target s) as [s' [[removed w]|e]] eqn:Ep.
  - assert (on_disk (st_replication_mode s) (st_records s) (disk s)) as Hd'.
    { change (on_disk (cfg_replication_mode c) records (disk s)). by rewrite Ho. }
    assert (st_replication_mode s' = cfg_replication_mode c) as Hm by (by apply purge_mode in Ep).
    destruct (purge_ok _ _ _ _ _ Ep Hd' Hst') as (Hsplit & Hl & Hne & _ & _ & _ & Hkept & _ & Hdisk & _).
    cbn. rewrite append_records_eq. exists removed, (st_records s'). rewrite Hm in Hdisk.
    split_and!; try done; (destruct w; [done|by auto]).
  - cbn [handled]. destruct (is_exception e) eqn:He; [|done].
    intros k Hk. rewrite <-Ho. by eapply purge_fails.
Qed.
End searches.

Module CommandExamples.
Import IntervalList UuidModel MetadataExamples BackendExamples LogExamples DiskExamples.

(** a configuration file that names the directory of [second_open] *)
Definition sample_configuration : configuration := mk_configuration left_over mode_gtid 0 0.
Definition queried : storage :=
  match open_storage querying_only sample_configuration with Ok s => s | Err _ => started end.

Lemma queried_ok :
  open_storage querying_only sample_configuration = Ok queried ∧
  st_records queried = st_records second_open ∧ is_in_gtid_replication_mode queried = true.
Proof.
  destruct (load_storage_ok querying_only mode_gtid 0 0 left_over (st_records second_open))
    as (bb & p & Hs & _ & _);
    [apply second_open_on_disk | apply unplugged_reliable | apply left_over_loadable|].
  change (make_storage querying_only left_over mode_gtid 0 0) with
    (open_storage querying_only sample_configuration) in Hs.
  set (s := loaded _ _ _ _) in Hs.
  assert (queried = s) as -> by (unfold queried; by rewrite Hs).
  split; [exact Hs|]. split; [apply loaded_members|done].
Qed.

Lemma queried_added_wf : Forall added_wf (st_records queried).
Proof.
  destruct queried_ok as (_ & -> & _). destruct second_open_on_disk as (_ & Hok & _).
  eapply Forall_impl; [exact Hok|]. intros r (_ & _ & (_ & _ & _ & Ha & _) & _) added Hr.
  cbn in Ha. rewrite Hr in Ha. apply Ha.
Qed.
Lemma queried_nonempty : st_records queried ≠ [].
Proof.
  destruct queried_ok as (_ & -> & _). intros He. apply (f_equal length) in He. revert He. by vm_compute.
Qed.

(** the set that holds one transaction *)
Definition only_g7 : gtid_set := with_gnos sample_uuid [] (icl_insert 7 8) empty_set.
Lemma only_g7_wf : wf only_g7.
Proof.
  destruct (add_gtid_refines g7 empty_set (elem empty_set)) as (s & Hs & Hwf & _);
    [by vm_compute|by vm_compute|split; [apply wf_empty|done]|].
  by injection Hs as <-.
Qed.

Definition answered (x : result (bool * response)) : bool :=
  match x with Ok (true, response_search _) => true | _ => false end.

Lemma search_by_gtid_set_covers_witness : ∃ answer found,
  handle_search_by_gtid_set (Ok sample_configuration) (str only_g7) = Ok (true, response_search answer) ∧
  sr_result answer = file_record <$> found ∧
  ∀ u t x, elem only_g7 u t x → ∃ r, r ∈ found ∧ holds_gtid r u t x.
Proof.
  destruct queried_ok as (Ho & _ & Hm).
  assert (gtid_set_of_string (str only_g7) = Ok only_g7) as Hp by (by vm_compute).
  pose proof (search_by_gtid_set_covers sample_configuration queried (str only_g7) only_g7 Hp Ho only_g7_wf
    queried_added_wf queried_nonempty Hm) as Hc.
  assert (answered (handle_search_by_gtid_set (Ok sample_configuration) (str only_g7)) = true) as Ha
    by (by vm_compute).
  revert Ha Hc. generalize (handle_search_by_gtid_set (Ok sample_configuration) (str only_g7)).
  intros x Ha Hc. destruct x as [[[] [answer|e]]|e]; try discriminate Ha.
  destruct Hc as (found & Hf & _ & Hall & _). exists answer, found.
  split; [reflexivity|]. split; [exact Hf|exact Hall].
Defined.

Lemma search_by_timestamp_prefix_witness : ∃ answer found rest,
  handle_search_by_timestamp (Ok sample_configuration) (to_iso_extended_string 9) =
    Ok (true, response_search answer) ∧
  sr_result answer = file_record <$> found ∧ st_records queried = found ++ rest ∧
  Forall (starts_by 9) found.
Proof.
  destruct queried_ok as (Ho & _ & Hm).
  assert (try_parse_timestamp (to_iso_extended_string 9) = Some 9) as Hp by (by vm_compute).
  pose proof (search_by_timestamp_prefix sample_configuration queried (to_iso_extended_string 9) 9 Hp Ho
    queried_nonempty) as Hc.
  assert (answered (handle_search_by_timestamp (Ok sample_configuration) (to_iso_extended_string 9)) = true)
    as Ha by (by vm_compute).
  revert Ha Hc. generalize (handle_search_by_timestamp (Ok sample_configuration) (to_iso_extended_string 9)).
  intros x Ha Hc. destruct x as [[[] [answer|e]]|e]; try discriminate Ha.
  destruct Hc as (found & rest & Hf & Heq & _ & Hall & _). exists answer, found, rest.
  split; [reflexivity|]. split; [exact Hf|]. split; [exact Heq|exact Hall].
Defined.

Lemma purge_command_witness : ∃ s' answer removed kept,
  handle_purge_binlogs (Ok sample_configuration) (binlog_name_str binlog_1) =
    (Some s', Ok (true, response_search answer)) ∧
  st_records second_open = removed ++ kept ∧ sr_result answer = file_record <$> removed.
Proof.
  assert (binlog_name_parse (binlog_name_str binlog_1) = Ok binlog_1) as Hp by (by vm_compute).
  pose proof (purge_command sample_configuration (binlog_name_str binlog_1) binlog_1 (st_records second_open)
    Hp second_open_on_disk eq_refl (unplugged_reliable second_open) left_over_loadable) as Hc.
  assert (answered (handle_purge_binlogs (Ok sample_configuration) (binlog_name_str binlog_1)).2 = true) as Ha
    by (by vm_compute).
  revert Ha Hc. generalize (handle_purge_binlogs (Ok sample_configuration) (binlog_name_str binlog_1)).
  intros x Ha Hc. destruct x as [o [[[] [answer|e]]|e]]; try discriminate Ha. destruct o as [s'|]; [|destruct Hc].
  destruct Hc as (removed & kept & Heq & _ & _ & Hr & _). exists s', answer, removed, kept.
  split; [reflexivity|]. split; [exact Heq|exact Hr].
Defined.
End CommandExamples.
