(* ===== verification/Connection.v ===== *)
(** * The connection to the MySQL server

    Models the class [connection] of src/src/easymysql: its configuration, how it connects,
    the queries it makes, how it switches to replication and fetches events, and how it is
    destroyed.

    The MySQL client library is not under src/.  Its functions are the class [MysqlClient],
    one member per function, its constants the class [MysqlConstants].  A [MYSQL *] is an
    address.  The state is what the library knows, next to the members of the connection.

    The pointers that a [MYSQL_RPL] holds are those of the arguments of the call that opens
    the dump: the library reads them only there. *)

From stdpp Require Import gmap.
From S2P Require Import Prelude Gtid Util Backend.

Local Open Scope Z_scope.

(** ** The configuration *)
Inductive ssl_mode_type := ssl_disabled | ssl_preferred | ssl_required | ssl_verify_ca | ssl_verify_identity.

Record ssl_config := mk_ssl_config {
  ssl_mode : ssl_mode_type;
  ssl_ca : option (list Z);
  ssl_capath : option (list Z);
  ssl_crl : option (list Z);
  ssl_crlpath : option (list Z);
  ssl_cert : option (list Z);
  ssl_key : option (list Z);
  ssl_cipher : option (list Z)
}.

Record tls_config := mk_tls_config {
  tls_ciphersuites : option (list Z);
  tls_version : option (list Z)
}.

Record connection_config := mk_connection_config {
  cc_host : option (list Z);
  cc_port : option Z;
  cc_dns_srv_name : option (list Z);
  cc_user : list Z;
  cc_password : list Z;
  cc_connect_timeout : Z;
  cc_read_timeout : Z;
  cc_write_timeout : Z;
  cc_ssl : option ssl_config;
  cc_tls : option tls_config
}.

Definition has_password (config : connection_config) : bool := negb (bool_decide (cc_password config = [])).
Definition has_dns_srv_name (config : connection_config) : bool := bool_decide (is_Some (cc_dns_srv_name config)).

Definition get_connection_string (config : connection_config) : list Z :=
  cc_user config ++ text "@" ++
  (if has_dns_srv_name config then
     text "[DNS SRV: " ++ default (text "<unspecified>") (cc_dns_srv_name config) ++ text "]"
   else
     default (text "<unspecified host>") (cc_host config) ++ text ":" ++
     match cc_port config with Some port => to_string port | None => text "<unspecified port>" end) ++
  (if has_password config then text " (password ***hidden***)" else text " (no password)").

Definition validate_connection_config (config : connection_config) : result unit :=
  let has_dns_srv_name := bool_decide (is_Some (cc_dns_srv_name config)) in
  let has_host := bool_decide (is_Some (cc_host config)) in
  let has_port := bool_decide (is_Some (cc_port config)) in
  let valid := (has_dns_srv_name && negb has_host && negb has_port) ||
               (negb has_dns_srv_name && has_host && has_port) in
  raise_if (negb valid) (invalid_argument "error validating connection config: either dns_srv_name or both host and port must be specified").

(** ** The MySQL client library *)
Inductive mysql_option :=
  | MYSQL_OPT_CONNECT_TIMEOUT | MYSQL_OPT_READ_TIMEOUT | MYSQL_OPT_WRITE_TIMEOUT
  | MYSQL_OPT_SSL_MODE | MYSQL_OPT_SSL_CA | MYSQL_OPT_SSL_CAPATH | MYSQL_OPT_SSL_CRL
  | MYSQL_OPT_SSL_CRLPATH | MYSQL_OPT_SSL_CERT | MYSQL_OPT_SSL_KEY | MYSQL_OPT_SSL_CIPHER
  | MYSQL_OPT_TLS_CIPHERSUITES | MYSQL_OPT_TLS_VERSION.
(** what the pointer argument of [mysql_options] points to *)
Inductive option_value := option_uint (value : Z) | option_text (value : list Z).

(** The constants of mysql.h and errmsg.h that the connection uses *)
Class MysqlConstants := {
  SSL_MODE_DISABLED : Z;
  SSL_MODE_PREFERRED : Z;
  SSL_MODE_REQUIRED : Z;
  SSL_MODE_VERIFY_CA : Z;
  SSL_MODE_VERIFY_IDENTITY : Z;
  MYSQL_RPL_SKIP_HEARTBEAT : Z;
  MYSQL_RPL_GTID : Z;
  CR_SERVER_LOST : Z
}.

Abbreviation MYSQL := Z (only parsing).

Record MYSQL_RPL := mk_rpl {
  rpl_file_name : list Z;
  rpl_start_position : Z;
  rpl_server_id : Z;
  rpl_flags : Z;
  rpl_gtid_set : list Z
}.

(** a stored result: the numbers of rows and fields, and the fields of the first row, [None]
    for a NULL *)
Record MYSQL_RES := mk_res {
  res_num_rows : Z;
  res_num_fields : Z;
  res_first_row : list (option (list Z))
}.

(** A function that returns an error code returns whether the code is 0; one that may return
    a null pointer returns an [option]; [mysql_binlog_fetch] returns the buffer it has set. *)
Class MysqlClient (W : Type) := {
  mysql_library_init : W → W * bool;
  mysql_library_end : W → W;
  mysql_init : W → W * option MYSQL;
  mysql_close : MYSQL → W → W;
  mysql_options : MYSQL → mysql_option → option_value → W → W * bool;
  mysql_real_connect : MYSQL → list Z → list Z → list Z → Z → W → W * bool;
  mysql_real_connect_dns_srv : MYSQL → list Z → list Z → list Z → W → W * bool;
  mysql_errno : MYSQL → W → Z;
  mysql_error : MYSQL → W → list Z;
  mysql_get_server_version : MYSQL → W → Z;
  mysql_get_server_info : MYSQL → W → list Z;
  mysql_get_proto_info : MYSQL → W → Z;
  mysql_get_host_info : MYSQL → W → list Z;
  mysql_character_set_name : MYSQL → W → list Z;
  mysql_real_query : MYSQL → list Z → W → W * bool;
  mysql_store_result : MYSQL → W → W * option MYSQL_RES;
  mysql_free_result : MYSQL_RES → W → W;
  mysql_ping : MYSQL → W → W * bool;
  mysql_binlog_open : MYSQL → MYSQL_RPL → W → W * bool;
  mysql_binlog_fetch : MYSQL → MYSQL_RPL → W → W * option (list Z);
  mysql_binlog_close : MYSQL → MYSQL_RPL → W → W
}.

(** A stored result with one row of one field has that field. *)
Class MysqlClientLaws (W : Type) `{MysqlClient W} : Prop := {
  stored_row impl w w' res :
    mysql_store_result impl w = (w', Some res) → res_num_rows res = 1 → res_num_fields res = 1 →
    res_first_row res ≠ []
}.

(** ** The members *)
Record rpl_impl := mk_rpl_impl { rpl_conn : MYSQL; rpl_rpl : MYSQL_RPL }.
Record connection := mk_connection { mysql_impl : option MYSQL; conn_rpl_impl : option rpl_impl }.
Definition empty_connection : connection := mk_connection None None.

Definition is_empty (c : connection) : bool := bool_decide (mysql_impl c = None).
Definition is_in_replication_mode (c : connection) : bool := bool_decide (is_Some (conn_rpl_impl c)).

Inductive connection_replication_mode_type := blocking | non_blocking.

(** [rpl_impl::default_binlog_position] *)
Definition default_binlog_position : Z := 4.
Definition private_binlog_dump_non_block : Z := 1.

Section connection.
Context {W : Type} `{MysqlClient W} `{MysqlConstants}.
Abbreviation conn_action := (action (W * connection)).

(** a call of the library that takes the handle and may change what the library knows *)
Definition client {A} (call : W → W * A) : conn_action A := λ '(w, c),
  let (w, a) := call w in ((w, c), Ok a).
Definition client_do (call : W → W) : conn_action unit := λ '(w, c), ((call w, c), Ok ()).

(** [mysql_deimpl::get(mysql_impl_)]; [assert(!is_empty())] comes first where the handle is used *)
Definition handle : conn_action MYSQL := λ '(w, c),
  ((w, c), match mysql_impl c with
           | Some impl => Ok impl
           | None => Err (undefined_behaviour "assert(!is_empty())")
           end).

Definition raise_core_error_from_connection {A} (user_message : string) : conn_action A :=
  impl ← handle;
  '(code, description) ← gets (λ '(w, _), (mysql_errno impl w, mysql_error impl w));
  let message := (if bool_decide (user_message = EmptyString) then []
                  else text user_message ++ text ": ") ++ description in
  throw (core_error code message).

(** ** Options *)
Definition convert_ssl_mode_to_native (mode : ssl_mode_type) : Z :=
  match mode with
  | ssl_disabled => SSL_MODE_DISABLED
  | ssl_preferred => SSL_MODE_PREFERRED
  | ssl_required => SSL_MODE_REQUIRED
  | ssl_verify_ca => SSL_MODE_VERIFY_CA
  | ssl_verify_identity => SSL_MODE_VERIFY_IDENTITY
  end.

(** [std::string::c_str()], as a function that looks for the terminating null reads it *)
Definition c_str (s : list Z) : list Z := before 0 s.

(** an optional value that is not there is not set *)
Definition set_generic_mysql_option (option_id : mysql_option) (value : option option_value) : conn_action bool :=
  match value with
  | None => mret true
  | Some value => impl ← handle; client (mysql_options impl option_id value)
  end.
Definition optional_text (value : option (list Z)) : option option_value :=
  (λ s, option_text (c_str s)) <$> value.

(** the [if] around every option *)
Definition set_or_raise (option_id : mysql_option) (value : option option_value) (user_message : string)
    : conn_action unit :=
  done ← set_generic_mysql_option option_id value;
  if negb done then raise_core_error_from_connection user_message else mret ().

Definition process_ssl_config (config : ssl_config) : conn_action unit :=
  _ ← set_or_raise MYSQL_OPT_SSL_MODE (Some (option_uint (convert_ssl_mode_to_native (ssl_mode config))))
        "cannot set MySQL SSL mode";
  _ ← set_or_raise MYSQL_OPT_SSL_CA (optional_text (ssl_ca config)) "cannot set MySQL SSL CA";
  _ ← set_or_raise MYSQL_OPT_SSL_CAPATH (optional_text (ssl_capath config)) "cannot set MySQL SSL CAPATH";
  _ ← set_or_raise MYSQL_OPT_SSL_CRL (optional_text (ssl_crl config)) "cannot set MySQL SSL CRL";
  _ ← set_or_raise MYSQL_OPT_SSL_CRLPATH (optional_text (ssl_crlpath config)) "cannot set MySQL SSL CRLPATH";
  _ ← set_or_raise MYSQL_OPT_SSL_CERT (optional_text (ssl_cert config)) "cannot set MySQL SSL CERT";
  _ ← set_or_raise MYSQL_OPT_SSL_KEY (optional_text (ssl_key config)) "cannot set MySQL SSL KEY";
  set_or_raise MYSQL_OPT_SSL_CIPHER (optional_text (ssl_cipher config)) "cannot set MySQL SSL CIPHER".

Definition process_tls_config (config : tls_config) : conn_action unit :=
  _ ← set_or_raise MYSQL_OPT_TLS_CIPHERSUITES (optional_text (tls_ciphersuites config))
        "cannot set MySQL TLS CIPHERSUITES";
  set_or_raise MYSQL_OPT_TLS_VERSION (optional_text (tls_version config)) "cannot set MySQL TLS VERSION".

Definition process_connection_config (config : connection_config) : conn_action unit :=
  _ ← set_or_raise MYSQL_OPT_CONNECT_TIMEOUT (Some (option_uint (cc_connect_timeout config)))
        "cannot set MySQL connect timeout";
  _ ← set_or_raise MYSQL_OPT_READ_TIMEOUT (Some (option_uint (cc_read_timeout config)))
        "cannot set MySQL read timeout";
  _ ← set_or_raise MYSQL_OPT_WRITE_TIMEOUT (Some (option_uint (cc_write_timeout config)))
        "cannot set MySQL write timeout";
  _ ← (match cc_ssl config with Some ssl => process_ssl_config ssl | None => mret () end);
  match cc_tls config with Some tls => process_tls_config tls | None => mret () end.

(** ** Construction and destruction *)

(** the members are destroyed in the reverse order of their declaration *)
Definition destroy_connection (c : connection) (w : W) : W :=
  let w := match conn_rpl_impl c with
           | Some rpl => mysql_binlog_close (rpl_conn rpl) (rpl_rpl rpl) w
           | None => w
           end in
  match mysql_impl c with Some impl => mysql_close impl w | None => w end.

(** the body of the constructor *)
Definition establish (config : connection_config) : conn_action unit :=
  _ ← process_connection_config config;
  impl ← handle;
  established ←
    (if has_dns_srv_name config then
       client (mysql_real_connect_dns_srv impl (c_str (default [] (cc_dns_srv_name config)))
                 (c_str (cc_user config)) (c_str (cc_password config)))
     else
       client (mysql_real_connect impl (c_str (default [] (cc_host config)))
                 (c_str (cc_user config)) (c_str (cc_password config)) (default 0 (cc_port config))));
  if negb established then raise_core_error_from_connection "cannot establish MySQL connection" else mret ().

(** the constructor, through [library::create_connection]; when its body throws, the members
    are destroyed *)
Definition create_connection (config : connection_config) : action W connection := λ w,
  match mysql_init w with
  | (w, None) => (w, Err (logic_error "cannot create MYSQL object"))
  | (w, Some impl) =>
      match establish config (w, mk_connection (Some impl) None) with
      | ((w, c), Ok _) => (w, Ok c)
      | ((w, c), Err e) => (destroy_connection c w, Err e)
      end
  end.

(** move assignment: [local] takes the new members, and the old ones are destroyed with it *)
Definition move_assign (other : connection) : conn_action unit := λ '(w, c),
  let local := other in
  let '(this, local) := (local, c) in
  ((destroy_connection local w, this), Ok ()).

(** ** Queries *)
Definition get_server_version : conn_action Z :=
  impl ← handle; gets (λ '(w, _), u32 (mysql_get_server_version impl w)).

Definition get_readable_server_version : conn_action (list Z) :=
  impl ← handle; gets (λ '(w, _), mysql_get_server_info impl w).
Definition get_protocol_version : conn_action Z :=
  impl ← handle; gets (λ '(w, _), u32 (mysql_get_proto_info impl w)).
Definition get_server_connection_info : conn_action (list Z) :=
  impl ← handle; gets (λ '(w, _), mysql_get_host_info impl w).
Definition get_character_set_name : conn_action (list Z) :=
  impl ← handle; gets (λ '(w, _), mysql_character_set_name impl w).

Definition throw_if_replicating (what : string) : conn_action unit :=
  replicating ← gets (λ '(_, c), is_in_replication_mode c);
  throw_if replicating (logic_error what).

Definition execute_generic_query_noresult (query : list Z) : conn_action unit :=
  impl ← handle;
  _ ← throw_if_replicating "cannot execute query in replication mode";
  executed ← client (mysql_real_query impl query);
  if negb executed then raise_core_error_from_connection "cannot execute noresult query" else mret ().

(** what is read of a stored result *)
Definition single_value (result : MYSQL_RES) : conn_action (list Z) :=
  if negb (res_num_rows result =? 1) then
    raise_core_error_from_connection "query did not return exactly one row"
  else if negb (res_num_fields result =? 1) then
    raise_core_error_from_connection "query did not return exactly one column"
  else
    match res_first_row result with
    | Some value :: _ => mret value
    | None :: _ => raise_core_error_from_connection "query returned NULL value"
    | [] => throw (undefined_behaviour "assert(row_raw != nullptr)")
    end.

(** [mysql_res_ptr]: however the function is left, the result is freed *)
Definition then_free {A} (result : MYSQL_RES) (m : conn_action A) : conn_action A := λ wc,
  let '((w, c), value) := m wc in ((mysql_free_result result w, c), value).

Definition execute_select_query_string_result (query : list Z) : conn_action (list Z) :=
  impl ← handle;
  _ ← throw_if_replicating "cannot execute query in replication mode";
  executed ← client (mysql_real_query impl query);
  if negb executed then raise_core_error_from_connection "cannot execute string result query"
  else
    stored ← client (mysql_store_result impl);
    match stored with
    | None => raise_core_error_from_connection "cannot store query result"
    | Some result => then_free result (single_value result)
    end.

Definition ping : conn_action bool :=
  impl ← handle;
  _ ← throw_if_replicating "cannot perform ping in replication mode";
  client (mysql_ping impl).

(** ** Replication *)
Definition binlog_checksum_query (verify_checksum : bool) : list Z :=
  let checksum_algorithm_label := if verify_checksum then text "CRC32" else text "NONE" in
  text "SET @source_binlog_checksum = '" ++ checksum_algorithm_label ++
  text "', @master_binlog_checksum = '" ++ checksum_algorithm_label ++ text "'".
Definition set_binlog_checksum (verify_checksum : bool) : conn_action unit :=
  execute_generic_query_noresult (binlog_checksum_query verify_checksum).

Definition get_rpl_flags (gtid_mode : bool) (blocking_mode : connection_replication_mode_type) : Z :=
  Z.lor (Z.lor MYSQL_RPL_SKIP_HEARTBEAT (if gtid_mode then MYSQL_RPL_GTID else 0))
    (match blocking_mode with non_blocking => private_binlog_dump_non_block | blocking => 0 end).

(** the constructors of [rpl_impl], whose destructor does not run when they throw *)
Definition make_rpl_impl (rpl : MYSQL_RPL) (user_message : string) : conn_action unit :=
  impl ← handle;
  opened ← client (mysql_binlog_open impl rpl);
  if negb opened then raise_core_error_from_connection user_message
  else modify (λ '(w, c), (w, mk_connection (mysql_impl c) (Some (mk_rpl_impl impl rpl)))).

Definition switch_to_position_replication (server_id : Z) (file_name : list Z) (position : Z)
    (verify_checksum : bool) (blocking_mode : connection_replication_mode_type) : conn_action unit :=
  _ ← handle;
  _ ← throw_if_replicating "connection has already been switched to replication";
  _ ← set_binlog_checksum verify_checksum;
  make_rpl_impl (mk_rpl file_name position server_id (get_rpl_flags false blocking_mode) [])
    "cannot open binary log in position mode".

(** the simplified version, for the very beginning *)
Definition switch_to_first_position (server_id : Z) (verify_checksum : bool)
    (blocking_mode : connection_replication_mode_type) : conn_action unit :=
  switch_to_position_replication server_id [] default_binlog_position verify_checksum blocking_mode.

Definition switch_to_gtid_replication (server_id : Z) (encoded_gtid_set : list Z)
    (verify_checksum : bool) (blocking_mode : connection_replication_mode_type) : conn_action unit :=
  _ ← handle;
  _ ← throw_if_replicating "connection has already been switched to replication";
  _ ← set_binlog_checksum verify_checksum;
  make_rpl_impl (mk_rpl [] default_binlog_position server_id (get_rpl_flags true blocking_mode) encoded_gtid_set)
    "cannot open binary log in GTID mode".

(** [None] for [false]: the connection was closed or timed out *)
Definition fetch_binlog_event : conn_action (option (list Z)) :=
  impl ← handle;
  replication ← gets (λ '(_, c), conn_rpl_impl c);
  match replication with
  | None => throw (logic_error "connection has not been switched to replication")
  | Some rpl =>
      portion ← client (mysql_binlog_fetch (rpl_conn rpl) (rpl_rpl rpl));
      match portion with
      | Some portion => mret (Some portion)
      | None =>
          native_error ← gets (λ '(w, _), mysql_errno impl w);
          if negb (native_error =? CR_SERVER_LOST) then
            raise_core_error_from_connection "cannot fetch binlog event"
          else mret None
      end
  end.
End connection.

(** ** The errors of a connection

    While the connection has its handle, its operations do not change it before a dump is
    opened, and the errors they report are those of the client library. *)
Section reports.
Context {W : Type} `{MysqlClient W} `{MysqlConstants}.
Implicit Types (c : connection) (impl : MYSQL).

Definition is_core_error (e : error) : Prop := ∃ code what, e = core_error code what.
(** [m], in a state that satisfies [P] *)
Definition reports {A} (P : W → Prop) c (m : action (W * connection) A) : Prop :=
  ∀ w wc' r, P w → m (w, c) = (wc', r) → wc'.2 = c ∧ (∀ e, r = Err e → is_core_error e).
Definition anywhere (w : W) : Prop := True.

Lemma reports_ret {A} c (a : A) : reports anywhere c (mret a).
Proof. intros w wc' r _ [= <- <-]. by split. Qed.
Lemma reports_gets {A} c (g : W * connection → A) : reports anywhere c (gets g).
Proof. intros w wc' r _ [= <- <-]. by split. Qed.
Lemma reports_client {A} c (call : W → W * A) : reports anywhere c (client call).
Proof. intros w wc' r _ Hr. unfold client in Hr. destruct (call w). injection Hr as <- <-. by split. Qed.

Lemma reports_bind {A B} c (m : action (W * connection) A) (f : A → action (W * connection) B) :
  reports anywhere c m → (∀ a, reports anywhere c (f a)) → reports anywhere c (m ≫= f).
Proof.
  intros Hm Hf w wc' r _ Hr. apply action_bind_inv in Hr as [(e & -> & He)|(wc1 & a & H1 & H2)].
  - destruct (Hm _ _ _ I He) as [Hc He']. split; [done|]. intros e' [= <-]. by apply He'.
  - destruct (Hm _ _ _ I H1) as [Hc _]. destruct wc1 as [w1 c1]. cbn in Hc. subst c1. by eapply Hf.
Qed.

Lemma reports_handle {B} c impl (f : MYSQL → action (W * connection) B) :
  mysql_impl c = Some impl → reports anywhere c (f impl) → reports anywhere c (handle ≫= f).
Proof.
  intros Hc Hf w wc' r _ Hr.
  rewrite (action_bind_eq _ _ _ (w, c) impl) in Hr by (unfold handle; by rewrite Hc). by eapply Hf.
Qed.

Lemma reports_raise {A} c impl what :
  mysql_impl c = Some impl → reports anywhere c (raise_core_error_from_connection (A := A) what).
Proof.
  intros Hc. apply (reports_handle _ _ _ Hc). apply reports_bind; [apply reports_gets|]. intros [code d].
  intros w wc' r _ [= <- <-]. split; [done|]. intros e [= <-]. by eexists _, _.
Qed.

Lemma reports_not_replicating {B} c what (f : unit → action (W * connection) B) :
  conn_rpl_impl c = None → reports anywhere c (f ()) → reports anywhere c (throw_if_replicating what ≫= f).
Proof.
  intros Hc Hf w wc' r _ Hr. rewrite (action_bind_eq _ _ _ (w, c) ()) in Hr; [by eapply Hf|].
  unfold throw_if_replicating. rewrite gets_bind. cbn. unfold is_in_replication_mode. by rewrite Hc.
Qed.

Lemma reports_option c impl option_id value what :
  mysql_impl c = Some impl → reports anywhere c (set_or_raise option_id value what).
Proof.
  intros Hc. apply reports_bind.
  - destruct value; [|apply reports_ret]. apply (reports_handle _ _ _ Hc), reports_client.
  - intros []; [apply reports_ret|by eapply reports_raise].
Qed.

Lemma reports_establish c impl config : mysql_impl c = Some impl → reports anywhere c (establish config).
Proof.
  intros Hc. pose proof (λ o v t, reports_option c impl o v t Hc) as Ho.
  apply reports_bind.
  - repeat (apply reports_bind; [by apply Ho|intros _]). apply reports_bind.
    + destruct (cc_ssl config); [|apply reports_ret]. repeat (apply reports_bind; [by apply Ho|intros _]). apply Ho.
    + intros _. destruct (cc_tls config); [|apply reports_ret]. apply reports_bind; [apply Ho|intros _; apply Ho].
  - intros _. apply (reports_handle _ _ _ Hc). apply reports_bind.
    + destruct (has_dns_srv_name config); apply reports_client.
    + intros []; [apply reports_ret|by eapply reports_raise].
Qed.

Lemma created config w w' r :
  create_connection config w = (w', r) →
  (∃ impl, r = Ok (mk_connection (Some impl) None)) ∨
  r = Err (logic_error "cannot create MYSQL object") ∨ ∃ e, r = Err e ∧ is_core_error e.
Proof.
  unfold create_connection. intros Hr. destruct (mysql_init w) as [w1 [impl|]]; [|injection Hr as _ <-; auto].
  destruct (establish config _) as [[w2 c] [[]|e]] eqn:Ee;
    destruct (reports_establish (mk_connection (Some impl) None) impl config eq_refl _ _ _ I Ee) as [Hc He];
    injection Hr as _ <-; [left; cbn in Hc; rewrite Hc; eauto|right; right; eauto].
Qed.

Lemma reports_select `{!MysqlClientLaws W} c impl query :
  mysql_impl c = Some impl → conn_rpl_impl c = None → reports anywhere c (execute_select_query_string_result query).
Proof.
  intros Hc Hr. apply (reports_handle _ _ _ Hc), reports_not_replicating; [done|].
  apply reports_bind; [apply reports_client|]. intros []; cbn [negb]; [|by eapply reports_raise].
  intros w wc' r _ Hm. unfold mbind, action_bind, client in Hm.
  destruct (mysql_store_result impl w) as [w1 [res|]] eqn:Es; [|by eapply reports_raise].
  unfold then_free in Hm. destruct (single_value res (w1, c)) as [[w2 c2] v] eqn:Ev. injection Hm as <- <-.
  assert (reports (λ w, w = w1) c (single_value res)) as Hs; [|by apply (Hs w1 (w2, c2) v)].
  unfold single_value. clear Ev. intros w3 wc3 r3 -> Hv.
  destruct (Z.eqb_spec (res_num_rows res) 1) as [H1|]; cbn [negb] in Hv; [|by eapply reports_raise].
  destruct (Z.eqb_spec (res_num_fields res) 1) as [H2|]; cbn [negb] in Hv; [|by eapply reports_raise].
  pose proof (stored_row _ _ _ _ Es H1 H2) as Hne.
  destruct (res_first_row res) as [|[value|] l]; [done| |by eapply reports_raise].
  by apply (reports_ret c value w1 wc3 r3).
Qed.

(** switching to replication opens the dump, or reports an error and changes nothing *)
Lemma switched c impl rpl what query w wc' r :
  mysql_impl c = Some impl → conn_rpl_impl c = None →
  (_ ← handle; _ ← throw_if_replicating "connection has already been switched to replication";
   _ ← execute_generic_query_noresult query; make_rpl_impl rpl what) (w, c) = (wc', r) →
  (r = Ok () ∧ wc'.2 = mk_connection (Some impl) (Some (mk_rpl_impl impl rpl))) ∨
  (wc'.2 = c ∧ ∃ e, r = Err e ∧ is_core_error e).
Proof.
  intros Hc Hn Hr.
  rewrite (action_bind_eq _ _ _ (w, c) impl) in Hr by (unfold handle; by rewrite Hc).
  rewrite (action_bind_eq _ _ _ (w, c) ()) in Hr
    by (unfold throw_if_replicating; rewrite gets_bind; cbn; unfold is_in_replication_mode; by rewrite Hn).
  assert (reports anywhere c (execute_generic_query_noresult query)) as Hq.
  { apply (reports_handle _ _ _ Hc), reports_not_replicating; [done|]. apply reports_bind; [apply reports_client|].
    intros []; [apply reports_ret|by eapply reports_raise]. }
  apply action_bind_inv in Hr as [(e & -> & He)|([w1 c1] & [] & H1 & H2)].
  { right. destruct (Hq _ _ _ I He) as [-> Hcore]. eauto. }
  destruct (Hq _ _ _ I H1) as [Hc1 _]. cbn in Hc1. subst c1. unfold make_rpl_impl in H2.
  rewrite (action_bind_eq _ _ _ (w1, c) impl) in H2 by (unfold handle; by rewrite Hc).
  unfold mbind at 1, action_bind, client in H2. destruct (mysql_binlog_open impl rpl w1) as [w2 []]; cbn [negb] in H2.
  - injection H2 as <- <-. left. cbn. by rewrite Hc.
  - right. destruct (reports_raise c impl what Hc _ _ _ I H2) as [-> Hcore]. split; [done|].
    destruct r as [[]|e]; [|eauto]. exfalso. unfold raise_core_error_from_connection in H2.
    rewrite (action_bind_eq _ _ _ (w2, c) impl) in H2 by (unfold handle; by rewrite Hc). done.
Qed.

Lemma reports_fetch c impl rpl :
  mysql_impl c = Some impl → conn_rpl_impl c = Some rpl → reports anywhere c fetch_binlog_event.
Proof.
  intros Hc Hr. apply (reports_handle _ _ _ Hc). intros w wc' r _ Hf. rewrite gets_bind in Hf. rewrite Hr in Hf.
  revert Hf. apply (reports_bind c (client _)); [apply reports_client| |done].
  intros [portion|]; [apply reports_ret|]. apply reports_bind; [apply reports_gets|].
  intros code. destruct (negb _); [by eapply reports_raise|apply reports_ret].
Qed.
End reports.

(** ** A client library that follows a script

    Every call succeeds; the fetches yield the packets of the script, and then the connection
    is lost. *)
Module ScriptedClient.

#[export] Instance mysql_constants : MysqlConstants := {
  SSL_MODE_DISABLED := 1; SSL_MODE_PREFERRED := 2; SSL_MODE_REQUIRED := 3;
  SSL_MODE_VERIFY_CA := 4; SSL_MODE_VERIFY_IDENTITY := 5;
  MYSQL_RPL_SKIP_HEARTBEAT := 131072; MYSQL_RPL_GTID := 65536; CR_SERVER_LOST := 2013
}.

Record script := mk_script { script_packets : list (list Z); script_errno : Z }.

#[export] Instance scripted : MysqlClient script := {
  mysql_library_init w := (w, true);
  mysql_library_end w := w;
  mysql_init w := (w, Some 4096);
  mysql_close _ w := w;
  mysql_options _ _ _ w := (w, true);
  mysql_real_connect _ _ _ _ _ w := (w, true);
  mysql_real_connect_dns_srv _ _ _ _ w := (w, true);
  mysql_errno _ w := script_errno w;
  mysql_error _ w := text "Lost connection to MySQL server during query";
  mysql_get_server_version _ w := 80045;
  mysql_get_server_info _ w := text "8.0.45";
  mysql_get_proto_info _ w := 10;
  mysql_get_host_info _ w := text "localhost via TCP/IP";
  mysql_character_set_name _ w := text "utf8mb4";
  mysql_real_query _ _ w := (w, true);
  mysql_store_result _ w := (w, Some (mk_res 1 1 [Some []]));
  mysql_free_result _ w := w;
  mysql_ping _ w := (w, true);
  mysql_binlog_open _ _ w := (w, true);
  mysql_binlog_fetch _ _ w :=
    match script_packets w with
    | packet :: packets => (mk_script packets 0, Some packet)
    | [] => (mk_script [] CR_SERVER_LOST, None)
    end;
  mysql_binlog_close _ _ w := w
}.

#[export] Instance scripted_laws : MysqlClientLaws script.
Proof. split. by intros impl w w' res [= _ <-]. Qed.

Definition sample_config : connection_config :=
  mk_connection_config (Some (text "localhost")) (Some 3306) None (text "repl") (text "secret") 20 60 60
    (Some (mk_ssl_config ssl_verify_ca (Some (text "/etc/ca.pem")) None None None None None None)) None.
End ScriptedClient.
