(* ===== verification/ConnectionTrace.v ===== *)
(** * What the connection asks of the client library

    The calls of the class [connection] (Connection.v) as a trace, for any client library: a
    library is wrapped so that every call is recorded, and the calls of a run are compared
    with the rules of the C API: a handle is configured, then connected, then used for
    queries or for a dump of events, and closed once; a dump is closed before its handle, and
    every result is freed. *)

From stdpp Require Import gmap.
From S2P Require Import Prelude Gtid Util Backend Connection.

Local Open Scope Z_scope.

(** ** Traces *)
Inductive call :=
  | called_library_init (succeeded : bool)
  | called_library_end
  | called_init (impl : option MYSQL)
  | called_close (impl : MYSQL)
  | called_options (impl : MYSQL) (option_id : mysql_option) (value : option_value) (succeeded : bool)
  | called_connect (impl : MYSQL) (host user passwd : list Z) (port : Z) (succeeded : bool)
  | called_connect_dns_srv (impl : MYSQL) (dns_srv_name user passwd : list Z) (succeeded : bool)
  | called_query (impl : MYSQL) (query : list Z) (succeeded : bool)
  | called_store_result (impl : MYSQL) (stored : bool)
  | called_free_result
  | called_ping (impl : MYSQL)
  | called_binlog_open (impl : MYSQL) (rpl : MYSQL_RPL) (succeeded : bool)
  | called_binlog_fetch (impl : MYSQL) (rpl : MYSQL_RPL)
  | called_binlog_close (impl : MYSQL) (rpl : MYSQL_RPL).

Section traced.
Context {W : Type} `{MysqlClient W}.

Definition record {A} (m : W → W * A) (f : A → call) : W * list call → (W * list call) * A := λ '(w, tr),
  let (w, a) := m w in ((w, tr ++ [f a]), a).
Definition record_do (m : W → W) (k : call) : W * list call → W * list call := λ '(w, tr), (m w, tr ++ [k]).

#[export] Instance traced : MysqlClient (W * list call) := {
  mysql_library_init := record mysql_library_init called_library_init;
  mysql_library_end := record_do mysql_library_end called_library_end;
  mysql_init := record mysql_init called_init;
  mysql_close impl := record_do (mysql_close impl) (called_close impl);
  mysql_options impl o v := record (mysql_options impl o v) (called_options impl o v);
  mysql_real_connect impl host user passwd port :=
    record (mysql_real_connect impl host user passwd port) (called_connect impl host user passwd port);
  mysql_real_connect_dns_srv impl name user passwd :=
    record (mysql_real_connect_dns_srv impl name user passwd) (called_connect_dns_srv impl name user passwd);
  mysql_errno impl w := mysql_errno impl w.1;
  mysql_error impl w := mysql_error impl w.1;
  mysql_get_server_version impl w := mysql_get_server_version impl w.1;
  mysql_get_server_info impl w := mysql_get_server_info impl w.1;
  mysql_get_proto_info impl w := mysql_get_proto_info impl w.1;
  mysql_get_host_info impl w := mysql_get_host_info impl w.1;
  mysql_character_set_name impl w := mysql_character_set_name impl w.1;
  mysql_real_query impl query := record (mysql_real_query impl query) (called_query impl query);
  mysql_store_result impl :=
    record (mysql_store_result impl) (λ r, called_store_result impl (bool_decide (is_Some r)));
  mysql_free_result r := record_do (mysql_free_result r) called_free_result;
  mysql_ping impl := record (mysql_ping impl) (λ _, called_ping impl);
  mysql_binlog_open impl rpl := record (mysql_binlog_open impl rpl) (called_binlog_open impl rpl);
  mysql_binlog_fetch impl rpl := record (mysql_binlog_fetch impl rpl) (λ _, called_binlog_fetch impl rpl);
  mysql_binlog_close impl rpl := record_do (mysql_binlog_close impl rpl) (called_binlog_close impl rpl)
}.
End traced.

(** ** The rules *)
Inductive phase := configuring | connected | dumping (rpl : MYSQL_RPL).

Record protocol := mk_protocol {
  pt_library : bool;
  pt_live : gmap MYSQL phase;
  pt_results : nat
}.
Definition before_library : protocol := mk_protocol false ∅ 0.

Definition guard_then {A} (allowed : bool) (a : A) : option A := if allowed then Some a else None.
Definition set_phase (impl : MYSQL) (ph : phase) (p : protocol) : protocol :=
  mk_protocol (pt_library p) (<[impl := ph]> (pt_live p)) (pt_results p).

(** the state after a call, [None] when the call breaks a rule *)
Definition accept (p : protocol) (k : call) : option protocol :=
  match k with
  | called_library_init succeeded =>
      guard_then (negb (pt_library p)) (mk_protocol succeeded (pt_live p) (pt_results p))
  | called_library_end =>
      guard_then (pt_library p && bool_decide (pt_live p = ∅) && (pt_results p =? 0)%nat)
        (mk_protocol false ∅ 0)
  | called_init None => guard_then (pt_library p) p
  | called_init (Some impl) => guard_then (pt_library p) (set_phase impl configuring p)
  | called_close impl =>
      match pt_live p !! impl with
      | Some configuring | Some connected =>
          guard_then (pt_results p =? 0)%nat (mk_protocol (pt_library p) (delete impl (pt_live p)) (pt_results p))
      | _ => None
      end
  | called_options impl _ _ _ =>
      match pt_live p !! impl with Some configuring => Some p | _ => None end
  | called_connect impl _ _ _ _ succeeded | called_connect_dns_srv impl _ _ _ succeeded =>
      match pt_live p !! impl with
      | Some configuring => Some (if succeeded : bool then set_phase impl connected p else p)
      | _ => None
      end
  | called_query impl _ _ | called_ping impl =>
      match pt_live p !! impl with
      | Some connected => guard_then (pt_results p =? 0)%nat p
      | _ => None
      end
  | called_store_result impl stored =>
      match pt_live p !! impl with
      | Some connected =>
          guard_then (pt_results p =? 0)%nat
            (if stored : bool then mk_protocol (pt_library p) (pt_live p) 1 else p)
      | _ => None
      end
  | called_free_result => guard_then (pt_results p =? 1)%nat (mk_protocol (pt_library p) (pt_live p) 0)
  | called_binlog_open impl rpl succeeded =>
      match pt_live p !! impl with
      | Some connected =>
          guard_then (pt_results p =? 0)%nat (if succeeded : bool then set_phase impl (dumping rpl) p else p)
      | _ => None
      end
  | called_binlog_fetch impl rpl =>
      match pt_live p !! impl with
      | Some (dumping _) => Some p
      | _ => None
      end
  | called_binlog_close impl rpl =>
      match pt_live p !! impl with
      | Some (dumping _) => Some (set_phase impl connected p)
      | _ => None
      end
  end.

Fixpoint accept_all (p : protocol) (tr : list call) : option protocol :=
  match tr with
  | [] => Some p
  | k :: tr => p ← accept p k; accept_all p tr
  end.

Lemma accept_all_app p tr1 tr2 : accept_all p (tr1 ++ tr2) = p ← accept_all p tr1; accept_all p tr2.
Proof.
  revert p. induction tr1 as [|k tr1 IH]; intros p; [done|]. cbn.
  destruct (accept p k); cbn; [apply IH|done].
Qed.
Lemma accept_snoc p tr k p' :
  accept_all p tr = Some p' → accept_all p (tr ++ [k]) = accept p' k.
Proof. intros Ht. rewrite accept_all_app, Ht. cbn. by destruct (accept p' k). Qed.

(** ** The operations obey the rules *)
Section obeys.
Context {W : Type} `{MysqlClient W} `{MysqlConstants}.
Implicit Types (c : connection) (impl : MYSQL).
Abbreviation world := (W * list call)%type.

(** the library is initialised, and the one handle there may be is in this phase *)
Definition idle (p0 : protocol) (w : world) : Prop := accept_all p0 w.2 = Some (mk_protocol true ∅ 0).
Definition holds (p0 : protocol) impl (ph : phase) (wc : world * connection) : Prop :=
  accept_all p0 wc.1.2 = Some (mk_protocol true {[impl := ph]} 0) ∧
  mysql_impl wc.2 = Some impl ∧
  conn_rpl_impl wc.2 = match ph with dumping rpl => Some (mk_rpl_impl impl rpl) | _ => None end.

(** whatever happens, the phase stays *)
Definition keeps {A} (P : world * connection → Prop) (m : action (world * connection) A) : Prop :=
  ∀ wc wc' r, m wc = (wc', r) → P wc → P wc'.

Lemma keeps_bind {A B} P (m : action (world * connection) A) (f : A → action (world * connection) B) :
  keeps P m → (∀ a, keeps P (f a)) → keeps P (m ≫= f).
Proof.
  intros Hm Hf wc wc' r Hr HP. apply action_bind_inv in Hr as [(e & _ & He)|(wc1 & a & H1 & H2)].
  - by eapply Hm.
  - eapply Hf; [exact H2|]. by eapply Hm.
Qed.
Lemma keeps_ret {A} P (a : A) : keeps P (mret a).
Proof. by intros wc wc' r [= <- _]. Qed.
Lemma keeps_throw {A} P e : keeps P (throw (A := A) e).
Proof. by intros wc wc' r [= <- _]. Qed.
Lemma keeps_throw_if P b e : keeps P (throw_if b e).
Proof. intros wc wc' r Hr. by apply throw_if_inv in Hr as [-> _]. Qed.
Lemma keeps_gets {A} P (g : world * connection → A) : keeps P (gets g).
Proof. by intros wc wc' r [= <- _]. Qed.
Lemma keeps_handle P : keeps P handle.
Proof. by intros [w c] wc' r [= <- _]. Qed.
Lemma keeps_raise {A} P what : keeps P (raise_core_error_from_connection (A := A) what).
Proof.
  apply keeps_bind; [apply keeps_handle|]. intros i. apply keeps_bind; [apply keeps_gets|].
  intros [code d]. apply keeps_throw.
Qed.

Lemma keeps_throw_if_replicating P what : keeps P (throw_if_replicating what).
Proof. apply keeps_bind; [apply keeps_gets|]. intros b. apply keeps_throw_if. Qed.

(** [handle] yields the handle *)
Lemma handle_holds p0 impl ph wc wc' r :
  holds p0 impl ph wc → handle wc = (wc', r) → wc' = wc ∧ r = Ok impl.
Proof. destruct wc as [w c]. intros (_ & Hi & _). unfold handle. cbn in Hi. rewrite Hi. by intros [= <- <-]. Qed.

Lemma keeps_with_handle {A} p0 impl ph (f : MYSQL → action (world * connection) A) :
  keeps (holds p0 impl ph) (f impl) → keeps (holds p0 impl ph) (handle ≫= f).
Proof.
  intros Hf wc wc' r Hr HP. apply action_bind_inv in Hr as [(e & _ & He)|(wc1 & a & H1 & H2)].
  - by apply (handle_holds _ _ _ _ _ _ HP) in He as [_ ?].
  - apply (handle_holds _ _ _ _ _ _ HP) in H1 as [-> [= ->]]. by eapply Hf.
Qed.

(** a call that the rules accept *)
Lemma client_record {A} p0 impl ph ph' (m : W → W * A) (f : A → call) wc wc' r :
  holds p0 impl ph wc → client (record m f) wc = (wc', r) →
  (∀ a, r = Ok a → accept (mk_protocol true {[impl := ph]} 0) (f a) = Some (mk_protocol true {[impl := ph']} 0)) →
  accept_all p0 wc'.1.2 = Some (mk_protocol true {[impl := ph']} 0) ∧ wc'.2 = wc.2 ∧ is_ok r = true.
Proof.
  destruct wc as [[w tr] c]. intros (Ha & _ & _) Hr Hf. unfold client, record in Hr. destruct (m w) as [w1 a].
  injection Hr as <- <-. cbn in *. split; [|done]. by rewrite (accept_snoc _ _ _ _ Ha), (Hf a).
Qed.

Lemma keeps_client {A} p0 impl ph (m : W → W * A) (f : A → call) :
  (∀ a, accept (mk_protocol true {[impl := ph]} 0) (f a) = Some (mk_protocol true {[impl := ph]} 0)) →
  keeps (holds p0 impl ph) (client (record m f)).
Proof.
  intros Hf wc wc' r Hr HP. destruct (client_record _ _ _ ph _ _ _ _ _ HP Hr) as (Ha & Hc & _); [done|].
  split; [exact Ha|]. rewrite Hc. apply HP.
Qed.
End obeys.
Create HintDb keeps.
#[export] Hint Resolve keeps_ret keeps_throw keeps_throw_if keeps_gets keeps_handle keeps_raise : keeps.

(** ** Connecting *)
Section connecting.
Context {W : Type} `{MysqlClient W} `{MysqlConstants}.
Implicit Types (c : connection) (impl : MYSQL).
Abbreviation world := (W * list call)%type.

(** the options that a configuration says, in the order they are set *)
Definition said (option_id : mysql_option) (value : option (list Z)) : list (mysql_option * option_value) :=
  match value with Some s => [(option_id, option_text (c_str s))] | None => [] end.
Definition ssl_options (config : ssl_config) : list (mysql_option * option_value) :=
  (MYSQL_OPT_SSL_MODE, option_uint (convert_ssl_mode_to_native (ssl_mode config))) ::
  said MYSQL_OPT_SSL_CA (ssl_ca config) ++ said MYSQL_OPT_SSL_CAPATH (ssl_capath config) ++
  said MYSQL_OPT_SSL_CRL (ssl_crl config) ++ said MYSQL_OPT_SSL_CRLPATH (ssl_crlpath config) ++
  said MYSQL_OPT_SSL_CERT (ssl_cert config) ++ said MYSQL_OPT_SSL_KEY (ssl_key config) ++
  said MYSQL_OPT_SSL_CIPHER (ssl_cipher config).
Definition tls_options (config : tls_config) : list (mysql_option * option_value) :=
  said MYSQL_OPT_TLS_CIPHERSUITES (tls_ciphersuites config) ++ said MYSQL_OPT_TLS_VERSION (tls_version config).
Definition configured_options (config : connection_config) : list (mysql_option * option_value) :=
  [(MYSQL_OPT_CONNECT_TIMEOUT, option_uint (cc_connect_timeout config));
   (MYSQL_OPT_READ_TIMEOUT, option_uint (cc_read_timeout config));
   (MYSQL_OPT_WRITE_TIMEOUT, option_uint (cc_write_timeout config))] ++
  match cc_ssl config with Some ssl => ssl_options ssl | None => [] end ++
  match cc_tls config with Some tls => tls_options tls | None => [] end.

Definition option_call impl (ov : mysql_option * option_value) : call := called_options impl ov.1 ov.2 true.
Definition is_option_call impl (k : call) : Prop := ∃ o v b, k = called_options impl o v b.

(** it sets these options, or throws on the way *)
Definition sets impl (l : list (mysql_option * option_value)) (m : action (world * connection) unit) : Prop :=
  ∀ w tr c wc' r, mysql_impl c = Some impl → m ((w, tr), c) = (wc', r) →
    ∃ w' calls, wc' = ((w', tr ++ calls), c) ∧ Forall (is_option_call impl) calls ∧
      (r = Ok () → calls = option_call impl <$> l).

Lemma sets_nil impl : sets impl [] (mret ()).
Proof. intros w tr c wc' r _ [= <- <-]. exists w, []. rewrite app_nil_r. by split_and!. Qed.

Lemma sets_app impl l1 l2 m1 m2 : sets impl l1 m1 → sets impl l2 m2 → sets impl (l1 ++ l2) (_ ← m1; m2).
Proof.
  intros H1 H2 w tr c wc' r Hc Hr. apply action_bind_inv in Hr as [(e & -> & He)|(wc1 & [] & Hm1 & Hm2)].
  - destruct (H1 _ _ _ _ _ Hc He) as (w' & calls & -> & Ho & _). by exists w', calls.
  - destruct (H1 _ _ _ _ _ Hc Hm1) as (w1 & calls1 & -> & Ho1 & Hk1).
    destruct (H2 _ _ _ _ _ Hc Hm2) as (w2 & calls2 & -> & Ho2 & Hk2).
    exists w2, (calls1 ++ calls2). rewrite app_assoc. split; [done|]. split; [by apply Forall_app|].
    intros ->. by rewrite Hk1, Hk2, fmap_app.
Qed.

Lemma raise_result {A} impl what (w : world) c wc' (r : result A) :
  mysql_impl c = Some impl → raise_core_error_from_connection what (w, c) = (wc', r) →
  wc' = (w, c) ∧ ∃ code text, r = Err (core_error code text).
Proof.
  intros Hc Hr. unfold raise_core_error_from_connection in Hr.
  rewrite (action_bind_eq _ _ _ (w, c) impl) in Hr by (unfold handle; by rewrite Hc).
  rewrite gets_bind in Hr. injection Hr as <- <-. eauto.
Qed.

Lemma sets_option impl option_id value what :
  sets impl (match value with Some v => [(option_id, v)] | None => [] end)
    (set_or_raise option_id value what).
Proof.
  intros w tr c wc' r Hc Hr. unfold set_or_raise, set_generic_mysql_option in Hr. destruct value as [v|].
  - apply action_bind_inv in Hr as [(e & -> & He)|(wc1 & b & H1 & H2)];
      (rewrite (action_bind_eq _ _ _ ((w, tr), c) impl) in * by (unfold handle; by rewrite Hc)).
    + unfold client in He. cbn in He. by destruct (mysql_options impl option_id v w).
    + unfold client in H1. cbn in H1. destruct (mysql_options impl option_id v w) as [w1 b1].
      injection H1 as <- <-. destruct b1; cbn in H2.
      * injection H2 as <- <-. exists w1, [called_options impl option_id v true]. split; [done|].
        split; [|done]. constructor; [|done]. by eexists _, _, _.
      * apply (raise_result impl) in H2 as (-> & code & what' & ->); [|done].
        exists w1, [called_options impl option_id v false]. split; [done|]. split; [|done].
        constructor; [|done]. by eexists _, _, _.
  - cbn in Hr. injection Hr as <- <-. exists w, []. rewrite app_nil_r. by split_and!.
Qed.

Lemma sets_text impl option_id value what :
  sets impl (said option_id value) (set_or_raise option_id (optional_text value) what).
Proof. pose proof (sets_option impl option_id (optional_text value) what) as Hs. by destruct value. Qed.

Lemma sets_value impl option_id value what :
  sets impl [(option_id, value)] (set_or_raise option_id (Some value) what).
Proof. apply (sets_option impl option_id (Some value)). Qed.

Lemma sets_configured impl config : sets impl (configured_options config) (process_connection_config config).
Proof.
  unfold process_connection_config, configured_options. cbn [app].
  repeat (apply (sets_app _ [_]); [apply sets_value|]). apply sets_app.
  - destruct (cc_ssl config) as [ssl|]; [|apply sets_nil]. unfold process_ssl_config, ssl_options.
    apply (sets_app _ [_]); [apply sets_value|]. repeat (apply sets_app; [apply sets_text|]). apply sets_text.
  - destruct (cc_tls config) as [tls|]; [|apply sets_nil]. unfold process_tls_config, tls_options.
    apply sets_app; apply sets_text.
Qed.

(** how the handle is connected *)
Definition connect_call impl (config : connection_config) (succeeded : bool) : call :=
  match cc_dns_srv_name config with
  | Some name => called_connect_dns_srv impl (c_str name) (c_str (cc_user config)) (c_str (cc_password config)) succeeded
  | None => called_connect impl (c_str (default [] (cc_host config))) (c_str (cc_user config))
              (c_str (cc_password config)) (default 0 (cc_port config)) succeeded
  end.

Lemma establish_trace impl config (w : W) tr c wc' r :
  mysql_impl c = Some impl → establish config ((w, tr), c) = (wc', r) →
  ∃ w' options tail, wc' = ((w', tr ++ options ++ tail), c) ∧ Forall (is_option_call impl) options ∧
    match r with
    | Ok _ => options = option_call impl <$> configured_options config ∧ tail = [connect_call impl config true]
    | Err e => tail = [] ∨ tail = [connect_call impl config false]
    end.
Proof.
  intros Hc Hr. unfold establish in Hr.
  apply action_bind_inv in Hr as [(e & -> & He)|(wc1 & [] & H1 & H2)].
  - destruct (sets_configured impl config _ _ _ _ _ Hc He) as (w' & calls & -> & Ho & _).
    exists w', calls, []. rewrite app_nil_r. split_and!; [done..|by left].
  - destruct (sets_configured impl config _ _ _ _ _ Hc H1) as (w1 & calls & -> & Ho & Hk).
    rewrite (action_bind_eq _ _ _ ((w1, tr ++ calls), c) impl) in H2 by (unfold handle; by rewrite Hc).
    assert (∃ w2 b, (if has_dns_srv_name config then
       client (mysql_real_connect_dns_srv impl (c_str (default [] (cc_dns_srv_name config)))
                 (c_str (cc_user config)) (c_str (cc_password config)))
     else client (mysql_real_connect impl (c_str (default [] (cc_host config)))
                 (c_str (cc_user config)) (c_str (cc_password config)) (default 0 (cc_port config))))
       ((w1, tr ++ calls), c) = (((w2, tr ++ calls ++ [connect_call impl config b]), c), Ok b)) as (w2 & b & Hx).
    { unfold has_dns_srv_name, connect_call. destruct (cc_dns_srv_name config) as [name|]; cbn.
      - destruct (mysql_real_connect_dns_srv _ _ _ _ w1) as [w2 b] eqn:E. exists w2, b. by rewrite app_assoc.
      - destruct (mysql_real_connect _ _ _ _ _ w1) as [w2 b] eqn:E. exists w2, b. by rewrite app_assoc. }
    rewrite (action_bind_eq _ _ _ _ _ Hx) in H2. exists w2, calls, [connect_call impl config b].
    destruct b; cbn [negb] in H2.
    + injection H2 as <- <-. split_and!; [done..|by apply Hk|done].
    + apply (raise_result impl) in H2 as (-> & code & what & ->); [|done]. split_and!; [done..|by right].
Qed.

(** C23: a connection that is created was configured with exactly the options that the
    configuration says, in order, each accepted by the library, and then connected, to the
    host and port or to the DNS SRV name of the configuration.  When it is not created, the
    handle is closed: at most some options were set and at most one attempt to connect was
    made. *)
Theorem create_connection_trace config (w : W) tr wt' r :
  create_connection config (w, tr) = (wt', r) →
  match r with
  | Ok c => ∃ w' impl, wt' = (w', tr ++ called_init (Some impl) ::
        (option_call impl <$> configured_options config) ++ [connect_call impl config true]) ∧
      c = mk_connection (Some impl) None
  | Err e => ∃ w', wt' = (w', tr ++ [called_init None]) ∨
      ∃ impl options tail, wt' = (w', tr ++ called_init (Some impl) :: options ++ tail ++ [called_close impl]) ∧
        Forall (is_option_call impl) options ∧ (tail = [] ∨ tail = [connect_call impl config false])
  end.
Proof.
  intros Hr. unfold create_connection in Hr. cbn [mysql_init traced] in Hr. unfold record in Hr.
  destruct (mysql_init w) as [w1 [impl|]] eqn:E; [|injection Hr as <- <-; exists w1; by left].
  destruct (establish config _) as [wc r'] eqn:Ee.
  destruct (establish_trace impl config _ _ (mk_connection (Some impl) None) _ _ eq_refl Ee) as (w2 & options & tail & -> & Ho & Htail).
  destruct r' as [[]|e]; injection Hr as <- <-.
  - exists w2, impl. destruct Htail as [-> ->]. by rewrite <-app_assoc.
  - eexists. right. exists impl, options, tail. split; [|by split].
    unfold destroy_connection. cbn. by rewrite <-!app_assoc.
Qed.
End connecting.

(** ** From a created connection to its end *)
Section life.
Context {W : Type} `{MysqlClient W} `{MysqlConstants}.
Implicit Types (c : connection) (impl : MYSQL).
Abbreviation world := (W * list call)%type.

Lemma accept_options p impl options :
  pt_live p !! impl = Some configuring → Forall (is_option_call impl) options → accept_all p options = Some p.
Proof.
  intros Hp. induction 1 as [|k options (o & v & b & ->) _ IH]; [done|]. cbn [accept_all accept].
  rewrite Hp. exact IH.
Qed.

Lemma accept_connect p impl config b :
  pt_live p !! impl = Some configuring →
  accept p (connect_call impl config b) = Some (if b then set_phase impl connected p else p).
Proof. intros Hp. unfold connect_call. by destruct (cc_dns_srv_name config); cbn; rewrite Hp; destruct b. Qed.

Lemma created_obeys p0 config (w : W) tr wt' r :
  create_connection config (w, tr) = (wt', r) → idle p0 (w, tr) →
  match r with
  | Ok c => ∃ impl, holds p0 impl connected (wt', c)
  | Err e => idle p0 wt'
  end.
Proof.
  unfold idle. cbn [snd]. intros Hr Hi. unfold create_connection in Hr. cbn [mysql_init traced] in Hr.
  unfold record in Hr. destruct (mysql_init w) as [w1 [impl|]] eqn:E.
  2:{ injection Hr as <- <-. cbn [snd]. by rewrite (accept_snoc _ _ _ _ Hi). }
  destruct (establish config _) as [wc r'] eqn:Ee.
  destruct (establish_trace impl config _ _ (mk_connection (Some impl) None) _ _ eq_refl Ee)
    as (w2 & options & tail & -> & Ho & Htail).
  set (p1 := mk_protocol true {[impl := configuring]} 0).
  assert (accept_all p0 ((tr ++ [called_init (Some impl)]) ++ options) = Some p1) as Hp1.
  { rewrite accept_all_app, (accept_snoc _ _ _ _ Hi). cbn [accept guard_then pt_library mbind option_bind].
    apply (accept_options p1 impl); [|done]. cbn. by rewrite lookup_singleton_eq. }
  assert (pt_live p1 !! impl = Some configuring) as Hlive by (cbn; by rewrite lookup_singleton_eq).
  rewrite app_assoc in Hr. destruct r' as [[]|e]; injection Hr as <- <-.
  - destruct Htail as [-> ->]. exists impl. split; [|done]. cbn [fst snd].
    rewrite (accept_snoc _ _ _ _ Hp1), accept_connect by done. unfold set_phase. cbn. by rewrite insert_singleton_eq.
  - unfold destroy_connection. cbn [mysql_impl conn_rpl_impl mysql_close traced record_do snd].
    assert (accept_all p0 (((tr ++ [called_init (Some impl)]) ++ options) ++ tail) = Some p1) as Hp2.
    { destruct Htail as [->| ->]; [by rewrite app_nil_r|]. by rewrite (accept_snoc _ _ _ _ Hp1), accept_connect. }
    rewrite (accept_snoc _ _ _ _ Hp2). cbn [accept pt_live p1]. rewrite lookup_singleton_eq. cbn.
    by rewrite delete_singleton_eq.
Qed.

Lemma destroyed_obeys p0 impl ph wc :
  holds p0 impl ph wc → ph ≠ configuring → idle p0 (destroy_connection wc.2 wc.1).
Proof.
  destruct wc as [[w tr] c]. intros (Ha & Hi & Hr) Hph. cbn in Ha, Hi, Hr. unfold destroy_connection, idle. cbn [snd fst].
  rewrite Hi, Hr. destruct ph as [| |rpl]; [done| |]; cbn.
  - rewrite (accept_snoc _ _ _ _ Ha). cbn. rewrite lookup_singleton_eq. cbn. by rewrite delete_singleton_eq.
  - rewrite accept_all_app, (accept_snoc _ _ _ _ Ha). cbn. rewrite lookup_singleton_eq. cbn.
    unfold set_phase. cbn. rewrite insert_singleton_eq, lookup_singleton_eq. cbn. by rewrite delete_singleton_eq.
Qed.

Lemma keeps_query p0 impl query :
  keeps (holds p0 impl connected) (client (mysql_real_query impl query)).
Proof. apply keeps_client. intros b. cbn. by rewrite lookup_singleton_eq. Qed.

Lemma keeps_noresult p0 impl query :
  keeps (holds p0 impl connected) (execute_generic_query_noresult query).
Proof.
  apply keeps_with_handle. apply keeps_bind.
  { apply keeps_throw_if_replicating. }
  intros _. apply keeps_bind; [apply keeps_query|]. intros []; [apply keeps_ret|apply keeps_raise].
Qed.

Lemma keeps_single_value P result : keeps P (single_value (W := world) result).
Proof. unfold single_value. repeat case_match; auto with keeps. Qed.

(** a result that was stored is freed whatever happens to it *)
Lemma keeps_stored p0 impl :
  keeps (holds p0 impl connected)
    (stored ← client (mysql_store_result impl);
     match stored with
     | None => raise_core_error_from_connection "cannot store query result"
     | Some result => then_free result (single_value result)
     end).
Proof.
  intros [[w tr] c] wc' r Hr (Ha & Hi & Hrpl). cbn in Ha, Hi, Hrpl.
  unfold mbind, action_bind, client in Hr. cbn [mysql_store_result traced record] in Hr.
  unfold record in Hr. destruct (mysql_store_result impl w) as [w1 [result|]].
  - rewrite bool_decide_true in Hr by done. unfold then_free in Hr.
    destruct (single_value result _) as [[wt2 c2] v] eqn:Ev.
    pose proof (keeps_single_value (λ wc, wc = ((w1, tr ++ [called_store_result impl true]), c)) _ _ _ _ Ev eq_refl) as Heq.
    injection Heq as -> ->. injection Hr as <- <-. split; [|done]. cbn.
    rewrite accept_all_app, (accept_snoc _ _ _ _ Ha). cbn. by rewrite lookup_singleton_eq.
  - rewrite bool_decide_false in Hr by (by intros [? ?]). eapply keeps_raise; [exact Hr|]. split; [|done]. cbn.
    rewrite (accept_snoc _ _ _ _ Ha). cbn. by rewrite lookup_singleton_eq.
Qed.

Lemma keeps_select p0 impl query :
  keeps (holds p0 impl connected) (execute_select_query_string_result query).
Proof.
  apply keeps_with_handle. apply keeps_bind.
  { apply keeps_throw_if_replicating. }
  intros _. apply keeps_bind; [apply keeps_query|]. intros []; [|apply keeps_raise]. apply keeps_stored.
Qed.

Lemma make_rpl_obeys p0 impl rpl what wc wc' r :
  make_rpl_impl rpl what wc = (wc', r) → holds p0 impl connected wc →
  match r with Ok _ => holds p0 impl (dumping rpl) wc' | Err _ => holds p0 impl connected wc' end.
Proof.
  intros Hr Hh. unfold make_rpl_impl in Hr.
  apply action_bind_inv in Hr as [(e & -> & He)|(wc1 & impl' & H1 & H2)].
  { by apply (handle_holds _ _ _ _ _ _ Hh) in He as [_ ?]. }
  apply (handle_holds _ _ _ _ _ _ Hh) in H1 as [-> [= ->]].
  apply action_bind_inv in H2 as [(e & -> & He)|(wc2 & b & H1 & H2)].
  { destruct wc as [[w tr] c]. unfold client in He. cbn in He. by destruct (mysql_binlog_open impl rpl w). }
  destruct (client_record p0 impl connected (if b then dumping rpl else connected) _ _ _ _ _ Hh H1) as (Ha & Hc & _).
  { intros ? [= <-]. cbn. rewrite lookup_singleton_eq. cbn. destruct b; [|done]. unfold set_phase. cbn. by rewrite insert_singleton_eq. }
  destruct Hh as (_ & Hi & Hrpl). destruct b; cbn [negb] in H2.
  - destruct wc2 as [w2 c2]. injection H2 as <- <-. cbn in Hc. subst c2. by split.
  - assert (holds p0 impl connected wc2) as Hh2 by (split; [done|by rewrite Hc]).
    apply (raise_result impl) in H2 as (-> & code & text & ->) || (destruct wc2 as [w2 c2];
      apply (raise_result impl) in H2 as (-> & code & text & ->); [done|apply Hh2]).
Qed.

Lemma switched_obeys p0 impl rpl what query wc wc' r :
  (_ ← handle; _ ← throw_if_replicating "connection has already been switched to replication";
   _ ← execute_generic_query_noresult query; make_rpl_impl rpl what) wc = (wc', r) →
  holds p0 impl connected wc →
  match r with Ok _ => holds p0 impl (dumping rpl) wc' | Err _ => holds p0 impl connected wc' end.
Proof.
  intros Hr Hh. apply action_bind_inv in Hr as [(e & -> & He)|(wc1 & impl' & H1 & Hr)].
  { by apply (handle_holds _ _ _ _ _ _ Hh) in He as [_ ?]. }
  apply (handle_holds _ _ _ _ _ _ Hh) in H1 as [-> _].
  apply action_bind_inv in Hr as [(e & -> & He)|(wc1 & [] & H1 & Hr)].
  { by eapply keeps_throw_if_replicating. }
  assert (holds p0 impl connected wc1) as Hh1 by (by eapply keeps_throw_if_replicating).
  apply action_bind_inv in Hr as [(e & -> & He)|(wc2 & [] & H2 & Hr)].
  { by eapply keeps_noresult. }
  eapply make_rpl_obeys; [exact Hr|]. by eapply keeps_noresult.
Qed.

Lemma keeps_fetch p0 impl rpl : keeps (holds p0 impl (dumping rpl)) fetch_binlog_event.
Proof.
  apply keeps_with_handle. intros wc wc' r Hr Hh. rewrite gets_bind in Hr. destruct wc as [w c].
  pose proof Hh as (_ & _ & Hrpl). cbn in Hrpl. rewrite Hrpl in Hr. cbn [rpl_conn rpl_rpl] in Hr. revert Hr Hh.
  apply keeps_bind; [apply keeps_client; intros a; cbn; by rewrite lookup_singleton_eq|].
  intros [portion|]; [apply keeps_ret|]. apply keeps_bind; [apply keeps_gets|].
  intros code. destruct (negb _); [apply keeps_raise|apply keeps_ret].
Qed.
End life.

(** ** A connection to the scripted server *)
Module TraceExamples.
Import ScriptedClient.

Definition silent : script := mk_script [] 0.
Definition connected_world : script * list call := (create_connection sample_config (silent, [])).1.

Lemma create_connection_trace_witness : ∃ w' impl,
  connected_world = (w', called_init (Some impl) ::
    (option_call impl <$> configured_options sample_config) ++ [connect_call impl sample_config true]) ∧
  mk_connection (Some 4096) None = mk_connection (Some impl) None.
Proof.
  assert (create_connection sample_config (silent, []) = (connected_world, Ok (mk_connection (Some 4096) None))) as Hc
    by run_action.
  exact (create_connection_trace sample_config silent [] connected_world _ Hc).
Defined.

(** the calls, one by one *)
Example connected_calls :
  connected_world.2 =
  [called_init (Some 4096);
   called_options 4096 MYSQL_OPT_CONNECT_TIMEOUT (option_uint 20) true;
   called_options 4096 MYSQL_OPT_READ_TIMEOUT (option_uint 60) true;
   called_options 4096 MYSQL_OPT_WRITE_TIMEOUT (option_uint 60) true;
   called_options 4096 MYSQL_OPT_SSL_MODE (option_uint 4) true;
   called_options 4096 MYSQL_OPT_SSL_CA (option_text (text "/etc/ca.pem")) true;
   called_connect 4096 (text "localhost") (text "repl") (text "secret") 3306 true].
Proof. reflexivity. Qed.
End TraceExamples.
