(* ===== verification/Config.v ===== *)
(** * The configuration file

    Models the configuration of the program (src/src/binsrv/*_config.{hpp,cpp},
    main_config.cpp), the units of its sizes and intervals (size_unit, time_unit), the
    enumerations it names, and how a JSON document is read into it
    (util/nv_tuple_from_json.hpp with util/composite_name.hpp).

    Boost.JSON is not under src/: its parser is the class [BoostJsonDocument], and a
    [document] is what it yields.  A number is represented by its value when that is an
    integer, which is all the conversions ask for. *)

From S2P Require Import Prelude Gtid Util Protocol ReaderContext Metadata Connection.

Local Open Scope Z_scope.

Definition max_uint64 : Z := 2 ^ 64 - 1.

(** ** Units *)

(** [size_unit] *)
Record size_unit := mk_size_unit { su_base_value : Z; su_shift_index : nat }.
Definition shifts : list (Z * Z) := [(95, 0); (75, 10); (77, 20); (71, 30); (84, 40); (80, 50)]. (* _KMGTP *)
Definition size_shift (u : size_unit) : Z := from_option snd 0 (shifts !! su_shift_index u).

Definition size_unit_of_string (value_sv : list Z) : result size_unit :=
  '(base_value, rest) ← or_raise (from_chars max_uint64 value_sv)
    (invalid_argument "unable to parse numeric part in the size unit");
  match rest with
  | [] => Ok (mk_size_unit base_value 0)
  | [symbol] =>
      '(index, (_, shift)) ← or_raise (list_find (λ p, p.1 = symbol) (drop 1 shifts))
        (invalid_argument "unknown unit prefix in the size unit");
      if base_value =? 0 then Ok (mk_size_unit base_value 0)
      else if Z.shiftr max_uint64 shift <? base_value then Err out_of_range
      else Ok (mk_size_unit base_value (S index))
  | _ => Err (invalid_argument "unit prefix in the size unit is expected to be a single character")
  end.

Definition size_unit_value (u : size_unit) : Z := u64 (Z.shiftl (su_base_value u) (size_shift u)).
Definition size_unit_to_string (u : size_unit) : list Z :=
  to_string (su_base_value u) ++
  (if (su_shift_index u =? 0)%nat then [] else [from_option fst 0 (shifts !! su_shift_index u)]).
Definition size_unit_description (u : size_unit) : list Z :=
  size_unit_to_string u ++
  (if (su_shift_index u =? 0)%nat then [] else text " (" ++ to_string (size_unit_value u) ++ text ")").

(** [time_unit] *)
Record time_unit := mk_time_unit { tu_base_value : Z; tu_multiplier_index : nat }.
Definition multipliers : list (Z * Z) := [(115, 1); (109, 60); (104, 60 * 60); (100, 60 * 60 * 24)]. (* smhd *)
Definition time_multiplier (u : time_unit) : Z := from_option snd 0 (multipliers !! tu_multiplier_index u).

Definition time_unit_of_string (value_sv : list Z) : result time_unit :=
  '(base_value, rest) ← or_raise (from_chars max_uint64 value_sv)
    (invalid_argument "unable to parse numeric part in the time unit");
  match rest with
  | [] => Ok (mk_time_unit base_value 0)
  | [symbol] =>
      '(index, (_, multiplier)) ← or_raise (list_find (λ p, p.1 = symbol) multipliers)
        (invalid_argument "unknown unit prefix in the time unit");
      if base_value =? 0 then Ok (mk_time_unit base_value 0)
      else if max_uint64 / multiplier <? base_value then Err out_of_range
      else Ok (mk_time_unit base_value index)
  | _ => Err (invalid_argument "unit prefix in the time unit is expected to be a single character")
  end.

Definition time_unit_value (u : time_unit) : Z := u64 (tu_base_value u * time_multiplier u).
Definition time_unit_to_string (u : time_unit) : list Z :=
  to_string (tu_base_value u) ++ [from_option fst 0 (multipliers !! tu_multiplier_index u)].
Definition time_unit_description (u : time_unit) : list Z :=
  time_unit_to_string u ++
  (if (tu_multiplier_index u =? 0)%nat then []
   else text " (" ++ to_string (time_unit_value u) ++ [from_option fst 0 (head multipliers)] ++ text ")").

(** [operator>>] of the units: exceptions of the constructors set the failure bit *)
Definition unit_from_string {A} (construct : list Z → result A) (s : list Z) : result A :=
  unit_str ← read_token s;
  match construct unit_str with Ok u => Ok u | Err _ => Err bad_lexical_cast end.
Definition size_unit_from_string : list Z → result size_unit := unit_from_string size_unit_of_string.
Definition time_unit_from_string : list Z → result time_unit := unit_from_string time_unit_of_string.

(** ** Enumerations *)

(** the [operator>>] of an enumeration: the first enumerator with this label *)
Definition enum_from_string {A} (labels : list (A * list Z)) (s : list Z) : result A :=
  level_str ← read_token s;
  match list_find (λ p, p.2 = level_str) labels with
  | Some (_, (level, _)) => Ok level
  | None => Err bad_lexical_cast
  end.

Inductive log_severity := sev_trace | sev_debug | sev_info | sev_warning | sev_error | sev_fatal | sev_delimiter.
Definition log_severity_to_string (level : log_severity) : list Z :=
  match level with
  | sev_trace => text "trace" | sev_debug => text "debug" | sev_info => text "info"
  | sev_warning => text "warning" | sev_error => text "error" | sev_fatal => text "fatal"
  | sev_delimiter => []
  end.
Definition log_severity_labels : list (log_severity * list Z) :=
  (λ l, (l, log_severity_to_string l)) <$> [sev_trace; sev_debug; sev_info; sev_warning; sev_error; sev_fatal].
Definition log_severity_from_string : list Z → result log_severity := enum_from_string log_severity_labels.

Definition ssl_mode_to_string (mode : ssl_mode_type) : list Z :=
  match mode with
  | ssl_disabled => text "disabled" | ssl_preferred => text "preferred" | ssl_required => text "required"
  | ssl_verify_ca => text "verify_ca" | ssl_verify_identity => text "verify_identity"
  end.
Definition ssl_mode_labels : list (ssl_mode_type * list Z) :=
  (λ m, (m, ssl_mode_to_string m)) <$> [ssl_disabled; ssl_preferred; ssl_required; ssl_verify_ca; ssl_verify_identity].
Definition ssl_mode_from_string : list Z → result ssl_mode_type := enum_from_string ssl_mode_labels.

Inductive storage_backend_type := backend_file | backend_s3.
Definition storage_backend_to_string (b : storage_backend_type) : list Z :=
  match b with backend_file => text "file" | backend_s3 => text "s3" end.
Definition storage_backend_labels : list (storage_backend_type * list Z) :=
  (λ b, (b, storage_backend_to_string b)) <$> [backend_file; backend_s3].
Definition storage_backend_from_string : list Z → result storage_backend_type :=
  enum_from_string storage_backend_labels.

(** ** Documents *)
Inductive document :=
  | doc_null
  | doc_bool (value : bool)
  | doc_number (integral : option Z)
  | doc_string (value : list Z)
  | doc_array (elements : list document)
  | doc_object (members : list (list Z * document)).
Abbreviation document_members := (list (list Z * document)).

Class BoostJsonDocument := { document_parse : list Z → result document }.

(** ** Extraction

    The context of an extraction is a stack of labels; an exception leaves the stack as it
    is, and the path that it says is reported. *)
Abbreviation label_stack := (list string).
Definition extraction (A : Type) : Type := label_stack → A + label_stack.
#[export] Instance extraction_ret : MRet extraction := λ A a st, inl a.
#[export] Instance extraction_bind : MBind extraction := λ A B f m st,
  match m st with inl a => f a st | inr st => inr st end.
#[export] Instance extraction_fmap : FMap extraction := λ A B f m st,
  match m st with inl a => inl (f a) | inr st => inr st end.
(** an exception of the conversion *)
Definition not_extracted {A} : extraction A := λ st, inr st.

(** [value_to] *)
Definition to_unsigned (w : Z) (v : document) : extraction Z :=
  match v with
  | doc_number (Some z) => if bool_decide (in_width w z) then mret z else not_extracted
  | _ => not_extracted
  end.
Definition to_bool (v : document) : extraction bool :=
  match v with doc_bool b => mret b | _ => not_extracted end.
Definition to_text (v : document) : extraction (list Z) :=
  match v with doc_string s => mret s | _ => not_extracted end.
Definition to_object (v : document) : extraction document_members :=
  match v with doc_object ms => mret ms | _ => not_extracted end.
(** a type that is [string_convertible] *)
Definition to_convertible {A} (cast : list Z → result A) (v : document) : extraction A :=
  match v with
  | doc_string s => match cast s with Ok a => mret a | Err _ => not_extracted end
  | _ => not_extracted
  end.
Definition to_optional {A} (to : document → extraction A) (v : document) : extraction (option A) :=
  match v with doc_null => mret None | _ => Some <$> to v end.

Definition find_member (name : list Z) (ms : document_members) : document :=
  match list_find (λ m, m.1 = name) ms with
  | Some (_, (_, v)) => v
  | None => doc_null
  end.
(** [extract_element_from_json_value]: the label is pushed, and popped on success *)
Definition element {A} (ms : document_members) (name : string) (value_to : document → extraction A) : extraction A :=
  λ st, value_to (find_member (text name) ms) (st ++ [name]).

(** [extraction_context::to_string], over [composite_name::str] *)
Definition composite_str (elements : label_stack) : string := String.concat "." elements.
Definition extraction_context_to_string (st : label_stack) : string :=
  match st with [] => "<root_element>" | _ => composite_str st end.
Definition quote : string := String (Ascii.ascii_of_nat 34) EmptyString.
Definition unable_to_extract (st : label_stack) : error :=
  invalid_argument ("unable to extract " ++ quote ++ extraction_context_to_string st ++ quote).

(** ** The sections *)
Definition to_ssl_config (v : document) : extraction ssl_config :=
  ms ← to_object v;
  mode ← element ms "mode" (to_convertible ssl_mode_from_string);
  ca ← element ms "ca" (to_optional to_text);
  capath ← element ms "capath" (to_optional to_text);
  crl ← element ms "crl" (to_optional to_text);
  crlpath ← element ms "crlpath" (to_optional to_text);
  cert ← element ms "cert" (to_optional to_text);
  key ← element ms "key" (to_optional to_text);
  cipher ← element ms "cipher" (to_optional to_text);
  mret (mk_ssl_config mode ca capath crl crlpath cert key cipher).

Definition to_tls_config (v : document) : extraction tls_config :=
  ms ← to_object v;
  ciphersuites ← element ms "ciphersuites" (to_optional to_text);
  version ← element ms "version" (to_optional to_text);
  mret (mk_tls_config ciphersuites version).

Definition to_connection_config (v : document) : extraction connection_config :=
  ms ← to_object v;
  host ← element ms "host" (to_optional to_text);
  port ← element ms "port" (to_optional (to_unsigned 16));
  dns_srv_name ← element ms "dns_srv_name" (to_optional to_text);
  user ← element ms "user" to_text;
  password ← element ms "password" to_text;
  connect_timeout ← element ms "connect_timeout" (to_unsigned 32);
  read_timeout ← element ms "read_timeout" (to_unsigned 32);
  write_timeout ← element ms "write_timeout" (to_unsigned 32);
  ssl ← element ms "ssl" (to_optional to_ssl_config);
  tls ← element ms "tls" (to_optional to_tls_config);
  mret (mk_connection_config host port dns_srv_name user password connect_timeout read_timeout
          write_timeout ssl tls).

Record logger_config := mk_logger_config { lg_level : log_severity; lg_file : list Z }.
Definition has_file (c : logger_config) : bool := negb (bool_decide (lg_file c = [])).
Definition to_logger_config (v : document) : extraction logger_config :=
  ms ← to_object v;
  level ← element ms "level" (to_convertible log_severity_from_string);
  file ← element ms "file" to_text;
  mret (mk_logger_config level file).

(** [rewrite_config] *)
Record rewrite_section := mk_rewrite_section { rs_base_file_name : list Z; rs_file_size : size_unit }.
Definition to_rewrite_config (v : document) : extraction rewrite_section :=
  ms ← to_object v;
  base_file_name ← element ms "base_file_name" to_text;
  file_size ← element ms "file_size" (to_convertible size_unit_from_string);
  mret (mk_rewrite_section base_file_name file_size).

Record replication_config := mk_replication_config {
  rp_server_id : Z;
  rp_idle_time : Z;
  rp_verify_checksum : bool;
  rp_mode : replication_mode_type;
  rp_rewrite : option rewrite_section
}.
Definition to_replication_config (v : document) : extraction replication_config :=
  ms ← to_object v;
  server_id ← element ms "server_id" (to_unsigned 32);
  idle_time ← element ms "idle_time" (to_unsigned 32);
  verify_checksum ← element ms "verify_checksum" to_bool;
  mode ← element ms "mode" (to_convertible replication_mode_from_string);
  rewrite ← element ms "rewrite" (to_optional to_rewrite_config);
  mret (mk_replication_config server_id idle_time verify_checksum mode rewrite).

Record storage_config := mk_storage_config {
  sc_backend : storage_backend_type;
  sc_uri : list Z;
  sc_fs_buffer_directory : option (list Z);
  sc_checkpoint_size : option size_unit;
  sc_checkpoint_interval : option time_unit
}.
Definition to_storage_config (v : document) : extraction storage_config :=
  ms ← to_object v;
  backend ← element ms "backend" (to_convertible storage_backend_from_string);
  uri ← element ms "uri" to_text;
  fs_buffer_directory ← element ms "fs_buffer_directory" (to_optional to_text);
  checkpoint_size ← element ms "checkpoint_size" (to_optional (to_convertible size_unit_from_string));
  checkpoint_interval ← element ms "checkpoint_interval" (to_optional (to_convertible time_unit_from_string));
  mret (mk_storage_config backend uri fs_buffer_directory checkpoint_size checkpoint_interval).

Record main_config := mk_main_config {
  mc_logger : logger_config;
  mc_connection : connection_config;
  mc_replication : replication_config;
  mc_storage : storage_config
}.
Definition to_main_config (v : document) : extraction main_config :=
  ms ← to_object v;
  logger ← element ms "logger" to_logger_config;
  connection ← element ms "connection" to_connection_config;
  replication ← element ms "replication" to_replication_config;
  storage ← element ms "storage" to_storage_config;
  mret (mk_main_config logger connection replication storage).

(** ** Validation *)
Definition min_file_size : Z := 1024.
Definition validate_rewrite_config (c : rewrite_section) : result unit :=
  raise_if (size_unit_value (rs_file_size c) <? min_file_size)
    (invalid_argument "error validating rewrite config: file size must be >= 1024 bytes").

Definition validate_replication_config (c : replication_config) : result unit :=
  match rp_rewrite c with
  | None => Ok ()
  | Some rewrite =>
      _ ← raise_if (negb (bool_decide (rp_mode c = mode_gtid)))
            (invalid_argument "error validating replication config: rewrite can only be enabled in gtid replication mode");
      validate_rewrite_config rewrite
  end.

Definition validate (c : main_config) : result unit :=
  _ ← validate_connection_config (mc_connection c);
  validate_replication_config (mc_replication c).

(** ** [main_config] *)

(** [util::nv_tuple_from_json] for the whole document *)
Definition main_config_from_json (v : document) : result main_config :=
  match to_main_config v [] with
  | inl c => Ok c
  | inr st => Err (unable_to_extract st)
  end.

Definition max_file_size : Z := 1048576.

(** the constructor: [None] when the file cannot be opened *)
Definition make_main_config `{BoostJsonDocument} (file : option (list Z)) : result main_config :=
  match file with
  | None => Err (runtime_error "cannot open configuration file")
  | Some file_content =>
      let file_size := Z.of_nat (length file_content) in
      if file_size =? 0 then Err out_of_range
      else if max_file_size <? file_size then Err out_of_range
      else
        json_value ← document_parse file_content;
        c ← main_config_from_json json_value;
        _ ← validate c;
        Ok c
  end.

(** ** Units are exact *)

(** what a parsed unit is *)
Definition size_unit_ok (u : size_unit) : Prop :=
  in_width 64 (su_base_value u) ∧ (su_shift_index u < length shifts)%nat ∧
  (su_base_value u = 0 → su_shift_index u = O) ∧
  su_base_value u * 2 ^ size_shift u ≤ max_uint64.
Definition time_unit_ok (u : time_unit) : Prop :=
  in_width 64 (tu_base_value u) ∧ (tu_multiplier_index u < length multipliers)%nat ∧
  (tu_base_value u = 0 → tu_multiplier_index u = O) ∧
  tu_base_value u * time_multiplier u ≤ max_uint64.

Lemma from_chars_bound max l v rest : from_chars max l = Some (v, rest) → 0 ≤ v ≤ max.
Proof.
  unfold from_chars. destruct (take_digits l) as [ds rest'] eqn:E. apply take_digits_spec in E as [_ Hd].
  destruct ds as [|d ds]; [done|]. destruct (Z.ltb_spec max (foldl dec_step 0 (d :: ds))); [done|].
  intros [= <- _]. destruct (dec_value_bound (d :: ds) 0 Hd) as [Hb _]; [done|]. rewrite Z.mul_0_l in Hb. exact (conj Hb H).
Qed.

(** a number that was printed, before a character that is not a digit *)
Lemma from_chars_to_string v rest :
  in_width 64 v → (∀ c r, rest = c :: r → isdigit c = false) →
  from_chars max_uint64 (to_string v ++ rest) = Some (v, rest).
Proof.
  intros Hv Hr. destruct (to_string_spec v Hv) as (Hne & Hd & Hval). unfold from_chars.
  assert (take_digits (to_string v ++ rest) = (to_string v, rest)) as ->.
  { apply take_digits_app; [done|]. destruct rest as [|c r]; [done|]. by apply (Hr c r). }
  destruct (to_string v) as [|d ds]; [done|]. rewrite Hval.
  destruct (Z.ltb_spec max_uint64 v) as [Hl|]; [|done]. unfold max_uint64, in_width in *. lia.
Qed.

Lemma div_ltb max v m : 0 < m → (max / m <? v) = (max <? v * m).
Proof.
  intros Hm. destruct (Z.ltb_spec max (v * m)) as [Hl|Hl].
  - apply Z.ltb_lt, Z.div_lt_upper_bound; lia.
  - apply Z.ltb_ge, Z.div_le_lower_bound; lia.
Qed.

(** a table of units: their characters are not digits and differ, their factors are positive *)
Lemma shifts_found i c k :
  shifts !! i = Some (c, k) → isdigit c = false ∧ 0 ≤ k ∧
  (∀ j, i = S j → list_find (λ p, p.1 = c) (drop 1 shifts) = Some (j, (c, k))).
Proof.
  intros Hi. do 6 (destruct i as [|i]; [injection Hi as <- <-; split; [done|]; split; [done|]; by intros ? [= <-]|]). done.
Qed.
Lemma multipliers_found i c m :
  multipliers !! i = Some (c, m) → isdigit c = false ∧ 0 < m ∧
  list_find (λ p, p.1 = c) multipliers = Some (i, (c, m)).
Proof. intros Hi. do 4 (destruct i as [|i]; [by injection Hi as <- <-|]). done. Qed.

Lemma size_unit_number v : in_width 64 v → size_unit_of_string (to_string v) = Ok (mk_size_unit v 0).
Proof.
  intros Hv. unfold size_unit_of_string. rewrite <-(app_nil_r (to_string v)), from_chars_to_string by done. done.
Qed.
Lemma size_unit_prefixed v i c k :
  in_width 64 v → shifts !! S i = Some (c, k) →
  size_unit_of_string (to_string v ++ [c]) =
    if v =? 0 then Ok (mk_size_unit v 0)
    else if max_uint64 <? v * 2 ^ k then Err out_of_range else Ok (mk_size_unit v (S i)).
Proof.
  intros Hv Hi. destruct (shifts_found _ _ _ Hi) as (Hc & Hk & Hf). unfold size_unit_of_string.
  rewrite from_chars_to_string by (done || by intros ? ? [= <- <-]). cbn [or_raise mbind result_bind].
  rewrite (Hf i eq_refl). cbn [or_raise mbind result_bind].
  rewrite Z.shiftr_div_pow2, div_ltb by (done || by apply Z.pow_pos_nonneg). done.
Qed.

Lemma size_unit_parsed s u : size_unit_of_string s = Ok u → size_unit_ok u.
Proof.
  unfold size_unit_of_string. intros Hs. apply result_bind_ok in Hs as ([v rest] & Hv & Hs).
  apply or_raise_ok in Hv. pose proof (from_chars_bound _ _ _ _ Hv) as Hb. unfold max_uint64 in Hb.
  assert (size_unit_ok (mk_size_unit v 0)) as Hz.
  { split; [unfold in_width; cbn; lia|]. split; [cbn; lia|]. split; [done|]. cbn. unfold max_uint64. lia. }
  destruct rest as [|symbol [|]]; [by injection Hs as <-| |done].
  apply result_bind_ok in Hs as ([index [c k]] & Hf & Hs). apply or_raise_ok, list_find_Some in Hf as (Hi & Hc & _).
  rewrite lookup_drop in Hi. destruct (shifts_found _ _ _ Hi) as (_ & Hk & _).
  destruct (Z.eqb_spec v 0) as [->|Hne]; [by injection Hs as <-|].
  rewrite Z.shiftr_div_pow2, div_ltb in Hs by (done || by apply Z.pow_pos_nonneg).
  destruct (Z.ltb_spec max_uint64 (v * 2 ^ k)) as [|Hle]; [done|]. injection Hs as <-.
  split; [unfold in_width; cbn; lia|]. split; [by eapply lookup_lt_Some|]. split; [done|].
  unfold size_shift. cbn [su_shift_index su_base_value]. change (S index) with (1 + index)%nat. by rewrite Hi.
Qed.

(** [size_unit_ok] is what the printed form needs *)
Lemma size_unit_reads_back u : size_unit_ok u → size_unit_of_string (size_unit_to_string u) = Ok u.
Proof.
  destruct u as [v i]. intros (Hv & Hi & Hz & Hm). cbn [su_base_value su_shift_index] in *.
  unfold size_unit_to_string, size_shift in *. cbn [su_base_value su_shift_index] in *.
  destruct i as [|i]; [rewrite app_nil_r; by apply size_unit_number|]. cbn [Nat.eqb].
  destruct (lookup_lt_is_Some_2 shifts (S i) Hi) as [[c k] Hck]. rewrite Hck in *. cbn [from_option fst snd] in *.
  rewrite (size_unit_prefixed v i c k Hv Hck). destruct (Z.eqb_spec v 0) as [->|_]; [by specialize (Hz eq_refl)|].
  destruct (Z.ltb_spec max_uint64 (v * 2 ^ k)); [lia|done].
Qed.

Lemma size_unit_value_exact u : size_unit_ok u → size_unit_value u = su_base_value u * 2 ^ size_shift u.
Proof.
  intros (Hv & Hi & _ & Hm). unfold size_unit_value.
  assert (0 ≤ size_shift u) as Hs.
  { unfold size_shift. destruct (lookup_lt_is_Some_2 shifts _ Hi) as [[c k] Hck]. rewrite Hck.
    by apply (shifts_found _ _ _ Hck). }
  rewrite Z.shiftl_mul_pow2 by done. apply wrap_small. split; [|unfold max_uint64 in Hm; lia].
  destruct Hv. apply Z.mul_nonneg_nonneg; [done|]. by apply Z.pow_nonneg.
Qed.

(** C26: a size unit is never wrong by an overflow.  The constructor accepts a number that
    fits 64 bits, alone or with one of the prefixes K, M, G, T and P, exactly when the
    number of bytes it stands for fits 64 bits, and reports [out_of_range] when it does not;
    the value of an accepted unit is the base value times the power of two of its prefix,
    without wrapping around; and what it prints is read back as the same unit. *)
Theorem size_unit_exact :
  (∀ s u, size_unit_of_string s = Ok u →
     size_unit_value u = su_base_value u * 2 ^ size_shift u ∧ in_width 64 (size_unit_value u) ∧
     size_unit_of_string (size_unit_to_string u) = Ok u) ∧
  (∀ v i c k, 0 < v < 2 ^ 64 → shifts !! S i = Some (c, k) →
     size_unit_of_string (to_string v ++ [c]) =
       if bool_decide (v * 2 ^ k < 2 ^ 64) then Ok (mk_size_unit v (S i)) else Err out_of_range).
Proof.
  split.
  - intros s u Hs. apply size_unit_parsed in Hs as Hu. split; [by apply size_unit_value_exact|].
    split; [by apply wrap_bound|]. by apply size_unit_reads_back.
  - intros v i c k Hv Hi. rewrite (size_unit_prefixed v i c k) by (done || (unfold in_width; lia)).
    destruct (Z.eqb_spec v 0); [lia|]. unfold max_uint64.
    destruct (Z.ltb_spec (2 ^ 64 - 1) (v * 2 ^ k)); [rewrite bool_decide_false by lia|rewrite bool_decide_true by lia]; done.
Qed.

Lemma time_unit_number v : in_width 64 v → time_unit_of_string (to_string v) = Ok (mk_time_unit v 0).
Proof.
  intros Hv. unfold time_unit_of_string. rewrite <-(app_nil_r (to_string v)), from_chars_to_string by done. done.
Qed.
Lemma time_unit_suffixed v i c m :
  in_width 64 v → multipliers !! i = Some (c, m) →
  time_unit_of_string (to_string v ++ [c]) =
    if v =? 0 then Ok (mk_time_unit v 0)
    else if max_uint64 <? v * m then Err out_of_range else Ok (mk_time_unit v i).
Proof.
  intros Hv Hi. destruct (multipliers_found _ _ _ Hi) as (Hc & Hm & Hf). unfold time_unit_of_string.
  rewrite from_chars_to_string by (done || by intros ? ? [= <- <-]). cbn [or_raise mbind result_bind].
  rewrite Hf. cbn [or_raise mbind result_bind]. by rewrite div_ltb.
Qed.

Lemma time_unit_parsed s u : time_unit_of_string s = Ok u → time_unit_ok u.
Proof.
  unfold time_unit_of_string. intros Hs. apply result_bind_ok in Hs as ([v rest] & Hv & Hs).
  apply or_raise_ok in Hv. pose proof (from_chars_bound _ _ _ _ Hv) as Hb. unfold max_uint64 in Hb.
  assert (time_unit_ok (mk_time_unit v 0)) as Hz.
  { split; [unfold in_width; cbn; lia|]. split; [cbn; lia|]. split; [done|]. cbn. unfold max_uint64. lia. }
  destruct rest as [|symbol [|]]; [by injection Hs as <-| |done].
  apply result_bind_ok in Hs as ([index [c m]] & Hf & Hs). apply or_raise_ok, list_find_Some in Hf as (Hi & Hc & _).
  destruct (multipliers_found _ _ _ Hi) as (_ & Hm & _).
  destruct (Z.eqb_spec v 0) as [->|Hne]; [by injection Hs as <-|]. rewrite div_ltb in Hs by done.
  destruct (Z.ltb_spec max_uint64 (v * m)) as [|Hle]; [done|]. injection Hs as <-.
  split; [unfold in_width; cbn; lia|]. split; [by eapply lookup_lt_Some|]. split; [done|].
  unfold time_multiplier. cbn [tu_multiplier_index tu_base_value]. by rewrite Hi.
Qed.

Lemma time_unit_reads_back u : time_unit_ok u → time_unit_of_string (time_unit_to_string u) = Ok u.
Proof.
  destruct u as [v i]. intros (Hv & Hi & Hz & Hm). cbn [tu_base_value tu_multiplier_index] in *.
  unfold time_unit_to_string, time_multiplier in *. cbn [tu_base_value tu_multiplier_index] in *.
  destruct (lookup_lt_is_Some_2 multipliers i Hi) as [[c m] Hck]. rewrite Hck in *. cbn [from_option fst snd] in *.
  rewrite (time_unit_suffixed v i c m Hv Hck). destruct (Z.eqb_spec v 0) as [->|_]; [by rewrite Hz|].
  destruct (Z.ltb_spec max_uint64 (v * m)); [lia|done].
Qed.

Lemma time_unit_value_exact u : time_unit_ok u → time_unit_value u = tu_base_value u * time_multiplier u.
Proof.
  intros (Hv & Hi & _ & Hm). apply wrap_small. split; [|unfold max_uint64 in Hm; lia].
  unfold time_multiplier. destruct (lookup_lt_is_Some_2 multipliers _ Hi) as [[c m] Hck]. rewrite Hck.
  destruct (multipliers_found _ _ _ Hck) as (_ & Hp & _). destruct Hv. cbn. lia.
Qed.
