(* ===== verification/ConfigLaws.v ===== *)
(** * What a configuration file says

    Three properties of Config.v: a document that says a configuration is read as that
    configuration; a configuration that is accepted is one the program can work with; and
    the path that is reported when an element cannot be extracted is one of the schema. *)

From S2P Require Import Prelude Gtid Util Protocol ReaderContext Metadata Connection Config.

Local Open Scope Z_scope.

(** ** Documents of configurations *)

(** a tuple as an object: members without a value are left out *)
Definition is_null (v : document) : bool := match v with doc_null => true | _ => false end.
Definition present (ms : document_members) : document_members := filter (λ m, is_null m.2 = false) ms.
Definition from_optional {A} (from : A → document) (o : option A) : document :=
  match o with Some a => from a | None => doc_null end.
Definition unsigned (z : Z) : document := doc_number (Some z).

Definition ssl_members (c : ssl_config) : document_members :=
  [(text "mode", doc_string (ssl_mode_to_string (ssl_mode c)));
   (text "ca", from_optional doc_string (ssl_ca c));
   (text "capath", from_optional doc_string (ssl_capath c));
   (text "crl", from_optional doc_string (ssl_crl c));
   (text "crlpath", from_optional doc_string (ssl_crlpath c));
   (text "cert", from_optional doc_string (ssl_cert c));
   (text "key", from_optional doc_string (ssl_key c));
   (text "cipher", from_optional doc_string (ssl_cipher c))].
Definition tls_members (c : tls_config) : document_members :=
  [(text "ciphersuites", from_optional doc_string (tls_ciphersuites c));
   (text "version", from_optional doc_string (tls_version c))].
Definition connection_members (c : connection_config) : document_members :=
  [(text "host", from_optional doc_string (cc_host c));
   (text "port", from_optional unsigned (cc_port c));
   (text "dns_srv_name", from_optional doc_string (cc_dns_srv_name c));
   (text "user", doc_string (cc_user c));
   (text "password", doc_string (cc_password c));
   (text "connect_timeout", unsigned (cc_connect_timeout c));
   (text "read_timeout", unsigned (cc_read_timeout c));
   (text "write_timeout", unsigned (cc_write_timeout c));
   (text "ssl", from_optional (λ s, doc_object (present (ssl_members s))) (cc_ssl c));
   (text "tls", from_optional (λ t, doc_object (present (tls_members t))) (cc_tls c))].
Definition logger_members (c : logger_config) : document_members :=
  [(text "level", doc_string (log_severity_to_string (lg_level c)));
   (text "file", doc_string (lg_file c))].
Definition rewrite_members (c : rewrite_section) : document_members :=
  [(text "base_file_name", doc_string (rs_base_file_name c));
   (text "file_size", doc_string (size_unit_to_string (rs_file_size c)))].
Definition replication_members (c : replication_config) : document_members :=
  [(text "server_id", unsigned (rp_server_id c));
   (text "idle_time", unsigned (rp_idle_time c));
   (text "verify_checksum", doc_bool (rp_verify_checksum c));
   (text "mode", doc_string (replication_mode_to_string (rp_mode c)));
   (text "rewrite", from_optional (λ r, doc_object (present (rewrite_members r))) (rp_rewrite c))].
Definition storage_members (c : storage_config) : document_members :=
  [(text "backend", doc_string (storage_backend_to_string (sc_backend c)));
   (text "uri", doc_string (sc_uri c));
   (text "fs_buffer_directory", from_optional doc_string (sc_fs_buffer_directory c));
   (text "checkpoint_size", from_optional (λ u, doc_string (size_unit_to_string u)) (sc_checkpoint_size c));
   (text "checkpoint_interval", from_optional (λ u, doc_string (time_unit_to_string u)) (sc_checkpoint_interval c))].
Definition main_members (c : main_config) : document_members :=
  [(text "logger", doc_object (present (logger_members (mc_logger c))));
   (text "connection", doc_object (present (connection_members (mc_connection c))));
   (text "replication", doc_object (present (replication_members (mc_replication c))));
   (text "storage", doc_object (present (storage_members (mc_storage c))))].
Definition document_of (c : main_config) : document := doc_object (present (main_members c)).

(** ** Well-formed configurations *)
Definition connection_config_ok (c : connection_config) : Prop :=
  (∀ port, cc_port c = Some port → in_width 16 port) ∧ in_width 32 (cc_connect_timeout c) ∧
  in_width 32 (cc_read_timeout c) ∧ in_width 32 (cc_write_timeout c).
Definition replication_config_ok (c : replication_config) : Prop :=
  in_width 32 (rp_server_id c) ∧ in_width 32 (rp_idle_time c) ∧
  ∀ r, rp_rewrite c = Some r → size_unit_ok (rs_file_size r).
Definition storage_config_ok (c : storage_config) : Prop :=
  (∀ u, sc_checkpoint_size c = Some u → size_unit_ok u) ∧
  (∀ u, sc_checkpoint_interval c = Some u → time_unit_ok u).
Definition main_config_ok (c : main_config) : Prop :=
  lg_level (mc_logger c) ≠ sev_delimiter ∧ connection_config_ok (mc_connection c) ∧
  replication_config_ok (mc_replication c) ∧ storage_config_ok (mc_storage c).

(** ** Reading one element *)
Definition reads {A} (to : document → extraction A) (v : document) (a : A) : Prop := ∀ st, to v st = inl a.

Lemma reads_text s : reads to_text (doc_string s) s.
Proof. done. Qed.
Lemma reads_bool b : reads to_bool (doc_bool b) b.
Proof. done. Qed.
Lemma reads_unsigned w z : in_width w z → reads (to_unsigned w) (unsigned z) z.
Proof. intros Hz st. cbn. by rewrite bool_decide_true. Qed.
Lemma reads_convertible {A} (cast : list Z → result A) s a : cast s = Ok a → reads (to_convertible cast) (doc_string s) a.
Proof. intros Hc st. cbn. by rewrite Hc. Qed.
Lemma reads_optional {A} to (from : A → document) o :
  (∀ a, o = Some a → reads to (from a) a ∧ from a ≠ doc_null) → reads (to_optional to) (from_optional from o) o.
Proof.
  intros Ho st. destruct o as [a|]; [|done]. destruct (Ho a eq_refl) as [Hr Hn]. unfold to_optional, from_optional.
  specialize (Hr st). destruct (from a); [done|by cbn; unfold fmap, extraction_fmap; rewrite Hr..].
Qed.
Lemma reads_optional_text o : reads (to_optional to_text) (from_optional doc_string o) o.
Proof. by apply reads_optional. Qed.

Lemma find_present ms i name v :
  NoDup ms.*1 → ms !! i = Some (name, v) → find_member name (present ms) = v.
Proof.
  unfold find_member. revert i. induction ms as [|[n w] ms IH]; intros i Hnd Hi; [done|].
  rewrite fmap_cons in Hnd. apply NoDup_cons in Hnd as [Hn Hnd]. cbn [fst] in Hn. destruct i as [|i].
  - injection Hi as -> ->. unfold present. destruct v; try (rewrite filter_cons_True by done; cbn; by rewrite decide_True).
    rewrite filter_cons_False by done. destruct (list_find _ _) as [[j [n' w']]|] eqn:E; [|done].
    apply list_find_Some in E as (Hj & Heq & _). cbn in Heq. subst n'. exfalso. apply Hn.
    apply list_elem_of_lookup_2, list_elem_of_filter in Hj as [_ Hj].
    apply list_elem_of_fmap. by exists (name, w').
  - specialize (IH i Hnd Hi). unfold present in *. assert (n ≠ name) as Hne.
    { intros ->. apply Hn. apply (list_elem_of_lookup_2 ms i) in Hi.
      apply list_elem_of_fmap. by exists (name, v). }
    destruct w; try (rewrite filter_cons_False by done; exact IH);
      (rewrite filter_cons_True by done; cbn; rewrite decide_False by done;
       destruct (list_find _ _) as [[j [n' w']]|]; exact IH).
Qed.

(** one step of the extraction of a tuple *)
Lemma read_member {A B} i ms name to v (a : A) (k : A → extraction B) st :
  NoDup ms.*1 → ms !! i = Some (text name, v) → reads to v a →
  (element (present ms) name to ≫= k) st = k a st.
Proof.
  intros Hnd Hi Hr. unfold mbind, extraction_bind, element. by rewrite (find_present _ _ _ _ Hnd Hi), Hr.
Qed.

Lemma read_object {A} ms (k : document_members → extraction A) st :
  (to_object (doc_object ms) ≫= k) st = k ms st.
Proof. done. Qed.

Lemma read_token_ok s : s ≠ [] → Forall (λ c, isspace c = false) s → read_token s = Ok s.
Proof.
  intros Hne Hs. unfold read_token. rewrite bool_decide_false by done. cbn.
  assert (existsb isspace s = false) as ->; [|done]. clear Hne. induction Hs as [|c s Hc _ IH]; [done|].
  cbn. by rewrite Hc.
Qed.
Lemma digits_no_space v : in_width 64 v → Forall (λ c, isspace c = false) (to_string v).
Proof.
  intros Hv. destruct (to_string_spec v Hv) as (_ & Hd & _). eapply Forall_impl; [exact Hd|].
  intros c Hc. unfold isdigit in Hc. unfold isspace. to_prop. lia.
Qed.

Lemma reads_size_unit u :
  size_unit_ok u → reads (to_convertible size_unit_from_string) (doc_string (size_unit_to_string u)) u.
Proof.
  intros Hu. apply reads_convertible. unfold size_unit_from_string, unit_from_string.
  rewrite read_token_ok; [cbn [mbind result_bind]; by rewrite size_unit_reads_back| |].
  - destruct Hu as (Hv & _). unfold size_unit_to_string. destruct (to_string_spec _ Hv) as (Hne & _).
    by destruct (to_string (su_base_value u)).
  - destruct Hu as (Hv & Hi & _). unfold size_unit_to_string. apply Forall_app. split; [by apply digits_no_space|].
    destruct (su_shift_index u) as [|i]; [constructor|]. cbn [Nat.eqb]. constructor; [|constructor].
    do 5 (destruct i as [|i]; [done|]). cbn in Hi. lia.
Qed.
Lemma reads_time_unit u :
  time_unit_ok u → reads (to_convertible time_unit_from_string) (doc_string (time_unit_to_string u)) u.
Proof.
  intros Hu. apply reads_convertible. unfold time_unit_from_string, unit_from_string.
  rewrite read_token_ok; [cbn [mbind result_bind]; by rewrite time_unit_reads_back| |].
  - destruct Hu as (Hv & _). unfold time_unit_to_string. destruct (to_string_spec _ Hv) as (Hne & _).
    by destruct (to_string (tu_base_value u)).
  - destruct Hu as (Hv & Hi & _). unfold time_unit_to_string. apply Forall_app. split; [by apply digits_no_space|].
    constructor; [|constructor]. destruct (tu_multiplier_index u) as [|[|[|[|i]]]]; [done..|]. cbn in Hi. lia.
Qed.

Lemma ssl_mode_read m : ssl_mode_from_string (ssl_mode_to_string m) = Ok m.
Proof. by destruct m. Qed.
Lemma log_severity_read l : l ≠ sev_delimiter → log_severity_from_string (log_severity_to_string l) = Ok l.
Proof. by destruct l. Qed.
Lemma storage_backend_read b : storage_backend_from_string (storage_backend_to_string b) = Ok b.
Proof. by destruct b. Qed.
Lemma replication_mode_read m : replication_mode_from_string (replication_mode_to_string m) = Ok m.
Proof. by destruct m. Qed.

(** ** Reading the sections *)
Ltac distinct_names := apply (bool_decide_unpack _); by vm_compute.
Ltac read_next i := erewrite (read_member i); [|distinct_names|reflexivity|].

Lemma reads_ssl c : reads to_ssl_config (doc_object (present (ssl_members c))) c.
Proof.
  intros st. unfold to_ssl_config. rewrite read_object.
  read_next 0%nat; [|apply reads_convertible, ssl_mode_read].
  read_next 1%nat; [|apply reads_optional_text]. read_next 2%nat; [|apply reads_optional_text].
  read_next 3%nat; [|apply reads_optional_text]. read_next 4%nat; [|apply reads_optional_text].
  read_next 5%nat; [|apply reads_optional_text]. read_next 6%nat; [|apply reads_optional_text].
  read_next 7%nat; [|apply reads_optional_text]. by destruct c.
Qed.

Lemma reads_tls c : reads to_tls_config (doc_object (present (tls_members c))) c.
Proof.
  intros st. unfold to_tls_config. rewrite read_object.
  read_next 0%nat; [|apply reads_optional_text]. read_next 1%nat; [|apply reads_optional_text]. by destruct c.
Qed.

Lemma reads_connection c :
  connection_config_ok c → reads to_connection_config (doc_object (present (connection_members c))) c.
Proof.
  intros (Hport & Hc & Hr & Hw) st. unfold to_connection_config. rewrite read_object.
  read_next 0%nat; [|apply reads_optional_text].
  read_next 1%nat; [|apply reads_optional; intros port Hp; split; [by apply reads_unsigned, Hport|done]].
  read_next 2%nat; [|apply reads_optional_text]. read_next 3%nat; [|apply reads_text]. read_next 4%nat; [|apply reads_text].
  read_next 5%nat; [|by apply reads_unsigned]. read_next 6%nat; [|by apply reads_unsigned].
  read_next 7%nat; [|by apply reads_unsigned].
  read_next 8%nat; [|apply (reads_optional _ (λ s, doc_object (present (ssl_members s)))); intros; split; [apply reads_ssl|done]].
  read_next 9%nat; [|apply (reads_optional _ (λ t, doc_object (present (tls_members t)))); intros; split; [apply reads_tls|done]].
  by destruct c.
Qed.

Lemma reads_logger c : lg_level c ≠ sev_delimiter → reads to_logger_config (doc_object (present (logger_members c))) c.
Proof.
  intros Hl st. unfold to_logger_config. rewrite read_object.
  read_next 0%nat; [|by apply reads_convertible, log_severity_read].
  read_next 1%nat; [|apply reads_text]. by destruct c.
Qed.

Lemma reads_rewrite c :
  size_unit_ok (rs_file_size c) → reads to_rewrite_config (doc_object (present (rewrite_members c))) c.
Proof.
  intros Hu st. unfold to_rewrite_config. rewrite read_object.
  read_next 0%nat; [|apply reads_text]. read_next 1%nat; [|by apply reads_size_unit]. by destruct c.
Qed.

Lemma reads_replication c :
  replication_config_ok c → reads to_replication_config (doc_object (present (replication_members c))) c.
Proof.
  intros (Hs & Hi & Hr) st. unfold to_replication_config. rewrite read_object.
  read_next 0%nat; [|by apply reads_unsigned]. read_next 1%nat; [|by apply reads_unsigned].
  read_next 2%nat; [|apply reads_bool]. read_next 3%nat; [|apply reads_convertible, replication_mode_read].
  read_next 4%nat; [|apply (reads_optional _ (λ r, doc_object (present (rewrite_members r)))); intros r Hrw;
    split; [by apply reads_rewrite, Hr|done]].
  by destruct c.
Qed.

Lemma reads_storage c : storage_config_ok c → reads to_storage_config (doc_object (present (storage_members c))) c.
Proof.
  intros (Hs & Hi) st. unfold to_storage_config. rewrite read_object.
  read_next 0%nat; [|apply reads_convertible, storage_backend_read].
  read_next 1%nat; [|apply reads_text]. read_next 2%nat; [|apply reads_optional_text].
  read_next 3%nat; [|apply (reads_optional _ (λ u, doc_string (size_unit_to_string u))); intros u Hu;
    split; [by apply reads_size_unit, Hs|done]].
  read_next 4%nat; [|apply (reads_optional _ (λ u, doc_string (time_unit_to_string u))); intros u Hu;
    split; [by apply reads_time_unit, Hi|done]].
  by destruct c.
Qed.

(** C25: a configuration file is read as what it says: the document that has every member of a
    configuration under its name, and leaves out the optional ones that are absent, yields
    that configuration, field by field. *)
Theorem config_roundtrip c : main_config_ok c → main_config_from_json (document_of c) = Ok c.
Proof.
  intros (Hl & Hc & Hr & Hs). unfold main_config_from_json, to_main_config, document_of. rewrite read_object.
  read_next 0%nat; [|by apply reads_logger]. read_next 1%nat; [|by apply reads_connection].
  read_next 2%nat; [|by apply reads_replication]. read_next 3%nat; [|by apply reads_storage]. by destruct c.
Qed.

(** ** What is accepted *)

(** what an extraction yields *)
Definition yields {A} (P : A → Prop) (to : document → extraction A) : Prop := ∀ v st a, to v st = inl a → P a.

Lemma yields_unsigned w : yields (in_width w) (to_unsigned w).
Proof. intros v st a. unfold to_unsigned. destruct v as [| |[z|]| | |]; try done. case_bool_decide; [by intros [= <-]|done]. Qed.
Lemma yields_optional {A} (P : A → Prop) to : yields P to → yields (λ o, ∀ a, o = Some a → P a) (to_optional to).
Proof.
  intros Hy v st o Ho a ->. unfold to_optional in Ho. destruct v; [done|..];
    (unfold fmap, extraction_fmap in Ho; destruct (to _ st) eqn:E; [injection Ho as ->; by eapply Hy|done]).
Qed.
Lemma yields_convertible {A} (P : A → Prop) cast : (∀ s a, cast s = Ok a → P a) → yields P (to_convertible cast).
Proof.
  intros Hc v st a. unfold to_convertible. destruct v; try done. destruct (cast value) eqn:E; [|done].
  intros [= <-]. by eapply Hc.
Qed.
Lemma yields_unit {A} (P : A → Prop) construct :
  (∀ s a, construct s = Ok a → P a) → yields P (to_convertible (unit_from_string construct)).
Proof.
  intros Hc. apply yields_convertible. intros s a Ha. unfold unit_from_string in Ha.
  apply result_bind_ok in Ha as (t & _ & Ha). destruct (construct t) eqn:E; [|done]. injection Ha as <-. by eapply Hc.
Qed.

Lemma extraction_step {A B} (m : extraction A) (k : A → extraction B) st b :
  (m ≫= k) st = inl b → ∃ a, m st = inl a ∧ k a st = inl b.
Proof. unfold mbind, extraction_bind. destruct (m st) as [a|]; [eauto|done]. Qed.
Ltac extracted H :=
  repeat (apply extraction_step in H; destruct H as (? & ? & H)); injection H as <-.

Lemma yields_connection : yields connection_config_ok to_connection_config.
Proof.
  intros v st c Hc. unfold to_connection_config in Hc. extracted Hc. unfold element in *.
  split; [by eapply (yields_optional (in_width 16)); [apply yields_unsigned|]|].
  split; [by eapply yields_unsigned|]. split; by eapply yields_unsigned.
Qed.
Lemma yields_rewrite : yields (λ r, size_unit_ok (rs_file_size r)) to_rewrite_config.
Proof.
  intros v st c Hc. unfold to_rewrite_config in Hc. extracted Hc. unfold element in *. cbn.
  by eapply (yields_unit size_unit_ok); [apply size_unit_parsed|].
Qed.
Lemma yields_replication : yields replication_config_ok to_replication_config.
Proof.
  intros v st c Hc. unfold to_replication_config in Hc. extracted Hc. unfold element in *.
  split; [by eapply yields_unsigned|]. split; [by eapply yields_unsigned|]. cbn.
  by eapply (yields_optional (λ r, size_unit_ok (rs_file_size r))); [apply yields_rewrite|].
Qed.
Lemma yields_storage : yields storage_config_ok to_storage_config.
Proof.
  intros v st c Hc. unfold to_storage_config in Hc. extracted Hc. unfold element in *. split; cbn.
  - by eapply (yields_optional size_unit_ok); [apply yields_unit, size_unit_parsed|].
  - by eapply (yields_optional time_unit_ok); [apply yields_unit, time_unit_parsed|].
Qed.
Lemma yields_logger : yields (λ c, lg_level c ≠ sev_delimiter) to_logger_config.
Proof.
  intros v st c Hc. unfold to_logger_config in Hc. extracted Hc. unfold element in *. cbn.
  eapply (yields_convertible (λ l, l ≠ sev_delimiter)); [|done]. intros s l Hl.
  unfold log_severity_from_string, enum_from_string in Hl. apply result_bind_ok in Hl as (t & _ & Hl).
  destruct (list_find _ _) as [[i [l' t']]|] eqn:E; [|done]. injection Hl as <-.
  apply list_find_Some in E as (Hi & _). by do 6 (destruct i as [|i]; [by injection Hi as <-|]).
Qed.
Lemma yields_main : yields main_config_ok to_main_config.
Proof.
  intros v st c Hc. unfold to_main_config in Hc. extracted Hc. unfold element in *.
  split; [by eapply yields_logger|]. split; [by eapply yields_connection|].
  split; [by eapply yields_replication|by eapply yields_storage].
Qed.

(** C24: a configuration that the program accepts is one it can work with.  The file has
    between 1 and 1048576 bytes; every integer fits the width it is used at, and no size or
    interval overflows; a server is named by a DNS SRV name or by both a host and a port,
    never by both ways; and when events are rewritten, the replication is by GTIDs and a
    rewritten file may have at least 1024 bytes. *)
Theorem accepted_config `{BoostJsonDocument} file c :
  make_main_config file = Ok c →
  (∃ content, file = Some content ∧ 0 < Z.of_nat (length content) ≤ 1048576) ∧
  main_config_ok c ∧
  (is_Some (cc_dns_srv_name (mc_connection c)) ∧ cc_host (mc_connection c) = None ∧ cc_port (mc_connection c) = None ∨
   cc_dns_srv_name (mc_connection c) = None ∧ is_Some (cc_host (mc_connection c)) ∧ is_Some (cc_port (mc_connection c))) ∧
  (∀ r, rp_rewrite (mc_replication c) = Some r →
     rp_mode (mc_replication c) = mode_gtid ∧
     1024 ≤ su_base_value (rs_file_size r) * 2 ^ size_shift (rs_file_size r)).
Proof.
  unfold make_main_config. intros Hc. destruct file as [content|]; [|done].
  destruct (Z.eqb_spec (Z.of_nat (length content)) 0) as [|Hne]; [done|].
  destruct (Z.ltb_spec max_file_size (Z.of_nat (length content))) as [|Hle]; [done|].
  apply result_bind_ok in Hc as (v & _ & Hc). apply result_bind_ok in Hc as (c' & Hj & Hc).
  apply result_bind_ok in Hc as ([] & Hv & [= ->]).
  assert (main_config_ok c) as Hok.
  { unfold main_config_from_json in Hj. destruct (to_main_config v []) eqn:E; [|done]. injection Hj as ->. by eapply yields_main. }
  split; [exists content; unfold max_file_size in Hle; split; [done|lia]|]. split; [done|].
  apply result_bind_ok in Hv as ([] & Hconn & Hrep). split.
  - unfold validate_connection_config in Hconn. apply raise_if_ok, negb_false_iff in Hconn.
    destruct (cc_dns_srv_name _), (cc_host _), (cc_port _); try done; [left|right]; repeat split; by eexists.
  - intros r Hr. unfold validate_replication_config in Hrep. rewrite Hr in Hrep.
    apply result_bind_ok in Hrep as ([] & Hm & Hs). apply raise_if_ok, negb_false_iff, bool_decide_eq_true_1 in Hm.
    split; [done|]. unfold validate_rewrite_config in Hs. apply raise_if_ok in Hs. to_prop. unfold min_file_size in Hs.
    destruct Hok as (_ & _ & (_ & _ & Hu) & _). rewrite size_unit_value_exact in Hs by (by apply Hu). lia.
Qed.

(** ** What is reported *)

(** the paths at which an extraction may fail, below the labels of its context *)
Definition fails {A} (paths : list label_stack) (m : extraction A) : Prop :=
  ∀ st st', m st = inr st' → ∃ p, p ∈ paths ∧ st' = st ++ p.
Definition under (name : string) (paths : list label_stack) : list label_stack := cons name <$> paths.
(** a value without elements *)
Abbreviation at_itself := [[]].

Lemma fails_ret {A} (a : A) : fails [] (mret a).
Proof. done. Qed.
Lemma fails_here {A} : fails at_itself (not_extracted (A := A)).
Proof. intros st st' [= <-]. exists []. by rewrite app_nil_r; split; [left|]. Qed.
Lemma fails_more {A} ps qs (m : extraction A) : fails ps m → ps ⊆ qs → fails qs m.
Proof. intros Hm Hs st st' Hr. destruct (Hm _ _ Hr) as (p & Hp & ->). eauto. Qed.
Lemma fails_bind {A B} ps qs (m : extraction A) (k : A → extraction B) :
  fails ps m → (∀ a, fails qs (k a)) → fails (ps ++ qs) (m ≫= k).
Proof.
  intros Hm Hk st st' Hr. unfold mbind, extraction_bind in Hr. destruct (m st) as [a|st1] eqn:E.
  - destruct (Hk _ _ _ Hr) as (p & Hp & ->). exists p. split; [apply elem_of_app; by right|done].
  - injection Hr as ->. destruct (Hm _ _ E) as (p & Hp & ->). exists p. split; [apply elem_of_app; by left|done].
Qed.
Lemma fails_element {A} ps ms name (to : document → extraction A) :
  (∀ v, fails ps (to v)) → fails (under name ps) (element ms name to).
Proof.
  intros Ht st st' Hr. destruct (Ht _ _ _ Hr) as (p & Hp & ->). exists (name :: p).
  split; [by apply list_elem_of_fmap_2|by rewrite <-app_assoc].
Qed.
Lemma fails_optional {A} ps (to : document → extraction A) :
  (∀ v, fails ps (to v)) → ∀ v, fails ps (to_optional to v).
Proof.
  intros Ht v st st' Hr. unfold to_optional in Hr. destruct v; [done|..];
    (unfold fmap, extraction_fmap in Hr; destruct (to _ st) eqn:E; [done|]; injection Hr as <-; by eapply Ht).
Qed.

Lemma fails_leaf {A} (m : extraction A) : (∃ a, m = mret a) ∨ m = not_extracted → fails at_itself m.
Proof. intros [[a ->]| ->]; [intros st st' [=]|apply fails_here]. Qed.
Lemma fails_unsigned w v : fails at_itself (to_unsigned w v).
Proof. apply fails_leaf. unfold to_unsigned. repeat case_match; eauto. Qed.
Lemma fails_bool v : fails at_itself (to_bool v).
Proof. apply fails_leaf. unfold to_bool. repeat case_match; eauto. Qed.
Lemma fails_text v : fails at_itself (to_text v).
Proof. apply fails_leaf. unfold to_text. repeat case_match; eauto. Qed.
Lemma fails_object v : fails at_itself (to_object v).
Proof. apply fails_leaf. unfold to_object. repeat case_match; eauto. Qed.
Lemma fails_convertible {A} (cast : list Z → result A) v : fails at_itself (to_convertible cast v).
Proof. apply fails_leaf. unfold to_convertible. repeat case_match; eauto. Qed.

Create HintDb paths.
#[export] Hint Resolve fails_ret fails_here fails_unsigned fails_bool fails_text fails_object fails_convertible
  fails_element fails_optional : paths.

(** the schema: the elements of a tuple, each with the paths below it *)
Definition tuple (elements : list (string * list label_stack)) : list label_stack :=
  [] :: mjoin ((λ e, under e.1 e.2) <$> elements).
Definition leaves (names : list string) : list (string * list label_stack) := (λ n, (n, at_itself)) <$> names.

Definition ssl_paths := tuple (leaves ["mode"; "ca"; "capath"; "crl"; "crlpath"; "cert"; "key"; "cipher"]).
Definition tls_paths := tuple (leaves ["ciphersuites"; "version"]).
Definition connection_paths := tuple (leaves ["host"; "port"; "dns_srv_name"; "user"; "password";
  "connect_timeout"; "read_timeout"; "write_timeout"] ++ [("ssl"%string, ssl_paths); ("tls"%string, tls_paths)]).
Definition logger_paths := tuple (leaves ["level"; "file"]).
Definition rewrite_paths := tuple (leaves ["base_file_name"; "file_size"]).
Definition replication_paths := tuple (leaves ["server_id"; "idle_time"; "verify_checksum"; "mode"] ++
  [("rewrite"%string, rewrite_paths)]).
Definition storage_paths := tuple (leaves ["backend"; "uri"; "fs_buffer_directory"; "checkpoint_size"; "checkpoint_interval"]).
Definition main_paths := tuple [("logger"%string, logger_paths); ("connection"%string, connection_paths);
  ("replication"%string, replication_paths); ("storage"%string, storage_paths)].

(** the elements of a tuple, one after the other *)
Ltac follows_schema :=
  eapply fails_more; [repeat (eapply fails_bind; [eauto with paths|intros ?]); apply fails_ret|];
  apply (bool_decide_unpack _); by vm_compute.

Lemma fails_ssl v : fails ssl_paths (to_ssl_config v).
Proof. unfold to_ssl_config. follows_schema. Qed.
Lemma fails_tls v : fails tls_paths (to_tls_config v).
Proof. unfold to_tls_config. follows_schema. Qed.
#[export] Hint Resolve fails_ssl fails_tls : paths.
Lemma fails_connection v : fails connection_paths (to_connection_config v).
Proof. unfold to_connection_config. follows_schema. Qed.
Lemma fails_logger v : fails logger_paths (to_logger_config v).
Proof. unfold to_logger_config. follows_schema. Qed.
Lemma fails_rewrite v : fails rewrite_paths (to_rewrite_config v).
Proof. unfold to_rewrite_config. follows_schema. Qed.
#[export] Hint Resolve fails_rewrite : paths.
Lemma fails_replication v : fails replication_paths (to_replication_config v).
Proof. unfold to_replication_config. follows_schema. Qed.
Lemma fails_storage v : fails storage_paths (to_storage_config v).
Proof. unfold to_storage_config. follows_schema. Qed.
#[export] Hint Resolve fails_connection fails_logger fails_replication fails_storage : paths.
Lemma fails_main v : fails main_paths (to_main_config v).
Proof. unfold to_main_config. follows_schema. Qed.

(** A document that is not a configuration is refused with a message that names one of the
    38 elements of the schema by its path, or the root. *)
Theorem extraction_error_path v e :
  main_config_from_json v = Err e →
  ∃ path, path ∈ main_paths ∧ e = unable_to_extract path.
Proof.
  unfold main_config_from_json. destruct (to_main_config v []) as [c|st] eqn:E; [done|]. intros [= <-].
  destruct (fails_main _ _ _ E) as (p & Hp & ->). by exists p.
Qed.

(** ** A configuration file *)
Module ConfigExamples.
Import ScriptedClient.

(** a parser that knows one text *)
Definition sample_main_config : main_config :=
  mk_main_config (mk_logger_config sev_debug (text "binsrv.log")) sample_config
    (mk_replication_config 42 10 true mode_gtid (Some (mk_rewrite_section (text "binlog") (mk_size_unit 128 2))))
    (mk_storage_config backend_file (text "file:///var/binlogs") None (Some (mk_size_unit 1 2)) (Some (mk_time_unit 30 0))).
#[export] Instance sample_parser : BoostJsonDocument :=
  {| document_parse s := if bool_decide (s = text "{...}") then Ok (document_of sample_main_config) else Err (runtime_error "syntax error") |}.

Lemma sample_main_config_ok : main_config_ok sample_main_config.
Proof.
  split; [done|]. split.
  - split; [by intros port [= <-]|]. split; [by vm_compute|]. split; by vm_compute.
  - split.
    + split; [by vm_compute|]. split; [by vm_compute|]. intros r [= <-]. split; [by vm_compute|]. split; [cbn; lia|].
      split; [done|]. by vm_compute.
    + split; intros u [= <-]; (split; [by vm_compute|]; split; [cbn; lia|]; split; [done|]; by vm_compute).
Qed.

Lemma config_roundtrip_witness : main_config_from_json (document_of sample_main_config) = Ok sample_main_config.
Proof. apply config_roundtrip, sample_main_config_ok. Defined.

Lemma accepted_config_witness :
  ∃ content, Some (text "{...}") = Some content ∧ 0 < Z.of_nat (length content) ≤ 1048576.
Proof.
  assert (make_main_config (Some (text "{...}")) = Ok sample_main_config) as Hc by (by vm_compute).
  exact (proj1 (accepted_config (Some (text "{...}")) sample_main_config Hc)).
Defined.

Definition broken : document :=
  doc_object [(text "logger", doc_object [(text "level", doc_string (text "loud")); (text "file", doc_string [])])].
Lemma extraction_error_path_witness :
  ∃ path, path ∈ main_paths ∧ unable_to_extract ["logger"; "level"]%string = unable_to_extract path.
Proof. apply (extraction_error_path broken). by vm_compute. Defined.
End ConfigExamples.
