(* ===== verification/Factory.v ===== *)
(** * The backend of a configuration

    Models the constructor and the descriptions of src/src/binsrv/filesystem_storage_backend.cpp
    and src/src/binsrv/storage_backend_factory.cpp.  The parser of URIs and what is asked of the
    filesystem are those of S3Backend.v; [directory_at] is what the operating system has in a
    directory. *)

From S2P Require Import Prelude Backend S3Client S3Backend Config.

Local Open Scope Z_scope.

Definition uri_schema : list Z := text "file".

Section factory.
Context `{S3CrtClient W} `{RandomUuid} `{BoostUrl} `{UrlBuilder}.
Implicit Types (u : uri_view).

(** the constructor: the root path *)
Definition make_filesystem_storage_backend (os : os_paths) (backend_uri : list Z) : result (list Z) :=
  match parse_absolute_uri backend_uri with
  | None => Err (invalid_argument "invalid storage backend URI")
  | Some u =>
      _ ← raise_if (negb (bool_decide (uri_id u = scheme_file)) || negb (bool_decide (uri_scheme u = uri_schema)))
            (invalid_argument "URI of invalid scheme provided");
      _ ← raise_if (negb (uri_host_is_name u) || negb (bool_decide (uri_host u = [])))
            (invalid_argument "file URI must not have host");
      _ ← raise_if (bool_decide (is_Some (uri_port u))) (invalid_argument "file URI must not have port");
      _ ← raise_if (uri_has_userinfo u) (invalid_argument "file URI must not have userinfo");
      _ ← raise_if (uri_has_query u) (invalid_argument "file URI must not have query");
      _ ← raise_if (uri_has_fragment u) (invalid_argument "file URI must not have fragment");
      let root_path := uri_path u in
      match path_status os root_path with
      | kind_not_found => Err (invalid_argument "root path does not exist")
      | kind_other => Err (invalid_argument "root path is not a directory")
      | kind_directory => Ok root_path
      end
  end.

Definition fs_get_object_path (root_path : list Z) (n : object_name) : list Z := path_append root_path n.
(** [do_get_description] and [do_get_object_uri] *)
Definition fs_get_description (root_path : list Z) : list Z := text "local filesystem - " ++ root_path.
Definition fs_get_object_uri (root_path : list Z) (n : object_name) : list Z :=
  url_of_authority uri_schema [] (fs_get_object_path root_path n).

(** [storage_backend_factory::create] *)
Inductive created_backend :=
  | created_filesystem (root_path : list Z) (backend : basic_storage_backend filesystem_backend)
  | created_s3 (cfg : s3_settings) (backend : basic_storage_backend (s3_storage_backend W cfg)).
Definition create (os : os_paths) (directory_at : list Z → filesystem_backend) (config : storage_config)
    : action W created_backend := λ w,
  match sc_backend config with
  | backend_file =>
      (w, root_path ← make_filesystem_storage_backend os (sc_uri config);
          Ok (created_filesystem root_path (mk_basic_backend (directory_at root_path) false)))
  | backend_s3 =>
      match make_s3_storage_backend os (sc_fs_buffer_directory config) (sc_uri config) w with
      | (w, Ok (cfg, uuids)) => (w, Ok (created_s3 cfg (mk_basic_backend (fresh_s3 cfg uuids [] w) false)))
      | (w, Err e) => (w, Err e)
      end
  end.

(** a URI that names a directory and nothing else *)
Definition names_directory (os : os_paths) u : Prop :=
  uri_id u = scheme_file ∧ uri_scheme u = uri_schema ∧ uri_host_is_name u = true ∧ uri_host u = [] ∧
  uri_port u = None ∧ uri_has_userinfo u = false ∧ uri_has_query u = false ∧ uri_has_fragment u = false ∧
  path_status os (uri_path u) = kind_directory.

(** The filesystem backend is created exactly for the URIs that name a directory. *)
Lemma filesystem_construction os backend_uri root_path :
  make_filesystem_storage_backend os backend_uri = Ok root_path ↔
  ∃ u, parse_absolute_uri backend_uri = Some u ∧ names_directory os u ∧ root_path = uri_path u.
Proof.
  unfold make_filesystem_storage_backend, names_directory. split.
  - destruct (parse_absolute_uri backend_uri) as [u|]; [|done]. intros Hm. exists u. split; [done|].
    destruct (path_status os (uri_path u)) eqn:E; inv_ok; to_prop.
    all: repeat match goal with Hx : _ || _ = false |- _ => apply orb_false_iff in Hx as [? ?] end; to_prop.
    assert (uri_port u = None) as -> by (by apply eq_None_not_Some). by split_and!.
  - intros (u & -> & (H1' & H2' & H3' & H4' & H5' & H6' & H7' & H8' & H9') & ->).
    rewrite H1', H2', H3', H4', H5', H6', H7', H8', H9'. cbn.
    rewrite !bool_decide_true by done. done.
Qed.

(** The factory leaves a backend without an open stream, of the kind and in the place that the
    configuration says, or raises what the constructor raised. *)
Lemma created_as_configured os directory_at config (w w' : W) b :
  create os directory_at config w = (w', Ok b) →
  match b with
  | created_filesystem root_path bb => sc_backend config = backend_file ∧ w' = w ∧
      bb = mk_basic_backend (directory_at root_path) false ∧
      ∃ u, parse_absolute_uri (sc_uri config) = Some u ∧ names_directory os u ∧ root_path = uri_path u
  | created_s3 cfg bb => sc_backend config = backend_s3 ∧ bb_stream_open bb = false ∧
      ∃ uuids, make_s3_storage_backend os (sc_fs_buffer_directory config) (sc_uri config) w = (w', Ok (cfg, uuids))
  end.
Proof.
  unfold create. destruct (sc_backend config).
  - intros Hr. injection Hr as <- Hr. apply result_bind_ok in Hr as (root & Hm & [= <-]).
    apply filesystem_construction in Hm. by split_and!.
  - destruct (make_s3_storage_backend _ _ _ w) as [w1 [[cfg uuids]|e]]; [|done]. intros [= <- <-]. split_and!; [done..|by exists uuids].
Qed.
End factory.
