(* ===== verification/App.v ===== *)
(** * The program: receiving a stream of events

    Models the replication loop of src/src/app.cpp: what is asked of the server after a
    connection ([switch_to_replication]), what is done with an event
    ([process_binlog_event]), and the loop over the events that are delivered
    ([receive_loop]).

    The state is the reader context of the connection and the storage, which outlives it.
    The server is a parameter: its version, its answer to the query for the purged GTIDs,
    whether it accepts a request, and what it delivers; Main.v runs the same loop over a
    connection (Connection.v).  Logging is left out, also the event that is built for the
    debug log.  Readings of the steady clock are
    arguments, those of one event a record [clock]. *)

From stdpp Require Import gmap.
From S2P Require Import Prelude ByteSpan OrderedMap IntervalSet Gtid GtidSet GtidSetEncoding GtidSetText.
From S2P Require Import Util Protocol GtidLog GtidTaggedLog ReaderContext Rewriter Event Backend Metadata.
From S2P Require Import Storage StorageLog StorageDisk Commands.

Local Open Scope Z_scope.

(** when the storage calls of one event read the clock: closing a file that was left open,
    opening, writing, and closing at the end of a file *)
Record clock := mk_clock { now_close_left : Z; now_open : Z; now_write : Z; now_close : Z }.

(** the readings in the rewrite mode: the timestamps that the generated events carry and
    those of their processing *)
Record rewrite_clock := mk_rewrite_clock {
  timestamp_rotate : Z; now_rotate : clock;
  now_artificial : clock;
  timestamp_created : Z; timestamp_fde : Z; now_fde : clock;
  timestamp_previous : Z; now_previous : clock
}.
(** the readings for one packet *)
Record packet_clock := mk_packet_clock { clock_event : clock; clock_rewrite : rewrite_clock }.

(** [rewrite_config], with the server id that goes into the generated events *)
Record rewrite_config := mk_rewrite_config {
  rw_server_id : Z;
  rw_base_file_name : list Z;
  rw_file_size : Z
}.

(** the calls of [connection] that start the dump of events *)
Inductive replication_request :=
  | request_gtid (encoded_gtids : list Z)
  | request_from_start
  | request_position (name : list Z) (position : Z).

(** the server behind a connection, as far as the loop depends on it: [None] and [false] where
    the call throws an [easymysql::core_error] *)
Record server := mk_server {
  conn_server_version : Z;
  conn_gtid_purged : option (list Z);
  conn_switch : replication_request → bool
}.

Section app.
Context `{StorageBackend B} `{IntervalSet} `{BoostUuid} `{BoostPosixTime} `{BoostJson} `{Zlib}.
Implicit Types (s : storage (B := B)) (c : reader_context) (v : event_view).

Record application := mk_app { app_context : reader_context; app_storage : storage (B := B) }.
Definition set_app_context c (a : application) : application := mk_app c (app_storage a).
Definition set_app_storage s (a : application) : application := mk_app (app_context a) s.
Implicit Types a : application.
Abbreviation st_action := (action (storage (B := B))).

Definition on_storage {A} : st_action A → action application A :=
  on_member app_storage set_app_storage.

(** ** One event *)
Definition get_parsed_binlog (binlog : list Z) : result composite_binlog_name :=
  binlog_name_parse binlog.

Definition process_artificial_rotate_event (now : clock) v : st_action unit :=
  let current_rotate_body := parse_rotate_body (get_body_raw v) in
  open ← gets is_binlog_open;
  binlog_opening_needed ←
    (if open : bool then
       n ← of_result (get_parsed_binlog current_rotate_body);
       current ← gets get_current_binlog_name;
       if bool_decide (n = current) then
         mode ← gets st_replication_mode;
         _ ← (if bool_decide (mode = mode_position) then
                position ← of_result (parse_rotate_post_header (get_post_header_raw v));
                current_position ← gets get_current_position;
                throw_if (negb (position =? current_position))
                  (logic_error "unexpected binlog position in artificial rotate event")
              else mret ());
         mret false
       else
         _ ← close_binlog (now_close_left now);
         mret true
     else mret true);
  if binlog_opening_needed : bool then
    n ← of_result (get_parsed_binlog current_rotate_body);
    _ ← open_binlog (now_open now) n;
    mret ()
  else mret ().

Definition process_rotate_or_stop_event (now : clock) : st_action unit :=
  close_binlog (now_close now).

(** [context.process_event_view]; a context whose handler throws is not used again *)
Definition advance_context v : action application bool := λ a,
  match process_event_view v (app_context a) with
  | Ok (c, info_only) => (set_app_context c a, Ok info_only)
  | Err e => (a, Err e)
  end.

Definition process_binlog_event (now : clock) v : action application unit :=
  h ← of_result (get_common_header v);
  info_only ← advance_context v;
  let code := ch_type_code h in
  _ ← (if bool_decide (code = ct_rotate) && is_artificial h
       then on_storage (process_artificial_rotate_event now v) else mret ());
  c ← gets app_context;
  _ ← (if negb info_only
       then on_storage (write_event (now_write now) (ev_portion v) (is_at_transaction_boundary c)
              (rc_transaction_gtid c) (ch_timestamp h) (rc_transaction_sequence_number c))
       else mret ());
  if (bool_decide (code = ct_rotate) && negb (is_artificial h)) || bool_decide (code = ct_stop)
  then on_storage (process_rotate_or_stop_event now) else mret ().

(** ** The rewrite mode *)

(** the name of the file that the generated events announce *)
Definition next_binlog_name (config : rewrite_config) c s : result composite_binlog_name :=
  if storage_is_empty s then make_binlog_name (rw_base_file_name config) 1
  else if is_fresh c then Ok (get_current_binlog_name s)
  else binlog_name_next (get_current_binlog_name s).

(** ROTATE at the end of the current file, ROTATE (artificial), FORMAT_DESCRIPTION and
    PREVIOUS_GTIDS_LOG, each processed as if it had been received; they share a buffer.  The
    first three, with the buffer and the offset of the last one: *)
Definition generate_preamble_head (config : rewrite_config) (now : rewrite_clock)
    : action application (list Z * Z) :=
  c ← gets app_context;
  s ← gets app_storage;
  let server_id := rw_server_id config in
  binlog_name ← of_result (next_binlog_name config c s);
  event_buffer ←
    (if negb (is_fresh c) then
       '(v, event_buffer) ← of_result (generate_rotate_event [] c (u32 (get_current_position s))
          true (timestamp_rotate now) server_id false binlog_name);
       _ ← process_binlog_event (now_rotate now) v;
       mret event_buffer
     else mret []);
  c ← gets app_context;
  '(v, event_buffer) ← of_result (generate_rotate_event event_buffer c 0 false 0 server_id true
     binlog_name);
  _ ← process_binlog_event (now_artificial now) v;
  c ← gets app_context;
  '(v, event_buffer) ← of_result (generate_format_description_event event_buffer c
     magic_binlog_offset (timestamp_created now) (timestamp_fde now) server_id);
  _ ← process_binlog_event (now_fde now) v;
  mret (event_buffer, u32 (magic_binlog_offset + u32 (Z.of_nat (get_total_size v)))).

Definition generate_preamble (config : rewrite_config) (now : rewrite_clock)
    : action application unit :=
  '(event_buffer, offset) ← generate_preamble_head config now;
  c ← gets app_context;
  s ← gets app_storage;
  '(v, _) ← of_result (generate_previous_gtids_log_event event_buffer c offset
     (timestamp_previous now) (rw_server_id config) (get_gtids s));
  process_binlog_event (now_previous now) v.

(** the first event of a connection, or the file is full *)
Definition preamble_needed (config : rewrite_config) c s : bool :=
  is_fresh c || (is_at_transaction_boundary c && (rw_file_size config <=? get_current_position s)).

(** the events that the rewrite mode leaves out *)
Definition is_skipped (code : code_type) : bool :=
  match code with
  | ct_format_description | ct_previous_gtids_log | ct_rotate | ct_stop => true
  | _ => false
  end.

Definition rewrite_and_process_binlog_event (config : rewrite_config) (now : packet_clock) v
    : action application unit :=
  h ← of_result (get_common_header v);
  if is_skipped (ch_type_code h) then
    if bool_decide (ch_type_code h = ct_format_description) then
      checksum_algorithm ← of_result (parse_fde_body (get_body_raw v));
      throw_if (negb (has_checksum_algorithm checksum_algorithm))
        (logic_error "rewrite is supported in gtid replication mode only when all events received from the MySQL server have checksums")
    else mret ()
  else
    c ← gets app_context;
    s ← gets app_storage;
    _ ← (if preamble_needed config c s then generate_preamble config (clock_rewrite now) else mret ());
    s ← gets app_storage;
    event_copy_uv ← of_result (rewrite (st_incomplete_sequence_number s) v []
                                 (get_current_position s));
    process_binlog_event (clock_event now) event_copy_uv.

(** ** Connecting *)

(** what to ask the server for *)
Definition make_request : st_action replication_request :=
  gtid_mode ← gets is_in_gtid_replication_mode;
  empty ← gets storage_is_empty;
  if gtid_mode : bool then
    gtids ← gets get_gtids;
    let encoded_size := calculate_encoded_size gtids in
    destination ← of_result (encode_to gtids (span_of (replicate (Z.to_nat encoded_size) 0)));
    mret (request_gtid (sp_store destination))
  else if empty : bool then mret request_from_start
  else
    name ← gets get_current_binlog_name;
    position ← gets get_current_position;
    mret (request_position (binlog_name_str name) position).

(** the [try] block: [None] when one of the calls throws a [core_error] *)
Definition switch_to_replication (conn : server) : st_action (option replication_request) :=
  gtid_mode ← gets is_in_gtid_replication_mode;
  empty ← gets storage_is_empty;
  connected ←
    (if gtid_mode && empty then
       match conn_gtid_purged conn with
       | None => mret false
       | Some value =>
           gtids ← of_result (gtid_set_of_string value);
           _ ← set_purged gtids;
           mret true
       end
     else mret true);
  if negb connected then mret None
  else
    request ← make_request;
    mret (if conn_switch conn request then Some request else None).

(** ** The loop *)

(** the body: the packet starts with an OK byte *)
Definition receive_packet (optional_rewrite_config : option rewrite_config) (now : packet_clock)
    (portion : list Z) : action application unit :=
  match portion with
  | [] => mret ()
  | prefix :: portion =>
      _ ← throw_if (negb (prefix =? 0)) (runtime_error "unexpected event prefix");
      c ← gets app_context;
      v ← of_result (make_event_view c portion);
      match optional_rewrite_config with
      | Some config => rewrite_and_process_binlog_event config now v
      | None => process_binlog_event (clock_event now) v
      end
  end.

Inductive stream_end := terminated_by_signal | reached_eof | connection_lost.

(** What [fetch_binlog_event] delivers at each iteration: [None] when it returns false, and an
    empty portion at the end.  The list ends where the termination flag is found set. *)
Fixpoint receive_loop (optional_rewrite_config : option rewrite_config)
    (packets : list (packet_clock * option (list Z))) : action application stream_end :=
  match packets with
  | [] => mret terminated_by_signal
  | (_, None) :: _ => mret connection_lost
  | (_, Some []) :: _ => mret reached_eof
  | (now, Some portion) :: packets =>
      _ ← receive_packet optional_rewrite_config now portion;
      receive_loop optional_rewrite_config packets
  end.

(** after a connection was lost *)
Definition abandon_connection : st_action unit :=
  _ ← discard_incomplete_transaction_events;
  flush_event_buffer.

Definition initial_context (conn : server) (verify_checksum : bool) s : reader_context :=
  make_reader_context (conn_server_version conn) verify_checksum (st_replication_mode s)
    (binlog_name_str (get_current_binlog_name s)) (u32 (get_current_position s)).
End app.

(** ** What a GTID event can say *)
Section gtid_events.
Context `{BoostUuid}.

Lemma make_gtid_ok u t x g : make_gtid u t x = Ok g → uuid_ok u → tag_ok t → gtid_ok g.
Proof.
  unfold make_gtid. intros Hg Hu Ht. apply result_bind_ok in Hg as ([] & Hv & [= <-]).
  apply validate_components_ok in Hv as [He Hx]. done.
Qed.

(** a GTID that a GTID event yields is a valid one *)
Lemma transaction_info_ok code v g seq len :
  bytes_ok (ev_portion v) → transaction_info code v = Ok (g, seq, len) →
  (∀ x, g = Some x → gtid_ok x) ∧ in_width 64 seq.
Proof.
  intros Hb. unfold transaction_info.
  assert (bytes_ok (get_post_header_raw v)) as Hp by (by apply Forall_take, Forall_drop).
  intros Hi. destruct code; try done.
  - apply result_bind_ok in Hi as (h & Hh & Hi). apply result_bind_ok in Hi as (y & Hy & Hi).
    apply result_bind_ok in Hi as ([] & He & Hi). apply result_bind_ok in Hi as (b & _ & [= <- <- _]).
    split; [|by apply wrap_bound]. intros x [= <-]. apply raise_if_ok in He.
    unfold glh_get_gtid in Hy. case_match; [by simplify_eq|].
    eapply make_gtid_ok; [done|by eapply parse_gtid_log_decoded|]. split; [cbn; lia|done].
  - apply result_bind_ok in Hi as (h & Hh & Hi). apply result_bind_ok in Hi as (y & Hy & Hi).
    apply result_bind_ok in Hi as ([] & He & Hi). apply result_bind_ok in Hi as (b & _ & [= <- <- _]).
    split; [done|by apply wrap_bound].
  - apply result_bind_ok in Hi as (b & Hh & Hi). apply result_bind_ok in Hi as (y & Hy & Hi).
    apply result_bind_ok in Hi as ([] & He & [= <- <- _]).
    split; [|by apply wrap_bound]. intros x [= <-]. unfold tb_get_gtid in Hy.
    apply result_bind_ok in Hy as (t & Ht & Hy). apply tag_of_name_iff in Ht as [-> Ht].
    eapply make_gtid_ok; [done| |done].
    apply parse_tagged_body_decoded in Hh as [(_ & Hu & _) _]; [done|by apply Forall_take, Forall_drop].
Qed.
End gtid_events.

(** ** What a context knows *)
Section context_invariant.
Context `{BoostUuid} `{Zlib}.
Implicit Types (c : reader_context) (v : event_view) (h : common_header).

(** outside of a transaction there is no GTID; inside, a valid one or none *)
Definition context_ok c : Prop :=
  in_width 32 (rc_position c) ∧ in_width 64 (rc_transaction_sequence_number c) ∧
  (gtid_is_empty (rc_transaction_gtid c) = true ∨ gtid_ok (rc_transaction_gtid c)) ∧
  (rc_state c ≠ any_other_expected → rc_transaction_gtid c = empty_gtid).

Lemma initial_context_ok version checksum mode name pos :
  in_width 32 pos → context_ok (make_reader_context version checksum mode name pos).
Proof.
  intros Hp. split_and!; cbn; try done; [|by left].
  by destruct (pos =? 0).
Qed.

Lemma make_event_view_inv c portion v :
  make_event_view c portion = Ok v →
  ev_portion v = portion ∧ ∃ h, get_common_header v = Ok h ∧ ch_event_size h = Z.of_nat (length portion).
Proof.
  unfold make_event_view. intros Hv. apply result_bind_ok in Hv as ([] & _ & Hv).
  apply result_bind_ok in Hv as (h & Hh & Hv). cbv zeta in Hv.
  apply result_bind_ok in Hv as ([] & Hs & Hv). apply raise_if_ok in Hs. to_prop.
  apply result_bind_ok in Hv as (n & _ & Hv). apply result_bind_ok in Hv as ([] & _ & [= <-]).
  split; [done|]. by exists h.
Qed.

Lemma timestamp_width v h :
  bytes_ok (ev_portion v) → get_common_header v = Ok h → in_width 32 (ch_timestamp h).
Proof.
  intros Hb Hh. unfold get_common_header, parse_common_header, common_header_view in Hh.
  apply result_bind_ok in Hh as (view & Hv & Hh). apply result_bind_ok in Hv as ([] & Hl & Hv).
  apply raise_if_ok in Hl. apply result_bind_ok in Hv as ([] & _ & [= <-]).
  apply result_bind_ok in Hh as (code & _ & [= <-]). cbn [ch_timestamp]. to_prop.
  unfold get_timestamp_raw, get_field, extract_fixed_int_from_byte_span. cbn [fst].
  rewrite take_take, Nat.min_id.
  set (l := take 4 (drop timestamp_offset (get_common_header_raw v))).
  assert (length l = 4%nat) as Hl4 by (unfold l; rewrite length_take, length_drop, Hl; done).
  replace 32 with (8 * Z.of_nat (length l)) by (by rewrite Hl4). apply le_combine_bound.
  unfold l, get_common_header_raw. by apply Forall_take, Forall_drop, Forall_take.
Qed.

Lemma position_width h c c' : validate_position_and_advance h c = Ok c' → in_width 32 (rc_position c').
Proof.
  intros [Hv ->]%validate_advance_ok. apply validate_position_ok in Hv as [_ Hp]. cbn. rewrite Hp.
  by apply wrap_bound.
Qed.

Lemma finished_ok c c' :
  finish_transaction c = Ok c' → context_ok c → context_ok c' ∧ rc_transaction_gtid c' = empty_gtid.
Proof.
  intros [_ ->]%finish_transaction_ok (Hp & _). split; [|done].
  split_and!; cbn; try done. by left.
Qed.

Lemma started_ok h v c c' :
  starts h v c c' → bytes_ok (ev_portion v) → context_ok c → rc_transaction_gtid c = empty_gtid →
  context_ok c'.
Proof.
  intros (c1 & Hs & c2 & Ha & ->) Hb (Hp & _) Hg. pose proof (position_width _ _ _ Ha) as Hp2.
  apply validate_advance_ok in Ha as [_ ->]. unfold start_transaction in Hs.
  apply result_bind_ok in Hs as (h' & _ & Hs). apply result_bind_ok in Hs as ([[g seq] len] & Hi & Hs).
  apply result_bind_ok in Hs as ([] & _ & [= <-]). destruct (transaction_info_ok _ _ _ _ _ Hb Hi) as [Hok Hseq].
  destruct g as [g|]; split_and!; cbn; try done; [by right; apply Hok|].
  left. by rewrite Hg.
Qed.

Lemma step_context_ok v c c' info :
  step v c c' info → bytes_ok (ev_portion v) → context_ok c → context_ok c'.
Proof.
  intros Hs Hb Hc. pose proof Hc as (Hp & Hq & Hg & Hidle).
  destruct Hs as [h c0 Hh Hcode Ha Hst|h c' i Hh Hcode Ha Hst Hpr|h c' i Hh Hcode Ha Hst Hpr|
    h c0 c1 Hh Hge Hst Hstart|h c1 c2 Hh Hge Hcode Ha Hst Hu Hv|h c0 Hh Hcode Ha Hst Hv].
  - assert (context_ok c0 ∧ rc_transaction_gtid c0 = empty_gtid) as ((Hp0 & Hq0 & Hg0 & _) & He).
    { destruct Hst as [[Hst ->]|[_ (c1 & Hf & ->)]]; [by split; [|apply Hidle; rewrite Hst]|].
      by destruct (finished_ok _ _ Hf Hc) as ((_ & ? & ? & _) & ?). }
    unfold after_rotate. split_and!; destruct (bool_decide _); cbn; done.
  - destruct (format_description_accepts _ _ _ _ Hpr) as (h' & ? & ? & ? & c1 & _ & _ & _ & _ & _ & Hadv & [= -> ->]).
    assert (rc_transaction_gtid c = empty_gtid) as He by (apply Hidle; by rewrite Hst).
    destruct (rc_expect_info_only_preamble_events c).
    + subst c1. split_and!; cbn; done.
    + pose proof (position_width _ _ _ Hadv) as Hp1. apply validate_advance_ok in Hadv as [_ ->].
      split_and!; cbn; done.
  - destruct (previous_gtids_accepts _ _ _ _ Hpr) as (h' & c1 & _ & _ & _ & Hadv & [= -> ->]).
    assert (rc_transaction_gtid c = empty_gtid) as He by (apply Hidle; by rewrite Hst).
    destruct (rc_expect_info_only_preamble_events c).
    + subst c1. split_and!; cbn; done.
    + pose proof (position_width _ _ _ Hadv) as Hp1. apply validate_advance_ok in Hadv as [_ ->].
      split_and!; cbn; done.
  - destruct Hst as [[Hst ->]|[Hst (c2 & Hf & ->)]].
    + eapply started_ok; [done..|]. apply Hidle. by rewrite Hst.
    + destruct (finished_ok _ _ Hf Hc) as ((? & ? & ? & ?) & He). eapply started_ok; [done|done| |done].
      split_and!; done.
  - unfold update_transaction in Hu. apply result_bind_ok in Hu as ([] & _ & [= <-]).
    pose proof (position_width _ _ _ Hv) as Hp1. apply validate_advance_ok in Hv as [_ ->].
    split_and!; cbn; done.
  - assert (context_ok c0 ∧ rc_transaction_gtid c0 = empty_gtid) as ((_ & Hq0 & Hg0 & _) & He).
    { destruct Hst as [[Hst ->]|[_ (c1 & Hf & ->)]]; [by split; [|apply Hidle; rewrite Hst]|].
      by destruct (finished_ok _ _ Hf Hc) as ((? & ? & ? & _) & ?). }
    split_and!; cbn; done.
Qed.
End context_invariant.

(** ** From a stream of packets to transactions in a file *)
Section stored_streams.
Context `{StorageBackendLaws B} `{IntervalSetLaws} `{BoostUuidLaws} `{BoostPosixTime} `{BoostJson} `{Zlib}.
Implicit Types (s : storage (B := B)) (a : application (B := B)) (c : reader_context).
Implicit Types (v : event_view) (vs partial : list event_view).
Implicit Types (tx : list event_view * gtid) (txs : list (list event_view * gtid)).

(** the events among the packets: up to the end of the stream, without the OK byte *)
Fixpoint delivered (packets : list (packet_clock * option (list Z))) : list (list Z) :=
  match packets with
  | (_, Some (_ :: portion)) :: packets => portion :: delivered packets
  | _ => []
  end.

Definition ends_file (portion : list Z) : bool :=
  match parse_common_header (take default_common_header_length portion) with
  | Ok h => is_end_event (ch_type_code h)
  | Err _ => false
  end.

Definition bytes_in (portions : list (list Z)) : Z := Z.of_nat (length (mjoin portions)).
Definition portions_of vs : list (list Z) := ev_portion <$> vs.

(** a GTID event and the events after it, as long as the event says *)
Definition whole tx : Prop :=
  ∃ g es gt seq, tx.1 = g :: es ∧ is_gtid_event (code_of g) = true ∧
    Forall (λ v, is_gtid_event (code_of v) = false) es ∧
    transaction_info (code_of g) g = Ok (gt, seq, total_size (g :: es)) ∧ tx.2 = default empty_gtid gt.
(** not as long *)
Definition begun vs : Prop :=
  vs = [] ∨ ∃ g es gt seq len, vs = g :: es ∧ is_gtid_event (code_of g) = true ∧
    Forall (λ v, is_gtid_event (code_of v) = false) es ∧
    transaction_info (code_of g) g = Ok (gt, seq, len) ∧ total_size (g :: es) ≠ len.
Definition stored_as tx : transaction := (mjoin (portions_of tx.1), tx.2).

(** the context inside the transaction of the events [vs], the first of which started it *)
Definition following vs c : Prop :=
  ∃ g es, vs = g :: es ∧ is_gtid_event (code_of g) = true ∧
    Forall (λ v, is_gtid_event (code_of v) = false) es ∧ in_transaction g (total_size vs) c ∧
    0 ≤ total_size vs ∧
    ∀ gt seq len, transaction_info (code_of g) g = Ok (gt, seq, len) →
      rc_transaction_gtid c = default empty_gtid gt.

Lemma process_failed now v a e :
  process_event_view v (app_context a) = Err e → ∃ e', process_binlog_event now v a = (a, Err e').
Proof.
  intros He. unfold process_binlog_event, mbind, action_bind, of_result, advance_context.
  destruct (get_common_header v); [rewrite He|]; eauto.
Qed.

Lemma process_data_event now v a c' :
  is_end_event (code_of v) = false → process_event_view v (app_context a) = Ok (c', false) →
  ∃ h, get_common_header v = Ok h ∧
    process_binlog_event now v a =
      let '(s', x) := write_event (now_write now) (ev_portion v) (is_at_transaction_boundary c')
        (rc_transaction_gtid c') (ch_timestamp h) (rc_transaction_sequence_number c') (app_storage a) in
      (mk_app c' s', x).
Proof.
  intros He Hp. pose proof (process_step _ _ _ _ Hp) as Hs.
  assert (∃ h, get_common_header v = Ok h) as [h Hh] by (by destruct Hs; eauto).
  exists h. split; [done|]. destruct (label_of_header _ _ Hh) as [Hc _]. rewrite Hc in He.
  unfold process_binlog_event, mbind, action_bind, of_result, advance_context, gets. rewrite Hh, Hp.
  assert (bool_decide (ch_type_code h = ct_rotate) = false ∧ bool_decide (ch_type_code h = ct_stop) = false)
    as [-> ->] by (split; apply bool_decide_eq_false_2; intros Heq; by rewrite Heq in He).
  cbn. unfold on_storage, on_member. cbn. by destruct (write_event _ _ _ _ _ _ _) as [s' [[]|e]].
Qed.

(** In the middle of a file, an accepted event starts a transaction after the previous one is complete, or is one
    more event of a transaction. *)
Lemma data_event_kinds v c c' info :
  step v c c' info → is_end_event (code_of v) = false →
  rc_state c = gtid_log_expected ∨ rc_state c = any_other_expected →
  info = false ∧
  (is_gtid_event (code_of v) = true ∧
     (rc_state c = any_other_expected → rc_current_transaction_length c = rc_expected_transaction_length c) ∨
   is_gtid_event (code_of v) = false ∧ rc_state c = any_other_expected ∧
     ∃ h c1, get_common_header v = Ok h ∧ update_transaction h c = Ok c1).
Proof.
  intros Hs He Hst.
  destruct Hs as [h c0 Hh Hcode Ha Hst'|h c' i Hh Hcode Ha Hst' Hpr|h c' i Hh Hcode Ha Hst' Hpr|
    h c0 c1 Hh Hge Hst' Hstart|h c1 c2 Hh Hge Hcode Ha Hst' Hu Hv|h c0 Hh Hcode Ha Hst' Hv];
    destruct (label_of_header _ _ Hh) as [Hc _]; rewrite Hc in *.
  - by rewrite Hcode in He.
  - rewrite Hst' in Hst. by destruct Hst.
  - rewrite Hst' in Hst. by destruct Hst.
  - split; [done|]. left. split; [done|]. intros Hany.
    destruct Hst' as [[Hst' _]|[_ (c2 & [? _]%finish_transaction_ok & _)]]; congruence.
  - split; [done|]. right. eauto 10.
  - by destruct Hcode as [Hcode|Hcode]; rewrite Hcode in He.
Qed.

Lemma started_gtid h v c c' :
  starts h v c c' → rc_transaction_gtid c = empty_gtid →
  ∀ gt seq len, transaction_info (ch_type_code h) v = Ok (gt, seq, len) → get_common_header v = Ok h →
  rc_transaction_gtid c' = default empty_gtid gt.
Proof.
  intros (c1 & Hs & c2 & [_ ->]%validate_advance_ok & ->) Hg gt seq len Hi Hh. unfold start_transaction in Hs.
  rewrite Hh in Hs. cbn in Hs. rewrite Hi in Hs. cbn in Hs. apply result_bind_ok in Hs as ([] & _ & [= <-]).
  by destruct gt.
Qed.

Lemma follow_start v c c' info :
  step v c c' info → bytes_ok (ev_portion v) → context_ok c → is_gtid_event (code_of v) = true →
  0 ≤ size_of v → following [v] c'.
Proof.
  intros Hs Hb Hc Hg Hsz. pose proof (start_in_transaction _ _ _ _ Hs Hb Hg) as Hin.
  exists v, []. cbn. rewrite Z.add_0_r. split_and!; try done.
  intros gt seq len Hi.
  destruct Hs as [h c0 Hh Hcode|h c1 i Hh Hcode|h c1 i Hh Hcode|h c0 c1 Hh _ Hst Hstart|h c1 c2 Hh Hg'|h c0 Hh Hcode];
    destruct (label_of_header _ _ Hh) as [Ecode _]; rewrite Ecode in *; try congruence.
  1-3: by rewrite Hcode in Hg.
  2: by destruct Hcode as [Hcode|Hcode]; rewrite Hcode in Hg.
  eapply started_gtid; [done| |done|done]. destruct Hc as (_ & _ & _ & Hidle).
  destruct Hst as [[Hst ->]|[_ (c2 & [_ ->]%finish_transaction_ok & ->)]]; [|done]. apply Hidle. by rewrite Hst.
Qed.

Lemma total_size_snoc vs v : total_size (vs ++ [v]) = total_size vs + size_of v.
Proof. unfold total_size. induction vs as [|w vs IH]; cbn; [lia|]. rewrite IH. lia. Qed.

Lemma follow_continue vs v c c' info :
  step v c c' info → following vs c → is_gtid_event (code_of v) = false →
  is_end_event (code_of v) = false → 0 ≤ size_of v → following (vs ++ [v]) c'.
Proof.
  intros Hs (g & es & -> & Hg & Hes & Hin & Hnn & Hgt) Hv He Hsz.
  pose proof (continue_transaction _ _ _ _ _ _ Hs Hin Hv He) as Hin'.
  exists g, (es ++ [v]). rewrite total_size_snoc. split_and!; try done.
  - apply Forall_app. split; [done|]. by constructor.
  - lia.
  - intros gt seq len Hi. rewrite <-(Hgt _ _ _ Hi).
    destruct Hs as [h c0 Hh Hcode|h c1 i Hh Hcode Ha Hst|h c1 i Hh Hcode Ha Hst|
      h c0 c1 Hh Hge|h c1 c2 Hh Hge Hcode Ha Hst Hu Ha2|h c0 Hh Hcode];
      destruct (label_of_header _ _ Hh) as [Ecode _]; rewrite Ecode in *; try congruence.
    + by rewrite Hcode in He.
    + by rewrite Hcode in *; destruct Hin as (? & _); congruence.
    + by rewrite Hcode in *; destruct Hin as (? & _); congruence.
    + unfold update_transaction in Hu. apply result_bind_ok in Hu as ([] & _ & [= <-]).
      by apply validate_advance_ok in Ha2 as [_ ->].
    + by destruct Hcode as [Hcode|Hcode]; rewrite Hcode in He.
Qed.

Lemma following_boundary vs c :
  following vs c → total_size vs < 2 ^ 32 →
  rc_state c = any_other_expected ∧ rc_current_transaction_length c = total_size vs ∧
  is_at_transaction_boundary c = (total_size vs =? rc_expected_transaction_length c).
Proof.
  intros (g & es & -> & _ & _ & (Hst & Hcur & _) & Hnn & _) Hlt.
  rewrite wrap_small in Hcur by done. split_and!; [done..|]. unfold is_at_transaction_boundary.
  rewrite Hst, Hcur. cbn. by rewrite orb_false_r.
Qed.

Lemma following_whole vs c :
  following vs c → total_size vs < 2 ^ 32 → is_at_transaction_boundary c = true →
  whole (vs, rc_transaction_gtid c).
Proof.
  intros Hf Hlt Hb. destruct (following_boundary _ _ Hf Hlt) as (_ & _ & Hb'). rewrite Hb' in Hb. to_prop.
  destruct Hf as (g & es & -> & Hg & Hes & (_ & _ & gt & seq & Hi & _) & _ & Hgt).
  exists g, es, gt, seq. rewrite Hb. split_and!; try done. by eapply Hgt.
Qed.

Lemma following_begun vs c :
  following vs c → total_size vs < 2 ^ 32 → is_at_transaction_boundary c = false → begun vs.
Proof.
  intros Hf Hlt Hb. destruct (following_boundary _ _ Hf Hlt) as (_ & _ & Hb'). rewrite Hb' in Hb. to_prop.
  destruct Hf as (g & es & -> & Hg & Hes & (_ & _ & gt & seq & Hi & _) & _ & Hgt).
  right. exists g, es, gt, seq, (rc_expected_transaction_length c). done.
Qed.

(** After the transactions [txs] and the events [partial] of one more, with at most [rest]
    bytes to come: between transactions, or inside one. *)
Definition between c txs vs (partial : list event_view) (rest : Z) : Prop :=
  Forall whole txs ∧ context_ok c ∧ 0 ≤ rest < 2 ^ 32 ∧
  (partial = [] ∧ rc_state c = gtid_log_expected ∨
   following vs c ∧ total_size vs + rest < 2 ^ 32 ∧
   partial = if is_at_transaction_boundary c then [] else vs).

Lemma between_step v c c' info txs vs partial rest :
  between c txs vs partial rest → step v c c' info → bytes_ok (ev_portion v) →
  is_end_event (code_of v) = false → 0 < size_of v ≤ rest →
  info = false ∧ ∃ vs', following vs' c' ∧ total_size vs' + (rest - size_of v) < 2 ^ 32 ∧
    vs' = partial ++ [v] ∧
    between c' (if is_at_transaction_boundary c' then txs ++ [(vs', rc_transaction_gtid c')] else txs)
      vs' (if is_at_transaction_boundary c' then [] else vs') (rest - size_of v).
Proof.
  intros (Htx & Hc & Hrest & Hb) Hs Hbytes He Hsz.
  pose proof (step_context_ok _ _ _ _ Hs Hbytes Hc) as Hc'.
  assert (info = false ∧ ∃ vs', following vs' c' ∧ total_size vs' + (rest - size_of v) < 2 ^ 32 ∧
    vs' = partial ++ [v]) as (Hi & vs' & Hf & Hlt & Hvs').
  { destruct Hb as [[-> Hst]|(Hf & Hlt & Hp)].
    - destruct (data_event_kinds _ _ _ _ Hs He) as (Hi & [[Hg _]|(_ & ? & _)]); [by left| |congruence].
      split; [done|]. exists [v]. split; [by eapply follow_start; [..|lia]|]. cbn. split; [lia|done].
    - destruct (following_boundary _ _ Hf ltac:(lia)) as (Hst & Hcur & Hbd).
      assert (0 ≤ total_size vs) as Hnn by (by destruct Hf as (? & ? & ? & ? & ? & ? & ? & _)).
      destruct (data_event_kinds _ _ _ _ Hs He) as (Hi & [[Hg Hfin]|(Hg & _ & h & c1 & Hh & Hu)]); [by right|..];
        (split; [done|]).
      + specialize (Hfin Hst). rewrite Hbd, <-Hcur, Hfin, Z.eqb_refl in Hp. subst partial.
        exists [v]. split; [by eapply follow_start; [..|lia]|]. cbn. split; [lia|done].
      + exists (vs ++ [v]). split; [by eapply follow_continue; [..|lia]|]. rewrite total_size_snoc.
        split; [lia|]. rewrite Hp, Hbd. destruct (Z.eqb_spec (total_size vs) (rc_expected_transaction_length c)) as [Heq|]; [|done].
        exfalso. unfold update_transaction in Hu. apply result_bind_ok in Hu as ([] & Hx & _).
        apply raise_if_ok in Hx. to_prop. cbn in Hx. destruct (label_of_header _ _ Hh) as [_ Hsize].
        rewrite Hcur, <-Hsize, wrap_small in Hx; [lia|]. unfold in_width. lia. }
  split; [done|]. exists vs'. split_and!; [done..|]. unfold between. split_and!; [|done|lia|lia|].
  - destruct (is_at_transaction_boundary c') eqn:Eb; [|done]. apply Forall_app. split; [done|].
    constructor; [|done]. apply following_whole; [done|lia|done].
  - right. done.
Qed.

(** the storage and the context after the transactions [txs] and the events [partial] *)
Definition stored_state a n base A0 l txs vs partial rest : Prop :=
  between (app_context a) txs vs partial rest ∧
  holds_log (app_storage a) n base A0
    (mk_log (log_committed l ++ (stored_as <$> txs)) (mjoin (portions_of partial))).

Lemma gno_range g :
  gtid_is_empty g = true ∨ gtid_ok g → gtid_is_empty g = true ∨ min_gno ≤ gtid_gno g ≤ max_gno.
Proof. intros [?|(_ & _ & _ & ?)]; auto. Qed.

Lemma portions_snoc vs v : mjoin (portions_of (vs ++ [v])) = mjoin (portions_of vs) ++ ev_portion v.
Proof. unfold portions_of. rewrite fmap_app, join_app. cbn. by rewrite app_nil_r. Qed.

Lemma all_events_snoc txs vs v (b : bool) g :
  (if b then mjoin ((txs ++ [(vs ++ [v], g)]).*1) else mjoin txs.*1) ++
    (if b then [] else vs ++ [v]) = (mjoin txs.*1 ++ vs) ++ [v].
Proof.
  destruct b; [|by rewrite app_assoc]. rewrite fmap_app, join_app. cbn. by rewrite !app_nil_r, app_assoc.
Qed.

Lemma stored_packet now portion a a' x n base A0 l txs vs partial rest :
  receive_packet None now portion a = (a', x) → stored_state a n base A0 l txs vs partial rest →
  bytes_ok (tail portion) → ends_file (tail portion) = false →
  portion ≠ [] → bytes_in [tail portion] ≤ rest →
  match x with
  | Ok _ => ∃ v txs' vs' partial', ev_portion v = tail portion ∧
      mjoin txs'.*1 ++ partial' = (mjoin txs.*1 ++ partial) ++ [v] ∧
      stored_state a' n base A0 l txs' vs' partial' (rest - bytes_in [tail portion])
  | Err _ => ∃ txs' g', Forall whole txs' ∧
      (txs' = txs ∨ ∃ v, ev_portion v = tail portion ∧ txs' = txs ++ [(partial ++ [v], g')]) ∧
      ∃ f, disk (app_storage a') !! binlog_name_str n = Some f ∧
           f `prefix_of` base ++ bytes_of (log_committed l ++ (stored_as <$> txs'))
  end.
Proof.
  intros Hr [Hbet Hlog] Hbytes Hend Hne Hroom. destruct portion as [|prefix portion]; [done|]. cbn [tail] in *.
  assert (bytes_in [portion] = Z.of_nat (length portion)) as Hlen by (unfold bytes_in; cbn; by rewrite app_nil_r).
  rewrite Hlen in *.
  assert (∀ e, (a, Err e) = (a', x) → match x with Ok _ => False | Err _ =>
    ∃ txs' g', Forall whole txs' ∧ (txs' = txs ∨ ∃ v, ev_portion v = portion ∧ txs' = txs ++ [(partial ++ [v], g')]) ∧
      ∃ f, disk (app_storage a') !! binlog_name_str n = Some f ∧
           f `prefix_of` base ++ bytes_of (log_committed l ++ (stored_as <$> txs')) end) as Hfail.
  { intros e [= <- <-]. exists txs, empty_gtid. pose proof Hbet as (Htx & _). split; [done|]. split; [by left|].
    apply holds_log_prefix in Hlog as (f & Hf & Hp). eauto. }
  unfold receive_packet, mbind, action_bind, throw_if, of_result, gets in Hr.
  destruct (negb (prefix =? 0)); cbn in Hr. { apply Hfail in Hr. by destruct x. }
  destruct (make_event_view (app_context a) portion) as [v|e] eqn:Hv; [|apply Hfail in Hr; by destruct x].
  apply make_event_view_inv in Hv as (Hp & h & Hh & Hsize).
  destruct (label_of_header _ _ Hh) as [Hcode Hsz].
  assert (is_end_event (code_of v) = false) as Hend'.
  { unfold ends_file in Hend. unfold get_common_header, get_common_header_raw in Hh.
    rewrite Hp in Hh. rewrite Hh in Hend. by rewrite Hcode. }
  destruct (process_event_view v (app_context a)) as [[c' info]|e] eqn:Hpe; cycle 1.
  { destruct (process_failed (clock_event now) v a e Hpe) as [e' He']. rewrite He' in Hr. apply Hfail in Hr. by destruct x. }
  pose proof (process_step _ _ _ _ Hpe) as Hs.
  assert (0 < size_of v) as Hpos.
  { rewrite Hsz, Hsize. destruct portion; [|cbn; lia]. unfold get_common_header, get_common_header_raw in Hh.
    by rewrite Hp in Hh. }
  destruct (between_step _ _ _ _ _ _ _ _ Hbet Hs) as (-> & vs' & Hf & Hlt & -> & Hbet');
    [by rewrite Hp|done|lia|]. rewrite Hsz, Hsize in Hbet'.
  destruct (process_data_event (clock_event now) v a c' Hend' Hpe) as (h' & Hh' & Hrun).
  rewrite Hrun in Hr. destruct (write_event _ _ _ _ _ _ _) as [s' y] eqn:Hw. injection Hr as <- <-.
  pose proof Hbet' as (Htx' & (_ & _ & Hg & _) & _).
  pose proof (write_step _ _ _ _ _ _ _ _ _ _ _ _ _ Hw (gno_range _ Hg) Hlog) as Hstep.
  set (b := is_at_transaction_boundary c') in *.
  assert (spec_session_op (op_write (now_write (clock_event now)) (ev_portion v) b (rc_transaction_gtid c') (ch_timestamp h')
      (rc_transaction_sequence_number c')) (mk_log (log_committed l ++ (stored_as <$> txs)) (mjoin (portions_of partial))) =
    mk_log (log_committed l ++ (stored_as <$> (if b then txs ++ [(partial ++ [v], rc_transaction_gtid c')] else txs)))
      (mjoin (portions_of (if b then [] else partial ++ [v])))) as Hspec.
  { destruct b; cbn [spec_session_op log_committed log_pending]; rewrite <-?portions_snoc.
    - by rewrite fmap_app, app_assoc.
    - done. }
  rewrite Hspec in Hstep. destruct y as [[]|e]; cbn [step_ok] in Hstep.
  - exists v, (if b then txs ++ [(partial ++ [v], rc_transaction_gtid c')] else txs), (partial ++ [v]),
      (if b then [] else partial ++ [v]). split; [done|]. split; [|by split].
    rewrite <-(all_events_snoc txs partial v b (rc_transaction_gtid c')). by destruct b.
  - exists (if b then txs ++ [(partial ++ [v], rc_transaction_gtid c')] else txs), (rc_transaction_gtid c').
    split; [done|]. split; [|done]. destruct b; [right; eauto|by left].
Qed.

Lemma bytes_in_cons p ps : bytes_in (p :: ps) = bytes_in [p] + bytes_in ps.
Proof.
  unfold bytes_in. change (mjoin (p :: ps)) with (p ++ mjoin ps). change (mjoin [p]) with (p ++ []).
  rewrite !length_app. cbn. lia.
Qed.

Lemma between_begun c txs vs partial rest : between c txs vs partial rest → Forall whole txs ∧ begun partial.
Proof.
  intros (Htx & _ & Hr & Hb). split; [done|]. destruct Hb as [[-> _]|(Hf & Hlt & ->)]; [by left|].
  destruct (is_at_transaction_boundary c) eqn:E; [by left|]. eapply following_begun; [done|lia|done].
Qed.

Lemma stored_loop packets a a' x n base A0 l txs vs partial :
  receive_loop None packets a = (a', x) →
  stored_state a n base A0 l txs vs partial (bytes_in (delivered packets)) →
  Forall bytes_ok (delivered packets) → Forall (λ p, ends_file p = false) (delivered packets) →
  ∃ txs' partial', Forall whole txs' ∧ begun partial' ∧
    match x with
    | Ok _ => portions_of (mjoin txs.*1 ++ partial) ++ delivered packets = portions_of (mjoin txs'.*1 ++ partial') ∧
        holds_log (app_storage a') n base A0
          (mk_log (log_committed l ++ (stored_as <$> txs')) (mjoin (portions_of partial')))
    | Err _ =>
        portions_of (mjoin txs'.*1 ++ partial') `prefix_of` portions_of (mjoin txs.*1 ++ partial) ++ delivered packets ∧
        ∃ f, disk (app_storage a') !! binlog_name_str n = Some f ∧
             f `prefix_of` base ++ bytes_of (log_committed l ++ (stored_as <$> txs'))
    end.
Proof.
  revert a txs vs partial. induction packets as [|[now [[|b portion]|]] packets IH]; intros a txs vs partial Hr Hst Hb He.
  1,2,4: pose proof Hst as [Hbet Hlog]; destruct (between_begun _ _ _ _ _ Hbet);
    injection Hr as <- <-; exists txs, partial; cbn [delivered]; by rewrite app_nil_r.
  cbn [delivered] in *. apply Forall_cons in Hb as [Hb1 Hb], He as [He1 He].
  cbn [receive_loop] in Hr. destruct (receive_packet None now (b :: portion) a) as [a1 y] eqn:Hp.
  pose proof Hst as [Hbet0 _]. destruct (between_begun _ _ _ _ _ Hbet0) as [_ Hbeg].
  pose proof (stored_packet _ _ _ _ _ _ _ _ _ _ _ _ _ Hp Hst Hb1 He1 ltac:(done)) as Hstep. cbn [tail] in Hstep.
  rewrite (bytes_in_cons portion (delivered packets)) in Hstep. assert (0 ≤ bytes_in (delivered packets)) by (unfold bytes_in; lia).
  specialize (Hstep ltac:(lia)). destruct y as [[]|e].
  - destruct Hstep as (v & txs1 & vs1 & partial1 & Hv & Hall & Hst1).
    rewrite Z.add_simpl_l in Hst1. rewrite (action_bind_eq _ _ _ _ _ Hp) in Hr.
    destruct (IH _ _ _ _ Hr Hst1 Hb He) as (txs2 & partial2 & Hw & Hbg & Hx).
    exists txs2, partial2. split; [done|]. split; [done|]. rewrite Hall in Hx.
    unfold portions_of in Hx |- *. rewrite (fmap_app _ _ [v]) in Hx. cbn in Hx. rewrite Hv, <-app_assoc in Hx. exact Hx.
  - unfold mbind, action_bind in Hr. rewrite Hp in Hr. injection Hr as <- <-.
    destruct Hstep as (txs1 & g & Hw & Hor & f & Hf & Hpre).
    exists txs1, []. split; [done|]. split; [by left|]. split; [|eauto].
    rewrite app_nil_r. destruct Hor as [->|(v & Hv & ->)].
    + unfold portions_of. rewrite fmap_app, <-app_assoc. by apply prefix_app_r.
    + unfold portions_of. rewrite fmap_app, join_app, !fmap_app. cbn. rewrite app_nil_r, fmap_app. cbn.
      rewrite Hv, <-!app_assoc. do 2 apply prefix_app. apply prefix_cons, prefix_nil.
Qed.

End stored_streams.

(** ** Resuming *)
Section resuming.
Context `{StorageBackendLaws B} `{IntervalSetLaws} `{BoostUuidLaws} `{BoostPosixTimeLaws} `{BoostJsonLaws} `{Zlib}.
Implicit Types (s : storage (B := B)) (l : event_log).

Lemma text_ok_keys (S : gtid_set) : text_ok S → keys_ok S.
Proof.
  unfold text_ok, keys_ok. intros Hs. eapply Forall_impl; [exact Hs|]. intros [u m] (Hu & _ & Hm).
  split; [done|]. eapply Forall_impl; [exact Hm|]. intros [t c] [Ht Hi]. split; [done|].
  eapply Forall_impl; [exact Hi|]. intros [x y] (? & ? & ?). cbn in *.
  unfold in_width, min_gno, max_gno in *. lia.
Qed.

(** the sets whose counts fit the fields of the encoding *)
Definition encodable (S : gtid_set) : Prop := tsid_count_ok S ∧ counts_ok S.

Lemma request_encoding (S : gtid_set) :
  gtid_set_ok S → encodable S →
  ∃ d, encode_to S (span_of (replicate (Z.to_nat (calculate_encoded_size S)) 0)) = Ok d ∧
    decode (sp_store d) = Ok S.
Proof.
  intros [Hwf Ht] [Hn Hc]. pose proof (text_ok_keys _ Ht) as Hk.
  pose proof (calculate_encoded_size_spec S Hk) as Hl. rewrite Hl, Nat2Z.id.
  eexists. split; [apply encode_to_ok; try done|].
  - unfold span_ok. cbn. lia.
  - unfold span_size, span_of. cbn. rewrite length_replicate. lia.
  - unfold write_bytes, span_of. cbn [sp_store sp_pos]. rewrite take_0, drop_ge by (rewrite length_replicate; lia).
    rewrite app_nil_l, app_nil_r. by apply decode_encoded.
Qed.

(** the request of a storage that is not empty *)
Lemma make_request_spec s r :
  streaming_inv s → last (st_records s) = Some r →
  (is_in_gtid_replication_mode s = true → encodable (get_gtids s)) →
  ∃ request, make_request s = (s, Ok request) ∧
    match request with
    | request_gtid encoded => is_in_gtid_replication_mode s = true ∧ decode encoded = Ok (get_gtids s)
    | request_position name position => is_in_gtid_replication_mode s = false ∧
        name = binlog_name_str (br_name r) ∧ position = get_current_position s
    | request_from_start => False
    end.
Proof.
  intros Hi Hl He. unfold make_request. rewrite !gets_bind.
  destruct (is_in_gtid_replication_mode s) eqn:Em.
  - rewrite gets_bind. destruct (request_encoding (get_gtids s)) as (d & Hd & Hdec);
      [by apply get_gtids_ok|by apply He|].
    unfold mbind, action_bind, of_result. rewrite Hd. by eexists.
  - assert (storage_is_empty s = false) as ->.
    { unfold storage_is_empty. apply bool_decide_eq_false_2. intros Hn. by rewrite Hn in Hl. }
    rewrite !gets_bind. eexists. split; [done|]. cbn. unfold get_current_binlog_name, get_current_binlog_record.
    by rewrite Hl.
Qed.

Lemma switch_spec conn s s' request r :
  switch_to_replication conn s = (s', Ok (Some request)) → last (st_records s) = Some r →
  ∃ s1, make_request s = (s1, Ok request) ∧ s' = s1.
Proof.
  intros Hs Hl. unfold switch_to_replication in Hs. rewrite !gets_bind in Hs.
  assert (storage_is_empty s = false) as E.
  { unfold storage_is_empty. apply bool_decide_eq_false_2. intros Hn. by rewrite Hn in Hl. }
  rewrite E, andb_false_r in Hs. apply action_bind_ok in Hs as (s0 & b & [= <- <-] & Hs). cbn [negb] in Hs.
  apply action_bind_ok in Hs as (s1 & q & Hq & Hs). injection Hs as <- Hs.
  destruct (conn_switch conn q); [|done]. injection Hs as <-. eauto.
Qed.

(** after a flush of a storage with nothing pending, the file holds the whole log *)
Lemma flushed_log s n base A0 l :
  holds_log s n base A0 l → st_boundary_position s = 0%nat → log_pending l = [] →
  Forall (λ tx, tx.1 ≠ []) (log_committed l) →
  st_event_buffer s = [] ∧ ∃ r, last (st_records s) = Some r ∧ br_name r = n ∧
    disk s !! binlog_name_str n = Some (base ++ bytes_of (log_committed l)) ∧
    br_size r = u64 (Z.of_nat (length (base ++ bytes_of (log_committed l)))) ∧
    gtids_accounted s r A0 (log_committed l) [].
Proof.
  intros (_ & r & c & k & ([_ Heq] & _ & Hlast & _ & _ & Hobj) & Hn & Hk & Hc & _ & Htake & Hdrop & Hsize & _ & Hacc) Hb Hp Hne.
  rewrite Hb in Htake, Hdrop. rewrite Hp in Hdrop. cbn in Htake. rewrite drop_0 in Hdrop. symmetry in Htake.
  assert (drop k (log_committed l) = []) as Hd by (apply bytes_of_nil; [by apply Forall_drop|done]).
  assert (take k (log_committed l) = log_committed l) as Ht.
  { rewrite <-(take_drop k (log_committed l)) at 2. by rewrite Hd, app_nil_r. }
  rewrite Ht, Hd in Hacc. rewrite Ht in Hc. rewrite <-Heq in Hobj. subst c n. split; [done|]. by exists r.
Qed.

(** C21: after a lost connection nothing is asked for twice and nothing is left out: the
    incomplete transaction is dropped, all complete ones are in the file, and the next
    connection asks for what follows the end of the file (in position mode), or for all but
    the GTIDs of the files before, those the file started with, and those of the complete
    transactions (in GTID mode). *)
Theorem lost_connection_resumes conn s s1 s2 n base A0 l request :
  abandon_connection s = (s1, Ok ()) →
  switch_to_replication conn s1 = (s2, Ok (Some request)) →
  holds_log s n base A0 l → streaming_inv s → Forall (λ tx, tx.1 ≠ []) (log_committed l) →
  (is_in_gtid_replication_mode s1 = true → encodable (get_gtids s1)) →
  let file := base ++ bytes_of (log_committed l) in
  disk s1 !! binlog_name_str n = Some file ∧
  match request with
  | request_position name position =>
      is_in_gtid_replication_mode s1 = false ∧ name = binlog_name_str n ∧
      position = Z.of_nat (length file)
  | request_gtid encoded =>
      is_in_gtid_replication_mode s1 = true ∧
      ∃ gtids r, decode encoded = Ok gtids ∧ last (st_records s1) = Some r ∧ br_name r = n ∧
        ∀ u t x, elem gtids u t x ↔
          elem (default empty_set (br_previous_gtids r)) u t x ∨ A0 u t x ∨
          gtids_of (log_committed l) u t x
  | request_from_start => False
  end.
Proof.
  intros Ha Hsw Hl Hi Hne Hen file. unfold abandon_connection in Ha.
  apply action_bind_ok in Ha as (s0 & [] & Hd & Hf).
  pose proof (discard_preserves _ _ Hd Hi) as Hi0.
  pose proof (session_op_step op_discard _ _ _ _ _ _ _ Hd I Hl) as Hl0. cbn in Hl0.
  assert (is_binlog_open s0 = true) as Hopen by (by destruct Hl0 as (_ & ? & ? & ? & (_ & ? & _) & _)).
  destruct (flush_event_buffer_preserves _ _ Hf Hopen Hi0) as (Hi1 & Hb & _).
  destruct (flush_empties _ _ _ _ _ _ Hf Hl0) as (Hl1 & _ & _).
  destruct (flushed_log _ _ _ _ _ Hl1 Hb) as (Hbuf & r & Hlast & Hn & Hobj & Hsize & Hacc); [done|done|].
  cbn in Hobj, Hsize, Hacc. fold file in Hobj, Hsize. split; [done|]. rewrite (inv_durable _ Hi1) in Hobj.
  destruct (switch_spec _ _ _ _ _ Hsw Hlast) as (s1' & Hreq & ->).
  destruct (make_request_spec _ _ Hi1 Hlast Hen) as (q & Hreq' & Hq). rewrite Hreq in Hreq'.
  injection Hreq' as -> ->.
  pose proof Hi1 as (_ & _ & _ & (_ & Hok & Hst & _) & _). destruct (last_split _ _ Hlast) as [rs Hrs].
  rewrite Hrs in Hok, Hst. apply Forall_app in Hok as [_ Hok], Hst as [_ Hst]. rewrite Forall_singleton in Hok, Hst.
  destruct q as [encoded| |name position]; [|done|].
  - destruct Hq as [Hm Hdec]. split; [done|]. exists (get_gtids s1), r. split_and!; [done..|].
    destruct (Hacc Hm) as [(A & HA & HwA & HeA) _].
    intros u t x. unfold get_gtids, get_current_binlog_record. rewrite Hm, Hlast, HA. cbn [negb].
    destruct Hok as (_ & _ & (_ & _ & Hp & _) & _). cbn in Hp.
    assert (wf (default empty_set (br_previous_gtids r))) as HwP.
    { destruct (br_previous_gtids r); [apply Hp|apply wf_empty]. }
    destruct (add_set_elem A _ HwP HwA) as [_ He]. rewrite He, HeA. tauto.
  - destruct Hq as (Hm & -> & ->). split_and!; [done|by rewrite Hn|].
    unfold get_current_position, get_flushed_position, get_current_binlog_record. rewrite Hlast, Hbuf.
    destruct Hst as [_ (f & Hff & Hsz)]. rewrite Hn, Hobj in Hff. injection Hff as <-.
    rewrite Hsz. cbn. rewrite Z.add_0_r. apply wrap_small.
    destruct Hok as (_ & _ & (_ & Hw & _) & _). cbn in Hw. by rewrite Hsz in Hw.
Qed.
End resuming.

(** ** A concrete run *)
Module AppExamples.
Import IntervalList UuidModel MetadataExamples BackendExamples LogExamples DiskExamples StreamExamples.

Definition at_0 : clock := mk_clock 0 0 0 0.
Definition tick : packet_clock :=
  mk_packet_clock at_0 (mk_rewrite_clock 0 at_0 at_0 0 0 at_0 0 at_0).
Definition sample_connection : server := mk_server 80045 (Some []) (λ _, true).

(** one transaction of two events, in the middle of a file *)
Definition mid_file : application := mk_app before_transaction opened.
Definition sample_packets : list (packet_clock * option (list Z)) :=
  [(tick, Some (0 :: gtid_event 113 226)); (tick, Some (0 :: query_event 266)); (tick, Some [])].
Definition after_packets : application := (receive_loop None sample_packets mid_file).1.

Lemma before_transaction_ok : context_ok before_transaction.
Proof.
  split; [apply (bool_decide_unpack _); by vm_compute|]. split; [apply (bool_decide_unpack _); by vm_compute|].
  split; [left; by vm_compute|]. intros _. by vm_compute.
Qed.


(** a connection is lost after a transaction was buffered *)
Lemma first_written_reachable : storage_reachable first_written.
Proof.
  apply (reach_step first_open); [apply (reach_step started); [apply reach_initial, started_initial|]|].
  - apply (step_open 0 binlog_1 created); [apply binlog_1_ok|set_solver by done|by vm_compute|]. run_action.
  - apply (step_write 0 [1; 2; 3] true g7 5 1);
      [split; [right; apply g7_ok|]; split; [done|]; split; [done|]; by vm_compute|by vm_compute|run_action].
Qed.

Lemma first_written_holds : holds_log first_written binlog_1 magic_binlog_payload no_gtids committed_7.
Proof.
  assert (write_event 0 [1; 2; 3] true g7 5 1 first_open = (first_written, Ok ())) as Hw by run_action.
  assert (first_open = opened) as Ho.
  { assert (is_ok (make_storage streaming (mk_basic_backend blank false) mode_gtid 0 0) = true) as Hk by (by vm_compute).
    revert Hk. unfold first_open, started, opened. by destruct (make_storage _ _ _ _ _). }
  rewrite Ho in Hw.
  refine (write_step _ _ _ _ _ _ _ _ _ _ _ _ _ Hw _ opened_holds). right. split; by vm_compute.
Qed.

Definition after_loss : storage := (abandon_connection first_written).1.
Definition asked : option replication_request :=
  match switch_to_replication sample_connection after_loss with (_, Ok q) => q | _ => None end.
Definition asked_gtids : list Z := match asked with Some (request_gtid l) => l | _ => [] end.

Lemma lost_connection_resumes_witness : ∃ gtids, decode asked_gtids = Ok gtids ∧
  disk after_loss !! binlog_name_str binlog_1 = Some (magic_binlog_payload ++ [1; 2; 3]) ∧
  elem gtids sample_uuid [] 7.
Proof.
  assert (abandon_connection first_written = (after_loss, Ok ())) as Ha by run_action.
  assert (switch_to_replication sample_connection after_loss =
    ((switch_to_replication sample_connection after_loss).1, Ok (Some (request_gtid asked_gtids)))) as Hs.
  { apply action_result; [reflexivity|by vm_compute]. }
  destruct (lost_connection_resumes sample_connection first_written after_loss _ binlog_1
    magic_binlog_payload no_gtids committed_7 (request_gtid asked_gtids) Ha Hs first_written_holds
    (reachable_inv _ first_written_reachable)) as (Hf & _ & gtids & r & Hd & _ & _ & He).
  - by repeat constructor.
  - intros _. split; [by vm_compute|]. apply (bool_decide_unpack _). by vm_compute.
  - exists gtids. split; [exact Hd|]. split; [exact Hf|]. apply He. right; right. exists g7.
    split; [left|]. split; [by vm_compute|reflexivity].
Defined.
End AppExamples.
