(* ===== verification/RewriteMode.v ===== *)
(** * The rewrite mode

    The rewrite mode of src/src/app.cpp ([rewrite_and_process_binlog_event] and
    [generate_preamble] of App.v) seen from the reader context and the storage that the
    rewritten and the generated events go through: a transaction keeps its integrity when
    its events are rewritten one by one, and the events that are generated between two
    files are accepted. *)

From stdpp Require Import gmap.
From S2P Require Import Prelude ByteSpan OrderedMap IntervalSet Gtid GtidSet GtidSetEncoding GtidSetText.
From S2P Require Import Util Protocol GtidLog GtidTaggedLog ReaderContext Rewriter Event Backend Metadata.
From S2P Require Import Storage StorageLog StorageDisk Commands App.

Local Open Scope Z_scope.

(** ** Rewriting a run of events *)
Section runs.
Context `{BoostUuid} `{Zlib}.
Implicit Types (c : reader_context) (v g : event_view) (h : common_header).

(** What the mode does with the events of a file: each is rewritten for the position of the
    context and processed. *)
Fixpoint rewrite_run (last : Z) c (vs : list event_view) : result (reader_context * list event_view) :=
  match vs with
  | [] => Ok (c, [])
  | v :: vs =>
      v' ← rewrite last v [] (rc_position c);
      '(c', _) ← process_event_view v' c;
      '(c'', vs') ← rewrite_run last c' vs;
      Ok (c'', v' :: vs')
  end.

(** a context between two transactions *)
Definition ready c : Prop :=
  rc_state c = gtid_log_expected ∨
  rc_state c = any_other_expected ∧ rc_current_transaction_length c = rc_expected_transaction_length c.

Lemma position_valid h c :
  0 < ch_event_size h → 0 ≤ rc_position c → rc_position c + ch_event_size h < 2 ^ 32 →
  ch_next_event_position h = u32 (rc_position c + ch_event_size h) → validate_position h c = Ok ().
Proof.
  intros Hs Hp Hmax Hn. unfold validate_position. rewrite Hn.
  rewrite wrap_small by (unfold in_width; lia).
  destruct (Z.eqb_spec (rc_position c + ch_event_size h) 0); [lia|]. cbn [raise_if mbind result_bind].
  by rewrite Z.eqb_refl.
Qed.

Lemma position_accepted h c :
  0 < ch_event_size h → 0 ≤ rc_position c → rc_position c + ch_event_size h < 2 ^ 32 →
  ch_next_event_position h = u32 (rc_position c + ch_event_size h) →
  validate_position_and_advance h c = Ok (set_position (rc_position c + ch_event_size h) c).
Proof.
  intros Hs Hp Hmax Hn. unfold validate_position_and_advance. rewrite position_valid by done.
  cbn [mbind result_bind]. rewrite Hn. by rewrite wrap_small by (unfold in_width; lia).
Qed.

(** The context after the first event of a transaction. *)
Definition in_transaction c (x : gtid) (seq len size position : Z) (c' : reader_context) : Prop :=
  rc_state c' = any_other_expected ∧ rc_transaction_gtid c' = x ∧
  rc_transaction_sequence_number c' = seq ∧ rc_expected_transaction_length c' = len ∧
  rc_current_transaction_length c' = size ∧ rc_position c' = position ∧
  rc_replication_mode c' = rc_replication_mode c ∧ rc_binlog_name c' = rc_binlog_name c ∧
  rc_cycle_number c' = rc_cycle_number c ∧ rc_footer_expected c' = rc_footer_expected c.

Lemma gtid_event_accepted v h c x seq len :
  ready c → rc_replication_mode c = mode_gtid → get_common_header v = Ok h →
  is_gtid_event (ch_type_code h) = true →
  transaction_info (ch_type_code h) v = Ok (Some x, seq, len) → len < 2 ^ 32 →
  0 < ch_event_size h → 0 ≤ rc_position c → rc_position c + ch_event_size h < 2 ^ 32 →
  ch_next_event_position h = u32 (rc_position c + ch_event_size h) →
  ∃ c', process_event_view v c = Ok (c', false) ∧
    in_transaction c x seq len (ch_event_size h) (rc_position c + ch_event_size h) c'.
Proof.
  intros Hready Hmode Hh Hcode Hinfo Hlen Hs Hp Hmax Hn.
  assert (ch_type_code h ≠ ct_anonymous_gtid_log) as Hanon.
  { intros Hc. rewrite Hc in Hinfo. cbn [transaction_info] in Hinfo. by inv_ok. }
  assert (∀ c0 i, rc_replication_mode c0 = mode_gtid → rc_position c0 = rc_position c →
    process_event_in_gtid_log_expected_state v i c0 =
      Ok (set_state any_other_expected (set_position (rc_position c + ch_event_size h)
        (set_current_transaction_length (ch_event_size h) (set_expected_transaction_length len
          (set_transaction_sequence_number seq (set_transaction_gtid x c0))))), true, false)) as Hstart.
  { intros c0 i Hm0 Hp0. unfold process_event_in_gtid_log_expected_state. rewrite Hh. cbn [mbind result_bind].
    rewrite (bool_decide_eq_false_2 (ch_type_code h = ct_rotate)), (bool_decide_eq_false_2 (ch_type_code h = ct_stop))
      by (intros Hc; by rewrite Hc in Hcode).
    cbn [andb orb]. rewrite Hcode. cbn [negb raise_if mbind result_bind].
    rewrite (bool_decide_eq_false_2 (ch_type_code h = ct_anonymous_gtid_log)) by done. rewrite andb_false_r.
    cbn [raise_if mbind result_bind]. unfold start_transaction. rewrite Hh. cbn [mbind result_bind].
    rewrite Hinfo. cbn [mbind result_bind]. destruct (Z.ltb_spec (2 ^ 32 - 1) len); [lia|].
    cbn [raise_if mbind result_bind]. rewrite position_accepted by (cbn; by rewrite ?Hp0). cbn [mbind result_bind].
    cbn [rc_position set_current_transaction_length set_expected_transaction_length
      set_transaction_sequence_number set_transaction_gtid]. by rewrite Hp0. }
  unfold process_event_view, process_fuel. cbn [process_loop]. destruct Hready as [Hst | [Hst Heq]].
  - unfold dispatch. rewrite Hst, Hstart by done. cbn [mbind result_bind]. eexists. split; [done|]. by split_and!.
  - assert (dispatch v false c = Ok (set_state gtid_log_expected (set_current_transaction_length 0
      (set_expected_transaction_length 0 (set_transaction_sequence_number 0 (set_transaction_gtid empty_gtid c)))),
      false, false)) as ->.
    { unfold dispatch. rewrite Hst. unfold process_event_in_any_other_expected_state. rewrite Hh.
      cbn [mbind result_bind]. rewrite Hcode. unfold finish_transaction. by rewrite Heq, Z.eqb_refl. }
    cbn [mbind result_bind]. unfold dispatch. cbn [rc_state set_state]. rewrite Hstart by done.
    cbn [mbind result_bind]. eexists. split; [done|]. by split_and!.
Qed.

(** events inside a transaction *)
Definition inner (h : common_header) : Prop :=
  is_gtid_event (ch_type_code h) = false ∧ is_skipped (ch_type_code h) = false ∧ is_artificial h = false.

Lemma inner_event_accepted v h c x seq len size position c0 :
  in_transaction c0 x seq len size position c → get_common_header v = Ok h → inner h →
  0 < ch_event_size h → 0 ≤ size → size + ch_event_size h ≤ len → len < 2 ^ 32 → 0 ≤ position →
  position + ch_event_size h < 2 ^ 32 → ch_next_event_position h = u32 (position + ch_event_size h) →
  ∃ c', process_event_view v c = Ok (c', false) ∧
    in_transaction c0 x seq len (size + ch_event_size h) (position + ch_event_size h) c'.
Proof.
  intros (Hst & Hx & Hseq & Hexp & Hcur & Hpos & Hm & Hn & Hcy & Hf) Hh (Hg & Hsk & Hart) Hs Hsz Hle Hlen Hp Hmax Hnext.
  unfold process_event_view, process_fuel. cbn [process_loop]. unfold dispatch. rewrite Hst.
  unfold process_event_in_any_other_expected_state. rewrite Hh. cbn [mbind result_bind]. rewrite Hg.
  repeat match goal with |- context [bool_decide (ch_type_code h = ?k)] =>
    rewrite (bool_decide_eq_false_2 (ch_type_code h = k)) by (intros Hc; by rewrite Hc in Hsk) end.
  rewrite Hart. cbn [andb orb raise_if mbind result_bind]. unfold update_transaction.
  rewrite Hcur, wrap_small by (unfold in_width; lia).
  cbn [rc_expected_transaction_length rc_current_transaction_length set_current_transaction_length]. rewrite Hexp.
  destruct (Z.ltb_spec len (size + ch_event_size h)); [lia|]. cbn [raise_if mbind result_bind].
  rewrite position_accepted by (cbn; by rewrite ?Hpos). cbn [mbind result_bind].
  eexists. split; [done|]. split_and!; try done. cbn. by rewrite Hpos.
Qed.

(** an event of the source, which has a checksum *)
Definition source_event v h : Prop := received_ok v h ∧ ev_footer_size v = default_footer_length.
Definition sizes (vs : list event_view) : Z := foldr (λ v n, Z.of_nat (get_total_size v) + n) 0 vs.

(** an event and its copy in the local file: only the common header and the checksum differ *)
Definition copied v v' : Prop :=
  ∃ offset, relocated offset v v' ∧ get_post_header_raw v' = get_post_header_raw v ∧
    get_body_raw v' = get_body_raw v.

Lemma view_size v :
  view_ok v → get_total_size v = (default_common_header_length + ev_post_header_size v +
                length (get_body_raw v) + ev_footer_size v)%nat.
Proof.
  intros (Hl & _). unfold get_body_raw, get_body_size, get_total_size in *.
  rewrite length_take, length_drop. lia.
Qed.

Lemma copied_size v h v' : source_event v h → copied v v' → get_total_size v' = get_total_size v.
Proof.
  intros [(Hv & _) Hf] (offset & (Hv' & Hf' & Hp & _) & _ & Hb). rewrite (view_size v Hv), (view_size v' Hv').
  by rewrite Hb, Hp, Hf, Hf'.
Qed.

Lemma view_positive v h : received_ok v h → 19 ≤ Z.of_nat (get_total_size v) ∧ Z.of_nat (get_total_size v) < 2 ^ 32.
Proof.
  intros ((Hl & _) & _ & _ & Hmax). unfold get_total_size, default_common_header_length in *. lia.
Qed.

Lemma copied_sizes es es' :
  Forall2 copied es es' → Forall (λ e, ∃ h, source_event e h ∧ inner h) es → sizes es' = sizes es.
Proof.
  induction 1 as [|e e' es es' He _ IH]; intros Hs; [done|]. inversion_clear Hs as [|? ? (h & Hh & _) Hes].
  cbn [sizes foldr]. fold (sizes es) (sizes es'). by rewrite (copied_size e h e'), IH.
Qed.

(** the inner events of a transaction *)
Lemma inner_run last es c c0 x seq len size position :
  in_transaction c0 x seq len size position c →
  Forall (λ e, ∃ h, source_event e h ∧ inner h) es →
  0 ≤ size → size + sizes es ≤ len → len < 2 ^ 32 → 0 ≤ position → position + sizes es < 2 ^ 32 →
  ∃ c' vs', rewrite_run last c es = Ok (c', vs') ∧ Forall2 copied es vs' ∧
    in_transaction c0 x seq len (size + sizes es) (position + sizes es) c'.
Proof.
  intros Hc Hes. revert c size position Hc. induction Hes as [|e es (h & [Hok Hf] & Hin) Hes IH];
    intros c size position Hc Hs Hle Hlen Hp Hmax; cbn [sizes foldr] in *.
  { exists c, []. rewrite !Z.add_0_r. done. }
  assert (∀ l, 0 ≤ foldr (λ v n, Z.of_nat (get_total_size v) + n) 0 l) as Hnn
    by (intros l; induction l as [|? ? ?]; cbn; lia).
  specialize (Hnn es). fold (sizes es) in *.
  destruct (relocate_ok last e h [] (rc_position c)) as (v' & Hr & Hrel & Hph & Hb); [done|by apply Hin|].
  assert (rc_position c = position) as Hpos by apply Hc.
  assert (copied e v') as Hcopy by (by exists (rc_position c)).
  pose proof (copied_size e h v' (conj Hok Hf) Hcopy) as Hsize. pose proof (view_positive e h Hok) as Hvp.
  pose proof Hrel as (_ & _ & _ & (h1 & Hh1 & Hh') & _).
  assert (h1 = h) as -> by (pose proof (proj1 (proj2 Hok)) as Hh; rewrite Hh1 in Hh; by injection Hh).
  rewrite Hsize in Hh'. set (k := Z.of_nat (get_total_size e)) in *.
  destruct (inner_event_accepted v' _ c x seq len size position c0 Hc Hh') as (c' & Hproc & Hc');
    cbn [ch_event_size ch_next_event_position with_size_and_position] in *; rewrite ?Hpos; try done; try lia.
  destruct (IH c' (size + k) (position + k) Hc') as (c'' & vs' & Hrun & Hall & Hfin); try lia.
  exists c'', (v' :: vs'). cbn [rewrite_run]. rewrite Hr. cbn [mbind result_bind]. rewrite Hproc. cbn [mbind result_bind].
  rewrite Hrun. cbn [mbind result_bind]. split; [done|]. split; [by constructor|]. by rewrite !Z.add_assoc.
Qed.

(** the numbers of a transaction in the source are in order *)
Definition in_order (code : code_type) v : Prop :=
  match code with
  | ct_gtid_tagged_log => ∀ b, parse_tagged_body (get_body_raw v) = Ok b →
      tb_get_last_committed b < tb_get_sequence_number b
  | _ => ∀ ph, parse_gtid_log_post_header (get_post_header_raw v) = Ok ph →
      glh_get_last_committed ph < glh_get_sequence_number ph
  end.

(** The event that starts a transaction: renumbered, and with a length that differs from the
    old one as its own size does. *)
Lemma gtid_event_rewritten last g h x seq len offset :
  source_event g h → transaction_info (ch_type_code h) g = Ok (Some x, seq, len) →
  in_order (ch_type_code h) g → Z.of_nat (get_total_size g) ≤ len → len < 2 ^ 32 →
  (ch_type_code h = ct_gtid_tagged_log → ev_post_header_size g = 0%nat) →
  0 ≤ last → last + 1 < 2 ^ 64 →
  ∃ g', rewrite last g [] offset = Ok g' ∧ relocated offset g g' ∧
    transaction_info (ch_type_code h) g' =
      Ok (Some x, last + 1, len - Z.of_nat (get_total_size g) + Z.of_nat (get_total_size g')) ∧
    Z.of_nat (get_total_size g') ≤ Z.of_nat (get_total_size g) + 343.
Proof.
  intros [Hok Hf] Hinfo Hord Hsize Hlen Hph Hla Hnext. unfold transaction_info in Hinfo.
  destruct (ch_type_code h) eqn:Hcode; try discriminate Hinfo.
  - apply result_bind_ok in Hinfo as (ph & Hp & Hinfo). apply result_bind_ok in Hinfo as (y & Hy & Hinfo).
    apply result_bind_ok in Hinfo as ([] & He & Hinfo). apply result_bind_ok in Hinfo as (body & Hb & [= -> _ <-]).
    destruct (renumber_gtid_log_ok last g h ph [] offset) as (g' & ph' & Hr & Hrel & Hb' & Hp' & _ & Hu & Hg & Hn);
      [done|by left|done|by apply Hord|done|done|].
    exists g'. split; [done|]. split; [done|].
    assert (get_total_size g' = get_total_size g) as Hs.
    { destruct Hrel as (Hv' & Hf' & Hp2 & _). rewrite (view_size g'), (view_size g) by (done || apply Hok).
      by rewrite Hb', Hp2, Hf, Hf'. }
    split; [|lia]. cbn [transaction_info]. rewrite Hp'. cbn [mbind result_bind].
    assert (glh_get_gtid ph' = glh_get_gtid ph) as -> by (unfold glh_get_gtid, glh_get_gno; by rewrite Hu, Hg).
    rewrite Hy. cbn [mbind result_bind]. rewrite He. cbn [mbind result_bind]. rewrite Hb', Hb. cbn [mbind result_bind].
    destruct Hn as [-> _]. do 2 f_equal. rewrite Hs. lia.
  - inv_ok. 
  - apply result_bind_ok in Hinfo as (b & Hp & Hinfo). apply result_bind_ok in Hinfo as (y & Hy & Hinfo).
    apply result_bind_ok in Hinfo as ([] & He & [= -> _ <-]).
    destruct (renumber_gtid_tagged_ok last g h b [] offset) as (g' & b' & Hr & Hrel & Hp' & Hn & Hl & Hb' & Hmax);
      [done|done|by apply Hph|done|lia|by apply Hord|done|done|].
    exists g'. split; [done|]. split; [done|]. split; [|lia]. cbn [transaction_info]. rewrite Hp'. cbn [mbind result_bind].
    assert (tb_get_gtid b' = tb_get_gtid b) as -> by (by rewrite Hb').
    rewrite Hy. cbn [mbind result_bind]. rewrite He. cbn [mbind result_bind]. destruct Hn as [-> _].
    do 2 f_equal. lia.
Qed.

(** C12: a transaction keeps its integrity when its events are rewritten one after the other:
    each copy is where the context expects it, the copies add up to the length that the
    rewritten GTID event declares, and after the last one the context is at a transaction
    boundary, with the GTID of the transaction and the next local sequence number. *)
Theorem transaction_rewritten last c g h es x seq len :
  ready c → rc_replication_mode c = mode_gtid → 0 ≤ rc_position c →
  source_event g h → transaction_info (ch_type_code h) g = Ok (Some x, seq, len) →
  in_order (ch_type_code h) g → (ch_type_code h = ct_gtid_tagged_log → ev_post_header_size g = 0%nat) →
  Forall (λ e, ∃ h, source_event e h ∧ inner h) es → len = sizes (g :: es) →
  rc_position c + len + 343 < 2 ^ 32 → 0 ≤ last → last + 1 < 2 ^ 64 →
  ∃ c' g' es', rewrite_run last c (g :: es) = Ok (c', g' :: es') ∧ relocated (rc_position c) g g' ∧
    Forall2 copied es es' ∧ is_at_transaction_boundary c' = true ∧ rc_transaction_gtid c' = x ∧
    rc_transaction_sequence_number c' = last + 1 ∧
    rc_position c' = rc_position c + sizes (g' :: es').
Proof.
  intros Hready Hmode Hpos Hg Hinfo Hord Hph Hes Hlen Hmax Hla Hnext.
  assert (∀ l, 0 ≤ foldr (λ v n, Z.of_nat (get_total_size v) + n) 0 l) as Hnn
    by (intros l; induction l as [|? ? ?]; cbn; lia).
  specialize (Hnn es). cbn [sizes foldr] in Hlen. fold (sizes es) in *.
  destruct (gtid_event_rewritten last g h x seq len (rc_position c)) as (g' & Hr & Hrel & Hinfo' & Hgrow);
    [done..|lia|lia|done|done|done|].
  pose proof Hrel as (Hv' & _ & _ & (h1 & Hh1 & Hh') & _).
  assert (h1 = h) as -> by (destruct Hg as [(_ & Hh & _) _]; rewrite Hh1 in Hh; by injection Hh).
  assert (19 ≤ Z.of_nat (get_total_size g')) as Hpos'
    by (destruct Hv' as [Hl _]; unfold get_total_size, default_common_header_length in *; lia).
  set (k := Z.of_nat (get_total_size g')) in *.
  assert (is_gtid_event (ch_type_code h) = true) as Hcode
    by (unfold transaction_info in Hinfo; by destruct (ch_type_code h)).
  destruct (gtid_event_accepted g' (with_size_and_position h k (u32 (rc_position c + k))) c x (last + 1)
    (len - Z.of_nat (get_total_size g) + k)) as (c1 & Hproc & Hc1);
    cbn [ch_type_code ch_event_size ch_next_event_position with_size_and_position] in *; [done..|lia|lia|done|lia|done|].
  destruct (inner_run last es c1 c x (last + 1) (len - Z.of_nat (get_total_size g) + k) k (rc_position c + k))
    as (c' & es' & Hrun & Hall & Hc'); [done..|lia|lia|lia|lia|lia|].
  exists c', g', es'. cbn [rewrite_run]. rewrite Hr. cbn [mbind result_bind]. rewrite Hproc. cbn [mbind result_bind].
  rewrite Hrun. cbn [mbind result_bind]. split; [done|]. split; [done|]. split; [done|].
  destruct Hc' as (Hst & Hx & Hseq & Hexp & Hcur & Hp & _). split; [|split; [done|]; split; [done|]].
  - unfold is_at_transaction_boundary. rewrite bool_decide_eq_true_2, Hexp, Hcur by done.
    apply orb_true_iff. left. cbn [andb]. apply Z.eqb_eq. lia.
  - cbn [sizes foldr]. fold (sizes es'). rewrite (copied_sizes es es'), Hp by done. lia.
Qed.
End runs.

(** ** The generated events *)
Section preamble.
Context `{IntervalSet} `{BoostUuid} `{Zlib}.
Implicit Types (c : reader_context) (v : event_view) (header : common_header) (name : list Z).

Lemma created_common_header header h b include :
  common_header_ok header → get_common_header (created_view header h b include) = Ok header.
Proof.
  intros Hok. unfold get_common_header, created_view.
  rewrite parts_common_header by apply length_common_header_bytes. by apply parse_common_header_bytes.
Qed.
Lemma created_post_header header h b include :
  get_post_header_raw (created_view header h b include) = post_header_bytes h.
Proof. apply parts_post_header, length_common_header_bytes. Qed.
Lemma created_body header h b include :
  get_body_raw (created_view header h b include) = body_bytes b.
Proof. apply parts_body, length_common_header_bytes. Qed.

Lemma created_reusable header h b include : reusable (ev_portion (created_view header h b include)).
Proof.
  right. pose proof (length_common_header_bytes header) as Hl. unfold created_view. cbn [from_parts ev_portion].
  split; [rewrite length_app; lia|]. rewrite <-get_type_code_take, take_app_length' by done.
  pose proof (code_index_bound (ch_type_code header)) as Hc.
  assert (get_type_code_raw (common_header_bytes header) = code_index (ch_type_code header)) as ->; [|apply Hc].
  apply (get_field_app type_code_offset 1 (le_split 4 (ch_timestamp header))); [apply length_le_split|].
  unfold in_width, code_delimiter in *. change (2 ^ (8 * Z.of_nat 1)) with 256. lia.
Qed.

Lemma process_dispatched v c c' info :
  dispatch v false c = Ok (c', true, info) → process_event_view v c = Ok (c', info).
Proof. intros Hd. unfold process_event_view, process_fuel. cbn [process_loop]. by rewrite Hd. Qed.

(** what the generators share: create an event in the buffer and take a view of it *)
Lemma generated_view c code offset timestamp server_id flags h b include buffer :
  post_header_for code h → body_for code b → reusable buffer → created_size h b include < 2 ^ 32 →
  in_width 32 server_id → in_width 16 flags → takes c code h include →
  let v := created_view (create_with_offset offset (created_size h b include) timestamp code server_id flags)
             h b include in
  ('(_, event_buffer) ← create_event code offset timestamp server_id flags h b include buffer;
   v ← make_event_view c event_buffer;
   Ok (v, event_buffer)) = Ok (v, ev_portion v).
Proof.
  intros Hh Hb Hbuf Hmax Hid Hfl Hc v.
  assert (0 ≤ created_size h b include) by (unfold created_size; destruct include; cbn [footer_encoded_size]; lia).
  rewrite create_event_ok; [|done..|by intros ->]. cbn [mbind result_bind]. fold v.
  enough (make_event_view c (ev_portion v) = Ok v) as -> by done.
  apply created_accepted; [by apply created_header_ok|done..].
Qed.

(** what the preamble does not change *)
Definition same_server c c' : Prop :=
  rc_connection_encoded_server_version c' = rc_connection_encoded_server_version c ∧
  rc_current_encoded_server_version c' = rc_current_encoded_server_version c ∧
  rc_replication_mode c' = rc_replication_mode c.

(** *** ROTATE *)
Definition rotate_header (offset timestamp server_id : Z) (artificial include : bool) name : common_header :=
  create_with_offset offset (created_size (rotate_post_header magic_binlog_offset) (rotate_body name) include)
    timestamp ct_rotate server_id (if artificial then artificial_flag else 0).
Definition rotate_view (offset timestamp server_id : Z) (artificial include : bool) name : event_view :=
  created_view (rotate_header offset timestamp server_id artificial include name)
    (rotate_post_header magic_binlog_offset) (rotate_body name) include.

Lemma rotate_size include name :
  created_size (rotate_post_header magic_binlog_offset) (rotate_body name) include =
    27 + Z.of_nat (length name) + footer_encoded_size include.
Proof. unfold created_size. cbn [post_header_bytes body_bytes]. rewrite length_le_split. cbn. lia. Qed.

Lemma rotate_header_ok offset timestamp server_id artificial include name :
  in_width 32 server_id → Z.of_nat (length name) < 2 ^ 31 →
  common_header_ok (rotate_header offset timestamp server_id artificial include name).
Proof.
  intros Hid Hl. apply created_header_ok; [|done|by destruct artificial]. rewrite rotate_size.
  unfold in_width. destruct include; cbn [footer_encoded_size]; unfold default_footer_length; lia.
Qed.

Lemma generate_rotate_ok buffer c offset (current : bool) now server_id artificial n :
  reusable buffer → get_current_post_header_length c ct_rotate = Z.of_nat rotate_post_header_size →
  in_width 32 server_id → Z.of_nat (length (binlog_name_str n)) < 2 ^ 31 →
  let v := rotate_view offset (if current then now else 0) server_id artificial (rc_footer_expected c) (binlog_name_str n) in
  generate_rotate_event buffer c offset current now server_id artificial n = Ok (v, ev_portion v).
Proof.
  intros Hbuf Hlen Hid Hl v. unfold v, rotate_view, rotate_header, generate_rotate_event, rotate_body_of_name.
  apply generated_view; try done; [|by destruct artificial].
  rewrite rotate_size. destruct (rc_footer_expected c); cbn [footer_encoded_size]; unfold default_footer_length; lia.
Qed.

(** the ROTATE that ends a file *)
Lemma end_rotate_accepted c timestamp server_id name :
  rc_state c = any_other_expected → rc_current_transaction_length c = rc_expected_transaction_length c →
  in_width 32 server_id → 0 ≤ rc_position c → rc_position c + 31 + Z.of_nat (length name) < 2 ^ 32 →
  Z.of_nat (length name) < 2 ^ 31 →
  ∃ c', process_event_view (rotate_view (rc_position c) timestamp server_id false (rc_footer_expected c) name) c =
      Ok (c', false) ∧
    rc_state c' = rotate_artificial_expected ∧ rc_position c' = magic_binlog_offset ∧
    rc_cycle_number c' = rc_cycle_number c ∧ same_server c c' ∧ rc_binlog_name c' = rc_binlog_name c ∧
    rc_footer_expected c' = rc_footer_expected c ∧ rc_post_header_lengths c' = rc_post_header_lengths c.
Proof.
  intros Hst Heq Hid Hp Hmax Hl. set (header := rotate_header (rc_position c) timestamp server_id false (rc_footer_expected c) name).
  assert (get_common_header (rotate_view (rc_position c) timestamp server_id false (rc_footer_expected c) name) = Ok header) as Hh
    by (by apply created_common_header, rotate_header_ok).
  assert (ch_event_size header = 27 + Z.of_nat (length name) + footer_encoded_size (rc_footer_expected c)) as Hs
    by (apply rotate_size).
  assert (ch_next_event_position header = u32 (rc_position c + ch_event_size header)) as Hn by done.
  assert (ch_type_code header = ct_rotate ∧ is_artificial header = false) as [Hc Ha] by done.
  assert (0 ≤ footer_encoded_size (rc_footer_expected c) ≤ 4) as Hf by (by destruct (rc_footer_expected c)).
  unfold process_event_view, process_fuel. cbn [process_loop].
  assert (∀ i, dispatch (rotate_view (rc_position c) timestamp server_id false (rc_footer_expected c) name) i c =
    Ok (set_state rotate_or_stop_expected (set_current_transaction_length 0 (set_expected_transaction_length 0
      (set_transaction_sequence_number 0 (set_transaction_gtid empty_gtid c)))), false, i)) as ->.
  { intros i. unfold dispatch. rewrite Hst. unfold process_event_in_any_other_expected_state. rewrite Hh.
    cbn [mbind result_bind]. rewrite Hc, Ha. unfold finish_transaction. by rewrite Heq, Z.eqb_refl. }
  cbn [mbind result_bind]. unfold dispatch. cbn [rc_state set_state].
  unfold process_event_in_rotate_or_stop_expected_state. rewrite Hh. cbn [mbind result_bind]. rewrite Hc, Ha.
  rewrite (bool_decide_eq_true_2 (ct_rotate = ct_rotate)) by done. cbn [negb andb raise_if mbind result_bind].
  unfold rotate_view. rewrite created_post_header.
  change (parse_rotate_post_header (post_header_bytes (rotate_post_header magic_binlog_offset))) with (@Ok Z magic_binlog_offset).
  cbn [mbind result_bind]. rewrite Z.eqb_refl. cbn [negb raise_if mbind result_bind].
  rewrite position_valid by (cbn [rc_position set_state set_current_transaction_length set_expected_transaction_length
    set_transaction_sequence_number set_transaction_gtid]; (done || lia)).
  cbn [mbind result_bind]. eexists. split; [done|]. by split_and!.
Qed.

(** the artificial ROTATE that starts a file *)
Lemma artificial_rotate_accepted c server_id include name :
  rc_state c = rotate_artificial_expected → rc_replication_mode c = mode_gtid →
  in_width 32 server_id → Z.of_nat (length name) < 2 ^ 31 →
  process_event_view (rotate_view 0 0 server_id true include name) c = Ok (after_rotate name c, true).
Proof.
  intros Hst Hm Hid Hl. set (header := rotate_header 0 0 server_id true include name).
  assert (get_common_header (rotate_view 0 0 server_id true include name) = Ok header) as Hh
    by (by apply created_common_header, rotate_header_ok).
  unfold process_event_view, process_fuel. cbn [process_loop]. unfold dispatch. rewrite Hst.
  unfold process_event_in_rotate_artificial_expected_state. rewrite Hh. cbn [mbind result_bind].
  unfold rotate_view. rewrite created_post_header, created_body.
  change (parse_rotate_post_header (post_header_bytes (rotate_post_header magic_binlog_offset))) with (@Ok Z magic_binlog_offset).
  assert (bool_decide (ch_type_code header = ct_rotate) && is_artificial header = true) as -> by done.
  assert (ch_timestamp header =? 0 = true) as -> by done.
  assert (ch_next_event_position header =? 0 = true) as -> by done.
  cbn [negb raise_if mbind result_bind]. rewrite Hm, (bool_decide_eq_false_2 (mode_gtid = mode_position)) by done.
  rewrite Z.eqb_refl. by cbn [negb raise_if mbind result_bind].
Qed.

(** *** FORMAT_DESCRIPTION *)
Definition fde_of (version created : Z) : fde_post_header :=
  make_fde_post_header default_binlog_version (version_of_encoded version) created
    (Z.of_nat default_common_header_length) (get_hardcoded_post_header_lengths (get_encoded (version_of_encoded version))).

Lemma encoded_version version : 0 ≤ version < 1000000 → get_encoded (version_of_encoded version) = version.
Proof.
  intros Hv. unfold get_encoded, version_of_encoded, major_multiplier, minor_multiplier.
  cbn [sv_major sv_minor sv_patch]. change (100 * 100) with 10000.
  rewrite !(wrap_small 8) by (unfold in_width; dlia). rewrite wrap_small by (unfold in_width; dlia). dlia.
Qed.

Lemma version_of_encoded_ok version : version_ok (version_of_encoded version).
Proof. split_and!; by apply (wrap_bound 8). Qed.

Lemma to_string_short x : in_width 8 x → (length (to_string x) ≤ 3)%nat ∧ 0 ∉ to_string x.
Proof.
  intros [Hx1 Hx2]. assert (Forall (λ x, (length (to_string x) ≤ 3)%nat ∧ 0 ∉ to_string x) (seqZ 0 256)) as Hall
    by (apply (bool_decide_unpack _); by vm_compute).
  rewrite Forall_forall in Hall. apply Hall, elem_of_seqZ. simpl in Hx2. lia.
Qed.

Lemma version_string_short (v : semantic_version) : version_ok v → (length (version_string v) ≤ 11)%nat ∧ 0 ∉ version_string v.
Proof.
  intros (Ha & Hb & Hc). apply to_string_short in Ha as [L1 N1], Hb as [L2 N2], Hc as [L3 N3].
  unfold version_string. rewrite !length_app. cbn [length]. rewrite length_app. cbn [length]. split; [lia|].
  rewrite elem_of_app, elem_of_cons, elem_of_app, elem_of_cons. intros [Hin | [Hin | [Hin | [Hin | Hin]]]];
    [exact (N1 Hin) | inversion Hin | exact (N2 Hin) | inversion Hin | exact (N3 Hin)].
Qed.

Lemma hardcoded_lengths_ok version :
  let n := get_number_of_events version in let l := get_hardcoded_post_header_lengths version in
  post_header_lengths_ok l ∧ Forall (λ x, x = 0) (drop (n - 1) l) ∧
  l !! 14%nat = Some (Z.of_nat (fde_size_in_bytes version)) ∧
  validate_post_header_lengths version l (get_known_post_header_lengths version) = Ok () ∧
  get_post_header_length_for_code version l ct_rotate = Z.of_nat rotate_post_header_size ∧
  get_post_header_length_for_code version l ct_previous_gtids_log = 0.
Proof.
  unfold get_hardcoded_post_header_lengths, get_known_post_header_lengths, get_post_header_length_for_code,
    validate_post_header_lengths, fde_size_in_bytes, get_number_of_events.
  destruct (version <? latest_known_protocol_server_version); split_and!; try (by vm_compute);
    apply (bool_decide_unpack _); by vm_compute.
Qed.

Lemma fde_of_ok version created : fde_ok (fde_of version created) (version_of_encoded version).
Proof.
  pose proof (version_of_encoded_ok version) as Hok. destruct (version_string_short _ Hok) as [Hl Hn0].
  unfold fde_of. set (w := get_encoded (version_of_encoded version)).
  destruct (hardcoded_lengths_ok w) as (Hlok & Hzero & Hfde & _).
  assert (take server_version_length (version_string (version_of_encoded version)) =
    version_string (version_of_encoded version)) as Ht by (apply take_ge; unfold server_version_length; lia).
  unfold fde_ok, make_fde_post_header. fold w. rewrite Ht.
  cbn [fde_binlog_version fde_server_version fde_create_timestamp fde_common_header_length fde_post_header_lengths].
  repeat apply conj; try done.
  - pose proof (version_parse (version_of_encoded version) [] Hok (or_introl eq_refl)) as Hp. by rewrite app_nil_r in Hp.
  - unfold server_version_length. lia.
  - by apply (wrap_bound 32).
  - by apply (wrap_bound 32).
Qed.

Definition fde_size (version created : Z) : Z :=
  created_size (format_description_post_header (fde_of version created)) (format_description_body checksum_crc32) true.
Definition fde_header (version offset created timestamp server_id : Z) : common_header :=
  create_with_offset offset (fde_size version created) timestamp ct_format_description server_id 0.
Definition fde_view (version offset created timestamp server_id : Z) : event_view :=
  created_view (fde_header version offset created timestamp server_id)
    (format_description_post_header (fde_of version created)) (format_description_body checksum_crc32) true.

Lemma fde_size_encoded version created :
  fde_size version created = 24 + Z.of_nat (fde_size_in_bytes (get_encoded (version_of_encoded version))).
Proof.
  pose proof (fde_of_ok version created) as Hok. pose proof Hok as (_ & Hs & _).
  pose proof (length_fde_bytes _ _ Hok) as Hl. unfold fde_size, created_size. cbn [post_header_bytes body_bytes].
  rewrite Hs, Hl. cbn [length footer_encoded_size].
  unfold default_common_header_length, default_footer_length. lia.
Qed.

Lemma fde_size_spec version created :
  0 ≤ version < 1000000 → fde_size version created = 24 + Z.of_nat (fde_size_in_bytes version).
Proof. intros Hv. by rewrite fde_size_encoded, encoded_version. Qed.

Lemma fde_size_small version : Z.of_nat (fde_size_in_bytes version) ≤ 99.
Proof. unfold fde_size_in_bytes. destruct (number_of_events_cases version) as [-> | ->]; by vm_compute. Qed.

Lemma fde_size_bound version created : 24 ≤ fde_size version created ≤ 123.
Proof. rewrite fde_size_encoded. pose proof (fde_size_small (get_encoded (version_of_encoded version))). lia. Qed.

Lemma fde_header_ok version offset created timestamp server_id :
  in_width 32 server_id → common_header_ok (fde_header version offset created timestamp server_id).
Proof.
  intros Hid. apply created_header_ok; [|done|done]. pose proof (fde_size_bound version created). unfold in_width. lia.
Qed.

Lemma generate_fde_ok buffer c offset created now server_id :
  reusable buffer → in_width 32 server_id →
  let v := fde_view (rc_current_encoded_server_version c) offset created now server_id in
  generate_format_description_event buffer c offset created now server_id = Ok (v, ev_portion v).
Proof.
  intros Hbuf Hid v. pose proof (fde_size_bound (rc_current_encoded_server_version c) created) as Hs.
  pose proof (fde_of_ok (rc_current_encoded_server_version c) created) as Hok.
  unfold v, fde_view, fde_header, fde_size in *. apply generated_view; try done; [by eexists | lia].
Qed.

Lemma fde_accepted c created now server_id :
  let version := rc_current_encoded_server_version c in let info := rc_expect_info_only_preamble_events c in
  let size := fde_size version created in
  0 ≤ version < 1000000 → version ≤ rc_connection_encoded_server_version c → in_width 32 server_id →
  rc_state c = format_description_expected → rc_replication_mode c = mode_gtid →
  (info = false → rc_position c = magic_binlog_offset) →
  ∃ c', process_event_view (fde_view version magic_binlog_offset created now server_id) c = Ok (c', info) ∧
    rc_state c' = previous_gtids_expected ∧ same_server c c' ∧
    rc_position c' = (if info then rc_position c else magic_binlog_offset + size) ∧
    rc_cycle_number c' = rc_cycle_number c ∧ rc_binlog_name c' = rc_binlog_name c ∧
    rc_footer_expected c' = true ∧ rc_expect_info_only_preamble_events c' = info ∧
    rc_post_header_lengths c' = get_hardcoded_post_header_lengths version ∧
    rc_expected_transaction_length c' = rc_expected_transaction_length c ∧
    rc_current_transaction_length c' = rc_current_transaction_length c.
Proof.
  intros version info size Hv Hconn Hid Hst Hm Hpos.
  set (header := fde_header version magic_binlog_offset created now server_id).
  pose proof (fde_of_ok version created) as Hok. pose proof (fde_size_spec version created Hv) as Hs.
  pose proof (fde_size_small version) as Hsmall. destruct (hardcoded_lengths_ok version) as (_ & _ & _ & Hval & _).
  assert (get_common_header (fde_view version magic_binlog_offset created now server_id) = Ok header) as Hh
    by (by apply created_common_header, fde_header_ok).
  pose proof (parse_fde_bytes _ _ Hok) as Hparse.
  assert (parse_fde_post_header (post_header_bytes (format_description_post_header (fde_of version created))) =
    Ok (fde_of version created)) as Hph.
  { cbn [post_header_bytes]. by rewrite (proj1 (proj2 Hok)). }
  eexists. split.
  { apply process_dispatched. unfold dispatch. rewrite Hst. unfold process_event_in_format_description_expected_state.
    rewrite Hh. cbn [mbind result_bind].
    assert (ch_type_code header = ct_format_description) as -> by reflexivity.
    assert (is_artificial header = false) as -> by reflexivity. rewrite bool_decide_eq_true_2 by reflexivity.
    unfold fde_view. rewrite created_post_header, created_body, Hph. cbn [negb raise_if mbind result_bind].
    assert (fde_binlog_version (fde_of version created) =? default_binlog_version = true) as -> by reflexivity.
    assert (fde_common_header_length (fde_of version created) =? Z.of_nat default_common_header_length = true) as -> by reflexivity.
    unfold get_encoded_server_version. rewrite (proj1 (proj2 Hok)). cbn [negb raise_if mbind result_bind].
    rewrite encoded_version by done.
    cbn [rc_connection_encoded_server_version rc_current_encoded_server_version set_current_encoded_server_version].
    destruct (Z.ltb_spec (rc_connection_encoded_server_version c) version); [lia|]. cbn [raise_if mbind result_bind].
    assert (fde_post_header_lengths (fde_of version created) = get_hardcoded_post_header_lengths version) as ->
      by (unfold fde_of; cbn [fde_post_header_lengths make_fde_post_header]; by rewrite encoded_version).
    rewrite Hval. cbn [mbind result_bind body_bytes].
    change (parse_fde_body [checksum_crc32]) with (@Ok Z checksum_crc32). cbn [mbind result_bind].
    change (has_checksum_algorithm checksum_crc32) with true.
    set (c0 := set_footer_expected true _).
    change (rc_expect_info_only_preamble_events c0) with info.
    change (rc_replication_mode c0) with (rc_replication_mode c). rewrite Hm.
    rewrite (bool_decide_eq_false_2 (mode_gtid = mode_position)) by done. cbn [andb raise_if mbind result_bind].
    assert ((if negb info then validate_position_and_advance header c0 else Ok c0) =
      Ok (if info then c0 else set_position (magic_binlog_offset + size) c0)) as ->; [|reflexivity].
    destruct info; [reflexivity|]. cbn [negb]. specialize (Hpos eq_refl).
    assert (ch_event_size header = size) as Hsize by reflexivity.
    assert (rc_position c0 = magic_binlog_offset) as Hp0 by exact Hpos.
    rewrite position_accepted; rewrite ?Hp0, ?Hsize; [reflexivity | | done | | reflexivity];
      unfold size, magic_binlog_offset; rewrite Hs; lia. }
  destruct info eqn:Einfo; cbn [set_state set_position rc_position]; repeat apply conj; first [reflexivity | exact Einfo].
Qed.

(** *** PREVIOUS_GTIDS_LOG *)
Definition previous_size (body : list Z) : Z := created_size empty_post_header (previous_gtids_log_body body) true.
Definition previous_header (offset timestamp server_id : Z) (body : list Z) : common_header :=
  create_with_offset offset (previous_size body) timestamp ct_previous_gtids_log server_id 0.
Definition previous_view (offset timestamp server_id : Z) (body : list Z) : event_view :=
  created_view (previous_header offset timestamp server_id body) empty_post_header (previous_gtids_log_body body) true.

Lemma previous_size_spec body : previous_size body = 23 + Z.of_nat (length body).
Proof.
  unfold previous_size, created_size. cbn [post_header_bytes body_bytes length footer_encoded_size].
  unfold default_common_header_length, default_footer_length. lia.
Qed.

Lemma previous_header_ok offset timestamp server_id body :
  in_width 32 server_id → Z.of_nat (length body) < 2 ^ 31 →
  common_header_ok (previous_header offset timestamp server_id body).
Proof. intros Hid Hl. apply created_header_ok; [|done|done]. rewrite previous_size_spec. unfold in_width. lia. Qed.

Lemma generate_previous_gtids_ok buffer c offset now server_id gtids body :
  previous_gtids_body_of_set gtids = Ok body → Z.of_nat (length body) < 2 ^ 31 →
  reusable buffer → in_width 32 server_id → rc_footer_expected c = true →
  get_current_post_header_length c ct_previous_gtids_log = 0 →
  let v := previous_view offset now server_id body in
  generate_previous_gtids_log_event buffer c offset now server_id gtids = Ok (v, ev_portion v).
Proof.
  intros Hbody Hl Hbuf Hid Hf Hlen v. unfold generate_previous_gtids_log_event. rewrite Hbody. cbn [mbind result_bind].
  pose proof (previous_size_spec body) as Hs. unfold v, previous_view, previous_header, previous_size in *.
  apply generated_view; try done. lia.
Qed.

Lemma previous_gtids_accepted c now server_id body :
  let info := rc_expect_info_only_preamble_events c in let size := previous_size body in
  in_width 32 server_id → Z.of_nat (length body) < 2 ^ 31 → rc_state c = previous_gtids_expected →
  0 ≤ rc_position c → (info = false → rc_position c + size < 2 ^ 32) →
  ∀ offset, (info = false → offset = rc_position c) →
  ∃ c', process_event_view (previous_view offset now server_id body) c = Ok (c', info) ∧
    rc_state c' = gtid_log_expected ∧ same_server c c' ∧
    rc_position c' = (if info then rc_position c else rc_position c + size) ∧
    rc_cycle_number c' = rc_cycle_number c ∧ rc_binlog_name c' = rc_binlog_name c ∧
    rc_footer_expected c' = rc_footer_expected c ∧ rc_expect_info_only_preamble_events c' = info ∧
    rc_post_header_lengths c' = rc_post_header_lengths c ∧
    rc_expected_transaction_length c' = rc_expected_transaction_length c ∧
    rc_current_transaction_length c' = rc_current_transaction_length c.
Proof.
  intros info size Hid Hl Hst Hp Hmax offset Hoff. set (header := previous_header offset now server_id body).
  assert (get_common_header (previous_view offset now server_id body) = Ok header) as Hh
    by (by apply created_common_header, previous_header_ok).
  assert (ch_event_size header = size) as Hsize by reflexivity.
  assert (size = 23 + Z.of_nat (length body)) as Hs by apply previous_size_spec.
  exists (set_state gtid_log_expected (if info then c else set_position (rc_position c + size) c)). split.
  { apply process_dispatched. unfold dispatch. rewrite Hst. unfold process_event_in_previous_gtids_expected_state.
    rewrite Hh. cbn [mbind result_bind].
    assert (ch_type_code header = ct_previous_gtids_log) as -> by reflexivity.
    assert (is_artificial header = false) as -> by reflexivity. rewrite bool_decide_eq_true_2 by reflexivity.
    cbn [negb raise_if mbind result_bind]. fold info. destruct info; [reflexivity|]. cbn [negb].
    rewrite position_accepted; rewrite ?Hsize; [reflexivity | lia | done | by apply Hmax |].
    rewrite <-Hoff by done. unfold header, previous_header, create_with_offset. reflexivity. }
  destruct info eqn:Einfo; cbn [set_state set_position rc_position]; repeat apply conj; first [reflexivity | exact Einfo].
Qed.

(** *** The events together *)

(** [generate_preamble] without the storage: the events that start a file, each given to the
    context before the next one is generated *)
Definition file_start c (event_buffer : list Z) (now : rewrite_clock) (server_id : Z)
    (n : composite_binlog_name) (gtids : gtid_set) : result (reader_context * list (event_view * bool)) :=
  '(v1, event_buffer) ← generate_rotate_event event_buffer c 0 false 0 server_id true n;
  '(c, i1) ← process_event_view v1 c;
  '(v2, event_buffer) ← generate_format_description_event event_buffer c magic_binlog_offset
     (timestamp_created now) (timestamp_fde now) server_id;
  '(c, i2) ← process_event_view v2 c;
  let offset := u32 (magic_binlog_offset + u32 (Z.of_nat (get_total_size v2))) in
  '(v3, _) ← generate_previous_gtids_log_event event_buffer c offset (timestamp_previous now) server_id gtids;
  '(c, i3) ← process_event_view v3 c;
  Ok (c, [(v1, i1); (v2, i2); (v3, i3)]).

(** the same, after the ROTATE that ends the file before *)
Definition file_switch c (now : rewrite_clock) (position server_id : Z) (n : composite_binlog_name)
    (gtids : gtid_set) : result (reader_context * list (event_view * bool)) :=
  '(v0, event_buffer) ← generate_rotate_event [] c position true (timestamp_rotate now) server_id false n;
  '(c, i0) ← process_event_view v0 c;
  '(c, vs) ← file_start c event_buffer now server_id n gtids;
  Ok (c, (v0, i0) :: vs).

(** the server and the options a context needs *)
Definition rewriting c (server_id : Z) (n : composite_binlog_name) : Prop :=
  rc_replication_mode c = mode_gtid ∧ 0 ≤ rc_current_encoded_server_version c < 1000000 ∧
  rc_current_encoded_server_version c ≤ rc_connection_encoded_server_version c ∧
  get_current_post_header_length c ct_rotate = Z.of_nat rotate_post_header_size ∧
  in_width 32 server_id ∧ Z.of_nat (length (binlog_name_str n)) < 2 ^ 31.

Lemma after_rotate_fields name c :
  let info := (rc_cycle_number c =? 0) && bool_decide (name = rc_binlog_name c) &&
              (magic_binlog_offset <? rc_position c) in
  let c' := after_rotate name c in
  rc_state c' = format_description_expected ∧ rc_expect_info_only_preamble_events c' = info ∧
  rc_binlog_name c' = name ∧ same_server c c' ∧
  rc_position c' = (if bool_decide (name = rc_binlog_name c) then rc_position c else magic_binlog_offset).
Proof.
  unfold after_rotate. case_bool_decide as Hname; cbn [negb]; repeat apply conj; first [reflexivity | by symmetry].
Qed.

Lemma file_start_accepted c buffer now server_id n gtids body :
  let name := binlog_name_str n in
  let info := (rc_cycle_number c =? 0) && bool_decide (name = rc_binlog_name c) &&
              (magic_binlog_offset <? rc_position c) in
  rewriting c server_id n → reusable buffer → rc_state c = rotate_artificial_expected → 0 ≤ rc_position c →
  (name = rc_binlog_name c → info = false → rc_position c = magic_binlog_offset) →
  previous_gtids_body_of_set gtids = Ok body → Z.of_nat (length body) < 2 ^ 31 →
  ∃ c' v1 v2 v3, file_start c buffer now server_id n gtids = Ok (c', [(v1, true); (v2, info); (v3, info)]) ∧
    rc_state c' = gtid_log_expected ∧ same_server c c' ∧ rc_binlog_name c' = name ∧
    rc_position c' = (if info then rc_position c
                      else magic_binlog_offset + Z.of_nat (length (ev_portion v2 ++ ev_portion v3))).
Proof.
  intros name info (Hm & Hv & Hconn & Hrot & Hid & Hname) Hbuf Hst Hp0 Hpos Hbody Hl.
  destruct (after_rotate_fields name c) as (A1 & A2 & A3 & (A4 & A5 & A6) & A7). fold info in A2.
  assert (rc_position (after_rotate name c) = (if info then rc_position c else magic_binlog_offset)) as A8.
  { case_bool_decide as Heq; [|unfold info; by rewrite andb_false_r].
    rewrite A7. destruct info eqn:Einfo; [done|by apply Hpos]. }
  set (version := rc_current_encoded_server_version c) in *.
  set (created := timestamp_created now). pose proof (fde_size_spec version created Hv) as Hs2.
  pose proof (fde_size_small version) as Hsmall. pose proof (previous_size_spec body) as Hs3.
  pose proof (generate_rotate_ok buffer c 0 false 0 server_id true n Hbuf Hrot Hid Hname) as G1. cbv zeta iota in G1.
  pose proof (artificial_rotate_accepted c server_id (rc_footer_expected c) name Hst Hm Hid Hname) as P1.
  set (v1 := rotate_view 0 0 server_id true (rc_footer_expected c) name) in *.
  pose proof (generate_fde_ok (ev_portion v1) (after_rotate name c) magic_binlog_offset created (timestamp_fde now) server_id) as G2.
  cbv zeta in G2. rewrite A5 in G2. specialize (G2 (created_reusable _ _ _ _) Hid).
  destruct (fde_accepted (after_rotate name c) created (timestamp_fde now) server_id)
    as (c2 & P2 & B1 & (B2 & B3 & B4) & B5 & B6 & B7 & B8 & B9 & B10 & _);
    [by rewrite A5 | by rewrite A4, A5 | done | done | by rewrite A6 | intros Hi; rewrite A2 in Hi; by rewrite A8, Hi |].
  rewrite A5 in P2, B5, B10. rewrite A2 in P2, B5, B9. fold version in P2, B5, B10, G2.
  set (v2 := fde_view version magic_binlog_offset created (timestamp_fde now) server_id) in *.
  set (offset := u32 (magic_binlog_offset + u32 (Z.of_nat (get_total_size v2)))).
  assert (Z.of_nat (get_total_size v2) = fde_size version created) as Ht2 by apply length_created_view.
  assert (offset = magic_binlog_offset + fde_size version created) as Hoff.
  { unfold offset. rewrite Ht2, !wrap_small by (unfold in_width, magic_binlog_offset; try rewrite wrap_small; unfold in_width; lia). done. }
  destruct (hardcoded_lengths_ok version) as (_ & _ & _ & _ & _ & Hlen).
  pose proof (generate_previous_gtids_ok (ev_portion v2) c2 offset (timestamp_previous now) server_id gtids body Hbody Hl
    (created_reusable _ _ _ _) Hid B8) as G3. unfold get_current_post_header_length in G3. rewrite B3, A5, B10 in G3.
  fold version in G3. specialize (G3 Hlen). cbv zeta in G3.
  assert (rc_position c2 = (if info then rc_position c else offset)) as Hpos2
    by (rewrite B5, A8; by destruct info; [|rewrite Hoff]).
  pose proof (previous_gtids_accepted c2 (timestamp_previous now) server_id body) as P3. cbv zeta in P3.
  rewrite B9 in P3. specialize (P3 Hid Hl B1).
  assert (0 ≤ rc_position c2) as Hge by (rewrite Hpos2; destruct info; [done|rewrite Hoff, Hs2; unfold magic_binlog_offset; lia]).
  assert (info = false → rc_position c2 + previous_size body < 2 ^ 32) as Hlt
    by (rewrite Hpos2, Hoff, Hs2, Hs3; intros ->; unfold magic_binlog_offset; lia).
  specialize (P3 Hge Hlt offset). destruct P3 as (c3 & P3 & C1 & (C2 & C3 & C4) & C5 & C6 & C7 & _);
    [by intros Hi; rewrite Hpos2, Hi|].
  set (v3 := previous_view offset (timestamp_previous now) server_id body) in *.
  exists c3, v1, v2, v3. split.
  { unfold file_start. fold name in G1. fold v1 in G1. rewrite G1. cbn [mbind result_bind]. rewrite P1. cbn [mbind result_bind].
    fold created. rewrite G2. cbn [mbind result_bind]. rewrite P2. cbn [mbind result_bind]. fold offset. rewrite G3.
    cbn [mbind result_bind]. by rewrite P3. }
  repeat apply conj; [done | congruence | by rewrite C3, B3, A5 | congruence | congruence |].
  assert (Z.of_nat (get_total_size v3) = previous_size body) as Ht3 by apply length_created_view.
  unfold get_total_size in Ht2, Ht3. rewrite length_app, Nat2Z.inj_add, Ht2, Ht3, C5, Hpos2, Hoff. destruct info; [done|lia].
Qed.

(** C13: when the rewrite mode starts another file at the end of a transaction, the four events
    it makes up (ROTATE at the end of the current file, artificial ROTATE,
    FORMAT_DESCRIPTION, PREVIOUS_GTIDS_LOG) are well formed, the reader context accepts them
    one after the other, the artificial one only for information, and is then ready for the
    next transaction, in the new file and exactly after what the file starts with. *)
Theorem generated_preamble_accepted c now server_id n gtids body :
  rewriting c server_id n → rc_cycle_number c ≠ 0 →
  rc_state c = any_other_expected → rc_current_transaction_length c = rc_expected_transaction_length c →
  0 ≤ rc_position c → rc_position c + 31 + Z.of_nat (length (binlog_name_str n)) < 2 ^ 32 →
  previous_gtids_body_of_set gtids = Ok body → Z.of_nat (length body) < 2 ^ 31 →
  ∃ c' v0 v1 v2 v3,
    file_switch c now (rc_position c) server_id n gtids = Ok (c', [(v0, false); (v1, true); (v2, false); (v3, false)]) ∧
    rc_state c' = gtid_log_expected ∧ same_server c c' ∧ rc_binlog_name c' = binlog_name_str n ∧
    rc_position c' = magic_binlog_offset + Z.of_nat (length (ev_portion v2 ++ ev_portion v3)).
Proof.
  intros Hr Hcycle Hst Heq Hp Hmax Hbody Hl. pose proof Hr as (Hm & Hv & Hconn & Hrot & Hid & Hname).
  pose proof (generate_rotate_ok [] c (rc_position c) true (timestamp_rotate now) server_id false n
    (or_introl eq_refl) Hrot Hid Hname) as G0. cbv zeta iota in G0.
  destruct (end_rotate_accepted c (timestamp_rotate now) server_id (binlog_name_str n) Hst Heq Hid Hp Hmax Hname)
    as (c1 & P0 & A1 & A2 & A3 & A4 & A5 & A6 & A7).
  set (v0 := rotate_view (rc_position c) (timestamp_rotate now) server_id false (rc_footer_expected c) (binlog_name_str n)) in *.
  assert (rewriting c1 server_id n) as Hr1.
  { destruct A4 as (E1 & E2 & E3). unfold rewriting, get_current_post_header_length in *. by rewrite E1, E2, E3, A7. }
  destruct (file_start_accepted c1 (ev_portion v0) now server_id n gtids body)
    as (c' & v1 & v2 & v3 & Hs & B1 & B2 & B3 & B4); [done | apply created_reusable | done | by rewrite A2 | done | done | done |].
  cbv zeta in Hs, B4. assert (rc_cycle_number c1 =? 0 = false) as Hc1 by (rewrite A3; by apply Z.eqb_neq).
  rewrite Hc1 in Hs, B4. cbn [andb] in Hs, B4. exists c', v0, v1, v2, v3. split.
  { unfold file_switch. rewrite G0. cbn [mbind result_bind]. rewrite P0. cbn [mbind result_bind]. by rewrite Hs. }
  repeat apply conj; try done; destruct A4 as (E1 & E2 & E3), B2 as (F1 & F2 & F3); congruence.
Qed.
End preamble.

Module RewriteModeExamples.
Import IntervalList UuidModel StreamExamples RewriterExamples.

(** A transaction of two events with checksums, and a context in the middle of a local file. *)
Definition source_gtid_view : event_view :=
  mk_event_view (event_bytes 1700000001 ct_gtid_log 230 0
    (gtid_log_post_header_bytes (mk_gtid_log_post_header 1 sample_uuid 1 2 0 1) ++
     gtid_log_body_bytes (mk_gtid_log_body 1700000001000000 unset_commit_timestamp
       121 80045 unset_server_version unset_commit_group_ticket) ++ replicate 4 0)) 42 4.
Definition source_query_view : event_view :=
  mk_event_view (event_bytes 1700000001 ct_query 274 0 (replicate 21 7 ++ replicate 4 0)) 13 4.
Definition local_context : reader_context :=
  set_footer_expected true (set_cycle_number 1 (set_position 5000 before_transaction)).

Lemma transaction_rewritten_witness : ∃ c' g' es',
  rewrite_run 41 local_context [source_gtid_view; source_query_view] = Ok (c', g' :: es') ∧
  rc_transaction_sequence_number c' = 42 ∧ rc_position c' = 5000 + sizes (g' :: es').
Proof.
  destruct (transaction_rewritten 41 local_context source_gtid_view (header_of source_gtid_view) [source_query_view]
    (mk_gtid sample_uuid [] 1) 1 121) as (c' & g' & es' & Hr & _ & _ & _ & _ & Hs & Hp).
  - left. by vm_compute.
  - by vm_compute.
  - by vm_compute.
  - check_event.
  - by vm_compute.
  - intros ph Hph. vm_compute in Hph. injection Hph as <-. by vm_compute.
  - by vm_compute.
  - constructor; [|constructor]. exists (header_of source_query_view). split; [check_event|by vm_compute].
  - by vm_compute.
  - by vm_compute.
  - done.
  - done.
  - exists c', g', es'. split; [exact Hr | split; [exact Hs | exact Hp]].
Defined.

(** The local file is full: the next one is started. *)
Definition full_context : reader_context :=
  set_current_transaction_length 0 (set_expected_transaction_length 0 (set_state any_other_expected local_context)).
Definition next_file : composite_binlog_name := mk_binlog_name (text "local") 2.
Definition sample_rewrite_clock : rewrite_clock :=
  let at_0 := mk_clock 0 0 0 0 in
  mk_rewrite_clock 1700000003 at_0 at_0 1700000003 1700000003 at_0 1700000003 at_0.

Lemma generated_preamble_accepted_witness : ∃ c',
  (∃ vs, file_switch full_context sample_rewrite_clock 5000 7 next_file [] = Ok (c', vs) ∧ vs.*2 = [false; true; false; false]) ∧
  rc_state c' = gtid_log_expected ∧ rc_binlog_name c' = binlog_name_str next_file.
Proof.
  destruct (generated_preamble_accepted full_context sample_rewrite_clock 7 next_file [] (replicate 8 0))
    as (c' & v0 & v1 & v2 & v3 & Hf & Hs & _ & Hn & _).
  - repeat apply conj; by vm_compute.
  - done.
  - by vm_compute.
  - by vm_compute.
  - by vm_compute.
  - by vm_compute.
  - by vm_compute.
  - by vm_compute.
  - exists c'. split; [|split; [exact Hs | exact Hn]]. eexists. split; [exact Hf | reflexivity].
Defined.
End RewriteModeExamples.
