(* ===== verification/RewriteViews.v ===== *)
(** * The views of the rewrite mode

    What holds of every event that the rewrite mode processes, whatever it was received as:
    the events it generates and the rewritten ones are sequences of bytes with a header that
    says their size.  Also the tables of post header lengths a reader context can hold. *)

From stdpp Require Import gmap.
From S2P Require Import Prelude ByteSpan OrderedMap IntervalSet Gtid GtidSet GtidSetEncoding GtidSetText.
From S2P Require Import Util Protocol GtidLog GtidTaggedLog ReaderContext Rewriter Event Backend Metadata.
From S2P Require Import Storage StorageLog StorageDisk Commands App RewriteMode.

Local Open Scope Z_scope.

(** ** The post header lengths of a context *)
Section lengths.
Context `{BoostUuid} `{Zlib}.
Implicit Types (c : reader_context) (v : event_view).

(** the table that a server of the version sends: bytes, and the known lengths *)
Definition table_ok (version : Z) (l : list Z) : Prop :=
  bytes_ok l ∧ post_header_lengths_ok l ∧
  validate_post_header_lengths version l (get_known_post_header_lengths version) = Ok ().
Definition lengths_ok c : Prop :=
  table_ok (rc_current_encoded_server_version c) (rc_post_header_lengths c).

Lemma lengths_match_lookup l k i e :
  lengths_match l k = true → k !! i = Some e → e ≠ unspecified_encoded_length →
  (i < length l)%nat → l !! i = Some e.
Proof.
  revert k i. induction l as [|x l IH]; intros k i Hm Hk He Hi; [cbn in Hi; lia|].
  destruct k as [|y k]; [done|]. cbn [lengths_match] in Hm. apply andb_true_iff in Hm as [Hxy Hm].
  destruct i as [|i]; cbn in Hk |- *.
  - injection Hk as ->. unfold length_matches in Hxy. apply orb_true_iff in Hxy as [Hx | Hx]; to_prop; congruence.
  - apply (IH k); cbn in Hi; (done || lia).
Qed.

(** a known length is the one in the table *)
Lemma known_length version l code e :
  table_ok version l → 1 ≤ code_index code < Z.of_nat (get_number_of_events version) →
  get_known_post_header_lengths version !! Z.to_nat (code_index code - 1) = Some e →
  e ≠ unspecified_encoded_length → get_post_header_length_for_code version l code = e.
Proof.
  intros (_ & Hl & Hv) [Hc Hn] Hk He. unfold get_post_header_length_for_code, post_header_lengths_ok in *.
  destruct (Z.eqb_spec (code_index code) 0); [lia|].
  destruct (Z.leb_spec (Z.of_nat (get_number_of_events version)) (code_index code)); [lia|]. cbn [orb].
  unfold validate_post_header_lengths in Hv. apply raise_if_ok in Hv. apply negb_false_iff in Hv.
  set (i := Z.to_nat (code_index code - 1)) in *.
  assert ((i < get_number_of_events version)%nat) as Hi by (unfold i; lia).
  assert (get_number_of_events version ≤ 43)%nat by (destruct (number_of_events_cases version) as [-> | ->]; lia).
  change (max_number_of_events - 1)%nat with 42%nat in Hl.
  eapply (lengths_match_lookup _ _ i e) in Hv; [|by rewrite lookup_take_lt|done|rewrite length_take; unfold i in *; lia].
  rewrite lookup_take_lt in Hv by done. rewrite Hv. cbn [default id].
  by destruct (Z.eqb_spec e unspecified_encoded_length).
Qed.

Lemma table_ok_known version : table_ok version (get_known_post_header_lengths version).
Proof.
  unfold table_ok, get_known_post_header_lengths, validate_post_header_lengths, get_number_of_events.
  destruct (version <? latest_known_protocol_server_version);
    (split; [apply (bool_decide_unpack _)|split]; by vm_compute).
Qed.

Lemma parse_fde_lengths portion h :
  bytes_ok portion → parse_fde_post_header portion = Ok h →
  bytes_ok (fde_post_header_lengths h) ∧ post_header_lengths_ok (fde_post_header_lengths h).
Proof.
  intros Hb Hp. unfold parse_fde_post_header in Hp.
  apply result_bind_ok in Hp as ([] & _ & Hp). cbn [extract_fixed_int_from_byte_span extract_byte_span_from_byte_span] in Hp.
  apply result_bind_ok in Hp as (version & _ & Hp). apply result_bind_ok in Hp as ([] & Hl & Hp).
  apply raise_if_ok in Hl. to_prop. apply result_bind_ok in Hp as ([] & _ & [= <-]). cbn [fde_post_header_lengths].
  rewrite !drop_drop. split.
  - apply Forall_app_2; [by apply Forall_take, Forall_drop|]. apply Forall_drop, (bool_decide_unpack _). by vm_compute.
  - unfold post_header_lengths_ok. rewrite length_app, length_take, !length_drop, Hl.
    unfold fde_size_in_bytes, base_size_in_bytes, server_version_length. change (max_number_of_events - 1)%nat with 42%nat.
    destruct (number_of_events_cases version) as [-> | ->]; cbn [length]; lia.
Qed.

(** a context keeps a table of the version it knows *)
Lemma initial_lengths_ok version checksum mode name pos :
  lengths_ok (make_reader_context version checksum mode name pos).
Proof. apply table_ok_known. Qed.

Lemma same_lengths c c' :
  rc_current_encoded_server_version c' = rc_current_encoded_server_version c →
  rc_post_header_lengths c' = rc_post_header_lengths c → lengths_ok c → lengths_ok c'.
Proof. unfold lengths_ok. by intros -> ->. Qed.

Lemma format_description_lengths v i c r :
  process_event_in_format_description_expected_state v i c = Ok r → bytes_ok (ev_portion v) → lengths_ok r.1.1.
Proof.
  intros Hp Hb. unfold process_event_in_format_description_expected_state in Hp.
  apply result_bind_ok in Hp as (h & Hh & Hp). apply result_bind_ok in Hp as ([] & _ & Hp).
  apply result_bind_ok in Hp as ([] & _ & Hp). apply result_bind_ok in Hp as (ph & Hph & Hp).
  apply result_bind_ok in Hp as ([] & _ & Hp). apply result_bind_ok in Hp as ([] & _ & Hp).
  apply result_bind_ok in Hp as (version & _ & Hp). cbv zeta in Hp.
  apply result_bind_ok in Hp as ([] & _ & Hp). apply result_bind_ok in Hp as ([] & Hval & Hp).
  apply result_bind_ok in Hp as (alg & _ & Hp). apply result_bind_ok in Hp as ([] & _ & Hp).
  apply result_bind_ok in Hp as (c1 & Hadv & [= <-]). cbn [fst].
  apply parse_fde_lengths in Hph as [Hl1 Hl2]; [|by apply Forall_take, Forall_drop].
  set (c0 := set_footer_expected _ _) in Hadv.
  assert (lengths_ok c0) as Hc0 by (split; [done|split; done]).
  assert (lengths_ok c1) as Hc1; [|by eapply same_lengths].
  destruct (negb _); [|by injection Hadv as <-].
  apply validate_advance_ok in Hadv as [_ ->]. by eapply same_lengths.
Qed.

Lemma step_lengths_ok v c c' info :
  step v c c' info → bytes_ok (ev_portion v) → lengths_ok c → lengths_ok c'.
Proof.
  intros Hs Hb Hc.
  destruct Hs as [h c0 Hh Hcode Ha Hst|h c' i Hh Hcode Ha Hst Hpr|h c' i Hh Hcode Ha Hst Hpr|
    h c0 c1 Hh Hge Hst (c1' & Hs & c2 & Hadv & ->)|h c1 c2 Hh Hge Hcode Ha Hst Hu Hv|h c0 Hh Hcode Ha Hst Hv].
  - assert (lengths_ok c0) as H0'.
    { destruct Hst as [[_ ->]|[_ (c1 & [_ ->]%finish_transaction_ok & ->)]]; [done|by eapply same_lengths]. }
    unfold after_rotate. destruct (bool_decide _); by eapply same_lengths.
  - by apply format_description_lengths in Hpr.
  - destruct (previous_gtids_accepts _ _ _ _ Hpr) as (h' & c1 & _ & _ & _ & Hadv & [= -> ->]).
    destruct (rc_expect_info_only_preamble_events c); [by subst c1; eapply same_lengths|].
    apply validate_advance_ok in Hadv as [_ ->]. by eapply same_lengths.
  - assert (lengths_ok c0) as H0'.
    { destruct Hst as [[_ ->]|[_ (c1 & [_ ->]%finish_transaction_ok & ->)]]; [done|by eapply same_lengths]. }
    apply validate_advance_ok in Hadv as [_ ->]. unfold start_transaction in Hs.
    apply result_bind_ok in Hs as (? & _ & Hs). apply result_bind_ok in Hs as ([[g ?] ?] & _ & Hs).
    apply result_bind_ok in Hs as ([] & _ & [= <-]). destruct g; by eapply same_lengths.
  - unfold update_transaction in Hu. apply result_bind_ok in Hu as ([] & _ & [= <-]).
    apply validate_advance_ok in Hv as [_ ->]. by eapply same_lengths.
  - destruct Hst as [[_ ->]|[_ (c1 & [_ ->]%finish_transaction_ok & ->)]]; by eapply same_lengths.
Qed.

Lemma known_lengths c :
  lengths_ok c →
  get_current_post_header_length c ct_rotate = Z.of_nat rotate_post_header_size ∧
  get_current_post_header_length c ct_previous_gtids_log = 0 ∧
  (get_current_post_header_length c ct_gtid_tagged_log = 0 ∨
   get_current_post_header_length c ct_gtid_tagged_log = unspecified_post_header_length).
Proof.
  unfold lengths_ok, get_current_post_header_length. generalize (rc_current_encoded_server_version c).
  intros version Hok. split_and!.
  1, 2: eapply known_length; [exact Hok| | |]; unfold get_known_post_header_lengths, get_number_of_events;
    destruct (version <? latest_known_protocol_server_version); by vm_compute.
  unfold get_post_header_length_for_code. change (code_index ct_gtid_tagged_log =? 0) with false.
  destruct (Z.leb_spec (Z.of_nat (get_number_of_events version)) (code_index ct_gtid_tagged_log)); [by right|left].
  change (false || false) with false.
  pose proof (known_length version (rc_post_header_lengths c) ct_gtid_tagged_log 0 Hok) as Hk.
  unfold get_post_header_length_for_code in Hk. change (code_index ct_gtid_tagged_log =? 0) with false in Hk.
  destruct (Z.leb_spec (Z.of_nat (get_number_of_events version)) (code_index ct_gtid_tagged_log)); [lia|].
  apply Hk; [split; [by vm_compute|done]| |by vm_compute].
  unfold get_known_post_header_lengths, get_number_of_events in *.
  destruct (version <? latest_known_protocol_server_version); by vm_compute.
Qed.

(** what a view over received bytes satisfies *)
Lemma accepted_view_ok c portion v :
  make_event_view c portion = Ok v → bytes_ok portion → lengths_ok c →
  ev_portion v = portion ∧ view_ok v ∧
  ∃ h, get_common_header v = Ok h ∧ ch_event_size h = Z.of_nat (length portion) ∧
    (ch_type_code h = ct_gtid_tagged_log → ev_post_header_size v = 0%nat).
Proof.
  intros Hv Hb Hl. pose proof (known_lengths c Hl) as (_ & _ & Htag). destruct Hl as (Hlb & _).
  unfold make_event_view in Hv. apply result_bind_ok in Hv as ([] & Hlen & Hv).
  apply raise_if_ok in Hlen. to_prop. apply result_bind_ok in Hv as (h & Hh & Hv). cbv zeta in Hv.
  apply result_bind_ok in Hv as ([] & Hs & Hv). apply raise_if_ok in Hs. to_prop.
  apply result_bind_ok in Hv as (n & Hn & Hv). apply result_bind_ok in Hv as ([] & _ & [= <-]).
  split; [done|]. split.
  - unfold view_ok. cbn [ev_portion ev_post_header_size ev_footer_size].
    apply post_header_size_bound in Hn; [|done]. split; [done|]. split; [|done]. repeat case_match; auto.
  - exists h. split; [done|]. split; [done|]. intros Hcode. rewrite Hcode in Hn. unfold post_header_size_of in Hn.
    rewrite bool_decide_eq_false_2 in Hn by done.
    apply result_bind_ok in Hn as ([] & Hu & Hn). apply raise_if_ok in Hu.
    apply result_bind_ok in Hn as ([] & _ & [= <-]). cbn [ev_post_header_size].
    destruct Htag as [-> | Htag]; [done|]. by rewrite Htag, Z.eqb_refl in Hu.
Qed.
End lengths.

(** ** Rewritten events *)
Section rewritten.
Context `{BoostUuid} `{Zlib}.
Implicit Types (v : event_view) (h : common_header).

Lemma fix_numbers_inv last seq lc r : fix_sequence_number_and_last_committed last seq lc = Ok r → lc < seq.
Proof.
  unfold fix_sequence_number_and_last_committed. intros ([] & Hlt & _)%result_bind_ok. apply raise_if_ok in Hlt. by to_prop.
Qed.

(** with the old body, only the checksum can be new *)
Lemma relocated_size offset v v' h :
  received_ok v h → relocated offset v v' → get_body_raw v' = get_body_raw v →
  Z.of_nat (get_total_size v') ≤ Z.of_nat (get_total_size v) + 343.
Proof.
  intros (Hv & _) (Hv' & Hf & Hn & _) Hb. rewrite (view_size v Hv), (view_size v' Hv'), Hb, Hn, Hf.
  unfold default_footer_length. lia.
Qed.

(** the rewriting of a GTID event has checked what the lemmas about it need *)
Lemma rewrite_gtid_log_inv last v h buffer offset v' :
  received_ok v h → ch_type_code h = ct_gtid_log ∨ ch_type_code h = ct_anonymous_gtid_log →
  rewrite last v buffer offset = Ok v' →
  ∃ ph, parse_gtid_log_post_header (get_post_header_raw v) = Ok ph ∧ glh_get_last_committed ph < glh_get_sequence_number ph.
Proof.
  intros Hok Hcode Hr. pose proof Hok as (_ & Hh & _). unfold rewrite in Hr. rewrite Hh in Hr. cbn [mbind result_bind] in Hr.
  assert (generic_materialize v force_add_checksum (gtid_log_fixer last offset) = Ok v') as Hg
    by (destruct Hcode as [Hc | Hc]; by rewrite Hc in Hr).
  destruct (destination_relocated v h offset Hok) as (mode & ft & Hprep & _ & _ & Hrel).
  unfold generic_materialize in Hg. rewrite Hprep in Hg. apply result_bind_ok in Hg as (w & Hfix & _).
  unfold gtid_log_fixer in Hfix. rewrite Hrel in Hfix. cbn [mbind result_bind] in Hfix.
  rewrite parts_post_header in Hfix by apply length_common_header_bytes.
  apply result_bind_ok in Hfix as (ph' & Hp & Hfix). exists ph'. split; [done|].
  apply result_bind_ok in Hfix as ([q lc] & Hfix & _). by apply fix_numbers_inv in Hfix.
Qed.

Lemma rewrite_tagged_inv last v h buffer offset v' :
  received_ok v h → ch_type_code h = ct_gtid_tagged_log → rewrite last v buffer offset = Ok v' →
  ∃ b, parse_tagged_body (get_body_raw v) = Ok b ∧ Z.of_nat (get_total_size v) ≤ tb_transaction_length b ∧
    tb_get_last_committed b < tb_get_sequence_number b.
Proof.
  intros Hok Hcode Hr. pose proof Hok as (_ & Hh & _). unfold rewrite in Hr. rewrite Hh in Hr. cbn [mbind result_bind] in Hr.
  rewrite Hcode in Hr. unfold rewrite_gtid_tagged_log_internal in Hr.
  apply result_bind_ok in Hr as (b & Hb & Hr). cbv zeta in Hr. apply result_bind_ok in Hr as ([] & Hl & Hr).
  apply raise_if_ok in Hl. apply result_bind_ok in Hr as ([q lc] & Hfix & _).
  exists b. apply fix_numbers_inv in Hfix. to_prop. done.
Qed.

(** Whatever is rewritten, the result is a well-formed event for the new offset, hardly
    longer than the old one. *)
Lemma rewrite_result last v h buffer offset v' :
  received_ok v h → rewrite last v buffer offset = Ok v' → 0 ≤ last → last + 1 < 2 ^ 64 →
  (ch_type_code h = ct_gtid_tagged_log → ev_post_header_size v = 0%nat ∧
     ∀ b, parse_tagged_body (get_body_raw v) = Ok b → tb_transaction_length b < 2 ^ 63) →
  relocated offset v v' ∧ Z.of_nat (get_total_size v') ≤ Z.of_nat (get_total_size v) + 343.
Proof.
  intros Hok Hr Hla Hnext Htag. destruct (is_gtid_event (ch_type_code h)) eqn:Ec.
  - apply is_gtid_event_dec in Ec as [Hc | [Hc | Hc]].
    3: { destruct (Htag Hc) as [Hph Hlen]. destruct (rewrite_tagged_inv _ _ _ _ _ _ Hok Hc Hr) as (b & Hb & Hl & Hlt).
      destruct (renumber_gtid_tagged_ok last v h b buffer offset) as (w & b' & Hw & Hrel & _ & _ & _ & _ & Hs); try done.
      - split; [done|by apply Hlen].
      - rewrite Hr in Hw. injection Hw as <-. split; [done|lia]. }
    all: destruct (rewrite_gtid_log_inv _ _ _ _ _ _ Hok (ltac:(auto)) Hr) as (ph & Hp & Hlt);
      destruct (renumber_gtid_log_ok last v h ph buffer offset) as (w & ph' & Hw & Hrel & Hb & _); try done; [auto|];
      rewrite Hr in Hw; injection Hw as <-; (split; [done|]); by eapply relocated_size.
  - destruct (relocate_ok last v h buffer offset Hok Ec) as (w & Hw & Hrel & _ & Hb).
    rewrite Hr in Hw. injection Hw as <-. split; [done|]. by eapply relocated_size.
Qed.
End rewritten.

(** ** Generated events *)
Section generated.
Context `{IntervalSetLaws} `{BoostUuidLaws} `{Zlib}.
Implicit Types (c : reader_context) (v : event_view) (header : common_header).

(** bytes, with a header [h] that says how many *)
Definition well_formed v h : Prop :=
  bytes_ok (ev_portion v) ∧ get_common_header v = Ok h ∧ ch_event_size h = Z.of_nat (length (ev_portion v)).

Lemma common_header_bytes_ok header : bytes_ok (common_header_bytes header).
Proof. unfold common_header_bytes. repeat apply Forall_app_2; apply le_split_bytes. Qed.

Lemma created_bytes_ok header h b include :
  bytes_ok (post_header_bytes h) → bytes_ok (body_bytes b) → bytes_ok (ev_portion (created_view header h b include)).
Proof.
  intros Hh Hb. unfold created_view. cbn [from_parts ev_portion].
  apply Forall_app_2; [apply common_header_bytes_ok|]. apply Forall_app_2; [done|]. apply Forall_app_2; [done|].
  destruct include; [apply le_split_bytes|by constructor].
Qed.

Lemma created_well_formed offset timestamp code server_id flags h b include :
  let size := created_size h b include in
  let header := create_with_offset offset size timestamp code server_id flags in
  bytes_ok (post_header_bytes h) → bytes_ok (body_bytes b) → size < 2 ^ 32 →
  in_width 32 server_id → in_width 16 flags → well_formed (created_view header h b include) header.
Proof.
  intros size header Hh Hb Hs Hid Hf. pose proof (length_created_view header h b include) as Hl.
  assert (0 ≤ size) by (unfold size, created_size; destruct include; cbn [footer_encoded_size]; lia).
  split; [by apply created_bytes_ok|]. split; [by apply created_common_header, created_header_ok|].
  unfold get_total_size in Hl. by rewrite Hl.
Qed.

(** every view over the buffer of a well-formed event is well-formed *)
Lemma viewed_well_formed c v w header :
  well_formed v header → make_event_view c (ev_portion v) = Ok w → well_formed w header.
Proof.
  intros (Hb & Hh & Hs) Hw. apply make_event_view_inv in Hw as (Hp & h & Hh' & _).
  unfold well_formed, get_common_header, get_common_header_raw in *. by rewrite Hp.
Qed.

Lemma rotate_well_formed offset timestamp server_id artificial include name :
  bytes_ok name → in_width 32 server_id → Z.of_nat (length name) < 2 ^ 31 →
  well_formed (rotate_view offset timestamp server_id artificial include name)
    (rotate_header offset timestamp server_id artificial include name).
Proof.
  intros Hn Hid Hl. unfold rotate_view, rotate_header.
  apply created_well_formed; try done; [apply le_split_bytes| |by destruct artificial].
  rewrite rotate_size. destruct include; cbn [footer_encoded_size]; unfold default_footer_length; lia.
Qed.

Lemma version_string_bytes (v : semantic_version) : version_ok v → bytes_ok (version_string v).
Proof.
  assert (Forall (λ x, bytes_ok (to_string x)) (seqZ 0 256)) as Hall by (apply (bool_decide_unpack _); by vm_compute).
  rewrite Forall_forall in Hall.
  assert (∀ x, in_width 8 x → bytes_ok (to_string x)) as Hx by (intros x [??]; apply Hall, elem_of_seqZ; cbn in *; lia).
  intros (Ha & Hb & Hc). unfold version_string.
  assert (0 ≤ version_delimiter < 256) by (by vm_compute).
  repeat first [apply Forall_app_2 | apply Forall_cons_2]; auto.
Qed.

Lemma fde_bytes_bytes version created n : bytes_ok (fde_bytes (fde_of version created) n).
Proof.
  unfold fde_bytes, fde_of, make_fde_post_header.
  cbn [fde_binlog_version fde_server_version fde_create_timestamp fde_common_header_length fde_post_header_lengths].
  repeat apply Forall_app_2; try apply le_split_bytes.
  - apply Forall_take, version_string_bytes, version_of_encoded_ok.
  - apply Forall_replicate. split; [done|by vm_compute].
  - apply Forall_take. set (w := get_encoded _).
    unfold get_hardcoded_post_header_lengths. destruct (w <? latest_known_protocol_server_version);
      apply (bool_decide_unpack _); by vm_compute.
Qed.

Lemma fde_well_formed version offset created timestamp server_id :
  in_width 32 server_id →
  well_formed (fde_view version offset created timestamp server_id) (fde_header version offset created timestamp server_id).
Proof.
  intros Hid. pose proof (fde_size_bound version created) as Hs.
  pose proof (proj1 (proj2 (fde_of_ok version created))) as Hp.
  refine (created_well_formed offset timestamp ct_format_description server_id 0
    (format_description_post_header (fde_of version created)) (format_description_body checksum_crc32) true _ _ _ Hid _);
    [cbn [post_header_bytes]; rewrite Hp; apply fde_bytes_bytes| | |by split].
  - cbn [body_bytes]. by repeat constructor.
  - fold (fde_size version created). lia.
Qed.

Lemma previous_well_formed offset timestamp server_id body :
  bytes_ok body → in_width 32 server_id → Z.of_nat (length body) < 2 ^ 31 →
  well_formed (previous_view offset timestamp server_id body) (previous_header offset timestamp server_id body).
Proof.
  intros Hb Hid Hl. pose proof (previous_size_spec body) as Hs. unfold previous_view, previous_header, previous_size in *.
  apply created_well_formed; try done. lia.
Qed.

(** what the context makes of the last event, when it expects no checksum *)
Lemma generate_previous_gtids_inv buffer c offset now server_id gtids body v b :
  generate_previous_gtids_log_event buffer c offset now server_id gtids = Ok (v, b) →
  previous_gtids_body_of_set gtids = Ok body → bytes_ok body → Z.of_nat (length body) < 2 ^ 31 →
  reusable buffer → in_width 32 server_id →
  well_formed v (previous_header offset now server_id body) ∧
  Z.of_nat (length (ev_portion v)) = 23 + Z.of_nat (length body).
Proof.
  intros Hg Hbody Hb Hl Hbuf Hid. pose proof (previous_size_spec body) as Hs.
  unfold generate_previous_gtids_log_event in Hg. rewrite Hbody in Hg. cbn [mbind result_bind] in Hg.
  rewrite create_event_ok in Hg; try done; [|unfold previous_size in Hs; lia].
  cbn [mbind result_bind] in Hg. apply result_bind_ok in Hg as (w & Hw & [= -> _]).
  fold (previous_size body) (previous_header offset now server_id body) in Hw.
  fold (previous_view offset now server_id body) in Hw.
  pose proof (viewed_well_formed _ _ _ _ (previous_well_formed offset now server_id body Hb Hid Hl) Hw) as Hwf.
  split; [done|]. apply make_event_view_inv in Hw as [Hp _]. rewrite Hp.
  pose proof (length_created_view (previous_header offset now server_id body) empty_post_header
    (previous_gtids_log_body body) true) as Ht. unfold get_total_size in Ht. fold (previous_size body) in Ht.
  unfold previous_view. by rewrite Ht.
Qed.

(** the GTIDs a file starts with *)
Lemma mjoin_bytes_ok {A} (f : A → list Z) (l : list A) : Forall (λ x, bytes_ok (f x)) l → bytes_ok (mjoin (f <$> l)).
Proof. induction 1 as [|x l Hx _ IH]; [by constructor|]. by apply Forall_app_2. Qed.

Lemma encoded_bytes_ok (S : gtid_set) : keys_ok S → bytes_ok (encoded S).
Proof.
  intros Hk%entries_ok. unfold encoded, GtidSetEncoding.body_bytes. apply Forall_app_2; [apply le_split_bytes|].
  apply mjoin_bytes_ok. eapply Forall_impl; [exact Hk|]. intros [[u m] [t g]] (Hu & Ht & _). cbn [fst snd] in *.
  unfold tsid_bytes. cbn [fst snd]. apply Forall_app_2; [apply Hu|]. apply Forall_app_2.
  { destruct (contains_tags S); [|by constructor]. unfold tag_bytes.
    apply Forall_app_2; [apply varlen_bytes_bytes|by apply tag_ok_bytes]. }
  apply Forall_app_2; [apply le_split_bytes|]. apply mjoin_bytes_ok, Forall_true. intros [x y].
  apply Forall_app_2; apply le_split_bytes.
Qed.

Lemma entries_bound (S : gtid_set) : keys_ok S → Z.of_nat (length (entries S)) ≤ Z.of_nat (length (encoded S)).
Proof.
  intros Hk%entries_ok. unfold encoded, GtidSetEncoding.body_bytes. rewrite length_app.
  generalize (contains_tags S). intros tagged. enough (length (entries S) ≤
    length (mjoin ((λ e, tsid_bytes tagged e.1.1 e.2) <$> entries S)))%nat by lia.
  induction Hk as [|[[u m] [t g]] l (Hu & _) _ IH]; [done|].
  change (mjoin _) with (tsid_bytes tagged u (t, g) ++ mjoin ((λ e, tsid_bytes tagged e.1.1 e.2) <$> l)).
  assert (1 ≤ length (tsid_bytes tagged u (t, g)))%nat.
  { cbn [fst] in Hu. unfold tsid_bytes. rewrite length_app, (proj1 Hu). unfold uuid_length. lia. }
  rewrite length_app. cbn [length]. lia.
Qed.

Lemma previous_gtids_body (S : gtid_set) :
  gtid_set_ok S → calculate_encoded_size S < 2 ^ 31 →
  ∃ body, previous_gtids_body_of_set S = Ok body ∧ bytes_ok body ∧ Z.of_nat (length body) = calculate_encoded_size S.
Proof.
  intros [_ Hk%text_ok_keys] Hs. rewrite calculate_encoded_size_spec in * by done. pose proof (entries_bound S Hk).
  exists (encoded S). split; [|split; [by apply encoded_bytes_ok|done]].
  unfold previous_gtids_body_of_set. rewrite calculate_encoded_size_spec, Nat2Z.id by done.
  rewrite encode_to_ok; [|done| | |].
  - cbn [mbind result_bind]. by rewrite write_bytes_exact by (by rewrite length_replicate).
  - unfold tsid_count_ok. lia.
  - unfold span_ok. cbn. lia.
  - unfold span_size, span_of. cbn. rewrite length_replicate. lia.
Qed.
End generated.
