(* ===== verification/Logging.v ===== *)
(** * The log

    Models the loggers (src/src/binsrv/basic_logger.{hpp,cpp}, cout_logger, file_logger,
    logger_factory) and what app.cpp writes to them about the configuration, the storage and
    the events: every line that is not about a single event.

    The n-th line that is written carries the time stamp [timestamp_at n].  A log is the
    list of its lines: of the console, or of the file. *)

From stdpp Require Import gmap.
From S2P Require Import Prelude ByteSpan OrderedMap IntervalSet Gtid GtidSet GtidSetEncoding GtidSetText.
From S2P Require Import Util Protocol ReaderContext Backend Metadata Storage Connection Config.

Local Open Scope Z_scope.

Inductive log_sink := log_to_cout | log_to_file (file_name : list Z).
Record logger := mk_logger { log_sink_of : log_sink; log_min_level : log_severity; log_lines : list (list Z) }.

(** the order of the enumerators *)
Definition log_severity_index (level : log_severity) : Z :=
  match level with
  | sev_trace => 0 | sev_debug => 1 | sev_info => 2 | sev_warning => 3 | sev_error => 4
  | sev_fatal => 5 | sev_delimiter => 6
  end.

Definition set_min_level (level : log_severity) (l : logger) : logger :=
  mk_logger (log_sink_of l) level (log_lines l).

(** [logger_factory::create]: [can_create] says whether a file of this name can be opened *)
Definition create_logger (can_create : list Z → bool) (config : logger_config) : result logger :=
  if negb (has_file config) then Ok (mk_logger log_to_cout (lg_level config) [])
  else if can_create (lg_file config) then Ok (mk_logger (log_to_file (lg_file config)) (lg_level config) [])
  else Err (runtime_error "unable to create file for logging").

Definition padded_label_length : Z := 7.

Section log.
Context (timestamp_at : nat → list Z).

(** [basic_logger::log] *)
Definition log (level : log_severity) (message : list Z) (l : logger) : logger :=
  if log_severity_index (log_min_level l) <=? log_severity_index level then
    let timestamp := timestamp_at (length (log_lines l)) in
    let level_label := log_severity_to_string level in
    let label_padding := replicate (Z.to_nat (u64 (padded_label_length - Z.of_nat (length level_label)))) 32 in
    let buf := text "[" ++ timestamp ++ text "] [" ++ label_padding ++ level_label ++ text "] " ++ message in
    mk_logger (log_sink_of l) (log_min_level l) (log_lines l ++ [buf])
  else l.

(** ** The configuration *)
Definition bool_to_log_string (value : bool) : list Z := if value then text "true" else text "false".

Definition log_config_param (value : option (list Z)) (label : string) (l : logger) : logger :=
  match value with
  | Some log_string => log sev_info (text label ++ text ": " ++ log_string) l
  | None => l
  end.

Definition log_ssl_config_info (c : ssl_config) (l : logger) : logger :=
  let l := log_config_param (Some (ssl_mode_to_string (ssl_mode c))) "SSL mode" l in
  let l := log_config_param (ssl_ca c) "SSL ca" l in
  let l := log_config_param (ssl_capath c) "SSL capath" l in
  let l := log_config_param (ssl_crl c) "SSL crl" l in
  let l := log_config_param (ssl_crlpath c) "SSL crlpath" l in
  let l := log_config_param (ssl_cert c) "SSL cert" l in
  let l := log_config_param (ssl_key c) "SSL key" l in
  log_config_param (ssl_cipher c) "SSL cipher" l.

Definition log_tls_config_info (c : tls_config) (l : logger) : logger :=
  let l := log_config_param (tls_ciphersuites c) "TLS ciphersuites" l in
  log_config_param (tls_version c) "TLS version" l.

Definition log_connection_config_info (c : connection_config) (l : logger) : logger :=
  let l := log sev_info (text "mysql connection string: " ++ get_connection_string c) l in
  let l := log_config_param (Some (to_string (cc_connect_timeout c))) "mysql connect timeout (seconds)" l in
  let l := log_config_param (Some (to_string (cc_read_timeout c))) "mysql read timeout (seconds)" l in
  let l := log_config_param (Some (to_string (cc_write_timeout c))) "mysql write timeout (seconds)" l in
  let l := match cc_ssl c with Some ssl => log_ssl_config_info ssl l | None => l end in
  match cc_tls c with Some tls => log_tls_config_info tls l | None => l end.

Definition log_rewrite_config_info (c : rewrite_section) (l : logger) : logger :=
  let l := log_config_param (Some (rs_base_file_name c)) "rewrite base binlog file name" l in
  log_config_param (Some (size_unit_description (rs_file_size c))) "rewrite binlog file size" l.

Definition log_replication_config_info (c : replication_config) (l : logger) : logger :=
  let l := log_config_param (Some (to_string (rp_server_id c))) "mysql replication server id" l in
  let l := log_config_param (Some (to_string (rp_idle_time c))) "mysql replication idle time (seconds)" l in
  let l := log_config_param (Some (bool_to_log_string (rp_verify_checksum c)))
             "mysql replication checksum verification" l in
  let l := log_config_param (Some (replication_mode_to_string (rp_mode c))) "mysql replication mode" l in
  match rp_rewrite c with Some rewrite => log_rewrite_config_info rewrite l | None => l end.

(** [masked_uri]: [storage_config::get_masked_uri], made with boost::urls *)
Definition log_storage_config_info (masked_uri : list Z → list Z) (c : storage_config) (l : logger) : logger :=
  let l := log_config_param (Some (storage_backend_to_string (sc_backend c))) "binlog storage backend type" l in
  let l := log sev_info (text "binlog storage backend URI (masked): " ++ masked_uri (sc_uri c)) l in
  let l := log_config_param (sc_fs_buffer_directory c) "binlog storage backend filesystem buffer directory" l in
  let l := log_config_param (size_unit_description <$> sc_checkpoint_size c)
             "binlog storage backend checkpointing size" l in
  log_config_param (time_unit_description <$> sc_checkpoint_interval c)
    "binlog storage backend checkpointing interval" l.

(** ** The storage *)
Section storage.
Context `{StorageBackend B} `{IntervalSet} `{BoostUuid}.
Implicit Types s : storage (B := B).

Definition log_storage_info (backend_description : list Z) s (l : logger) : logger :=
  let l := log sev_info (text "created binlog storage with the following backend: " ++ backend_description) l in
  let l := log sev_info (text "binlog storage initialized in " ++
             replication_mode_to_string (st_replication_mode s) ++ text " mode") l in
  log sev_info
    (if storage_is_empty s then text "binlog storage initialized on an empty directory"
     else text "binlog storage initialized at " ++ [34] ++ binlog_name_str (get_current_binlog_name s) ++
          [34] ++ text ":" ++ to_string (get_current_position s)) l.

Definition log_replication_info (server_id : Z) s (verify_checksum : bool)
    (blocking_mode : connection_replication_mode_type) (l : logger) : logger :=
  let l := log sev_info (text "switched to replication (checksum " ++
             (if verify_checksum then text "enabled" else text "disabled") ++ text ", " ++
             replication_mode_to_string (st_replication_mode s) ++ text " mode)") l in
  log sev_info (text "replication info (server id " ++ to_string server_id ++ text ", " ++
    (match blocking_mode with blocking => text "blocking" | non_blocking => text "non-blocking" end) ++
    text ", starting from " ++
    (match st_replication_mode s with
     | mode_position =>
         if storage_is_empty s then text "the very beginning"
         else binlog_name_str (get_current_binlog_name s) ++ text ":" ++ to_string (get_current_position s)
     | mode_gtid =>
         let gtids := get_gtids s in
         (if GtidSet.is_empty gtids then text "an empty" else text "the " ++ str gtids) ++ text " GTID set"
     end) ++ text ")") l.
End storage.

(** ** The connection *)
Definition log_library_info (readable_client_version : list Z) (l : logger) : logger :=
  log sev_info (text "mysql client version: " ++ readable_client_version) l.

(** what the connection says when it has been made *)
Definition log_connection_info {W} `{MysqlClient W} (wc : W * connection) (l : logger) : result logger :=
  version ← (get_readable_server_version wc).2;
  protocol ← (get_protocol_version wc).2;
  info ← (get_server_connection_info wc).2;
  character_set ← (get_character_set_name wc).2;
  let l := log sev_info (text "mysql server version: " ++ version) l in
  let l := log sev_info (text "mysql protocol version: " ++ to_string protocol) l in
  let l := log sev_info (text "mysql server connection info: " ++ info) l in
  Ok (log sev_info (text "mysql connection character set: " ++ character_set) l).

(** ** Events *)
Definition bytes_per_dump_line : nat := 16.

(** [std::ctype_base::print] in the classic locale *)
Definition isprint (c : Z) : bool := (32 <=? c) && (c <=? 126).

Definition dump_line (sub : list Z) : list Z :=
  text "[" ++ mjoin ((λ b, 32 :: hex_pair b) <$> sub) ++
  replicate ((bytes_per_dump_line - length sub) * 3) 32 ++ text " ] " ++
  ((λ b, if isprint b then b else 46) <$> sub).

(** the loop over the offsets, on what is left of the portion *)
Fixpoint dump_lines (fuel : nat) (portion : list Z) : list (list Z) :=
  match fuel, portion with
  | _, [] | O, _ => []
  | S fuel, _ => dump_line (take bytes_per_dump_line portion) :: dump_lines fuel (drop bytes_per_dump_line portion)
  end.

Definition log_span_dump (portion : list Z) (l : logger) : logger :=
  let l := log sev_debug (text "fetched " ++ to_string (Z.of_nat (length portion)) ++
             text "-byte(s) event from binlog") l in
  foldl (λ l line, log sev_trace line l) l (dump_lines (length portion) portion).
End log.

(** ** What can be read from a log *)

(** the severity column is 7 characters wide: no label is longer *)
Lemma padded_label level :
  Z.to_nat (u64 (padded_label_length - Z.of_nat (length (log_severity_to_string level)))) =
    (7 - length (log_severity_to_string level))%nat ∧ (length (log_severity_to_string level) ≤ 7)%nat.
Proof. destruct level; (split; [by vm_compute|cbn; lia]). Qed.

(** the bytes of a dumped line, from its hexadecimal part *)
Definition hex_value (c : Z) : Z := if c <? 97 then c - 48 else c - 87.
Fixpoint read_hex (l : list Z) : list Z :=
  match l with
  | sep :: a :: b :: rest =>
      if (a =? 32) || (a =? 93) then [] else (hex_value a * 16 + hex_value b) :: read_hex rest
  | _ => []
  end.
Definition read_dump_line (line : list Z) : list Z := read_hex (drop 1 line).

Lemma mjoin_cons {A} (x : list A) l : mjoin (x :: l) = x ++ mjoin l.
Proof. done. Qed.

Lemma hex_digit_value v : 0 ≤ v < 16 → hex_value (hex_digit v) = v ∧ hex_digit v ≠ 32 ∧ hex_digit v ≠ 93.
Proof.
  intros Hv. unfold hex_digit, hex_value. destruct (Z.ltb_spec v 10);
    [destruct (Z.ltb_spec (48 + v) 97)|destruct (Z.ltb_spec (87 + v) 97)]; lia.
Qed.

Lemma read_hex_bytes sub rest :
  bytes_ok sub → read_hex rest = [] → read_hex (mjoin ((λ b, 32 :: hex_pair b) <$> sub) ++ rest) = sub.
Proof.
  intros Hb Hr. induction Hb as [|b sub Hb _ IH]; [done|].
  unfold in_width in Hb. change (2 ^ 8) with 256 in Hb. rewrite fmap_cons, mjoin_cons. unfold hex_pair at 1.
  cbn [app]. destruct (hex_digit_value (b / 16)) as (Hh & H1 & H2); [dlia|].
  destruct (hex_digit_value (b mod 16)) as (Hl & _ & _); [dlia|]. cbn [read_hex].
  destruct (Z.eqb_spec (hex_digit (b / 16)) 32); [done|]. destruct (Z.eqb_spec (hex_digit (b / 16)) 93); [done|].
  cbn [orb]. rewrite Hh, Hl, IH. f_equal. dlia.
Qed.

Lemma dump_line_read sub : bytes_ok sub → (length sub ≤ bytes_per_dump_line)%nat → read_dump_line (dump_line sub) = sub.
Proof.
  intros Hb Hl. unfold read_dump_line, dump_line. cbn [text app drop]. apply read_hex_bytes; [done|].
  destruct ((bytes_per_dump_line - length sub) * 3)%nat as [|[|[|n]]] eqn:E; [done|lia|lia|done].
Qed.

Lemma length_dump_line sub :
  (length sub ≤ bytes_per_dump_line)%nat → length (dump_line sub) = (52 + length sub)%nat.
Proof.
  intros Hl. unfold dump_line. rewrite !length_app, length_replicate, length_fmap.
  assert (length (mjoin ((λ b, 32 :: hex_pair b) <$> sub)) = (3 * length sub)%nat) as ->.
  { clear. induction sub as [|b sub IH]; [done|]. rewrite fmap_cons, mjoin_cons, length_app, IH. cbn. lia. }
  unfold bytes_per_dump_line in *. cbn [text length]. lia.
Qed.

Lemma dump_lines_read fuel portion :
  bytes_ok portion → (length portion ≤ fuel)%nat → mjoin (read_dump_line <$> dump_lines fuel portion) = portion.
Proof.
  revert portion. induction fuel as [|fuel IH]; intros portion Hb Hf; [by destruct portion; [|cbn in Hf; lia]|].
  destruct portion as [|b portion]; [done|]. cbn [dump_lines]. rewrite fmap_cons, mjoin_cons.
  rewrite dump_line_read, IH; [apply take_drop| | | |].
  - by apply Forall_drop.
  - rewrite length_drop. cbn [length] in *. unfold bytes_per_dump_line. lia.
  - by apply Forall_take.
  - rewrite length_take. lia.
Qed.

Lemma dump_lines_width fuel portion line :
  line ∈ dump_lines fuel portion → (52 < length line ≤ 68)%nat.
Proof.
  revert portion. induction fuel as [|fuel IH]; intros portion Hin; [by destruct portion; apply not_elem_of_nil in Hin|].
  destruct portion as [|b portion]; [by apply not_elem_of_nil in Hin|]. cbn [dump_lines] in Hin.
  apply elem_of_cons in Hin as [->|Hin]; [|by eapply IH]. rewrite length_dump_line; rewrite length_take; cbn [length];
    unfold bytes_per_dump_line; lia.
Qed.

Section readable.
Context (timestamp_at : nat → list Z).

(** the text of a line after its time stamp and level *)
Definition line_of (n : nat) (level : log_severity) (message : list Z) : list Z :=
  text "[" ++ timestamp_at n ++ text "] [" ++ replicate (7 - length (log_severity_to_string level)) 32 ++
  log_severity_to_string level ++ text "] " ++ message.

Lemma log_lines_shown level message l :
  log_severity_index (log_min_level l) ≤ log_severity_index level →
  log timestamp_at level message l =
    mk_logger (log_sink_of l) (log_min_level l) (log_lines l ++ [line_of (length (log_lines l)) level message]).
Proof.
  intros Hl. unfold log. rewrite (proj2 (Z.leb_le _ _) Hl). by rewrite (proj1 (padded_label level)).
Qed.
Lemma log_lines_hidden level message l :
  log_severity_index level < log_severity_index (log_min_level l) → log timestamp_at level message l = l.
Proof. intros Hl. unfold log. destruct (Z.leb_spec (log_severity_index (log_min_level l)) (log_severity_index level)); [lia|done]. Qed.

Lemma log_all_shown level lines l :
  log_severity_index (log_min_level l) ≤ log_severity_index level →
  foldl (λ l line, log timestamp_at level line l) l lines =
    mk_logger (log_sink_of l) (log_min_level l)
      (log_lines l ++ imap (λ i line, line_of (length (log_lines l) + i) level line) lines).
Proof.
  revert l. induction lines as [|line lines IH]; intros l Hl; cbn [foldl imap].
  { rewrite app_nil_r. by destruct l. }
  rewrite log_lines_shown, IH by done. cbn [log_sink_of log_min_level log_lines]. f_equal.
  rewrite <-app_assoc. cbn [app]. rewrite Nat.add_0_r. do 2 f_equal. apply imap_ext. intros i x _.
  unfold compose. rewrite length_app. cbn [length]. f_equal. lia.
Qed.

(** C30: an event can be recovered from the log: at the trace level, the dump of a portion is
    one line that says its size and then lines of at most 68 characters after the level, 16
    bytes a line, and the hexadecimal columns of these lines, read one after the other, are
    the portion, whatever its bytes are.  At the levels above debug nothing is written. *)
Theorem span_dump_recovers portion l :
  bytes_ok portion →
  if log_severity_index (log_min_level l) <=? log_severity_index sev_trace then
    ∃ lines, log_lines (log_span_dump timestamp_at portion l) =
        log_lines l ++ line_of (length (log_lines l)) sev_debug
          (text "fetched " ++ to_string (Z.of_nat (length portion)) ++ text "-byte(s) event from binlog") ::
        imap (λ i line, line_of (S (length (log_lines l)) + i) sev_trace line) lines ∧
      mjoin (read_dump_line <$> lines) = portion ∧ Forall (λ line, (length line ≤ 68)%nat) lines
  else log_severity_index sev_debug <? log_severity_index (log_min_level l) = true →
    log_span_dump timestamp_at portion l = l.
Proof.
  intros Hb. destruct (Z.leb_spec (log_severity_index (log_min_level l)) (log_severity_index sev_trace)) as [Ht|Ht].
  - assert (log_severity_index (log_min_level l) ≤ log_severity_index sev_debug) as Hd by (cbn in *; lia).
    exists (dump_lines (length portion) portion). split; [|split; [by apply dump_lines_read|]].
    + unfold log_span_dump. rewrite log_lines_shown by done. rewrite log_all_shown by done.
      cbn [log_lines]. rewrite <-app_assoc. cbn [app]. do 2 f_equal. apply imap_ext. intros i x _.
      rewrite length_app. cbn [length]. f_equal. lia.
    + apply Forall_forall. intros line Hin. by apply dump_lines_width in Hin as [_ ?].
  - intros Hd%Z.ltb_lt. unfold log_span_dump. rewrite log_lines_hidden by done.
    generalize (dump_lines (length portion) portion) as lines. induction lines as [|line lines IH]; [done|].
    cbn [foldl]. rewrite log_lines_hidden by (cbn in *; lia). exact IH.
Qed.

(** the password of the database user is never logged: what is written about the
    configuration of the connection is the same for any two passwords, but for the case of
    an empty one. *)
Theorem password_not_logged c password l :
  password ≠ [] → cc_password c ≠ [] →
  log_connection_config_info timestamp_at
    (mk_connection_config (cc_host c) (cc_port c) (cc_dns_srv_name c) (cc_user c) password (cc_connect_timeout c)
       (cc_read_timeout c) (cc_write_timeout c) (cc_ssl c) (cc_tls c)) l =
  log_connection_config_info timestamp_at c l.
Proof.
  intros Hp Hc. unfold log_connection_config_info. cbn [cc_connect_timeout cc_read_timeout cc_write_timeout cc_ssl cc_tls].
  assert (∀ c', cc_host c' = cc_host c → cc_port c' = cc_port c → cc_dns_srv_name c' = cc_dns_srv_name c →
    cc_user c' = cc_user c → cc_password c' ≠ [] → get_connection_string c' = get_connection_string c) as Hs.
  { intros c' Hh Hpo Hd Hu Hpw. unfold get_connection_string, has_dns_srv_name, has_password.
    rewrite Hh, Hpo, Hd, Hu. by rewrite (bool_decide_false (cc_password c' = [])), (bool_decide_false (cc_password c = [])) by done. }
  by rewrite Hs.
Qed.
End readable.

Module LoggingExamples.
Definition no_clock (n : nat) : list Z := text "T".
Definition tracing : logger := mk_logger log_to_cout sev_trace [].
Definition some_bytes : list Z := [0; 72; 105; 255; 16; 127; 32; 1; 2; 3; 4; 5; 6; 7; 8; 9; 65; 66].

Example dumped :
  log_lines (log_span_dump no_clock some_bytes tracing) =
  [text "[T] [  debug] fetched 18-byte(s) event from binlog";
   text "[T] [  trace] [ 00 48 69 ff 10 7f 20 01 02 03 04 05 06 07 08 09 ] .Hi... .........";
   text "[T] [  trace] [ 41 42                                           ] AB"].
Proof. by vm_compute. Qed.

Lemma span_dump_recovers_witness :
  ∃ lines, log_lines (log_span_dump no_clock some_bytes tracing) =
      [] ++ line_of no_clock 0 sev_debug
        (text "fetched " ++ to_string (Z.of_nat (length some_bytes)) ++ text "-byte(s) event from binlog") ::
      imap (λ i line, line_of no_clock (1 + i) sev_trace line) lines ∧
    mjoin (read_dump_line <$> lines) = some_bytes ∧ Forall (λ line, (length line ≤ 68)%nat) lines.
Proof.
  assert (bytes_ok some_bytes) as Hb by (apply (bool_decide_unpack _); by vm_compute).
  exact (span_dump_recovers no_clock some_bytes tracing Hb).
Defined.

Lemma password_not_logged_witness :
  text "other" ≠ [] ∧
  log_connection_config_info no_clock
    (mk_connection_config (Some (text "localhost")) (Some 3306) None (text "repl") (text "other") 20 60 60
       (cc_ssl ScriptedClient.sample_config) None) tracing =
  log_connection_config_info no_clock ScriptedClient.sample_config tracing.
Proof.
  split; [done|]. apply (password_not_logged no_clock ScriptedClient.sample_config (text "other") tracing); done.
Defined.
End LoggingExamples.
