(* ===== verification/Program.v ===== *)
(** * The whole program

    The states the program of src/src/app.cpp goes through while it is connected, in both
    modes of the loop, over any number of connections, restarts and purges: the reader
    context and the storage agree. *)

From stdpp Require Import gmap.
From S2P Require Import Prelude ByteSpan OrderedMap IntervalSet Gtid GtidSet GtidSetEncoding GtidSetText.
From S2P Require Import Util Protocol GtidLog GtidTaggedLog ReaderContext Rewriter Event Backend Metadata.
From S2P Require Import Storage StorageLog StorageDisk Commands.
From S2P Require Import App RewriteMode RewriteViews.

Local Open Scope Z_scope.

(** ** Where the storage is *)
Section ends.
Context `{StorageBackendLaws B} `{IntervalSetLaws} `{BoostUuidLaws} `{BoostPosixTimeLaws} `{BoostJsonLaws}.
Implicit Types (s : storage (B := B)) (n : composite_binlog_name).

(** the end of the current file once the buffer is written *)
Definition end_of s : Z := get_flushed_position s + Z.of_nat (length (st_event_buffer s)).
Definition same_file s s' : Prop :=
  get_current_binlog_name s' = get_current_binlog_name s ∧
  st_replication_mode s' = st_replication_mode s.

Lemma flushed_nonneg s : streaming_inv s → 0 ≤ get_flushed_position s.
Proof.
  intros (_ & _ & _ & _ & Hm). unfold get_flushed_position, get_current_binlog_record.
  destruct (last (st_records s)) as [r|] eqn:E; [|done]. apply last_split in E as [l E]. rewrite E in Hm.
  apply Forall_app in Hm as [_ Hm]. rewrite Forall_singleton in Hm. unfold magic_binlog_offset in Hm. lia.
Qed.

Lemma current_position_end s : streaming_inv s → end_of s < 2 ^ 64 → get_current_position s = end_of s.
Proof. intros Hi%flushed_nonneg Hlt. apply wrap_small. unfold in_width, end_of in *. lia. Qed.

Lemma nonempty_end s r : streaming_inv s → last (st_records s) = Some r → magic_binlog_offset ≤ end_of s.
Proof.
  intros (_ & _ & _ & _ & Hm) Hl. unfold end_of, get_flushed_position, get_current_binlog_record. rewrite Hl.
  apply last_split in Hl as [l E]. rewrite E in Hm.
  apply Forall_app in Hm as [_ Hm]. rewrite Forall_singleton in Hm. lia.
Qed.

Lemma flush_end s s' :
  flush_event_buffer_internal s = (s', Ok ()) → is_binlog_open s = true → streaming_inv s →
  same_file s s' ∧ end_of s' = end_of s ∧ is_binlog_open s' = true.
Proof.
  intros Hf Hopen Hi. destruct (streaming_appending s Hi Hopen) as (records & r & c & Hrec & Ha & _ & Hsz & Hlen).
  destruct Hi as (_ & (Hb & _) & _).
  destruct (flush_internal_inv _ _ _ _ _ Hf Ha) as (bb & -> & Hbo & _).
  destruct (flushed_state_members bb s) as (Hbk & _ & Hrec' & _ & _ & Hbuf & _).
  unfold same_file, end_of, get_current_binlog_name, get_flushed_position, get_current_binlog_record, is_binlog_open.
  rewrite Hbk, Hrec', Hbuf, Hrec, update_last_snoc, !last_snoc. cbn. split_and!; [done| | |done].
  - unfold flushed_state. by destruct (is_in_gtid_replication_mode s).
  - rewrite length_drop, wrap_small by (unfold in_width; lia). lia.
Qed.

Lemma write_end now data boundary g ts q s s' :
  write_event now data boundary g ts q s = (s', Ok ()) → event_ok s data g ts q →
  is_binlog_open s = true → streaming_inv s →
  same_file s s' ∧ end_of s' = end_of s + Z.of_nat (length data) ∧ is_binlog_open s' = true.
Proof.
  intros Hw He Hopen Hi. pose proof Hi as [Hmode [Hmem _]]. unfold write_event in Hw.
  rewrite (action_bind_eq _ _ _ _ _ (streaming_ok _ Hmode)) in Hw.
  apply action_bind_ok in Hw as (s1 & [] & Hb & Hw).
  destruct (buffer_event_preserves _ _ _ _ _ _ _ _ Hb He Hopen Hi) as [Hi1 Hopen1].
  destruct (buffer_event_members _ _ _ _ _ _ _ _ Hb He Hmem) as (_ & Hbuf & _ & Hbk & Hrec & Hrm).
  assert (same_file s s1 ∧ end_of s1 = end_of s + Z.of_nat (length data)) as [[Hn Hm] Hend].
  { unfold same_file, end_of, get_current_binlog_name, get_flushed_position, get_current_binlog_record.
    rewrite Hrec, Hbuf, length_app. split; [done|lia]. }
  rewrite gets_bind in Hw. destruct (has_event_data_to_flush s1); [|by injection Hw as <-].
  rewrite !gets_bind in Hw. destruct (needs_flush now s1); [|by injection Hw as <-].
  apply action_bind_ok in Hw as (s2 & [] & Hf & Hw). rewrite modify_bind in Hw. injection Hw as <-.
  destruct (flush_end _ _ Hf Hopen1 Hi1) as ([Hn2 Hm2] & He2 & Ho2).
  split_and!; [split; cbn|cbn|done]; [by rewrite <-Hn|by rewrite <-Hm|by rewrite <-Hend].
Qed.

Lemma flush_buffer_end s s' :
  flush_event_buffer s = (s', Ok ()) → is_binlog_open s = true → streaming_inv s →
  same_file s s' ∧ end_of s' = end_of s ∧ is_binlog_open s' = true.
Proof.
  intros Hf Hopen Hi. pose proof Hi as [Hmode _]. unfold flush_event_buffer in Hf.
  rewrite (action_bind_eq _ _ _ _ _ (streaming_ok _ Hmode)), gets_bind in Hf.
  destruct (has_event_data_to_flush s); [by eapply flush_end|]. by injection Hf as <-.
Qed.

Lemma discard_end s s' :
  discard_incomplete_transaction_events s = (s', Ok ()) → streaming_inv s →
  same_file s s' ∧ end_of s' ≤ end_of s ∧ is_binlog_open s' = is_binlog_open s.
Proof.
  intros Hd Hi. pose proof Hi as [Hmode _]. unfold discard_incomplete_transaction_events in Hd.
  rewrite (action_bind_eq _ _ _ _ _ (streaming_ok _ Hmode)), !modify_bind in Hd. injection Hd as <-.
  split_and!; try done. unfold end_of. cbn. rewrite length_take.
  change (get_flushed_position _) with (get_flushed_position s) at 1. lia.
Qed.

Lemma close_end now s s' :
  close_binlog now s = (s', Ok ()) → is_binlog_open s = true → streaming_inv s →
  same_file s s' ∧ end_of s' ≤ end_of s ∧ is_binlog_open s' = false.
Proof.
  intros Hc Hopen Hi. pose proof Hi as [Hmode _]. unfold close_binlog in Hc.
  rewrite (action_bind_eq _ _ _ _ _ (streaming_ok _ Hmode)) in Hc.
  apply action_bind_ok in Hc as (s1 & [] & Hf & Hc).
  destruct (flush_event_buffer_preserves _ _ Hf Hopen Hi) as (Hi1 & _ & Hopen1).
  destruct (flush_buffer_end _ _ Hf Hopen Hi) as ([Hn1 Hm1] & He1 & _).
  rewrite modify_bind in Hc. apply action_bind_ok in Hc as (s2 & [] & Hcl & Hc).
  destruct (streaming_appending s1 Hi1 Hopen1) as (records & r & c & _ & (_ & _ & _ & _ & Hs & _) & _).
  destruct (close_stream_inv _ _ _ _ Hcl Hopen1 Hs) as (_ & bb & -> & Hbb & _).
  assert (st_replication_mode s' = st_replication_mode s1) as Hm.
  { unfold update_last_checkpoint_info in Hc. rewrite modify_bind in Hc. unfold modify in Hc. injection Hc as <-.
    repeat case_match; done. }
  apply checkpoint_info_members in Hc as (_ & Hbk & Hrec & Hbuf).
  unfold same_file, end_of, get_current_binlog_name, get_flushed_position, get_current_binlog_record, is_binlog_open in *.
  rewrite Hbk, Hrec, Hbuf. cbn. split_and!; [done|congruence| |done]. lia.
Qed.

Lemma open_end now n s s' status :
  open_binlog now n s = (s', Ok status) → binlog_name_ok n → is_binlog_open s = false → streaming_inv s →
  get_current_binlog_name s' = n ∧ st_replication_mode s' = st_replication_mode s ∧ is_binlog_open s' = true ∧
  (n = get_current_binlog_name s ∧ end_of s' = end_of s ∨
   n ≠ get_current_binlog_name s ∧ end_of s' = magic_binlog_offset).
Proof.
  intros Hop Hn Hclosed Hi. destruct (open_binlog_guards _ _ _ _ _ Hop Hi) as (Hcur & s1 & offset & s2 & Ho & Hin & Hup).
  assert (st_replication_mode s' = st_replication_mode s2) as Hm.
  { unfold update_last_checkpoint_info in Hup. rewrite modify_bind in Hup. unfold modify in Hup. injection Hup as <-.
    repeat case_match; done. }
  apply checkpoint_info_members in Hup as (_ & Hbk & Hrec & Hbuf).
  pose proof Hi as (_ & _ & Hso & Hd & Hmagic). unfold stream_ok in Hso. rewrite Hclosed in Hso.
  destruct Hso as [Hs Hbuf0].
  destruct (open_stream_inv _ _ _ _ _ Ho) as (bb & -> & Hb & Hst & Hint & Hobj & _ & Hoff); [by apply binlog_name_str_ok|done|done|].
  unfold end_of, get_current_binlog_name, get_flushed_position, get_current_binlog_record, is_binlog_open, is_stream_open in *.
  destruct (bool_decide (n ∈ br_name <$> st_records s)) eqn:Ex; to_prop.
  - specialize (Hcur eq_refl). apply action_bind_ok in Hin as (s3 & st & Hex & Hin).
    destruct (last (st_records s)) as [r|] eqn:El.
    2: { apply last_None in El. rewrite El in Ex. by apply not_elem_of_nil in Ex. }
    destruct (last_split _ _ El) as [l Hl]. pose proof Hd as (_ & _ & Hstd & _). rewrite Hl in Hstd, Hmagic.
    apply Forall_app in Hstd as [_ Hstd], Hmagic as [_ Hmg]. rewrite Forall_singleton in Hstd, Hmg.
    destruct Hstd as [_ (c & Hc & Hsz)]. subst n. rewrite Hc in Hoff. cbn in Hoff. subst offset.
    apply open_existing_inv in Hex as [-> _]; [|by rewrite <-Hsz].
    assert (last (st_records (set_backend bb s)) = Some r) as El' by done.
    rewrite (action_bind_eq _ _ _ _ _ (current_record_last _ _ El')), !modify_bind in Hin. injection Hin as <- _.
    rewrite Hbk, Hrec, Hbuf, Hm. cbn. rewrite El. split_and!; try done. by left.
  - apply action_bind_ok in Hin as (s3 & st & Hnew & Hin). rewrite !modify_bind in Hin. injection Hin as <- _.
    destruct (open_new_inv _ _ _ _ Hnew Hn) as (_ & bb2 & -> & Hb2 & _ & _);
      [done|done|cbn; rewrite Hobj; apply lookup_insert_eq|done|].
    rewrite Hbk, Hrec, Hbuf, Hm. cbn. rewrite last_snoc. cbn. rewrite Hbuf0. split_and!; try done. right.
    split; [|done]. destruct (last (st_records s)) as [r|] eqn:El.
    + intros ->. apply Ex. apply list_elem_of_fmap. exists r. split; [done|].
      apply last_split in El as [l ->]. apply elem_of_app. right. by left.
    + intros ->. by destruct Hn.
Qed.
End ends.

(** ** The context and the storage agree *)
Section agreement.
Context `{StorageBackendLaws B} `{IntervalSetLaws} `{BoostUuidLaws} `{BoostPosixTimeLaws} `{BoostJsonLaws} `{Zlib}.
Implicit Types (s : storage (B := B)) (a : application (B := B)) (c : reader_context) (v : event_view).

(** The context of a new connection is at the end of the current file.  After that, when a
    file is being received it is open in the storage, and the position of the context is its
    end, with what is buffered; between two files none is open. *)
Definition agree c s : Prop :=
  rc_replication_mode c = st_replication_mode s ∧ end_of s < 2 ^ 32 ∧ 0 ≤ rc_cycle_number c ∧
  rc_binlog_name c = binlog_name_str (get_current_binlog_name s) ∧
  if is_fresh c then
    rc_state c = rotate_artificial_expected ∧ rc_position c = Z.max magic_binlog_offset (end_of s)
  else if bool_decide (rc_state c = rotate_artificial_expected) then
    is_binlog_open s = false ∧ rc_position c = magic_binlog_offset
  else is_binlog_open s = true ∧ rc_position c = end_of s.

(** what the server sends: bytes, files of less than 4 GiB, and an artificial ROTATE that is
    not the first event of the connection only to another file *)
Definition packet_ok a (portion : list Z) : Prop :=
  bytes_ok portion ∧ end_of (app_storage a) + Z.of_nat (length portion) < 2 ^ 32 ∧
  rc_cycle_number (app_context a) < 2 ^ 64 - 1 ∧
  ∀ v, make_event_view (app_context a) portion = Ok v → label_of v = (ct_rotate, true) →
    10 ∉ get_body_raw v ∧
    (is_fresh (app_context a) = false → get_body_raw v ≠ rc_binlog_name (app_context a)).

Lemma current_name_ok s :
  streaming_inv s → get_current_binlog_name s = empty_binlog_name ∨ binlog_name_ok (get_current_binlog_name s).
Proof.
  intros (_ & _ & _ & (_ & Hok & _) & _). unfold get_current_binlog_name, get_current_binlog_record.
  destruct (last (st_records s)) as [r|] eqn:E; [|by left]. apply last_split in E as [l E]. rewrite E in Hok.
  apply Forall_app in Hok as [_ Hok]. rewrite Forall_singleton in Hok. right. apply Hok.
Qed.

Lemma current_name_inj s n :
  streaming_inv s → binlog_name_ok n → binlog_name_str n = binlog_name_str (get_current_binlog_name s) →
  n = get_current_binlog_name s.
Proof.
  intros Hi Hn Heq. destruct (current_name_ok s Hi) as [Hc|Hc]; [|by apply binlog_name_str_inj].
  exfalso. rewrite Hc in Heq. apply binlog_name_parse_str in Hn. rewrite Heq in Hn. by vm_compute in Hn.
Qed.

Lemma rotate_storage now v s s' :
  process_artificial_rotate_event now v s = (s', Ok ()) → storage_reachable s → 10 ∉ get_body_raw v →
  storage_reachable s' ∧ is_binlog_open s' = true ∧ st_replication_mode s' = st_replication_mode s ∧
  get_body_raw v = binlog_name_str (get_current_binlog_name s') ∧
  (get_current_binlog_name s' = get_current_binlog_name s ∧ end_of s' = end_of s ∨
   get_current_binlog_name s' ≠ get_current_binlog_name s ∧ end_of s' = magic_binlog_offset).
Proof.
  intros Hp Hr Hnl. pose proof (reachable_inv s Hr) as Hi. unfold process_artificial_rotate_event in Hp.
  unfold parse_rotate_body, get_parsed_binlog in Hp. rewrite gets_bind in Hp.
  apply action_bind_ok in Hp as (s1 & needed & Hn & Hp).
  assert (∀ n s0, binlog_name_parse (get_body_raw v) = Ok n → storage_reachable s0 → is_binlog_open s0 = false →
    same_file s s0 → (n = get_current_binlog_name s → end_of s0 = end_of s) → ∀ status, open_binlog (now_open now) n s0 = (s', Ok status) →
    storage_reachable s' ∧ is_binlog_open s' = true ∧ st_replication_mode s' = st_replication_mode s ∧
    get_body_raw v = binlog_name_str (get_current_binlog_name s') ∧
    (get_current_binlog_name s' = get_current_binlog_name s ∧ end_of s' = end_of s ∨
     get_current_binlog_name s' ≠ get_current_binlog_name s ∧ end_of s' = magic_binlog_offset)) as Hopen.
  { intros n s0 Hpn Hr0 Hc0 [Hn0 Hm0] He0 status Hop. apply binlog_name_parse_inv in Hpn as [Hbody Hok].
    assert (10 ∉ bn_base_name n) as Hb.
    { intros Hin. apply Hnl. rewrite Hbody, binlog_name_str_padded. set_solver. }
    destruct (open_end _ _ _ _ _ Hop Hok Hc0 (reachable_inv _ Hr0)) as (Hn' & Hm' & Ho' & He').
    split_and!; [|done|congruence|by rewrite Hn'|].
    - eapply reach_step; [exact Hr0|]. by eapply step_open.
    - rewrite Hn', <-Hn0. destruct He' as [[Heq He']|[Hne He']]; [left|by right].
      split; [done|]. rewrite He'. apply He0. congruence. }
  destruct (is_binlog_open s) eqn:Eo.
  - apply action_bind_ok in Hn as (s2 & n & [= <- Hpn] & Hn). rewrite gets_bind in Hn.
    destruct (bool_decide (n = get_current_binlog_name s)) eqn:En; to_prop.
    + rewrite gets_bind in Hn. apply action_bind_ok in Hn as (s2 & [] & Hchk & Hn). injection Hn as <- <-.
      injection Hp as <-. assert (s2 = s) as ->.
      { destruct (bool_decide _); [|by injection Hchk as <-].
        apply action_bind_ok in Hchk as (s3 & p & [= <- _] & Hchk). rewrite gets_bind in Hchk.
        by apply throw_if_inv in Hchk as [-> _]. }
      apply binlog_name_parse_inv in Hpn as [Hbody _]. split_and!; try done; [by rewrite Hbody, En|]. by left.
    + apply action_bind_ok in Hn as (s2 & [] & Hcl & Hn). injection Hn as <- <-.
      destruct (close_end _ _ _ Hcl Eo Hi) as (Hsf & _ & Hc2).
      apply action_bind_ok in Hp as (s3 & n' & [= <- Hpn'] & Hp). rewrite Hpn in Hpn'. injection Hpn' as <-.
      apply action_bind_ok in Hp as (s4 & status & Hop & Hp). injection Hp as <-.
      eapply (Hopen n s2); [done| |done|done|done|exact Hop]. eapply reach_step; [exact Hr|]. by eapply step_close.
  - injection Hn as <- <-. apply action_bind_ok in Hp as (s3 & n & [= <- Hpn] & Hp).
    apply action_bind_ok in Hp as (s4 & status & Hop & Hp). injection Hp as <-.
    by eapply (Hopen n s).
Qed.

(** an event that is not an artificial ROTATE keeps the file *)
Lemma step_keeps v c c' info :
  step v c c' info → label_of v ≠ (ct_rotate, true) →
  rc_binlog_name c' = rc_binlog_name c ∧ rc_replication_mode c' = rc_replication_mode c ∧
  rc_cycle_number c' = rc_cycle_number c ∧ rc_state c ≠ rotate_artificial_expected ∧
  (rc_state c' = rotate_artificial_expected ↔ is_end_event (code_of v) = true) ∧
  (info = true → is_end_event (code_of v) = false ∧ rc_position c' = rc_position c).
Proof.
  intros Hs Hl. unfold code_of, label_of in *.
  destruct Hs as [h c0 Hh Hcode Ha Hst|h c' i Hh Hcode Ha Hst Hpr|h c' i Hh Hcode Ha Hst Hpr|
    h c0 c1 Hh Hge Hst (c1' & Hs & c2 & Hadv & ->)|h c1 c2 Hh Hge Hcode Ha Hst Hu Hv|h c0 Hh Hcode Ha Hst Hv];
    rewrite Hh in *; cbn [fst] in *.
  - by rewrite Hcode, Ha in Hl.
  - destruct (format_description_accepts _ _ _ _ Hpr) as (h' & ? & ? & ? & c1 & _ & _ & _ & _ & _ & Hadv & [= -> ->]).
    rewrite Hcode, Hst. assert (rc_binlog_name c1 = rc_binlog_name c ∧ rc_replication_mode c1 = rc_replication_mode c ∧
      rc_cycle_number c1 = rc_cycle_number c ∧
      (rc_expect_info_only_preamble_events c = true → rc_position c1 = rc_position c)) as (? & ? & ? & ?).
    { destruct (rc_expect_info_only_preamble_events c); [by subst c1|]. by apply validate_advance_ok in Hadv as [_ ->]. }
    do 4 (split; [done|]). split; [cbn; split; [by destruct (_ && _)|done]|]. intros Hi. split; [done|by auto].
  - destruct (previous_gtids_accepts _ _ _ _ Hpr) as (h' & c1 & _ & _ & _ & Hadv & [= -> ->]).
    rewrite Hcode, Hst. assert (rc_binlog_name c1 = rc_binlog_name c ∧ rc_replication_mode c1 = rc_replication_mode c ∧
      rc_cycle_number c1 = rc_cycle_number c ∧
      (rc_expect_info_only_preamble_events c = true → rc_position c1 = rc_position c)) as (? & ? & ? & ?).
    { destruct (rc_expect_info_only_preamble_events c); [by subst c1|]. by apply validate_advance_ok in Hadv as [_ ->]. }
    do 4 (split; [done|]). split; [done|]. intros Hi. split; [done|by auto].
  - assert (is_end_event (ch_type_code h) = false) as -> by (by destruct (ch_type_code h)).
    apply validate_advance_ok in Hadv as [_ ->]. unfold start_transaction in Hs.
    apply result_bind_ok in Hs as (? & _ & Hs). apply result_bind_ok in Hs as ([[g ?] ?] & _ & Hs).
    apply result_bind_ok in Hs as ([] & _ & [= <-]).
    assert (rc_binlog_name c0 = rc_binlog_name c ∧ rc_replication_mode c0 = rc_replication_mode c ∧
      rc_cycle_number c0 = rc_cycle_number c ∧ rc_state c ≠ rotate_artificial_expected) as (? & ? & ? & ?).
    { destruct Hst as [[Hst ->]|[Hst (c3 & [_ ->]%finish_transaction_ok & ->)]]; (split_and!; [done..|by rewrite Hst]). }
    destruct g; split_and!; done.
  - assert (is_end_event (ch_type_code h) = false) as ->.
    { rewrite !not_elem_of_cons in Hcode. destruct Hcode as (? & ? & _). by destruct (ch_type_code h). }
    unfold update_transaction in Hu. apply result_bind_ok in Hu as ([] & _ & [= <-]).
    apply validate_advance_ok in Hv as [_ ->]. cbn. rewrite Hst. split_and!; done.
  - assert (is_end_event (ch_type_code h) = true) as -> by (by destruct Hcode as [-> | ->]).
    assert (rc_binlog_name c0 = rc_binlog_name c ∧ rc_replication_mode c0 = rc_replication_mode c ∧
      rc_cycle_number c0 = rc_cycle_number c ∧ rc_state c ≠ rotate_artificial_expected) as (? & ? & ? & ?).
    { destruct Hst as [[Hst ->]|[Hst (c3 & [_ ->]%finish_transaction_ok & ->)]];
        [by rewrite Hst|split_and!; [done..|by destruct Hst as [-> | ->]]]. }
    split_and!; done.
Qed.

(** the storage part of an event, after the context has accepted it *)
Lemma process_event_storage now v a a' :
  process_binlog_event now v a = (a', Ok ()) →
  ∃ h c' info s', get_common_header v = Ok h ∧ process_event_view v (app_context a) = Ok (c', info) ∧
    a' = mk_app c' s' ∧
    if bool_decide (label_of v = (ct_rotate, true)) then
      info = true ∧ process_artificial_rotate_event now v (app_storage a) = (s', Ok ())
    else
      ∃ s1, (if info then s1 = app_storage a else
        write_event (now_write now) (ev_portion v) (is_at_transaction_boundary c') (rc_transaction_gtid c')
          (ch_timestamp h) (rc_transaction_sequence_number c') (app_storage a) = (s1, Ok ())) ∧
      if is_end_event (code_of v) then close_binlog (now_close now) s1 = (s', Ok ()) else s' = s1.
Proof.
  intros Hp. unfold process_binlog_event in Hp. apply action_bind_ok in Hp as (a0 & h & [= <- Hh] & Hp).
  apply action_bind_ok in Hp as (a1 & info & Hadv & Hp). unfold advance_context in Hadv.
  destruct (process_event_view v (app_context a)) as [[c' i]|e] eqn:Ep; [|done]. injection Hadv as <- <-.
  apply action_bind_ok in Hp as (a2 & [] & Hrot & Hp). rewrite gets_bind in Hp.
  apply action_bind_ok in Hp as (a3 & [] & Hw & Hp).
  assert (label_of v = (ch_type_code h, is_artificial h)) as Hl by (unfold label_of; by rewrite Hh).
  assert (code_of v = ch_type_code h) as Hc by (unfold code_of; by rewrite Hl).
  rewrite Hl, Hc.
  destruct (bool_decide (ch_type_code h = ct_rotate) && is_artificial h) eqn:Er.
  - apply andb_true_iff in Er as [Er Ea]. to_prop.
    rewrite Er, Ea in *. cbn [negb] in Hp.
    rewrite andb_false_r, orb_false_l, (bool_decide_eq_false_2 (ct_rotate = ct_stop)) in Hp by done. injection Hp as <-.
    assert (i = true) as ->.
    { apply process_step in Ep. unfold label_of in Hl. destruct Ep as [? ? Hh' Hcd|? ? ? Hh' Hcd Ha|? ? ? Hh' Hcd Ha|? ? ? Hh' Hg|? ? ? Hh' Hg Hcd Ha|? ? Hh' Hcd Ha];
        rewrite Hh in Hh'; injection Hh' as <-; try congruence. by rewrite Er in Hg. }
    cbn in Hw. injection Hw as <-. unfold on_storage, on_member in Hrot.
    destruct (process_artificial_rotate_event now v _) as [s' x] eqn:Es. injection Hrot as <- ->.
    exists h, c', true, s'. rewrite bool_decide_true by done. done.
  - cbn in Hrot. injection Hrot as <-. cbn [app_context app_storage set_app_context] in *.
    rewrite bool_decide_false.
    2: { intros [= Hcode Ha]. by rewrite Hcode, Ha in Er. }
    exists h, c', i.
    assert (∃ s1, a3 = mk_app c' s1 ∧ (if i then s1 = app_storage a else
      write_event (now_write now) (ev_portion v) (is_at_transaction_boundary c') (rc_transaction_gtid c')
        (ch_timestamp h) (rc_transaction_sequence_number c') (app_storage a) = (s1, Ok ()))) as (s1 & -> & Hs1).
    { destruct i; cbn in Hw; [injection Hw as <-; by eexists|]. unfold on_storage, on_member in Hw. cbn in Hw.
      destruct (write_event _ _ _ _ _ _ _) as [s1 x]. injection Hw as <- ->. by exists s1. }
    assert ((bool_decide (ch_type_code h = ct_rotate) && negb (is_artificial h)) || bool_decide (ch_type_code h = ct_stop)
      = is_end_event (ch_type_code h)) as Hend.
    { destruct (ch_type_code h); try done. change (is_artificial h = false) in Er. by rewrite Er. }
    rewrite Hend in Hp. destruct (is_end_event (ch_type_code h)).
    + unfold on_storage, on_member in Hp. cbn in Hp. destruct (process_rotate_or_stop_event now s1) as [s' x] eqn:Es.
      injection Hp as <- ->. exists s'. split_and!; try done. by exists s1.
    + injection Hp as <-. exists s1. split_and!; try done. by exists s1.
Qed.

Definition app_inv a : Prop :=
  storage_reachable (app_storage a) ∧ context_ok (app_context a) ∧ lengths_ok (app_context a) ∧
  agree (app_context a) (app_storage a).

(** an artificial ROTATE: to the current file after a reconnection, or to another file *)
Lemma rotate_agrees now v c c' info s s' :
  step v c c' info → label_of v = (ct_rotate, true) → agree c s → storage_reachable s →
  rc_cycle_number c < 2 ^ 64 - 1 → 10 ∉ get_body_raw v →
  (is_fresh c = false → get_body_raw v ≠ rc_binlog_name c) →
  process_artificial_rotate_event now v s = (s', Ok ()) →
  storage_reachable s' ∧ rc_cycle_number c' = rc_cycle_number c + 1 ∧ agree c' s'.
Proof.
  intros Hs Hl (Hmode & Hend & Hcyc & Hname & Hag) Hr Hmax Hnl Hother Hp.
  destruct (rotate_storage _ _ _ _ Hp Hr Hnl) as (Hr' & Hopen' & Hmode' & Hbody & Hcases). split; [done|].
  assert (∃ c0, c' = after_rotate (get_body_raw v) c0 ∧ rc_binlog_name c0 = rc_binlog_name c ∧
    rc_replication_mode c0 = rc_replication_mode c ∧ rc_cycle_number c0 = rc_cycle_number c ∧
    (is_fresh c = true → rc_position c0 = rc_position c)) as (c0 & -> & Hn0 & Hm0 & Hc0 & Hp0).
  { unfold label_of in Hl. destruct Hs as [h c0 Hh Hcode Ha Hst|h c' i Hh Hcode|h c' i Hh Hcode|h c0 c1 Hh Hge|h c1 c2 Hh Hge Hcode Ha|h c0 Hh Hcode Ha];
      rewrite Hh in Hl; injection Hl as Hl1 Hl2; try congruence; [|by rewrite Hl1 in Hge].
    exists c0. split; [done|]. destruct Hst as [[_ ->]|[Hst (c1 & [_ ->]%finish_transaction_ok & ->)]]; [done|].
    split_and!; try done. intros Hf. rewrite Hf in Hag. destruct Hag as [Hag _]. rewrite Hag in Hst. by destruct Hst. }
  assert (rc_cycle_number (after_rotate (get_body_raw v) c0) = rc_cycle_number c + 1) as Hcyc'.
  { unfold after_rotate. destruct (bool_decide (get_body_raw v = rc_binlog_name c0)); cbn; rewrite Hc0; apply wrap_small; unfold in_width; lia. }
  split; [done|]. unfold agree. rewrite Hcyc'. unfold is_fresh. rewrite Hcyc'.
  destruct (Z.eqb_spec (rc_cycle_number c + 1) 0); [lia|].
  assert (rc_state (after_rotate (get_body_raw v) c0) = format_description_expected ∧
    rc_replication_mode (after_rotate (get_body_raw v) c0) = rc_replication_mode c0) as [-> ->]
    by (unfold after_rotate; by destruct (bool_decide (get_body_raw v = rc_binlog_name c0))).
  rewrite bool_decide_false by done. pose proof (reachable_inv _ Hr') as Hi'. pose proof (reachable_inv _ Hr) as Hi.
  assert (get_current_binlog_name s' = get_current_binlog_name s → is_fresh c = true ∧ bool_decide (get_body_raw v = rc_binlog_name c0) = true) as Hsame.
  { intros Heq. assert (get_body_raw v = rc_binlog_name c) as Hb by (by rewrite Hbody, Heq).
    split; [|by apply bool_decide_true; rewrite Hn0]. destruct (is_fresh c); [done|]. by destruct Hother. }
  assert (get_current_binlog_name s' ≠ get_current_binlog_name s → bool_decide (get_body_raw v = rc_binlog_name c0) = false) as Hdiff.
  { intros Hne. apply bool_decide_false. rewrite Hn0, Hbody, Hname. intros Heq. apply Hne.
    apply current_name_inj; [done| |done]. destruct (current_name_ok s' Hi') as [He|]; [|done].
    (* the storage has an open file, so it has a name *)
    destruct (streaming_appending _ Hi' Hopen') as (rs & r & f & Hrec & (_ & _ & Hlast & Hok & _) & _).
    unfold get_current_binlog_name, get_current_binlog_record. by rewrite Hlast. }
  split_and!; [congruence| |lia| |done|].
  - destruct Hcases as [[_ ->]|[_ ->]]; [done|]. by vm_compute.
  - unfold after_rotate. destruct Hcases as [[Heq _]|[Hne _]].
    + rewrite (proj2 (Hsame Heq)). cbn. by rewrite Hn0, Hname, Heq.
    + rewrite (Hdiff Hne). cbn. done.
  - unfold after_rotate. destruct Hcases as [[Heq He]|[Hne He]].
    + destruct (Hsame Heq) as [Hf ->]. cbn. rewrite (Hp0 Hf), He. rewrite Hf in Hag. destruct Hag as [_ ->].
      destruct (streaming_appending _ Hi' Hopen') as (rs & r & f & _ & (_ & _ & Hlast & _) & _).
      pose proof (nonempty_end _ _ Hi' Hlast). lia.
    + rewrite (Hdiff Hne), He. done.
Qed.

(** what an event must satisfy to be processed: bytes, a header that says how many, room in a
    file of less than 4 GiB, and an artificial ROTATE that is not the first event of the
    connection only to another file *)
Definition event_fits a v h : Prop :=
  well_formed v h ∧ end_of (app_storage a) + Z.of_nat (length (ev_portion v)) < 2 ^ 32 ∧
  rc_cycle_number (app_context a) < 2 ^ 64 - 1 ∧
  (label_of v = (ct_rotate, true) → 10 ∉ get_body_raw v ∧
    (is_fresh (app_context a) = false → get_body_raw v ≠ rc_binlog_name (app_context a))).

(** what it changes *)
Definition event_effect a v a' : Prop :=
  let c := app_context a in let c' := app_context a' in
  end_of (app_storage a') ≤ Z.max magic_binlog_offset (end_of (app_storage a) + Z.of_nat (length (ev_portion v))) ∧
  rc_cycle_number c' ≤ rc_cycle_number c + 1 ∧
  st_replication_mode (app_storage a') = st_replication_mode (app_storage a) ∧
  (label_of v ≠ (ct_rotate, true) → rc_binlog_name c' = rc_binlog_name c ∧ rc_cycle_number c' = rc_cycle_number c).

(** an event that is not an artificial ROTATE *)
Lemma stored_event_step now v h c c' info s s' :
  step v c c' info → label_of v ≠ (ct_rotate, true) → well_formed v h →
  end_of s + Z.of_nat (length (ev_portion v)) < 2 ^ 32 → context_ok c' →
  (∃ s1, (if info then s1 = s else
     write_event (now_write now) (ev_portion v) (is_at_transaction_boundary c') (rc_transaction_gtid c')
       (ch_timestamp h) (rc_transaction_sequence_number c') s = (s1, Ok ())) ∧
   if is_end_event (code_of v) then close_binlog (now_close now) s1 = (s', Ok ()) else s' = s1) →
  storage_reachable s → agree c s →
  storage_reachable s' ∧ agree c' s' ∧ end_of s' ≤ end_of s + Z.of_nat (length (ev_portion v)) ∧
  st_replication_mode s' = st_replication_mode s ∧
  rc_binlog_name c' = rc_binlog_name c ∧ rc_cycle_number c' = rc_cycle_number c.
Proof.
  intros Hs El (Hbytes & Hh & Hsize) Hroom Hcok' Hcase Hreach Hag.
  destruct (step_keeps _ _ _ _ Hs El) as (Hn & Hm & Hcy & Hst & Hst' & Hinfo).
  destruct Hag as (Hmode & Hend & Hcyc & Hname & Hag).
  assert (is_fresh c = false ∧ is_binlog_open s = true ∧ rc_position c = end_of s) as (Hf & Hopen & Hpos).
  { destruct (is_fresh c); [by destruct Hag|]. by rewrite bool_decide_false in Hag. }
  assert (is_fresh c' = false) as Hf' by (unfold is_fresh in *; by rewrite Hcy).
  pose proof (reachable_inv _ Hreach) as Hi. destruct Hcase as (s1 & Hw & Hclose).
  destruct info.
  - subst s1. destruct (Hinfo eq_refl) as [He Hpos']. rewrite He in Hclose. subst s'.
    split; [done|]. split; [|split_and!; (done || lia)]. unfold agree. rewrite Hm, Hn, Hcy, Hf'. split_and!; try done.
    rewrite bool_decide_false by (rewrite Hst', He; done). by rewrite Hpos'.
  - assert (event_ok s (ev_portion v) (rc_transaction_gtid c') (ch_timestamp h) (rc_transaction_sequence_number c')) as Hev.
    { destruct Hcok' as (_ & Hq & Hg & _). split_and!; try done.
      - by eapply timestamp_width.
      - rewrite length_app. unfold end_of in Hroom. lia. }
    destruct (write_end _ _ _ _ _ _ _ _ Hw Hev Hopen Hi) as ([Hn1 Hm1] & He1 & Ho1).
    assert (storage_reachable s1) as Hr1 by (eapply reach_step; [exact Hreach|]; by eapply step_write).
    destruct (position_step _ _ _ Hs) as (h' & Hh' & _ & Hnext & Hpos'). rewrite Hh in Hh'. injection Hh' as <-.
    assert (code_of v = ch_type_code h) as Hc by (by apply label_of_header). rewrite Hc in Hclose.
    destruct (is_end_event (ch_type_code h)) eqn:Ee.
    + destruct (close_end _ _ _ Hclose Ho1 (reachable_inv _ Hr1)) as ([Hn2 Hm2] & He2 & Ho2).
      split; [eapply reach_step; [exact Hr1|]; by eapply step_close|].
      split; [|split_and!; (lia || congruence)].
      unfold agree. rewrite Hm, Hn, Hcy, Hf'. split_and!; [congruence|lia|done|congruence|].
      by rewrite bool_decide_true by (apply Hst'; by rewrite Hc).
    + subst s'. split; [done|]. split; [|split_and!; (lia || congruence)].
      unfold agree. rewrite Hm, Hn, Hcy, Hf'. split_and!; [congruence|lia|done|congruence|].
      rewrite bool_decide_false by (rewrite Hst', Hc, Ee; done). split; [done|].
      rewrite Hpos', Hnext, Hpos, Hsize, He1. apply wrap_small. unfold in_width.
      pose proof (flushed_nonneg _ Hi). unfold end_of in *. lia.
Qed.

Lemma event_step now v h0 a a' :
  process_binlog_event now v a = (a', Ok ()) → event_fits a v h0 → app_inv a → app_inv a' ∧ event_effect a v a'.
Proof.
  intros Hr (Hwf & Hroom & Hcycle & Hrot) (Hreach & Hcok & Hlok & Hag).
  destruct (process_event_storage _ _ _ _ Hr) as (h & c' & info & s' & Hh & Hpe & -> & Hcase).
  pose proof Hwf as (Hbytes & Hh0 & Hsize). rewrite Hh in Hh0. injection Hh0 as ->.
  pose proof (process_step _ _ _ _ Hpe) as Hs. destruct a as [c s]. unfold event_effect, app_inv.
  cbn [app_context app_storage] in *.
  assert (context_ok c') as Hcok' by (by eapply step_context_ok).
  assert (lengths_ok c') as Hlok' by (by eapply step_lengths_ok).
  destruct (bool_decide (label_of v = (ct_rotate, true))) eqn:El; to_prop.
  - destruct Hcase as [-> Hcase]. destruct (Hrot El) as [Hnl Hother].
    destruct (rotate_agrees _ _ _ _ _ _ _ Hs El Hag Hreach Hcycle Hnl Hother Hcase) as (Hr' & Hcy & Hag').
    split; [done|]. destruct (rotate_storage _ _ _ _ Hcase Hreach Hnl) as (_ & _ & Hm & _ & He).
    split; [lia|]. split; [lia|]. done.
  - destruct (stored_event_step _ _ _ _ _ _ _ _ Hs El Hwf Hroom Hcok' Hcase Hreach Hag) as (Hr' & Hag' & He & Hm & Hn & Hcy).
    split; [done|]. split; [lia|]. split; [lia|]. done.
Qed.

Lemma packet_step now prefix portion a a' :
  receive_packet None now (prefix :: portion) a = (a', Ok ()) → packet_ok a portion → app_inv a → app_inv a'.
Proof.
  intros Hr (Hbytes & Hroom & Hcycle & Hrot) Hinv. unfold receive_packet in Hr.
  apply action_bind_ok in Hr as (a0 & [] & Ht & Hr). apply throw_if_inv in Ht as [-> _]. rewrite gets_bind in Hr.
  apply action_bind_ok in Hr as (a0 & v & [= <- Hv] & Hr). specialize (Hrot v Hv).
  apply make_event_view_inv in Hv as (Hp & h & Hh & Hsize). subst portion.
  eapply event_step; [exact Hr| |exact Hinv]. split; [done|]. split; [done|]. split; [done|exact Hrot].
Qed.

(** ** The rewrite mode *)

(** the name of the next file of a context that is not fresh is another one *)
Lemma next_name_other config c s n :
  agree c s → streaming_inv s → is_fresh c = false → next_binlog_name config c s = Ok n →
  binlog_name_str n ≠ rc_binlog_name c.
Proof.
  intros (_ & _ & _ & -> & _) Hi Hf Hn Heq. unfold next_binlog_name in Hn. rewrite Hf in Hn.
  destruct (storage_is_empty s) eqn:Ee.
  - apply make_binlog_name_ok in Hn as [_ Hok]; [|done]. apply current_name_inj in Heq as Hc; [|done..].
    unfold storage_is_empty in Ee. to_prop. unfold get_current_binlog_name, get_current_binlog_record in Hc.
    rewrite Ee in Hc. rewrite Hc in Hok. by destruct Hok.
  - unfold binlog_name_next in Hn. apply make_binlog_name_ok in Hn as [Hn Hok]; [|apply wrap_bound; lia].
    apply current_name_inj in Heq as Hc; [|done..]. rewrite <-Hc in Hn. apply (f_equal bn_sequence_number) in Hn.
    cbn [bn_sequence_number] in Hn. destruct Hok as (_ & _ & Hq). rewrite wrap_small in Hn by (unfold in_width; lia). lia.
Qed.

Lemma ok_pair {X Y} (x x' : X) (y y' : Y) : Ok (x, y) = Ok (x', y') → x' = x ∧ y' = y.
Proof. by intros [= -> ->]. Qed.

Lemma ret_ok {S X} (x y : X) (s s' : S) : (mret x : action S X) s = (s', Ok y) → s' = s ∧ y = x.
Proof. by intros [= -> ->]. Qed.

Lemma of_result_ok {S X} (r : result X) (x : X) (s s' : S) : of_result r s = (s', Ok x) → s' = s ∧ r = Ok x.
Proof. by intros [= -> ->]. Qed.

(** a generated ROTATE *)
Lemma rotate_step now a a' offset timestamp server_id artificial name :
  let c := app_context a in let s := app_storage a in
  process_binlog_event now (rotate_view offset timestamp server_id artificial (rc_footer_expected c) name) a = (a', Ok ()) →
  bytes_ok name → in_width 32 server_id → Z.of_nat (length name) < 2 ^ 31 →
  end_of s + 31 + Z.of_nat (length name) < 2 ^ 32 → rc_cycle_number c < 2 ^ 64 - 1 →
  (artificial = true → 10 ∉ name ∧ (is_fresh c = false → name ≠ rc_binlog_name c)) → app_inv a →
  app_inv a' ∧ end_of (app_storage a') ≤ Z.max magic_binlog_offset (end_of s + 31 + Z.of_nat (length name)) ∧
  rc_cycle_number (app_context a') ≤ rc_cycle_number c + 1 ∧
  st_replication_mode (app_storage a') = st_replication_mode s ∧
  (artificial = false → rc_binlog_name (app_context a') = rc_binlog_name c ∧
     rc_cycle_number (app_context a') = rc_cycle_number c).
Proof.
  intros c s Hp Hn Hid Hl Hroom Hcy Hart Hinv. set (v := rotate_view _ _ _ _ _ _) in Hp.
  pose proof (rotate_well_formed offset timestamp server_id artificial (rc_footer_expected c) name Hn Hid Hl) as Hwf.
  fold v in Hwf. set (h := rotate_header _ _ _ _ _ _) in Hwf.
  assert (Z.of_nat (length (ev_portion v)) ≤ 31 + Z.of_nat (length name)) as Hsz.
  { destruct Hwf as (_ & _ & <-). unfold h, rotate_header, create_with_offset. cbn [ch_event_size].
    rewrite rotate_size. destruct (rc_footer_expected c); cbn [footer_encoded_size]; unfold default_footer_length; lia. }
  assert (label_of v = (ct_rotate, artificial)) as Hlab.
  { unfold label_of. rewrite (proj1 (proj2 Hwf)). unfold h, rotate_header. by destruct artificial. }
  assert (get_body_raw v = name) as Hbody by apply created_body.
  destruct (event_step now v h a a' Hp) as (Hinv' & He & Hcy' & Hm & Hkeep); [|done|].
  - split; [done|]. split; [unfold c, s in *; lia|]. split; [done|]. rewrite Hlab, Hbody. by intros [= ->]; apply Hart.
  - split; [done|]. split; [unfold s; lia|]. split; [done|]. split; [done|]. intros ->. apply Hkeep. by rewrite Hlab.
Qed.

(** what the generated events need: an identifier of the server, and a name of bytes *)
Definition preamble_fits config a (name_size : Z) : Prop :=
  let c := app_context a in let s := app_storage a in
  in_width 32 (rw_server_id config) ∧ rc_cycle_number c < 2 ^ 64 - 2 ∧ 0 ≤ name_size < 2 ^ 31 ∧
  end_of s + 2 * name_size + 500 < 2 ^ 32 ∧
  ∀ n, next_binlog_name config c s = Ok n →
    bytes_ok (binlog_name_str n) ∧ 10 ∉ binlog_name_str n ∧ Z.of_nat (length (binlog_name_str n)) ≤ name_size.

Lemma inv_end_nonneg a : app_inv a → 0 ≤ end_of (app_storage a).
Proof. intros (Hr & _). pose proof (flushed_nonneg _ (reachable_inv _ Hr)). unfold end_of. lia. Qed.

(** the ROTATE that ends the file before, unless the connection is new *)
Lemma first_rotate_step config now a a' n buffer name_size :
  (if negb (is_fresh (app_context a)) then
     '(v, event_buffer) ← of_result (generate_rotate_event [] (app_context a)
        (u32 (get_current_position (app_storage a))) true (timestamp_rotate now) (rw_server_id config) false n);
     _ ← process_binlog_event (now_rotate now) v;
     mret event_buffer
   else mret []) a = (a', Ok buffer) →
  preamble_fits config a name_size → next_binlog_name config (app_context a) (app_storage a) = Ok n → app_inv a →
  app_inv a' ∧ reusable buffer ∧ end_of (app_storage a') ≤ Z.max magic_binlog_offset (end_of (app_storage a) + 31 + name_size) ∧
  rc_cycle_number (app_context a') = rc_cycle_number (app_context a) ∧
  rc_binlog_name (app_context a') = rc_binlog_name (app_context a) ∧
  st_replication_mode (app_storage a') = st_replication_mode (app_storage a).
Proof.
  intros Hg (Hid & Hcy & Hns & Hroom & Hname) Hn Hinv. destruct (Hname n Hn) as (Hnb & Hnl & Hnsz).
  destruct (is_fresh (app_context a)) eqn:Ef; cbn [negb] in Hg.
  { injection Hg as <- <-. split; [done|]. split; [by left|]. split; [lia|]. done. }
  apply action_bind_ok in Hg as (a0 & [v b] & Hv & Hg). apply of_result_ok in Hv as [-> Hv]. pose proof Hinv as (_ & _ & Hlok & _).
  pose proof (generate_rotate_ok [] (app_context a) (u32 (get_current_position (app_storage a))) true
    (timestamp_rotate now) (rw_server_id config) false n (or_introl eq_refl) (proj1 (known_lengths _ Hlok)) Hid) as Hok.
  cbv zeta iota in Hok. rewrite Hok in Hv by lia. apply ok_pair in Hv as [-> ->].
  apply action_bind_ok in Hg as (a1 & [] & Hp & Hg). apply ret_ok in Hg as [-> ->].
  destruct (rotate_step _ _ _ _ _ _ _ _ Hp) as (Hinv' & He & _ & Hm & Hkeep); try done; try lia.
  destruct (Hkeep eq_refl) as [Hn' Hc']. split; [done|]. split; [apply created_reusable|]. split; [lia|]. done.
Qed.

Lemma preamble_head_step config now a a1 buffer offset name_size :
  generate_preamble_head config now a = (a1, Ok (buffer, offset)) → preamble_fits config a name_size → app_inv a →
  app_inv a1 ∧ reusable buffer ∧ end_of (app_storage a1) ≤ end_of (app_storage a) + 2 * name_size + 200 ∧
  rc_cycle_number (app_context a1) < 2 ^ 64 - 1 ∧
  st_replication_mode (app_storage a1) = st_replication_mode (app_storage a).
Proof.
  intros Hg Hfits Hinv. pose proof (inv_end_nonneg a Hinv) as Hnn. unfold generate_preamble_head in Hg. rewrite !gets_bind in Hg.
  apply action_bind_ok in Hg as (a0 & n & [= <- Hn] & Hg).
  apply action_bind_ok in Hg as (a0 & buf0 & Hfirst & Hg).
  destruct (first_rotate_step _ _ _ _ _ _ _ Hfirst Hfits Hn Hinv) as (Hinv0 & Hbuf0 & He0 & Hc0 & Hn0 & Hm0).
  destruct Hfits as (Hid & Hcy & Hns & Hroom & Hname). destruct (Hname n Hn) as (Hnb & Hnl & Hnsz).
  rewrite gets_bind in Hg. apply action_bind_ok in Hg as (a2 & [v b] & Hv & Hg). apply of_result_ok in Hv as [-> Hv]. pose proof Hinv0 as (_ & _ & Hlok & _).
  pose proof (generate_rotate_ok buf0 (app_context a0) 0 false 0 (rw_server_id config) true n Hbuf0
    (proj1 (known_lengths _ Hlok)) Hid) as Hok.
  cbv zeta iota in Hok. rewrite Hok in Hv by lia. apply ok_pair in Hv as [-> ->].
  apply action_bind_ok in Hg as (a2 & [] & Hp & Hg).
  destruct (rotate_step _ _ _ _ _ _ _ _ Hp) as (Hinv2 & He2 & Hc2 & Hm2 & _); try done; try lia.
  { unfold magic_binlog_offset in *. lia. }
  { intros _. split; [done|]. intros Hf0. rewrite Hn0. destruct Hinv as (Hr & _ & _ & Hag).
    apply (next_name_other config _ (app_storage a)); try done; [by apply reachable_inv|].
    unfold is_fresh in *. by rewrite <-Hc0. }
  rewrite gets_bind in Hg. apply action_bind_ok in Hg as (a3 & [v3 b3] & Hv3 & Hg). apply of_result_ok in Hv3 as [-> Hv3].
  rewrite generate_fde_ok in Hv3; [|apply created_reusable|exact Hid]. apply ok_pair in Hv3 as [-> ->].
  apply action_bind_ok in Hg as (a4 & [] & Hp4 & Hg). apply ret_ok in Hg as [-> Hg]. apply pair_equal_spec in Hg as [-> _]. set (v := fde_view _ _ _ _ _) in Hp4.
  pose proof (fde_well_formed (rc_current_encoded_server_version (app_context a2)) magic_binlog_offset
    (timestamp_created now) (timestamp_fde now) (rw_server_id config) Hid) as Hwf. fold v in Hwf.
  set (h := fde_header _ _ _ _ _) in Hwf.
  assert (Z.of_nat (length (ev_portion v)) ≤ 123) as Hsz
    by (destruct Hwf as (_ & _ & <-); apply fde_size_bound).
  assert (label_of v ≠ (ct_rotate, true)) as Hlab by (unfold label_of; rewrite (proj1 (proj2 Hwf)); done).
  destruct (event_step _ v h a2 a4 Hp4) as (Hinv4 & He4 & Hc4 & Hm4 & Hk4); [|done|].
  { split; [done|]. unfold magic_binlog_offset in *. split; [lia|]. split; [lia|]. intros Hl. by apply Hlab in Hl. }
  split; [done|]. split; [apply created_reusable|]. destruct (Hk4 Hlab) as [_ Hcy4].
  unfold magic_binlog_offset in *. split; [lia|]. split; [lia|congruence].
Qed.

(** the whole preamble: the GTIDs that the new file starts with fit in it *)
Lemma preamble_step config now a a1 name_size gtids_size :
  generate_preamble config now a = (a1, Ok ()) → preamble_fits config a name_size → app_inv a →
  st_replication_mode (app_storage a) = mode_gtid →
  end_of (app_storage a) + 2 * name_size + gtids_size + 500 < 2 ^ 32 → 0 ≤ gtids_size < 2 ^ 31 →
  (∀ a0 x, generate_preamble_head config now a = (a0, Ok x) →
     calculate_encoded_size (get_gtids (app_storage a0)) ≤ gtids_size) →
  app_inv a1 ∧ end_of (app_storage a1) ≤ end_of (app_storage a) + 2 * name_size + gtids_size + 300 ∧
  rc_cycle_number (app_context a1) < 2 ^ 64 - 1.
Proof.
  intros Hg Hfits Hinv Hgm Hroom Hgs Hgtids. unfold generate_preamble in Hg.
  pose proof (inv_end_nonneg a Hinv) as Hnn. pose proof Hfits as (Hid & _ & Hns & _).
  apply action_bind_ok in Hg as (a0 & [buffer offset] & Hhead & Hg). specialize (Hgtids _ _ Hhead).
  destruct (preamble_head_step _ _ _ _ _ _ _ Hhead Hfits Hinv) as (Hinv0 & Hbuf & He & Hcy & Hm).
  rewrite !gets_bind in Hg. apply action_bind_ok in Hg as (a2 & [v b] & Hv & Hg). apply of_result_ok in Hv as [-> Hv].
  pose proof Hinv0 as (Hr0 & _).
  destruct (previous_gtids_body (get_gtids (app_storage a0))) as (body & Hbody & Hbb & Hbl);
    [apply get_gtids_ok; [by apply reachable_inv|]|lia|].
  { unfold is_in_gtid_replication_mode. by rewrite Hm, Hgm. }
  destruct (generate_previous_gtids_inv _ _ _ _ _ _ _ _ _ Hv Hbody Hbb) as [Hwf Hsz]; [lia|done|done|].
  assert (label_of v ≠ (ct_rotate, true)) as Hlab by (unfold label_of; rewrite (proj1 (proj2 Hwf)); done).
  destruct (event_step _ v (previous_header offset (timestamp_previous now) (rw_server_id config) body) a0 a1 Hg) as (Hinv1 & He1 & _ & _ & Hk); [|done|].
  { split; [exact Hwf|]. split; [lia|]. split; [done|]. intros Hl. by apply Hlab in Hl. }
  destruct (Hk Hlab) as [_ Hc1]. split; [done|]. unfold magic_binlog_offset in *. split; [lia|]. by rewrite Hc1.
Qed.

(** What the rewrite mode needs of a packet and of its options: an artificial name of bytes
    without a newline, room for what is generated, and numbers that do not overflow.  The last
    two conditions are about the state after the preamble. *)
Definition file_started config (now : packet_clock) a a1 : Prop :=
  (if preamble_needed config (app_context a) (app_storage a)
   then generate_preamble config (clock_rewrite now) else mret ()) a = (a1, Ok ()).

Definition rewrite_fits config (now : packet_clock) a (portion : list Z) : Prop :=
  let s := app_storage a in
  bytes_ok portion ∧ st_replication_mode s = mode_gtid ∧
  (∃ name_size gtids_size, preamble_fits config a name_size ∧ 0 ≤ gtids_size < 2 ^ 31 ∧
     end_of s + 2 * name_size + gtids_size + Z.of_nat (length portion) + 1000 < 2 ^ 32 ∧
     ∀ a0 x, generate_preamble_head config (clock_rewrite now) a = (a0, Ok x) →
       calculate_encoded_size (get_gtids (app_storage a0)) ≤ gtids_size) ∧
  (∀ a1, file_started config now a a1 → st_incomplete_sequence_number (app_storage a1) < 2 ^ 64 - 1) ∧
  (∀ v b, make_event_view (app_context a) portion = Ok v → parse_tagged_body (get_body_raw v) = Ok b →
     (label_of v).1 = ct_gtid_tagged_log → tb_transaction_length b < 2 ^ 63).

Lemma rewritten_packet_step config now prefix portion a a' :
  receive_packet (Some config) now (prefix :: portion) a = (a', Ok ()) → rewrite_fits config now a portion →
  app_inv a → app_inv a'.
Proof.
  intros Hr (Hbytes & Hgm & (name_size & gtids_size & Hfits & Hgs & Hroom & Hgtids) & Hseq & Htag) Hinv.
  unfold receive_packet in Hr. pose proof (inv_end_nonneg a Hinv) as Hnn. pose proof Hfits as (_ & Hcy & Hns & _).
  apply action_bind_ok in Hr as (a0 & [] & Ht & Hr). apply throw_if_inv in Ht as [-> _]. rewrite gets_bind in Hr.
  apply action_bind_ok in Hr as (a0 & v & Hv & Hr). apply of_result_ok in Hv as [-> Hv]. specialize (Htag v).
  pose proof Hinv as (_ & _ & Hlok & _).
  destruct (accepted_view_ok _ _ _ Hv Hbytes Hlok) as (Hp & Hvok & h & Hh & Hsz & Hph).
  unfold rewrite_and_process_binlog_event in Hr.
  apply action_bind_ok in Hr as (a0 & h' & Hh' & Hr). apply of_result_ok in Hh' as [-> Hh'].
  rewrite Hh in Hh'. injection Hh' as <-. destruct (is_skipped (ch_type_code h)) eqn:Esk.
  { case_bool_decide; [|by injection Hr as <-]. apply action_bind_ok in Hr as (a0 & alg & Ha & Hr).
    apply of_result_ok in Ha as [-> _]. by apply throw_if_inv in Hr as [-> _]. }
  rewrite !gets_bind in Hr. apply action_bind_ok in Hr as (a1 & [] & Hpre & Hr).
  specialize (Hseq a1 Hpre).
  assert (app_inv a1 ∧ end_of (app_storage a1) ≤ end_of (app_storage a) + 2 * name_size + gtids_size + 300 ∧
    rc_cycle_number (app_context a1) < 2 ^ 64 - 1) as (Hinv1 & He1 & Hc1).
  { destruct (preamble_needed _ _ _); [by eapply preamble_step; try done; lia|].
    injection Hpre as <-. split; [done|]. split; lia. }
  rewrite gets_bind in Hr. apply action_bind_ok in Hr as (a2 & w & Hw & Hr). apply of_result_ok in Hw as [-> Hw].
  pose proof Hinv1 as (Hr1 & _). pose proof (reachable_inv _ Hr1) as (_ & (_ & _ & _ & _ & Hq & _) & _).
  assert (get_total_size v = length portion) as Hts by (unfold get_total_size; by rewrite Hp).
  destruct (rewrite_result (st_incomplete_sequence_number (app_storage a1)) v h [] (get_current_position (app_storage a1)) w) as [Hrel Hwsz]; [|exact Hw|apply Hq|lia| |].
  - split; [done|]. split; [done|]. rewrite Hts. split; [done|]. unfold default_footer_length. lia.
  - intros Hc. split; [by apply Hph|]. intros b Hb. apply (Htag b Hv Hb). unfold label_of. by rewrite Hh.
  - destruct Hrel as ((_ & _ & Hwb) & _ & _ & (h' & Hh' & Hwh) & _). rewrite Hh in Hh'. injection Hh' as <-.
    set (h1 := with_size_and_position _ _ _) in Hwh. assert (well_formed w h1) as Hwf by done.
    assert (label_of w ≠ (ct_rotate, true)) as Hlab.
    { unfold label_of. rewrite Hwh. cbn [h1 ch_type_code with_size_and_position]. intros [= Hc _]. by rewrite Hc in Esk. }
    destruct (event_step _ w h1 a1 a' Hr) as [Hinv' _]; [|done|done].
    split; [exact Hwf|]. unfold get_total_size in *. split; [lia|]. split; [done|]. intros Hl. by apply Hlab in Hl.
Qed.

(** the server answers with the text of a set of valid GTIDs *)
Definition conn_ok (conn : server) : Prop :=
  ∀ value gtids, conn_gtid_purged conn = Some value → gtid_set_of_string value = Ok gtids → gtid_set_ok gtids.

Lemma make_request_keeps s s' q : make_request s = (s', Ok q) → s' = s.
Proof.
  unfold make_request. rewrite !gets_bind. intros Hr. destruct (is_in_gtid_replication_mode s).
  - rewrite gets_bind in Hr. apply action_bind_ok in Hr as (s1 & d & [= <- _] & Hr). by injection Hr as <- _.
  - destruct (storage_is_empty s); [by injection Hr as <- _|]. rewrite !gets_bind in Hr. by injection Hr as <- _.
Qed.

Lemma switch_keeps conn s s' q :
  switch_to_replication conn s = (s', Ok q) → conn_ok conn → storage_reachable s →
  storage_reachable s' ∧ same_file s s' ∧ end_of s' = end_of s.
Proof.
  intros Hs Hc Hr. unfold switch_to_replication in Hs. rewrite !gets_bind in Hs.
  apply action_bind_ok in Hs as (s1 & connected & H1' & H2').
  assert (storage_reachable s1 ∧ same_file s s1 ∧ end_of s1 = end_of s) as (Hr1 & Hsf & He).
  { destruct (is_in_gtid_replication_mode s && storage_is_empty s); [|by injection H1' as <- _].
    destruct (conn_gtid_purged conn) as [value|] eqn:Ev; [|by injection H1' as <- _].
    apply action_bind_ok in H1' as (s2 & gtids & [= <- Hg] & H1').
    apply action_bind_ok in H1' as (s3 & [] & Hp & H1'). injection H1' as <- _.
    split; [eapply reach_step; [exact Hr|]; eapply step_set_purged; [by eapply Hc|exact Hp]|].
    unfold set_purged in Hp. rewrite gets_bind in Hp.
    apply action_bind_ok in Hp as (s4 & [] & Hg1 & Hp). apply throw_if_inv in Hg1 as [-> _].
    rewrite gets_bind in Hp. apply action_bind_ok in Hp as (s5 & [] & Hg2 & Hp).
    apply throw_if_inv in Hg2 as [-> _]. by injection Hp as <-. }
  destruct (negb connected); [by injection H2' as <- _|].
  apply action_bind_ok in H2' as (s2 & q2 & Hq & H2'). injection H2' as <- _. by apply make_request_keeps in Hq as ->.
Qed.

(** How a connection ends: the server ended the stream; the connection was lost; the process
    ended, a new one started, and perhaps the purge command ran in between. *)
Inductive ended s : storage → Prop :=
  | ended_eof : ended s s
  | ended_lost s1 : abandon_connection s = (s1, Ok ()) → ended s s1
  | ended_process checkpoint_size checkpoint_interval s1 :
      reopens streaming checkpoint_size checkpoint_interval s s1 → ended s s1
  | ended_purge checkpoint_size checkpoint_interval target removed s1 s2 s3 :
      reopens purging checkpoint_size checkpoint_interval s s1 →
      purge_binlogs target s1 = (s2, Ok (removed, None)) →
      reopens streaming checkpoint_size checkpoint_interval s2 s3 → ended s s3.

Lemma flush_nothing s s' :
  flush_event_buffer s = (s', Ok ()) → st_construction_mode s = streaming → st_boundary_position s = 0%nat → s' = s.
Proof.
  intros Hf Hm Hb. unfold flush_event_buffer in Hf.
  rewrite (action_bind_eq _ _ _ _ _ (streaming_ok _ Hm)), gets_bind in Hf.
  unfold has_event_data_to_flush in Hf. rewrite Hb in Hf. by injection Hf as <-.
Qed.

Lemma reopened_end cmode cs ci s s' :
  reopens cmode cs ci s s' → on_disk (st_replication_mode s) (st_records s) (disk s) →
  same_file s s' ∧ end_of s' = get_flushed_position s.
Proof.
  intros Hr Hd. destruct (reopens_inv _ _ _ _ _ Hr Hd) as (bb & bb' & p & -> & _).
  split; [done|]. unfold end_of. cbn. apply Z.add_0_r.
Qed.

Lemma ended_reachable s s1 :
  ended s s1 → storage_reachable s → end_of s < 2 ^ 32 →
  storage_reachable s1 ∧ end_of s1 < 2 ^ 32.
Proof.
  intros He Hr Hlt. pose proof (reachable_inv _ Hr) as Hi.
  assert (get_flushed_position s ≤ end_of s) by (unfold end_of; lia).
  destruct He as [|s1 Ha|cs ci s1 Ho|cs ci target removed s1 s2 s3 Ho1 Hp Ho2].
  - done.
  - unfold abandon_connection in Ha. apply action_bind_ok in Ha as (s0 & [] & Hd & Hf).
    destruct (discard_end _ _ Hd Hi) as (_ & He & Hop).
    assert (storage_reachable s0) as Hr0 by (eapply reach_step; [exact Hr|]; by eapply step_discard).
    pose proof (reachable_inv _ Hr0) as Hi0.
    destruct (is_binlog_open s0) eqn:Eo.
    + destruct (flush_buffer_end _ _ Hf Eo Hi0) as (_ & He1 & _). split; [|lia].
      eapply reach_step; [exact Hr0|]. by eapply step_flush.
    + pose proof Hi0 as (Hm0 & (Hb & _) & Hso & _). unfold stream_ok in Hso. rewrite Eo in Hso.
      destruct Hso as [_ Hbuf]. rewrite Hbuf in Hb. cbn in Hb.
      apply flush_nothing in Hf as ->; [|done|lia]. split; [done|lia].
  - pose proof (inv_on_disk _ Hi) as Hd. destruct (reopened_end _ _ _ _ _ Ho Hd) as [_ ->].
    split; [eapply reach_step; [exact Hr|]; by eapply step_restart|lia].
  - pose proof (inv_on_disk _ Hi) as Hd. destruct (reopened_end _ _ _ _ _ Ho1 Hd) as [_ He1].
    destruct (reopens_inv _ _ _ _ _ Ho1 Hd) as (bb & bb' & p & Hs1 & _ & Ho & Hst & _).
    assert (on_disk (st_replication_mode s1) (st_records s1) (disk s1)) as Hd1 by (rewrite Ho; by rewrite Hs1).
    destruct (purge_ok _ _ _ _ _ Hp Hd1 Hst) as (Hsplit & _ & Hne & _ & _ & _ & _ & _ & Hd2 & _).
    split; [eapply reach_step; [exact Hr|]; by eapply step_purge|].
    destruct (reopened_end _ _ _ _ _ Ho2 (Hd2 eq_refl)) as [_ ->].
    assert (get_flushed_position s2 = get_flushed_position s1) as ->.
    { unfold get_flushed_position, get_current_binlog_record. rewrite Hsplit. by rewrite last_app_ne. }
    assert (get_flushed_position s1 = get_flushed_position s) as -> by (by rewrite Hs1). lia.
Qed.

Lemma connected_agrees conn checksum s :
  storage_reachable s → end_of s < 2 ^ 32 → app_inv (mk_app (initial_context conn checksum s) s).
Proof.
  intros Hr Hlt. pose proof (reachable_inv _ Hr) as Hi. split; [done|].
  split; [apply initial_context_ok; by apply wrap_bound|]. split; [apply initial_lengths_ok|]. unfold initial_context. cbn [app_context app_storage].
  pose proof (flushed_nonneg _ Hi). unfold agree. split_and!; try done. cbn [is_fresh make_reader_context rc_cycle_number].
  split; [done|]. cbn [make_reader_context rc_position]. rewrite current_position_end by (done || lia).
  rewrite wrap_small by (unfold in_width, end_of in *; lia).
  destruct (last (st_records s)) as [r|] eqn:El.
  - pose proof (nonempty_end _ _ Hi El) as He. unfold magic_binlog_offset in *.
    destruct (Z.eqb_spec (end_of s) 0); lia.
  - assert (end_of s = 0) as ->; [|done]. unfold end_of, get_flushed_position, get_current_binlog_record. rewrite El.
    destruct Hi as (_ & _ & Hso & _). unfold stream_ok in Hso. destruct (is_binlog_open s).
    + destruct Hso as (r & Hl & _). congruence.
    + destruct Hso as [_ ->]. done.
Qed.

(** The states of the program while it is connected: it starts on an empty storage, receives
    packets, which it stores as they are or rewrites, and connects again after the connection
    has ended in any way. *)
Inductive program_reachable : application (B := B) → Prop :=
  | program_start s s2 conn checksum request :
      initial_storage s → conn_ok conn → switch_to_replication conn s = (s2, Ok (Some request)) →
      program_reachable (mk_app (initial_context conn checksum s2) s2)
  | program_packet now prefix portion a a' :
      program_reachable a → packet_ok a portion →
      receive_packet None now (prefix :: portion) a = (a', Ok ()) → program_reachable a'
  | program_rewritten_packet config now prefix portion a a' :
      program_reachable a → rewrite_fits config now a portion →
      receive_packet (Some config) now (prefix :: portion) a = (a', Ok ()) → program_reachable a'
  | program_reconnect a s1 s2 conn checksum request :
      program_reachable a → ended (app_storage a) s1 → conn_ok conn →
      switch_to_replication conn s1 = (s2, Ok (Some request)) →
      program_reachable (mk_app (initial_context conn checksum s2) s2).

(** C1: in every state of the program, whether it stores the events it receives or
    rewrites them, over any number of connections, restarts and purges, the context and the
    storage agree.  The storage is one that its invariant covers;
    the file the context expects events of is the current file of the storage; while a file
    is received it is open, and the position from which the context checks the next event is
    the end of that file with what is buffered, so that every event the context accepts for
    the file is stored at the position it claims; and between two files no file is open. *)
Theorem program_invariant a :
  program_reachable a →
  streaming_inv (app_storage a) ∧ context_ok (app_context a) ∧ agree (app_context a) (app_storage a).
Proof.
  intros Ha. assert (app_inv a) as (Hr & Hc & _ & Hag); [|split; [by apply reachable_inv|done]].
  induction Ha as [s s2 conn checksum q Hs Hc Hsw|now prefix portion a a' _ IH Hp Hr|config now prefix portion a a' _ IH Hp Hr|a s1 s2 conn checksum q _ IH He Hc Hsw].
  - destruct (switch_keeps _ _ _ _ Hsw Hc (reach_initial _ Hs)) as (Hr2 & _ & He2).
    apply connected_agrees; [done|]. rewrite He2. destruct (initial_inv _ Hs) as (_ & _ & Hso & _).
    destruct Hs as (bb & mode & cs & ci & Hm & Ho & Hst & Hb). unfold end_of, get_flushed_position, get_current_binlog_record.
    assert (st_records s = [] ∧ st_event_buffer s = []) as [-> ->]; [|by vm_compute].
    unfold make_storage in Hm. destruct (load_storage _ _) as [s1 [[]|e]] eqn:E; [|done]. injection Hm as ->.
    unfold load_storage in E. rewrite gets_bind in E. apply action_bind_ok in E as (s1 & so & Hl & E).
    apply on_backend_inv in Hl as (bb1 & Hl & ->). apply virtually_inv in Hl as [Hl _].
    apply list_law in Hl as [_ Hso']. cbn in Hso'. rewrite Ho in Hso'.
    rewrite (Hso' _ eq_refl), sizes_empty in E.
    rewrite !bool_decide_true in E by done. unfold save_metadata in E. rewrite gets_bind in E.
    by apply on_backend_inv in E as (bb2 & _ & ->).
  - by eapply packet_step.
  - by eapply rewritten_packet_step.
  - destruct IH as (Hr & _ & _ & Hag). destruct Hag as (_ & Hlt & _).
    destruct (ended_reachable _ _ He Hr Hlt) as [Hr1 Hlt1].
    destruct (switch_keeps _ _ _ _ Hsw Hc Hr1) as (Hr2 & _ & He2). apply connected_agrees; [done|]. by rewrite He2.
Qed.
End agreement.

(** ** A concrete run *)
Module ProgramExamples.
Import IntervalList UuidModel MetadataExamples BackendExamples LogExamples DiskExamples StreamExamples AppExamples.

(** the program receives a file from its start, up to the end of its first transaction *)
Definition connected : application :=
  mk_app (initial_context sample_connection false started) started.
Definition receive (portion : list Z) (a : application) : application := (receive_packet None tick (0 :: portion) a).1.
Definition received (k : nat) : application := foldl (λ a p, receive p a) connected (take k sample_stream).

Lemma connected_reachable : program_reachable connected.
Proof.
  apply (program_start started started sample_connection false (request_gtid (replicate 8 0))).
  - apply started_initial.
  - intros value gtids [= <-] Hg. assert (gtid_set_of_string [] = Ok empty_set) as He by (by vm_compute).
    rewrite He in Hg. injection Hg as <-. apply empty_set_ok.
  - apply action_result; by vm_compute.
Qed.

Lemma packet_received k portion :
  sample_stream !! k = Some portion → program_reachable (received k) →
  bytes_ok portion → end_of (app_storage (received k)) + Z.of_nat (length portion) < 2 ^ 32 →
  rc_cycle_number (app_context (received k)) < 2 ^ 64 - 1 → label_of (mk_event_view portion 0 0) ≠ (ct_rotate, true) →
  (receive_packet None tick (0 :: portion) (received k)).2 = Ok () → program_reachable (received (S k)).
Proof.
  intros Hk Hr Hb Hroom Hc Hl Hok.
  assert (received (S k) = receive portion (received k)) as ->.
  { unfold received. by rewrite (take_S_r _ _ _ Hk), foldl_app. }
  eapply (program_packet tick 0 portion); [exact Hr| |by apply action_result].
  split_and!; [done..|]. intros v Hv Hv'. exfalso. apply make_event_view_inv in Hv as [Hp _]. apply Hl.
  unfold label_of, get_common_header, get_common_header_raw in Hv' |- *. by rewrite Hp in Hv'.
Qed.

Lemma first_packet_received : program_reachable (received 1).
Proof.
  apply (program_packet tick 0 (rotate_artificial 4 name1) connected); [apply connected_reachable| |apply action_result; [reflexivity|by vm_compute]].
  split; [apply (bool_decide_unpack _); by vm_compute|]. split; [by vm_compute|]. split; [by vm_compute|].
  intros v Hv _. assert (get_body_raw v = name1) as ->.
  { apply (f_equal (λ r, match r with Ok v => get_body_raw v | Err _ => [] end)) in Hv. rewrite <-Hv. by vm_compute. }
  split; [apply (bool_decide_unpack _); by vm_compute|]. intros Hf. assert (is_fresh (app_context connected) = true) as Ht by reflexivity. congruence.
Qed.

Ltac next_packet :=
  eapply packet_received; [reflexivity| |apply (bool_decide_unpack _); by vm_compute|by vm_compute|by vm_compute
    |apply (bool_decide_unpack _); by vm_compute|by vm_compute].

(** in the rewrite mode, the first event of a connection starts a local file *)
Definition local_config : rewrite_config := mk_rewrite_config 7 (text "local") 1000000.
Definition rewritten : application :=
  (receive_packet (Some local_config) tick (0 :: gtid_event 113 226) connected).1.

Lemma gtid_event_fits : rewrite_fits local_config tick connected (gtid_event 113 226).
Proof.
  split; [apply (bool_decide_unpack _); by vm_compute|]. split; [by vm_compute|]. split; [|split].
  - exists 100, 100. split; [|split; [by vm_compute|]; split; [by vm_compute|]].
    + split; [by vm_compute|]. split; [by vm_compute|]. split; [by vm_compute|]. split; [by vm_compute|].
      intros n Hn. assert (next_binlog_name local_config (app_context connected) (app_storage connected) =
        Ok (mk_binlog_name (text "local") 1)) as He by (by vm_compute).
      rewrite He in Hn. assert (n = mk_binlog_name (text "local") 1) as -> by congruence.
      split; [|split]; apply (bool_decide_unpack _); by vm_compute.
    + intros a0 x Hh. apply (f_equal (λ r, calculate_encoded_size (get_gtids (app_storage r.1)))) in Hh.
      cbn [fst] in Hh. rewrite <-Hh. by vm_compute.
  - intros a1 Hs. apply (f_equal (λ r, st_incomplete_sequence_number (app_storage r.1))) in Hs.
    cbn [fst] in Hs. rewrite <-Hs. by vm_compute.
  - intros v b Hv _ Hc. apply (f_equal (λ r, match r with Ok v => (label_of v).1 | Err _ => ct_unknown end)) in Hv.
    rewrite Hc in Hv. by vm_compute in Hv.
Qed.

Lemma program_invariant_witness :
  rc_position (app_context (received 5)) = end_of (app_storage (received 5)) ∧
  rc_position (app_context rewritten) = end_of (app_storage rewritten).
Proof.
  assert (program_reachable (received 5)) as Hr.
  { next_packet. next_packet. next_packet. next_packet. apply first_packet_received. }
  destruct (program_invariant (received 5) Hr) as (_ & _ & _ & _ & _ & _ & Hag).
  assert (rc_state (app_context (received 5)) = any_other_expected ∧ is_fresh (app_context (received 5)) = false)
    as [Hst Hf] by (split; by vm_compute).
  rewrite Hf, Hst in Hag. split; [exact (proj2 Hag)|].
  assert (program_reachable rewritten) as Hw.
  { eapply (program_rewritten_packet local_config tick 0 (gtid_event 113 226) connected);
      [apply connected_reachable|apply gtid_event_fits|apply action_result; [reflexivity|by vm_compute]]. }
  destruct (program_invariant rewritten Hw) as (_ & _ & _ & _ & _ & _ & Hag').
  assert (rc_state (app_context rewritten) = any_other_expected ∧ is_fresh (app_context rewritten) = false)
    as [Hst' Hf'] by (split; by vm_compute).
  rewrite Hf', Hst' in Hag'. exact (proj2 Hag').
Defined.
End ProgramExamples.
