(* ===== verification/TestDump.v ===== *)
(** * The dump of the test server in the storage of the program

    What the test server of src/src/minimysql sends to a client that asks for a dump is part of
    a real binary log.  Here a session of it (MiniMysql.v) is run for a client with the right
    password, and the packets of the dump go through the replication loop (App.v) into an empty
    storage, with the checksum of zlib as a concrete function. *)

From S2P Require Import Prelude ByteSpan OrderedMap IntervalSet Gtid GtidSet GtidSetEncoding GtidSetText Util.
From S2P Require Import Protocol ReaderContext Rewriter Event Backend Metadata Storage StorageLog StorageDisk.
From S2P Require Import App Program Messages MiniMysql MiniMysqlLaws.
Import IntervalList UuidModel MetadataExamples BackendExamples LogExamples DiskExamples AppExamples MiniMysqlExamples.

Local Open Scope Z_scope.

(** CRC-32, bit by bit *)
Definition crc32_step (crc byte : Z) : Z :=
  Nat.iter 8 (λ c, if Z.odd c then Z.lxor (Z.shiftr c 1) 0xedb88320 else Z.shiftr c 1) (Z.lxor crc byte).
#[local] Instance crc32 : Zlib := {
  crc32_z crc data :=
    match data with
    | None => 0
    | Some bytes => Z.lxor (foldl crc32_step (Z.lxor crc 0xffffffff) bytes) 0xffffffff
    end
}.
Example crc32_check : calculate_crc32 (text "123456789") = 0xcbf43926.
Proof. by vm_compute. Qed.

(** the packets that follow the answers to the other commands *)
Definition dumped : list (list Z) := drop 10 (frame_payload <$> sent (trace_of served)).
Definition dumped_events : list (list Z) := tail <$> take 10 dumped.
(** every event but the artificial one ends with its checksum *)
Example dumped_checksums :
  (λ e, calculate_crc32 (take (length e - 4) e) =? le_combine (drop (length e - 4) e)) <$> dumped_events =
  false :: replicate 9 true.
Proof. by vm_compute. Qed.

(** a program that does not verify checksums receives them; the client library turns the last
    packet into the end of the stream *)
Definition test_server : server := mk_server 80407 (Some []) (λ _, true).
Definition packets : list (packet_clock * option (list Z)) :=
  ((λ payload, (tick, Some payload)) <$> take 10 dumped) ++ [(tick, Some [])].
Definition received := receive_loop None packets (mk_app (initial_context test_server false started) started).
Definition stored : storage := destroy_storage (app_storage received.1).

Example dump_ends : received.2 = Ok reached_eof ∧ is_at_transaction_boundary (app_context received.1) = true.
Proof. by vm_compute. Qed.
Example dump_stored :
  disk stored !! text "binlog.000001" = Some (magic_binlog_payload ++ mjoin (tail dumped_events)) ∧
  str (get_gtids stored) = text "b114550c-5d3d-11f1-a73a-00155df1f492:1-2".
Proof. by vm_compute. Qed.
