(* ===== verification/Main.v ===== *)
(** * The program over a connection

    Models the rest of src/src/app.cpp: [receive_binlog_events] over a connection to a server
    (Connection.v), the idle loop of the pull mode, and [main].

    The termination flag is set by a signal handler at any moment and stays set: the state
    says how many more tests find it clear, if a signal comes at all.  Loops that may run
    forever take fuel, and answer [None] when it runs out.  The readings of the clock for the
    n-th packet of the process are [clock_at n].  Logging is left out. *)

From stdpp Require Import gmap.
From S2P Require Import Prelude ByteSpan OrderedMap IntervalSet Gtid GtidSet GtidSetEncoding GtidSetText.
From S2P Require Import Util Protocol GtidLog GtidTaggedLog ReaderContext Rewriter Event Backend Metadata.
From S2P Require Import Storage StorageLog StorageDisk Commands Connection ConnectionTrace Config App.

Local Open Scope Z_scope.

Definition EXIT_SUCCESS : Z := 0.
Definition EXIT_FAILURE : Z := 1.

(** [termination_flag.test()]: what it yields, and the tests to come *)
Definition test_flag (signal : option nat) : bool * option nat :=
  match signal with
  | Some O => (true, Some O)
  | Some (S tests) => (false, Some tests)
  | None => (false, None)
  end.

(** [try { m } catch (const easymysql::core_error &)] *)
Definition try_core {S A} (m : action S A) (handler : error → action S A) : action S A := λ s,
  match m s with
  | (s, Err (core_error code what)) => handler (core_error code what) s
  | x => x
  end.

Lemma run_bind {S A B} (m : action S A) (f : A → action S B) s s1 x :
  m s = (s1, x) → (m ≫= f) s = match x with Ok a => f a s1 | Err e => (s1, Err e) end.
Proof. unfold mbind, action_bind. intros ->. by destruct x. Qed.

Section main.
Context `{StorageBackend B} `{IntervalSet} `{BoostUuid} `{BoostPosixTime} `{BoostJson} `{Zlib}.
Context `{MysqlConstants} (clock_at : nat → packet_clock).

Section receiving.
Context {W : Type} `{MysqlClient W}.
Abbreviation storage := (Storage.storage (B := B)).

(** ** Opening a connection *)
Abbreviation opening := (W * connection * storage)%type.
Definition on_connection {A} : action (W * connection) A → action opening A :=
  on_member fst (λ wc o, (wc, o.2)).
Definition on_opened_storage {A} : action storage A → action opening A :=
  on_member snd (λ s o, (o.1, s)).

(** [connection = mysql_lib.create_connection(connection_config)] *)
Definition connect (config : connection_config) : action (W * connection) unit := λ '(w, c),
  match create_connection config w with
  | (w, Ok other) => move_assign other (w, c)
  | (w, Err e) => ((w, c), Err e)
  end.

Definition select_gtid_purged_query : list Z := text "SELECT @@GLOBAL.gtid_purged".

(** the call that makes the request *)
Definition send_request (server_id : Z) (verify_checksum : bool)
    (blocking_mode : connection_replication_mode_type) (request : replication_request)
    : action (W * connection) unit :=
  match request with
  | request_gtid encoded_gtids =>
      switch_to_gtid_replication server_id encoded_gtids verify_checksum blocking_mode
  | request_from_start => switch_to_first_position server_id verify_checksum blocking_mode
  | request_position name position =>
      switch_to_position_replication server_id name position verify_checksum blocking_mode
  end.

(** the second [try] block *)
Definition request_replication (server_id : Z) (verify_checksum : bool)
    (blocking_mode : connection_replication_mode_type) : action opening unit :=
  gtid_mode ← gets (λ o, is_in_gtid_replication_mode o.2);
  empty ← gets (λ o, storage_is_empty o.2);
  _ ← (if gtid_mode && empty then
         value ← on_connection (execute_select_query_string_result select_gtid_purged_query);
         gtids ← of_result (gtid_set_of_string value);
         on_opened_storage (set_purged gtids)
       else mret ());
  request ← on_opened_storage make_request;
  on_connection (send_request server_id verify_checksum blocking_mode request).

Definition open_connection_and_switch_to_replication (operation_mode : operation_mode_type)
    (config : connection_config) (server_id : Z) (verify_checksum : bool) : action opening bool :=
  let handler e := if bool_decide (operation_mode = mode_fetch) then throw e else mret false in
  established ← try_core (_ ← on_connection (connect config); mret true) handler;
  if negb established then mret false
  else
    let blocking_mode := if bool_decide (operation_mode = mode_fetch) then non_blocking else blocking in
    try_core (_ ← request_replication server_id verify_checksum blocking_mode; mret true) handler.

(** ** Receiving events *)
Record receiving := mk_receiving {
  rv_client : W;
  rv_connection : connection;
  rv_signal : option nat;
  rv_packets : nat;
  rv_app : application (B := B)
}.
Definition rv_test : action receiving bool := λ r,
  let (set, signal) := test_flag (rv_signal r) in
  (mk_receiving (rv_client r) (rv_connection r) signal (rv_packets r) (rv_app r), Ok set).
Definition rv_on_connection {A} : action (W * connection) A → action receiving A :=
  on_member (λ r, (rv_client r, rv_connection r))
    (λ wc r, mk_receiving wc.1 wc.2 (rv_signal r) (rv_packets r) (rv_app r)).
Definition rv_on_app {A} : action (application (B := B)) A → action receiving A :=
  on_member rv_app (λ a r, mk_receiving (rv_client r) (rv_connection r) (rv_signal r) (rv_packets r) a).
Definition rv_clock : action receiving packet_clock := λ r,
  (mk_receiving (rv_client r) (rv_connection r) (rv_signal r) (S (rv_packets r)) (rv_app r),
   Ok (clock_at (rv_packets r))).

(** the [while] loop *)
Fixpoint fetch_loop (fuel : nat) (optional_rewrite_config : option rewrite_config)
    : action receiving (option stream_end) :=
  match fuel with
  | O => mret None
  | S fuel =>
      terminated ← rv_test;
      if terminated : bool then mret (Some terminated_by_signal)
      else
        portion ← rv_on_connection fetch_binlog_event;
        match portion with
        | None => mret (Some connection_lost)
        | Some [] => mret (Some reached_eof)
        | Some portion =>
            now ← rv_clock;
            _ ← rv_on_app (receive_packet optional_rewrite_config now portion);
            fetch_loop fuel optional_rewrite_config
        end
  end.

(** what follows the loop *)
Definition after_loop (operation_mode : operation_mode_type) (ended : stream_end) : action receiving unit :=
  terminated ← rv_test;
  if terminated : bool then mret ()
  else
    match ended with
    | terminated_by_signal | reached_eof => mret ()
    | connection_lost =>
        if bool_decide (operation_mode = mode_fetch) then
          throw (logic_error "fetch operation did not reach EOF reading binlog events")
        else rv_on_app (on_member app_storage set_app_storage abandon_connection)
    end.

Definition receive_events (fuel : nat) (operation_mode : operation_mode_type)
    (optional_rewrite_config : option rewrite_config) : action receiving (option unit) :=
  ended ← fetch_loop fuel optional_rewrite_config;
  match ended with
  | None => mret None
  | Some ended => _ ← after_loop operation_mode ended; mret (Some ())
  end.

(** what [main] keeps while it streams *)
Record process := mk_process {
  p_client : W;
  p_storage : storage;
  p_signal : option nat;
  p_packets : nat;
  p_slept : nat
}.

(** the connection is destroyed when the function is left, but for a run that is cut short *)
Definition leave {A} (r : receiving) (slept : nat) (outcome : result (option A)) : process * result (option A) :=
  let w := match outcome with
           | Ok None => rv_client r
           | _ => destroy_connection (rv_connection r) (rv_client r)
           end in
  (mk_process w (app_storage (rv_app r)) (rv_signal r) (rv_packets r) slept, outcome).

Definition receive_binlog_events (fuel : nat) (operation_mode : operation_mode_type)
    (config : connection_config) (server_id : Z) (verify_checksum : bool)
    (optional_rewrite_config : option rewrite_config) : action process (option unit) := λ p,
  let '((w, c, s), opened) :=
    open_connection_and_switch_to_replication operation_mode config server_id verify_checksum
      (p_client p, empty_connection, p_storage p) in
  let receiving_from version :=
    mk_receiving w c (p_signal p) (p_packets p)
      (mk_app (make_reader_context version verify_checksum (st_replication_mode s)
                 (binlog_name_str (get_current_binlog_name s)) (u32 (get_current_position s))) s) in
  match opened with
  | Err e => leave (receiving_from 0) (p_slept p) (Err e)
  | Ok false => leave (receiving_from 0) (p_slept p) (Ok (Some ()))
  | Ok true =>
      let (r, received) :=
        (version ← rv_on_connection get_server_version;
         _ ← modify (λ r, receiving_from version);
         receive_events fuel operation_mode optional_rewrite_config) (receiving_from 0) in
      leave r (p_slept p) received
  end.

(** ** Waiting *)
Definition p_test : action process bool := λ p,
  let (set, signal) := test_flag (p_signal p) in
  (mk_process (p_client p) (p_storage p) signal (p_packets p) (p_slept p), Ok set).
(** [std::this_thread::sleep_for(std::chrono::seconds(1U))] *)
Definition sleep_a_second : action process unit :=
  modify (λ p, mk_process (p_client p) (p_storage p) (p_signal p) (p_packets p) (S (p_slept p))).

Fixpoint sleep_iterations (idle_time_seconds : nat) : action process unit :=
  match idle_time_seconds with
  | O => mret ()
  | S idle_time_seconds =>
      terminated ← p_test;
      if terminated : bool then mret ()
      else _ ← sleep_a_second; sleep_iterations idle_time_seconds
  end.
Definition wait_for_interruptable (idle_time_seconds : nat) : action process bool :=
  _ ← sleep_iterations idle_time_seconds;
  terminated ← p_test;
  mret (negb terminated).

(** ** [main] *)
Record streaming_config := mk_streaming_config {
  sc_storage : configuration (B := B);
  sc_connection : connection_config;
  sc_server_id : Z;
  sc_idle_time : nat;
  sc_verify_checksum : bool;
  sc_rewrite : option (list Z * Z)
}.
Definition optional_rewrite (config : streaming_config) : option rewrite_config :=
  (λ rw, mk_rewrite_config (sc_server_id config) rw.1 rw.2) <$> sc_rewrite config.

(** [std::chrono::seconds{value}] as a duration of the steady clock, in nanoseconds: the
    value is taken as a signed number, and the product must not overflow *)
Definition seconds_to_duration (value : Z) : result Z :=
  let seconds := if value <? 2 ^ 63 then value else value - 2 ^ 64 in
  let duration := seconds * 1000000000 in
  _ ← raise_if (negb (bool_decide (- 2 ^ 63 ≤ duration < 2 ^ 63)))
        (undefined_behaviour "signed integer overflow");
  Ok duration.

(** the configuration of a run, from the file at a path.  The storage is built from
    [checkpoint_size] and [checkpoint_interval], 0 where they are absent, and the backend
    that the factory makes. *)
Definition read_config_file `{BoostJsonDocument} (files : list Z → option (list Z))
    (create_backend : storage_config → result (basic_storage_backend B)) (config_file_path : list Z)
    : result streaming_config :=
  config ← make_main_config (files config_file_path);
  let storage_config := mc_storage config in
  let replication_config := mc_replication config in
  checkpoint_interval ← seconds_to_duration
    (from_option time_unit_value 0 (sc_checkpoint_interval storage_config));
  backend ← create_backend storage_config;
  Ok (mk_streaming_config
        (mk_configuration backend (rp_mode replication_config)
           (from_option size_unit_value 0 (sc_checkpoint_size storage_config))
           checkpoint_interval)
        (mc_connection config) (rp_server_id replication_config)
        (Z.to_nat (rp_idle_time replication_config)) (rp_verify_checksum replication_config)
        ((λ rewrite, (rs_base_file_name rewrite, size_unit_value (rs_file_size rewrite))) <$>
           rp_rewrite replication_config)).

Definition receive_configured (fuel : nat) (operation_mode : operation_mode_type) (config : streaming_config)
    : action process (option unit) :=
  receive_binlog_events fuel operation_mode (sc_connection config) (sc_server_id config)
    (sc_verify_checksum config) (optional_rewrite config).

(** the loop of the pull mode *)
Fixpoint pull_loop (iterations fuel : nat) (operation_mode : operation_mode_type) (config : streaming_config)
    : action process (option unit) :=
  match iterations with
  | O => mret None
  | S iterations =>
      terminated ← p_test;
      if terminated : bool then mret (Some ())
      else
        awoke ← wait_for_interruptable (sc_idle_time config);
        if negb awoke then mret (Some ())
        else
          received ← receive_configured fuel operation_mode config;
          match received with
          | None => mret None
          | Some _ => pull_loop iterations fuel operation_mode config
          end
  end.

Definition stream (fuel : nat) (operation_mode : operation_mode_type) (config : streaming_config)
    : action process (option unit) :=
  received ← receive_configured fuel operation_mode config;
  match received with
  | None => mret None
  | Some _ =>
      if bool_decide (operation_mode = mode_pull) then pull_loop fuel fuel operation_mode config
      else mret (Some ())
  end.

Inductive outcome :=
  | still_running
  | exited (exit_code : Z)
  | aborted (e : error).
(** [catch (...)] *)
Definition outcome_of (r : result (option unit)) : outcome :=
  match r with
  | Ok None => still_running
  | Ok (Some _) => exited EXIT_SUCCESS
  | Err e => if is_exception e then exited EXIT_FAILURE else aborted e
  end.

(** the [try] block of [main]; the MySQL library and then the storage are destroyed when it
    is left *)
Definition run_streaming (fuel : nat) (operation_mode : operation_mode_type)
    (read_config : result streaming_config) (set_handlers : result unit) (w : W) (signal : option nat)
    : W * option storage * option nat * outcome :=
  let failed e := (w, None, signal, outcome_of (Err e)) in
  match read_config with
  | Err e => failed e
  | Ok config =>
      match set_handlers with
      | Err e => failed e
      | Ok _ =>
          match open_storage streaming (sc_storage config) with
          | Err e => failed e
          | Ok s =>
              match mysql_library_init w with
              | (w, false) =>
                  (w, Some (destroy_storage s), signal,
                   outcome_of (Err (logic_error "cannot initialize MySQL library")))
              | (w, true) =>
                  let (p, r) := stream fuel operation_mode config (mk_process w s signal 0 0) in
                  match r with
                  | Ok None => (p_client p, Some (p_storage p), p_signal p, still_running)
                  | _ => (mysql_library_end (p_client p), Some (destroy_storage (p_storage p)), p_signal p, outcome_of r)
                  end
              end
          end
      end
  end.

Definition main (fuel : nat) (cmd_args : list (list Z)) (read_config : list Z → result streaming_config)
    (set_handlers : result unit) (w : W) (signal : option nat) : W * option storage * option nat * outcome :=
  match check_cmd_args cmd_args with
  | None => (w, None, signal, exited EXIT_FAILURE)
  | Some (operation_mode, config_file_path, subcommand_value) =>
      let config := read_config config_file_path in
      match dispatch_stateless_command operation_mode (sc_storage <$> config) subcommand_value with
      | Some (Ok succeeded) =>
          (w, None, signal, exited (if succeeded : bool then EXIT_SUCCESS else EXIT_FAILURE))
      | Some (Err e) => (w, None, signal, aborted e)
      | None => run_streaming fuel operation_mode config set_handlers w signal
      end
  end.
End receiving.
End main.

(** ** A concrete program *)
Module MainExamples.
Import IntervalList UuidModel MetadataExamples BackendExamples LogExamples DiskExamples StreamExamples AppExamples.
Import ScriptedClient.

Definition ticks (n : nat) : packet_clock := tick.

(** a server that sends the artificial rotate event and the format description of a file, and
    is lost after them *)
Definition two_packets : script := mk_script ((λ p, 0 :: p) <$> take 2 sample_stream) 0.
Definition pull_config : streaming_config :=
  mk_streaming_config (mk_configuration (mk_basic_backend blank false) mode_gtid 0 0) sample_config 7 2 false None.
Definition pull_args : list (list Z) := [text "binlog_server"; text "pull"; text "config.json"].
Definition pull_process : process := mk_process two_packets started None 0 0.
End MainExamples.
