(* ===== verification/Delivery.v ===== *)
(** * The loop over a connection refines the loop over what it delivers

    [receive_binlog_events] of Main.v works on a connection to a server, through the client
    library.  Whatever the library does, the storage it leaves and the way it ends are those
    of the loop of App.v on the packets that the connection delivers, after the requests of
    App.v were answered by some server: what is proved there holds of the program. *)

From stdpp Require Import gmap.
From S2P Require Import Prelude ByteSpan OrderedMap IntervalSet Gtid GtidSet GtidSetEncoding GtidSetText.
From S2P Require Import Util Protocol GtidLog GtidTaggedLog ReaderContext Rewriter Event Backend Metadata.
From S2P Require Import Storage StorageLog StorageDisk Commands Connection ConnectionTrace App Main.

Local Open Scope Z_scope.

Section delivery.
Context `{StorageBackend B} `{IntervalSet} `{BoostUuid} `{BoostPosixTime} `{BoostJson} `{Zlib}.
Context `{MysqlConstants} (clock_at : nat → packet_clock).
Context {W : Type} `{MysqlClient W} `{!MysqlClientLaws W}.
Abbreviation storage := (Storage.storage (B := B)).
Abbreviation receiving := (Main.receiving (B := B) (W := W)).
Abbreviation fresh impl := (mk_connection (Some impl) None).
Abbreviation replicating impl rpl := (mk_connection (Some impl) (Some (mk_rpl_impl impl rpl))).

(** ** Asking for a dump *)
Lemma sent server_id checksum mode request (w : W) impl wc' r :
  send_request server_id checksum mode request (w, fresh impl) = (wc', r) →
  (r = Ok () ∧ ∃ rpl, wc'.2 = replicating impl rpl) ∨ (wc'.2 = fresh impl ∧ ∃ e, r = Err e ∧ is_core_error e).
Proof.
  intros Hr. destruct request as [encoded| |name position]; cbn [send_request] in Hr;
    (eapply switched in Hr as [[-> Hc]|Hx]; [left; eauto|by right|done|done]).
Qed.

Lemma selected query (w : W) impl wc' (r : result (list Z)) :
  execute_select_query_string_result query (w, fresh impl) = (wc', r) →
  wc'.2 = fresh impl ∧ ∀ e, r = Err e → is_core_error e.
Proof. by apply (reports_select (fresh impl) impl query eq_refl eq_refl w wc' r I). Qed.

Lemma on_connection_ok {A} (m : action (W * connection) A) wc (s : storage) wc' r :
  m wc = (wc', r) → on_connection m (wc, s) = ((wc', s), r).
Proof. intros Hm. unfold on_connection, on_member. cbn. by rewrite Hm. Qed.

(** the purged GTIDs of an empty storage: what the query yields decides what becomes of the storage *)
Lemma purged_refines (w : W) impl (s : storage) o' r :
  (value ← on_connection (execute_select_query_string_result select_gtid_purged_query);
   gtids ← of_result (gtid_set_of_string value);
   on_opened_storage (set_purged gtids)) (w, fresh impl, s) = (o', r) →
  o'.1.2 = fresh impl ∧
  ((∃ value, (gtids ← of_result (gtid_set_of_string value); set_purged gtids) s = (o'.2, r)) ∨
   (o'.2 = s ∧ ∃ e, r = Err e ∧ is_core_error e)).
Proof.
  intros Hr. destruct (execute_select_query_string_result select_gtid_purged_query (w, fresh impl)) as [wc1 q] eqn:Eq.
  destruct (selected _ _ _ _ _ Eq) as [Hc He]. unfold mbind at 1, action_bind in Hr.
  rewrite (on_connection_ok _ _ _ _ _ Eq) in Hr. destruct q as [value|e].
  - unfold mbind, action_bind, of_result, on_opened_storage, on_member in *. destruct (gtid_set_of_string value) as [g|e] eqn:Eg.
    + cbn in Hr. destruct (set_purged g s) as [s1 r1] eqn:Es. injection Hr as <- <-. split; [done|]. left. exists value.
      by rewrite Eg.
    + injection Hr as <- <-. split; [done|]. left. exists value. by rewrite Eg.
  - injection Hr as <- <-. split; [done|]. right. eauto.
Qed.

(** the request, as App.v puts it to a server that accepts what [accepts] says *)
Definition ask (accepts : replication_request → bool) : action storage (option replication_request) :=
  request ← make_request; mret (if accepts request then Some request else None).

(** what comes of the request, against App.v *)
Definition request_outcome (q : result (option replication_request)) (r : result unit) : Prop :=
  match r with
  | Ok _ => ∃ request, q = Ok (Some request)
  | Err e => q = Err e ∨ q = Ok None ∧ is_core_error e
  end.

Lemma request_refines server_id checksum mode version (w : W) impl (s : storage) o' r :
  request_replication server_id checksum mode (w, fresh impl, s) = (o', r) →
  ∃ srv q, conn_server_version srv = version ∧ switch_to_replication srv s = (o'.2, q) ∧ request_outcome q r ∧
    match r with Ok _ => ∃ rpl, o'.1.2 = replicating impl rpl | Err _ => o'.1.2 = fresh impl end.
Proof.
  intros Hr. unfold request_replication in Hr. rewrite !gets_bind in Hr. cbn [snd] in Hr.
  set (needed := is_in_gtid_replication_mode s && storage_is_empty s) in *.
  (* the rest, once the purged GTIDs are known *)
  assert (∀ (w1 : W) s1 o2 r2, (request ← on_opened_storage make_request;
      on_connection (send_request server_id checksum mode request)) (w1, fresh impl, s1) = (o2, r2) →
    ∃ b q, ask b s1 = (o2.2, q) ∧
      request_outcome q r2 ∧
      match r2 with Ok _ => ∃ rpl, o2.1.2 = replicating impl rpl | Err _ => o2.1.2 = fresh impl end) as Hrest.
  { intros w1 s1 o2 r2 Hm2. unfold mbind at 1, action_bind, on_opened_storage, on_member in Hm2. cbn in Hm2.
    unfold ask, mbind, action_bind. destruct (make_request s1) as [s2 [request|e]] eqn:Em.
    2:{ injection Hm2 as <- <-. exists (λ _, true), (Err e). split; [done|]. split; [by left|done]. }
    destruct (send_request server_id checksum mode request (w1, fresh impl)) as [wc3 r3] eqn:Es.
    rewrite (on_connection_ok _ _ _ _ _ Es) in Hm2. injection Hm2 as <- <-.
    destruct (sent _ _ _ _ _ _ _ _ Es) as [[-> Hrpl]|[Hc (e & -> & He)]].
    - exists (λ _, true). eexists. split; [done|]. split; [by exists request|done].
    - exists (λ _, false). eexists. split; [done|]. split; [by right|done]. }
  apply action_bind_inv in Hr as [(e & -> & He)|(o1 & [] & Hm1 & Hm2)].
  - destruct needed eqn:En; [|done]. destruct (purged_refines _ _ _ _ _ He) as [Hc [(value & Hv)|[Hs (e' & [= <-] & Hcore)]]].
    + exists (mk_server version (Some value) (λ _, true)), (Err e). split; [done|]. split; [|split; [by left|done]].
      unfold switch_to_replication. rewrite !gets_bind. fold needed. rewrite En. cbn [conn_gtid_purged].
      apply action_bind_inv in Hv as [(e' & [= ->] & Hg)|(s1 & g & Hg & Hv)].
      * unfold mbind, action_bind. by rewrite Hg.
      * unfold mbind, action_bind. rewrite Hg. by rewrite Hv.
    + exists (mk_server version None (λ _, true)), (Ok None). split; [done|]. split; [|split; [by right|done]].
      unfold switch_to_replication. rewrite !gets_bind. fold needed. rewrite En. cbn. by rewrite Hs.
  - destruct o1 as [[w1 c1] s1]. assert (c1 = fresh impl ∧ ∃ purged, ∀ b,
      switch_to_replication (mk_server version purged b) s =
      ask b s1) as (-> & purged & Hsw).
    { destruct needed eqn:En.
      - destruct (purged_refines _ _ _ _ _ Hm1) as [Hc [(value & Hv)|[_ (e' & ? & _)]]]; [|done]. split; [done|].
        exists (Some value). intros b. unfold switch_to_replication. rewrite !gets_bind. fold needed. rewrite En.
        cbn [conn_gtid_purged conn_switch]. apply action_bind_ok in Hv as (s2 & g & Hg & Hv).
        unfold mbind, action_bind, ask. by rewrite Hg, Hv.
      - injection Hm1 as <- <- <-. split; [done|]. exists None. intros b. unfold switch_to_replication.
        rewrite !gets_bind. fold needed. by rewrite En. }
    destruct (Hrest _ _ _ _ Hm2) as (b & q & Hq & Ho & Hc). exists (mk_server version purged b), q.
    split; [done|]. split; [by rewrite Hsw|done].
Qed.

(** ** Opening *)
Definition opened_as (mode : operation_mode_type) config (w : W) (s : storage) (o' : W * connection * storage)
    (r : result bool) : Prop :=
  (o'.2 = s ∧ ∃ wc e, connect config (w, empty_connection) = (wc, Err e) ∧
     (r = Err e ∨ mode ≠ mode_fetch ∧ is_core_error e ∧ r = Ok false)) ∨
  ∃ srv q, switch_to_replication srv s = (o'.2, q) ∧
    match r with
    | Ok true => ∃ request impl rpl, q = Ok (Some request) ∧ o'.1.2 = replicating impl rpl ∧
        conn_server_version srv = u32 (mysql_get_server_version impl o'.1.1)
    | Ok false => mode ≠ mode_fetch ∧ (q = Ok None ∨ ∃ e, q = Err e ∧ is_core_error e)
    | Err e => q = Err e ∨ q = Ok None ∧ is_core_error e ∧ mode = mode_fetch
    end.

Lemma connected_as config (w : W) wc' r :
  connect config (w, empty_connection) = (wc', r) →
  (r = Ok () ∧ ∃ impl, wc'.2 = fresh impl) ∨ ∃ e, r = Err e.
Proof.
  unfold connect. intros Hr. destruct (create_connection config w) as [w1 q] eqn:Ec.
  destruct (created _ _ _ _ Ec) as [(impl & ->)|[-> |(e & -> & _)]].
  - injection Hr as <- <-. left. eauto.
  - injection Hr as <- <-. right. eauto.
  - injection Hr as <- <-. right. eauto.
Qed.

Lemma try_core_err {S A} (m : action S A) h s s1 e :
  m s = (s1, Err e) → try_core m h s = (s1, Err e) ∨ (is_core_error e ∧ try_core m h s = h e s1).
Proof.
  unfold try_core. intros ->. destruct e; try by left. right. split; [by eexists _, _|done].
Qed.
Lemma try_core_ok {S A} (m : action S A) h s s1 a : m s = (s1, Ok a) → try_core m h s = (s1, Ok a).
Proof. unfold try_core. by intros ->. Qed.

Lemma open_refines mode config server_id checksum (w : W) (s : storage) o' r :
  open_connection_and_switch_to_replication mode config server_id checksum (w, empty_connection, s) = (o', r) →
  opened_as mode config w s o' r.
Proof.
  intros Hr. unfold open_connection_and_switch_to_replication in Hr.
  set (handler := λ e, if bool_decide (mode = mode_fetch) then throw e else mret false) in Hr.
  set (rest := λ established : bool, if negb established then mret false else _) in Hr.
  destruct (connect config (w, empty_connection)) as [wc1 r1] eqn:Ec.
  pose proof (on_connection_ok (connect config) _ s _ _ Ec) as Hc.
  assert (∀ e o2 r2, handler e (wc1, s) = (o2, r2) → (o2 = (wc1, s)) ∧
    (r2 = Err e ∨ r2 = Ok false ∧ mode ≠ mode_fetch)) as Hh.
  { intros e o2 r2. unfold handler. case_bool_decide; intros [= <- <-]; auto. }
  destruct (connected_as _ _ _ _ Ec) as [[-> (impl & Hfresh)]|(e & ->)].
  2:{ left. destruct (try_core_err (_ ← on_connection (connect config); mret true) handler (w, empty_connection, s) (wc1, s) e)
        as [Ht|[Hcore Ht]]; [by rewrite (run_bind _ _ _ _ _ Hc)| |].
      - rewrite (run_bind _ _ _ _ _ Ht) in Hr. injection Hr as <- <-. split; [done|]. exists wc1, e. auto.
      - destruct (handler e (wc1, s)) as [o2 r2] eqn:E2. rewrite (run_bind _ _ _ _ _ Ht) in Hr.
        destruct (Hh _ _ _ E2) as [-> [-> |[-> Hm]]]; injection Hr as <- <-; (split; [done|]); exists wc1, e; auto. }
  rewrite (action_bind_eq _ _ _ (wc1, s) true) in Hr
    by (apply try_core_ok; by rewrite (run_bind _ _ _ _ _ Hc)).
  unfold rest in Hr. cbn [negb] in Hr. clear rest Hh. destruct wc1 as [w1 c1]. cbn in Hfresh. subst c1.
  set (blocking_mode := if bool_decide (mode = mode_fetch) then non_blocking else blocking) in Hr.
  destruct (request_replication server_id checksum blocking_mode (w1, fresh impl, s)) as [o2 r2] eqn:Eq.
  destruct (request_refines _ _ _ (u32 (mysql_get_server_version impl o2.1.1)) _ _ _ _ _ Eq) as (srv & q & Hv & Hq & Ho & Hm).
  right. exists srv, q. destruct r2 as [[]|e].
  - rewrite (try_core_ok _ _ _ o2 true) in Hr by (by rewrite (run_bind _ _ _ _ _ Eq)). injection Hr as <- <-.
    destruct Ho as (request & ->), Hm as (rpl & Hc2). split; [done|]. by exists request, impl, rpl.
  - destruct (try_core_err (_ ← request_replication server_id checksum blocking_mode; mret true) handler
      (w1, fresh impl, s) o2 e) as [Ht|[Hcore Ht]]; [by rewrite (run_bind _ _ _ _ _ Eq)| |].
    + rewrite Ht in Hr. injection Hr as <- <-. split; [done|]. destruct Ho as [-> |[-> Hcore]]; [by left|].
      destruct Hcore as (code & what & ->). right. split; [done|]. split; [by eexists _, _|].
      unfold try_core in Ht. rewrite (run_bind _ _ _ _ _ Eq) in Ht. unfold handler in Ht.
      case_bool_decide; [done|]. by injection Ht.
    + rewrite Ht in Hr. unfold handler in Hr. case_bool_decide as Hf; injection Hr as <- <-; (split; [done|]).
      * destruct Ho as [-> |[-> _]]; [by left|by right].
      * split; [done|]. destruct Ho as [-> |[-> _]]; [right; eauto|by left].
Qed.

(** ** What a connection delivers *)

(** the portions of the next [n] fetches, with the clock readings of the packets from the
    [k]-th on *)
Fixpoint deliveries (n k : nat) (wc : W * connection) : list (packet_clock * option (list Z)) :=
  match n with
  | O => []
  | S n =>
      match fetch_binlog_event wc with
      | (wc, Ok portion) => (clock_at k, portion) :: deliveries n (S k) wc
      | (_, Err _) => []
      end
  end.

Lemma fetch_loop_refines impl rpl rewrite fuel (r r' : receiving) x :
  fetch_loop clock_at fuel rewrite r = (r', x) → rv_connection r = replicating impl rpl →
  rv_connection r' = replicating impl rpl ∧
  ∃ n y, receive_loop rewrite (deliveries n (rv_packets r) (rv_client r, rv_connection r)) (rv_app r) = (rv_app r', y) ∧
    match x with
    | Ok None => True
    | Ok (Some ended) => y = Ok ended ∧ (ended = terminated_by_signal → rv_signal r' = Some O)
    | Err e => y = Err e ∨ y = Ok terminated_by_signal ∧ is_core_error e
    end.
Proof.
  revert r. induction fuel as [|fuel IH]; intros r Hr Hc.
  { injection Hr as <- <-. split; [done|]. by exists O, (Ok terminated_by_signal). }
  cbn [fetch_loop] in Hr. unfold mbind at 1, action_bind, rv_test in Hr.
  destruct (test_flag (rv_signal r)) as [set signal] eqn:Et. destruct set.
  { injection Hr as <- <-. split; [done|]. exists O, (Ok terminated_by_signal). split; [done|]. split; [done|].
    intros _. cbn. destruct (rv_signal r) as [[|k]|]; cbn in Et; congruence. }
  set (r0 := mk_receiving _ _ _ _ _) in Hr.
  destruct (fetch_binlog_event (rv_client r, rv_connection r)) as [wc1 portion] eqn:Ef.
  assert (rv_on_connection fetch_binlog_event r0 =
    (mk_receiving wc1.1 wc1.2 signal (rv_packets r) (rv_app r), portion)) as Hf.
  { unfold rv_on_connection, on_member. cbn. by rewrite Ef. }
  destruct (reports_fetch (rv_connection r) impl (mk_rpl_impl impl rpl) (f_equal mysql_impl Hc)
    (f_equal conn_rpl_impl Hc) _ _ _ I Ef) as [Hc1 Hcore]. rewrite Hc in Hc1.
  destruct portion as [portion|e].
  2:{ unfold mbind at 1, action_bind in Hr. rewrite Hf in Hr. injection Hr as <- <-. split; [done|].
      exists O, (Ok terminated_by_signal). split; [done|]. right. split; [done|]. by apply Hcore. }
  rewrite (action_bind_eq _ _ _ _ _ Hf) in Hr. destruct portion as [[|b portion]|].
  - injection Hr as <- <-. split; [done|]. exists 1%nat, (Ok reached_eof). split; [|done]. cbn. by rewrite Ef.
  - unfold mbind at 1, action_bind, rv_clock in Hr. cbn [rv_packets rv_client rv_connection rv_signal rv_app] in Hr.
    unfold mbind at 1, action_bind, rv_on_app, on_member in Hr. cbn [rv_app rv_packets rv_client rv_connection rv_signal] in Hr.
    destruct (receive_packet rewrite (clock_at (rv_packets r)) (b :: portion) (rv_app r)) as [a1 [[]|e]] eqn:Ep.
    + apply IH in Hr as [Hc' (n & y & Hl & Hy)]; [|done]. split; [done|]. exists (S n), y. split; [|done].
      cbn [deliveries]. rewrite Ef. cbn [receive_loop]. unfold mbind, action_bind. rewrite Ep.
      cbn [rv_packets rv_client rv_connection rv_app] in Hl. by destruct wc1.
    + injection Hr as <- <-. split; [done|]. exists 1%nat, (Err e). split; [|by left].
      cbn [deliveries]. rewrite Ef. cbn [receive_loop]. unfold mbind, action_bind. by rewrite Ep.
  - injection Hr as <- <-. split; [done|]. exists 1%nat, (Ok connection_lost). split; [|done]. cbn. by rewrite Ef.
Qed.

(** ** The whole function *)

(** how [receive_binlog_events] ends after the loop of App.v has ended with [y] and left the
    storage [s]: [s'] is the storage it leaves, [signal'] what is known of the flag *)
Definition ends_as (mode : operation_mode_type) (s : storage) (y : result stream_end)
    (s' : storage) (signal' : option nat) (r : result (option unit)) : Prop :=
  match y with
  | Err e => s' = s ∧ r = Err e
  | Ok terminated_by_signal =>
      s' = s ∧ (r = Ok (Some ()) ∧ signal' = Some O ∨ ∃ e, r = Err e ∧ is_core_error e)
  | Ok reached_eof => s' = s ∧ r = Ok (Some ())
  | Ok connection_lost =>
      s' = s ∧ r = Ok (Some ()) ∧ signal' = Some O ∨
      s' = s ∧ mode = mode_fetch ∧ r = Err (logic_error "fetch operation did not reach EOF reading binlog events") ∨
      mode ≠ mode_fetch ∧ ∃ z, abandon_connection s = (s', z) ∧ r = Some <$> z
  end.

Lemma after_loop_ends mode (r r' : receiving) ended x :
  after_loop mode ended r = (r', x) → (ended = terminated_by_signal → rv_signal r = Some O) →
  ends_as mode (app_storage (rv_app r)) (Ok ended) (app_storage (rv_app r')) (rv_signal r') (Some <$> x).
Proof.
  unfold after_loop. intros Hr Hs. unfold mbind at 1, action_bind, rv_test in Hr.
  destruct (test_flag (rv_signal r)) as [set signal] eqn:Et. destruct set.
  - injection Hr as <- <-. assert (signal = Some O) as -> by (destruct (rv_signal r) as [[|k]|]; cbn in Et; congruence).
    destruct ended; cbn; auto.
  - destruct ended.
    + rewrite (Hs eq_refl) in Et. done.
    + injection Hr as <- <-. done.
    + cbn. right. case_bool_decide as Hm; [left; by injection Hr as <- <-|]. right. split; [done|].
      unfold rv_on_app, on_member in Hr. cbn [rv_app] in Hr.
      destruct (abandon_connection (app_storage (rv_app r))) as [s1 z] eqn:Ea. injection Hr as <- <-. by exists z.
Qed.

(** C3: whatever the client library does, [receive_binlog_events] does to the storage what
    the loop over delivered packets does.  Either the connection could not be made, and the
    storage is untouched; or a server answered the requests of [switch_to_replication]: when it refused
    them the storage is as that left it, and when it accepted them the storage is what the
    loop of App.v makes of the packets that the successive fetches yield, starting from the
    context of the connection.  A lost connection is abandoned in the pull mode and is an
    error in the fetch mode, a connection that ends the stream is not an error, and every
    other error of the library leaves the function. *)
Theorem receive_refines fuel mode config server_id checksum rewrite (p p' : process (B := B) (W := W)) r :
  receive_binlog_events clock_at fuel mode config server_id checksum rewrite p = (p', r) → r ≠ Ok None →
  (p_storage p' = p_storage p ∧ ∃ wc e, connect config (p_client p, empty_connection) = (wc, Err e) ∧
     (r = Err e ∨ mode ≠ mode_fetch ∧ is_core_error e ∧ r = Ok (Some ()))) ∨
  ∃ srv s1 q, switch_to_replication srv (p_storage p) = (s1, q) ∧
    match q with
    | Err e => p_storage p' = s1 ∧ (r = Err e ∨ is_core_error e ∧ mode ≠ mode_fetch ∧ r = Ok (Some ()))
    | Ok None => p_storage p' = s1 ∧
        (mode = mode_fetch ∧ (∃ e, r = Err e ∧ is_core_error e) ∨ mode ≠ mode_fetch ∧ r = Ok (Some ()))
    | Ok (Some request) => ∃ wc n a' y,
        open_connection_and_switch_to_replication mode config server_id checksum
          (p_client p, empty_connection, p_storage p) = ((wc, s1), Ok true) ∧
        receive_loop rewrite (deliveries n (p_packets p) wc) (mk_app (initial_context srv checksum s1) s1) = (a', y) ∧
        ends_as mode (app_storage a') y (p_storage p') (p_signal p') r
    end.
Proof.
  intros Hr Hne. unfold receive_binlog_events in Hr.
  destruct (open_connection_and_switch_to_replication _ _ _ _ _) as [[[w c] s] opened] eqn:Eo.
  apply open_refines in Eo as [[Hs (wc & e & He & Ho)]|(srv & q & Hq & Ho)]; cbn [fst snd] in *.
  { left. destruct Ho as [-> |(Hm & Hcore & ->)]; injection Hr as <- <-; (split; [done|]); exists wc, e; auto. }
  right. exists srv, s, q. split; [done|]. destruct opened as [[]|e].
  - destruct Ho as (request & impl & rpl & -> & -> & Hv).
    set (version_action := rv_on_connection get_server_version) in Hr.
    assert (∀ r0 : receiving, rv_client r0 = w → rv_connection r0 = replicating impl rpl →
      version_action r0 = (r0, Ok (conn_server_version srv))) as Hversion.
    { intros [w0 c0 sg k a] Hw Hc. cbn in Hw, Hc. subst. by rewrite Hv. }
    rewrite (run_bind _ _ _ _ _ (Hversion (mk_receiving w (replicating impl rpl) _ _ _) eq_refl eq_refl)), modify_bind in Hr.
    set (r0 := mk_receiving _ _ _ _ _) in Hr. unfold receive_events in Hr.
    destruct (fetch_loop clock_at fuel rewrite r0) as [r1 x] eqn:Ef. rewrite (run_bind _ _ _ _ _ Ef) in Hr.
    apply fetch_loop_refines with (impl := impl) (rpl := rpl) in Ef as (Hc & n & y & Hl & Hx); [|done].
    exists (w, replicating impl rpl), n, (rv_app r1), y. split; [done|]. split; [exact Hl|]. destruct x as [[ended|]|e].
    + destruct Hx as [-> Hsig]. destruct (after_loop mode ended r1) as [r2 z] eqn:Ea. rewrite (run_bind _ _ _ _ _ Ea) in Hr.
      pose proof (after_loop_ends _ _ _ _ _ Ea Hsig) as He.
      destruct z as [[]|e]; injection Hr as <- <-; exact He.
    + injection Hr as <- <-. done.
    + injection Hr as <- <-. destruct Hx as [-> |[-> Hcore]]; [done|]. split; [done|]. right. eauto.
  - injection Hr as <- <-. destruct Ho as [Hm [-> |(e & -> & He)]].
    + split; [done|by right].
    + split; [done|]. by right.
  - injection Hr as <- <-. destruct Ho as [-> |(-> & Hcore & Hm)]; (split; [done|]); [by left|]. left. split; [done|]. eauto.
Qed.
End delivery.

(** ** A connection that is lost after two packets *)
Module DeliveryExamples.
Import IntervalList UuidModel MetadataExamples BackendExamples LogExamples DiskExamples StreamExamples AppExamples.
Import ScriptedClient MainExamples.

Definition after_pull : process := (receive_binlog_events ticks 10 mode_pull sample_config 7 false None pull_process).1.

Lemma receive_refines_witness :
  ∃ srv s1 q, switch_to_replication srv started = (s1, q) ∧
    match q with
    | Err e => p_storage after_pull = s1
    | Ok None => p_storage after_pull = s1
    | Ok (Some request) => ∃ wc n a' y,
        open_connection_and_switch_to_replication mode_pull sample_config 7 false
          (two_packets, empty_connection, started) = ((wc, s1), Ok true) ∧
        receive_loop None (deliveries ticks n 0 wc) (mk_app (initial_context srv false s1) s1) = (a', y) ∧
        ends_as mode_pull (app_storage a') y (p_storage after_pull) (p_signal after_pull) (Ok (Some ()))
    end.
Proof.
  assert (receive_binlog_events ticks 10 mode_pull sample_config 7 false None pull_process =
    (after_pull, Ok (Some ()))) as Hr by run_action.
  destruct (receive_refines ticks 10 mode_pull sample_config 7 false None pull_process after_pull _ Hr)
    as [[Hs _]|(srv & s1 & q & Hsw & Hq)]; [done| |].
  - apply (f_equal (λ s, length (st_records s))) in Hs. by vm_compute in Hs.
  - exists srv, s1, q. split; [exact Hsw|].
    destruct q as [[request|]|e]; [exact Hq|by destruct Hq|by destruct Hq].
Defined.
End DeliveryExamples.
