(* ===== verification/Shutdown.v ===== *)
(** * How the program ends

    Two properties of [main] (Main.v) that hold whatever the server, the client library and
    the storage do.  After a signal the program ends: every loop tests the termination flag
    between two packets and between two seconds of sleep.  And the client library is used by
    its rules (ConnectionTrace.v) on every path, also when exceptions are thrown: every
    connection that is opened is closed, its dump first. *)

From stdpp Require Import gmap.
From S2P Require Import Prelude ByteSpan OrderedMap IntervalSet Gtid GtidSet GtidSetEncoding GtidSetText.
From S2P Require Import Util Protocol GtidLog GtidTaggedLog ReaderContext Rewriter Event Backend Metadata.
From S2P Require Import Storage StorageLog StorageDisk Commands Connection ConnectionTrace App Main.

Local Open Scope Z_scope.

Lemma test_flag_some k set signal :
  test_flag (Some k) = (set, signal) →
  set = true ∧ k = O ∧ signal = Some O ∨ ∃ k', set = false ∧ k = S k' ∧ signal = Some k'.
Proof. destruct k as [|k]; intros [= <- <-]; [by left|right; eauto]. Qed.

(** ** After a signal *)
Section shutdown.
Context `{StorageBackend B} `{IntervalSet} `{BoostUuid} `{BoostPosixTime} `{BoostJson} `{Zlib}.
Context `{MysqlConstants} (clock_at : nat → packet_clock).
Context {W : Type} `{MysqlClient W}.
Abbreviation receiving := (Main.receiving (B := B) (W := W)).
Abbreviation process := (Main.process (B := B) (W := W)).

Lemma fetch_loop_ends rewrite fuel (r r' : receiving) x k :
  fetch_loop clock_at fuel rewrite r = (r', x) → rv_signal r = Some k →
  (k < fuel → x ≠ Ok None)%nat ∧
  ∃ k', rv_signal r' = Some k' ∧ (rv_packets r' + k' ≤ rv_packets r + k)%nat ∧ (k' ≤ k)%nat.
Proof.
  revert r k. induction fuel as [|fuel IH]; intros r k Hr Hs.
  { injection Hr as <- <-. split; [lia|]. exists k. split; [done|lia]. }
  cbn [fetch_loop] in Hr. destruct (test_flag (rv_signal r)) as [set signal] eqn:Et.
  assert (rv_test r = (mk_receiving (rv_client r) (rv_connection r) signal (rv_packets r) (rv_app r), Ok set)) as Ht
    by (unfold rv_test; by rewrite Et).
  rewrite (run_bind _ _ _ _ _ Ht) in Hr. rewrite Hs in Et.
  destruct (test_flag_some _ _ _ Et) as [(-> & -> & ->)|(k1 & -> & -> & ->)].
  { injection Hr as <- <-. split; [done|]. exists O. split; [done|]. cbn. lia. }
  set (r0 := mk_receiving _ _ _ _ _) in Hr.
  destruct (rv_on_connection fetch_binlog_event r0) as [r1 portion] eqn:Ef. rewrite (run_bind _ _ _ _ _ Ef) in Hr.
  assert (rv_signal r1 = Some k1 ∧ rv_packets r1 = rv_packets r) as [Hs1 Hp1].
  { unfold rv_on_connection, on_member in Ef. destruct (fetch_binlog_event _). by injection Ef as <- _. }
  destruct portion as [[[|b portion]|]|e].
  2:{ unfold mbind at 1, action_bind, rv_clock in Hr. cbn [rv_packets rv_client rv_connection rv_signal rv_app] in Hr.
      set (r2 := mk_receiving _ _ _ _ _) in Hr.
      destruct (rv_on_app (receive_packet rewrite (clock_at (rv_packets r1)) (b :: portion)) r2) as [r3 y] eqn:Ep.
      rewrite (run_bind _ _ _ _ _ Ep) in Hr.
      assert (rv_signal r3 = Some k1 ∧ rv_packets r3 = S (rv_packets r)) as [Hs3 Hp3].
      { unfold rv_on_app, on_member in Ep. destruct (receive_packet _ _ _ _). injection Ep as <- _. cbn. by rewrite Hp1. }
      destruct y as [[]|e].
      - destruct (IH _ _ Hr Hs3) as [Hx (k' & Hk & Hle & Hle')]. split; [intros; apply Hx; lia|]. exists k'. split; [done|lia].
      - injection Hr as <- <-. split; [done|]. exists k1. split; [done|lia]. }
  all: injection Hr as <- <-; split; [done|]; exists k1; split; [done|lia].
Qed.

Lemma after_loop_signal mode ended (r r' : receiving) x k :
  after_loop mode ended r = (r', x) → rv_signal r = Some k →
  ∃ k', rv_signal r' = Some k' ∧ (k' ≤ k)%nat ∧ rv_packets r' = rv_packets r.
Proof.
  intros Hr Hs. unfold after_loop in Hr. destruct (test_flag (rv_signal r)) as [set signal] eqn:Et.
  assert (rv_test r = (mk_receiving (rv_client r) (rv_connection r) signal (rv_packets r) (rv_app r), Ok set)) as Ht
    by (unfold rv_test; by rewrite Et).
  rewrite (run_bind _ _ _ _ _ Ht) in Hr. rewrite Hs in Et.
  destruct (test_flag_some _ _ _ Et) as [(-> & -> & ->)|(k1 & -> & -> & ->)];
    [injection Hr as <- <-; by exists O|]. exists k1.
  destruct ended; [by injection Hr as <- <-; auto..|].
  case_bool_decide; [by injection Hr as <- <-; auto|]. unfold rv_on_app, on_member in Hr.
  destruct (abandon_connection _). injection Hr as <- <-. auto.
Qed.

(** packets and seconds of sleep are paid with tests of the flag *)
Definition pays (k : nat) (p p' : process) : Prop :=
  ∃ k', p_signal p' = Some k' ∧ (p_packets p' + p_slept p' + k' ≤ p_packets p + p_slept p + k)%nat ∧ (k' ≤ k)%nat.

Lemma pays_trans k1 k2 p1 p2 p3 :
  p_signal p2 = Some k2 → pays k1 p1 p2 → pays k2 p2 p3 → pays k1 p1 p3.
Proof.
  intros Hs (k & Hk & Hle & Hle') (k' & Hk' & Hle2 & Hle2'). assert (k = k2) as -> by congruence.
  exists k'. split; [done|]. lia.
Qed.

Lemma receive_ends fuel mode config server_id checksum rewrite (p p' : process) r k :
  receive_binlog_events clock_at fuel mode config server_id checksum rewrite p = (p', r) → p_signal p = Some k →
  (k < fuel → r ≠ Ok None)%nat ∧ pays k p p'.
Proof.
  intros Hr Hs. unfold receive_binlog_events in Hr.
  destruct (open_connection_and_switch_to_replication _ _ _ _ _) as [[[w c] s] [[]|e]] eqn:Eo.
  2-3: injection Hr as <- <-; (split; [done|]); exists k; cbn; split; [done|lia].
  match type of Hr with (let (_, _) := ?m in _) = _ => destruct m as [r2 x] eqn:Em end.
  assert ((k < fuel → x ≠ Ok None)%nat ∧
    ∃ k', rv_signal r2 = Some k' ∧ (rv_packets r2 + k' ≤ p_packets p + k)%nat ∧ (k' ≤ k)%nat) as [Hx (k' & Hk & Hle & Hle')].
  { apply action_bind_inv in Em as [(e & -> & He)|(r3 & version & _ & Em)].
    - split; [done|]. unfold rv_on_connection, on_member in He.
      destruct (get_server_version _) as [wc y]. injection He as <- _. exists k. cbn. split; [done|lia].
    - rewrite modify_bind in Em. unfold receive_events in Em.
      match type of Em with (_ ≫= _) ?r0 = _ => destruct (fetch_loop clock_at fuel rewrite r0) as [r4 y] eqn:Ef end. rewrite (run_bind _ _ _ _ _ Ef) in Em.
      destruct (fetch_loop_ends _ _ _ _ _ k Ef Hs) as [Hy (k4 & Hk4 & Hle4 & Hle4')]. cbn [rv_packets] in Hle4.
      destruct y as [[ended|]|e].
      + destruct (after_loop mode ended r4) as [r5 z] eqn:Ea. rewrite (run_bind _ _ _ _ _ Ea) in Em.
        destruct (after_loop_signal _ _ _ _ _ _ Ea Hk4) as (k5 & Hk5 & Hle5 & Hp5).
        destruct z as [[]|e]; injection Em as <- <-; (split; [done|]); exists k5; (split; [done|lia]).
      + injection Em as <- <-. split; [intros Hlt _; by apply (Hy Hlt)|]. exists k4. split; [done|lia].
      + injection Em as <- <-. split; [done|]. exists k4. split; [done|lia]. }
  unfold leave in Hr. injection Hr as <- <-. split; [done|]. exists k'. cbn. split; [done|lia].
Qed.

Lemma p_test_pays (p p' : process) r k :
  p_test p = (p', r) → p_signal p = Some k →
  (k = O ∧ r = Ok true ∧ p_signal p' = Some O ∧ pays k p p') ∨
  ∃ k', k = S k' ∧ r = Ok false ∧ p_signal p' = Some k' ∧
    p_packets p' = p_packets p ∧ p_slept p' = p_slept p.
Proof.
  unfold p_test. intros Hr Hs. destruct (test_flag (p_signal p)) as [set signal] eqn:Et. rewrite Hs in Et.
  injection Hr as <- <-. destruct (test_flag_some _ _ _ Et) as [(-> & -> & ->)|(k1 & -> & -> & ->)].
  - left. split_and!; [done..|]. exists O. split; [done|]. cbn. lia.
  - right. exists k1. by split_and!.
Qed.

Lemma sleep_pays n (p p' : process) r k :
  sleep_iterations n p = (p', r) → p_signal p = Some k → r = Ok () ∧ pays k p p'.
Proof.
  revert p k. induction n as [|n IH]; intros p k Hr Hs; cbn [sleep_iterations] in Hr.
  { injection Hr as <- <-. split; [done|]. exists k. split; [done|lia]. }
  destruct (p_test p) as [p1 r1] eqn:Et. rewrite (run_bind _ _ _ _ _ Et) in Hr.
  destruct (p_test_pays _ _ _ _ Et Hs) as [(-> & -> & _ & Hp)|(k1 & -> & -> & Hs1 & Hp1 & Hq1)].
  - injection Hr as <- <-. by split.
  - unfold sleep_a_second in Hr. rewrite modify_bind in Hr.
    destruct (IH _ k1 Hr Hs1) as [-> (k' & Hk & Hle & Hle')]. split; [done|]. exists k'. split; [done|].
    cbn [p_packets p_slept] in Hle. lia.
Qed.

Lemma wait_pays n (p p' : process) r k :
  wait_for_interruptable n p = (p', r) → p_signal p = Some k →
  pays k p p' ∧ (r = Ok true ∨ r = Ok false ∧ p_signal p' = Some O).
Proof.
  unfold wait_for_interruptable. intros Hr Hs. destruct (sleep_iterations n p) as [p1 r1] eqn:Es.
  destruct (sleep_pays _ _ _ _ _ Es Hs) as [-> Hp]. pose proof Hp as (k1 & Hs1 & _).
  rewrite (run_bind _ _ _ _ _ Es) in Hr. destruct (p_test p1) as [p2 r2] eqn:Et. rewrite (run_bind _ _ _ _ _ Et) in Hr.
  destruct (p_test_pays _ _ _ _ Et Hs1) as [(-> & -> & Hs2 & Hp2)|(k2 & -> & -> & Hs2 & Hq & Hq')]; injection Hr as <- <-.
  - split; [eapply pays_trans; [exact Hs1|done..]|by right].
  - split; [|by left]. eapply pays_trans; [exact Hs1|exact Hp|]. exists k2. split; [done|lia].
Qed.

Lemma pull_ends iterations fuel mode config (p p' : process) r k :
  pull_loop clock_at iterations fuel mode config p = (p', r) → p_signal p = Some k →
  (k < iterations → k < fuel → r ≠ Ok None)%nat ∧ pays k p p' ∧ (r = Ok (Some ()) → p_signal p' = Some O).
Proof.
  revert p k. induction iterations as [|iterations IH]; intros p k Hr Hs; cbn [pull_loop] in Hr.
  { injection Hr as <- <-. split; [lia|]. split; [|done]. exists k. split; [done|lia]. }
  destruct (p_test p) as [p1 r1] eqn:Et. rewrite (run_bind _ _ _ _ _ Et) in Hr.
  destruct (p_test_pays _ _ _ _ Et Hs) as [(-> & -> & Hs1 & Hp)|(k1 & -> & -> & Hs1 & Hp1 & Hq1)];
    [injection Hr as <- <-; split_and!; auto|].
  assert (pays (S k1) p p1) as Hpay1 by (exists k1; split; [done|lia]).
  destruct (wait_for_interruptable (sc_idle_time config) p1) as [p2 r2] eqn:Ew. rewrite (run_bind _ _ _ _ _ Ew) in Hr.
  destruct (wait_pays _ _ _ _ _ Ew Hs1) as [Hpay2 Hr2]. pose proof Hpay2 as (k2 & Hs2 & _ & Hle2).
  pose proof (pays_trans _ _ _ _ _ Hs1 Hpay1 Hpay2) as Hpay12.
  destruct Hr2 as [-> |[-> Hz]]; cbn [negb] in Hr; [|injection Hr as <- <-; split_and!; auto].
  destruct (receive_configured clock_at fuel mode config p2) as [p3 r3] eqn:Er. rewrite (run_bind _ _ _ _ _ Er) in Hr.
  destruct (receive_ends _ _ _ _ _ _ _ _ _ _ Er Hs2) as [Hne Hpay3]. pose proof Hpay3 as (k3 & Hs3 & _ & Hle3).
  pose proof (pays_trans _ _ _ _ _ Hs2 Hpay12 Hpay3) as Hpay13.
  destruct r3 as [[[]|]|e].
  - destruct (IH _ _ Hr Hs3) as (Hx & Hpay4 & Hz). split; [intros; apply Hx; lia|]. split; [|done]. by eapply (pays_trans _ k3).
  - injection Hr as <- <-. split; [|done]. intros _ Hf. exfalso. apply Hne; [lia|done].
  - injection Hr as <- <-; split_and!; [done..|by intros].
Qed.

Lemma stream_ends fuel mode config (p p' : process) r k :
  stream clock_at fuel mode config p = (p', r) → p_signal p = Some k →
  (k < fuel → r ≠ Ok None)%nat ∧ pays k p p' ∧ (mode = mode_pull → r = Ok (Some ()) → p_signal p' = Some O).
Proof.
  unfold stream. intros Hr Hs. destruct (receive_configured clock_at fuel mode config p) as [p1 r1] eqn:Er.
  rewrite (run_bind _ _ _ _ _ Er) in Hr. destruct (receive_ends _ _ _ _ _ _ _ _ _ _ Er Hs) as [Hne Hpay].
  pose proof Hpay as (k1 & Hs1 & _ & Hle). destruct r1 as [[[]|]|e].
  - case_bool_decide as Hm; [|injection Hr as <- <-; split_and!; auto; by intros].
    destruct (pull_ends _ _ _ _ _ _ _ _ Hr Hs1) as (Hx & Hpay2 & Hz).
    split; [intros; apply Hx; lia|]. split; [by eapply (pays_trans _ k1)|done].
  - injection Hr as <- <-. split; [done|]. split; [done|]. by intros.
  - injection Hr as <- <-; split_and!; [done..|by intros].
Qed.

(** C4: the program ends after a signal: when the termination flag is found set after [k]
    more tests, [main] ends, whatever the server and the storage do, also when the server
    never stops sending events.  In the pull mode the exit code is a success only after the
    signal: no loss of a connection and no refused connection ends the program. *)
Theorem shutdown fuel cmd_args read_config set_handlers (w : W) k w' s' signal' out :
  main (B := B) clock_at fuel cmd_args read_config set_handlers w (Some k) = (w', s', signal', out) →
  (k < fuel)%nat →
  out ≠ still_running ∧
  (∀ path value, check_cmd_args cmd_args = Some (mode_pull, path, value) →
     out = exited EXIT_SUCCESS → signal' = Some O).
Proof.
  intros Hm Hf. split.
  - unfold main in Hm. destruct (check_cmd_args cmd_args) as [[[mode path] value]|]; [|by injection Hm as _ _ _ <-].
    destruct (dispatch_stateless_command _ _ _) as [[ok|e]|]; [by injection Hm as _ _ _ <-..|].
    assert (∀ e, outcome_of (Err e) ≠ still_running) as Hn by (intros e; cbn; by destruct (is_exception e)).
    unfold run_streaming in Hm. destruct (read_config path) as [config|e]; [|injection Hm as _ _ _ <-; apply Hn].
    destruct set_handlers as [[]|e]; [|injection Hm as _ _ _ <-; apply Hn].
    destruct (open_storage streaming (sc_storage config)) as [s|e]; [|injection Hm as _ _ _ <-; apply Hn].
    destruct (mysql_library_init w) as [w1 []]; [|by injection Hm as _ _ _ <-].
    destruct (stream clock_at fuel mode config _) as [p r] eqn:Es.
    destruct (stream_ends _ _ _ _ _ _ k Es eq_refl) as (Hne & _). specialize (Hne Hf).
    destruct r as [[[]|]|e]; [by injection Hm as _ _ _ <-|done|injection Hm as _ _ _ <-; apply Hn].
  - intros path value Ha ->. unfold main in Hm. rewrite Ha in Hm. cbn [dispatch_stateless_command] in Hm.
    assert (∀ e, outcome_of (Err e) ≠ exited EXIT_SUCCESS) as Hn by (intros e; cbn; by destruct (is_exception e)).
    unfold run_streaming in Hm. destruct (read_config path) as [config|e]; [|injection Hm as _ _ _ Ho; by apply Hn in Ho].
    destruct set_handlers as [[]|e]; [|injection Hm as _ _ _ Ho; by apply Hn in Ho].
    destruct (open_storage streaming (sc_storage config)) as [s0|e]; [|injection Hm as _ _ _ Ho; by apply Hn in Ho].
    destruct (mysql_library_init w) as [w1 []]; [|done].
    destruct (stream clock_at fuel mode_pull config _) as [p r] eqn:Es.
    destruct (stream_ends _ _ _ _ _ _ k Es eq_refl) as (_ & _ & Hz).
    destruct r as [[[]|]|e]; [injection Hm as _ _ <-; by apply Hz|done|injection Hm as _ _ _ Ho; by apply Hn in Ho].
Qed.

(** how late the program is: when the termination flag is found set after [k] more
    tests, at most [k] more packets are received and seconds slept, both together, over all
    the connections that are made until then; none of either once the flag is set. *)
Theorem signal_delay fuel mode config (p p' : process) r k :
  stream clock_at fuel mode config p = (p', r) → p_signal p = Some k →
  (p_packets p' + p_slept p' ≤ p_packets p + p_slept p + k)%nat ∧
  ∃ k', p_signal p' = Some k' ∧ (k' ≤ k)%nat.
Proof.
  intros Hr Hs. destruct (stream_ends _ _ _ _ _ _ _ Hr Hs) as (_ & (k' & Hk & Hle & Hle') & _).
  split; [lia|eauto].
Qed.
End shutdown.

(** ** The client library is used by its rules *)
Section obeying.
Context `{StorageBackend B} `{IntervalSet} `{BoostUuid} `{BoostPosixTime} `{BoostJson} `{Zlib}.
Context `{MysqlConstants} (clock_at : nat → packet_clock).
Context {W : Type} `{MysqlClient W}.
Abbreviation world := (W * list call)%type.
Abbreviation storage := (Storage.storage (B := B)).
Abbreviation receiving := (Main.receiving (B := B) (W := world)).
Abbreviation process := (Main.process (B := B) (W := world)).

Lemma on_connection_obeys {A} (P : world * connection → Prop) (m : action (world * connection) A)
    (o o' : world * connection * storage) r :
  keeps P m → on_connection m o = (o', r) → P o.1 → P o'.1.
Proof.
  intros Hm Hr Ho. unfold on_connection, on_member in Hr. destruct (m o.1) as [wc x] eqn:E.
  injection Hr as <- <-. by eapply Hm.
Qed.
Lemma on_storage_obeys {A} (m : action storage A) (o o' : world * connection * storage) r :
  on_opened_storage m o = (o', r) → o'.1 = o.1.
Proof.
  intros Hr. unfold on_opened_storage, on_member in Hr. destruct (m o.2) as [s x]. by injection Hr as <- <-.
Qed.

Lemma sent_obeys p0 impl server_id checksum mode request (wc wc' : world * connection) r :
  send_request server_id checksum mode request wc = (wc', r) → holds p0 impl connected wc →
  match r with Ok _ => ∃ rpl, holds p0 impl (dumping rpl) wc' | Err _ => holds p0 impl connected wc' end.
Proof.
  intros Hr Hh.
  destruct request as [encoded| |name position]; cbn [send_request] in Hr;
    apply (switched_obeys p0 impl) in Hr; try done; destruct r; eauto.
Qed.

Lemma request_obeys p0 impl server_id checksum mode (o o' : world * connection * storage) r :
  request_replication server_id checksum mode o = (o', r) → holds p0 impl connected o.1 →
  match r with Ok _ => ∃ rpl, holds p0 impl (dumping rpl) o'.1 | Err _ => holds p0 impl connected o'.1 end.
Proof.
  intros Hr Hh. unfold request_replication in Hr. rewrite !gets_bind in Hr.
  assert (∀ o1 x, (if is_in_gtid_replication_mode o.2 && storage_is_empty o.2 then
      value ← on_connection (execute_select_query_string_result select_gtid_purged_query);
      gtids ← of_result (gtid_set_of_string value); on_opened_storage (set_purged gtids)
    else mret ()) o = (o1, x) → holds p0 impl connected o1.1) as Hfirst.
  { intros o1 x Hx. destruct (_ && _); [|by injection Hx as <- _].
    apply action_bind_inv in Hx as [(e & _ & He)|(o2 & value & Hsel & Hx)].
    { eapply on_connection_obeys; [apply keeps_select|exact He|exact Hh]. }
    assert (holds p0 impl connected o2.1) as Hh2 by (eapply on_connection_obeys; [apply keeps_select|exact Hsel|exact Hh]).
    apply action_bind_inv in Hx as [(e & _ & He)|(o3 & gtids & Hpar & Hx)].
    { by injection He as <- _. }
    injection Hpar as <- _. by rewrite (on_storage_obeys _ _ _ _ Hx). }
  apply action_bind_inv in Hr as [(e & -> & He)|(o1 & [] & Hconn & Hr)]; [by eapply Hfirst|].
  apply Hfirst in Hconn. clear Hfirst. apply action_bind_inv in Hr as [(e & -> & He)|(o2 & request & Hreq & Hr)].
  { by rewrite (on_storage_obeys _ _ _ _ He). }
  apply on_storage_obeys in Hreq. rewrite <-Hreq in Hconn. unfold on_connection, on_member in Hr.
  destruct (send_request server_id checksum mode request o2.1) as [wc x] eqn:Es. injection Hr as <- <-. cbn [fst].
  by eapply sent_obeys.
Qed.

(** the connection is in use, or not there *)
Definition clean p0 (wc : world * connection) : Prop :=
  (wc.2 = empty_connection ∧ idle p0 wc.1) ∨ ∃ impl ph, ph ≠ configuring ∧ holds p0 impl ph wc.

Lemma clean_destroyed p0 wc : clean p0 wc → idle p0 (destroy_connection wc.2 wc.1).
Proof.
  intros [[-> Hi]|(impl & ph & Hph & Hh)]; [exact Hi|by eapply destroyed_obeys].
Qed.

Lemma connect_obeys p0 config (w : world) wc' r :
  connect config (w, empty_connection) = (wc', r) → idle p0 w →
  match r with
  | Ok _ => ∃ impl, holds p0 impl connected wc'
  | Err _ => wc'.2 = empty_connection ∧ idle p0 wc'.1
  end.
Proof.
  unfold connect. intros Hr Hi. destruct w as [w tr].
  destruct (create_connection config (w, tr)) as [w1 [c|e]] eqn:Ec.
  - destruct (created_obeys p0 _ _ _ _ _ Ec Hi) as [impl Hh]. injection Hr as <- <-. by exists impl.
  - pose proof (created_obeys p0 _ _ _ _ _ Ec Hi). by injection Hr as <- <-.
Qed.

Lemma try_core_state {S A} (P : S → Prop) (m : action S A) h s s' r :
  try_core m h s = (s', r) → (∀ s1 x, m s = (s1, x) → P s1) → (∀ e s1 s2 x, h e s1 = (s2, x) → s2 = s1) → P s'.
Proof.
  unfold try_core. intros Hr Hm Hh. destruct (m s) as [s1 [a|e]] eqn:E; [injection Hr as <- <-; by eapply Hm|].
  destruct e; try (injection Hr as <- <-; by eapply Hm). rewrite (Hh _ _ _ _ Hr). by eapply Hm.
Qed.
Lemma try_core_is_ok {A S} (m : action S A) h s s' a :
  try_core m h s = (s', Ok a) → (∃ s1, m s = (s1, Ok a) ∧ s' = s1) ∨ ∃ e s1, h e s1 = (s', Ok a).
Proof.
  unfold try_core. destruct (m s) as [s1 [b|e]]; [intros [= -> ->]; eauto|]. destruct e; try done. eauto.
Qed.

Lemma open_obeys p0 mode config server_id checksum (w : world) (s : storage) o' r :
  open_connection_and_switch_to_replication mode config server_id checksum (w, empty_connection, s) = (o', r) →
  idle p0 w →
  clean p0 o'.1 ∧ (r = Ok true → ∃ impl rpl, holds p0 impl (dumping rpl) o'.1).
Proof.
  intros Hr Hi. unfold open_connection_and_switch_to_replication in Hr.
  set (handler := λ e, if bool_decide (mode = mode_fetch) then throw e else mret false) in Hr.
  assert (∀ e (o1 o2 : world * connection * storage) x, handler e o1 = (o2, x) → o2 = o1 ∧ x ≠ Ok true) as Hh.
  { intros e o1 o2 x. unfold handler. by case_bool_decide; intros [= <- <-]. }
  set (first := try_core (_ ← on_connection (connect config); mret true) handler) in Hr.
  assert (∀ o1 x, first (w, empty_connection, s) = (o1, x) → clean p0 o1.1 ∧
    (x = Ok true → ∃ impl, holds p0 impl connected o1.1)) as Hfirst.
  { intros o1 x Hx. unfold first, try_core in Hx. destruct (connect config (w, empty_connection)) as [wc1 y] eqn:Ec.
    pose proof (connect_obeys p0 _ _ _ _ Ec Hi) as Hc.
    assert (on_connection (connect config) (w, empty_connection, s) = ((wc1, s), y)) as Ho
      by (unfold on_connection, on_member; cbn [fst]; by rewrite Ec).
    rewrite (run_bind _ _ _ _ _ Ho) in Hx. destruct y as [[]|e].
    - injection Hx as <- <-. destruct Hc as [impl Hc]. split; [|eauto]. right. by exists impl, connected.
    - assert (o1 = (wc1, s) ∧ x ≠ Ok true) as [-> Hne] by (destruct e; try (by injection Hx as <- <-); by apply Hh in Hx).
      split; [by left|done]. }
  destruct (first (w, empty_connection, s)) as [o1 x] eqn:Ef. destruct (Hfirst _ _ eq_refl) as [Hc Hok]. clear Hfirst.
  rewrite (run_bind _ _ _ _ _ Ef) in Hr. destruct x as [[]|e]; cbn [negb] in Hr;
    [|by injection Hr as <- <-..].
  destruct (Hok eq_refl) as [impl Hconn]. set (blocking_mode := if bool_decide (mode = mode_fetch) then non_blocking else blocking) in Hr.
  destruct (request_replication server_id checksum blocking_mode o1) as [o2 y] eqn:Eq.
  pose proof (request_obeys _ _ _ _ _ _ _ _ Eq Hconn) as Hrq. unfold try_core in Hr.
  rewrite (run_bind _ _ _ _ _ Eq) in Hr. destruct y as [[]|e].
  - injection Hr as <- <-. destruct Hrq as [rpl Hd]. split; [right; by exists impl, (dumping rpl)|eauto].
  - assert (o' = o2 ∧ r ≠ Ok true) as [-> Hne] by (destruct e; try (by injection Hr as <- <-); by apply Hh in Hr).
    split; [right; by exists impl, connected|done].
Qed.

Abbreviation used r := (rv_client r, rv_connection r).

Lemma fetch_loop_obeys p0 impl rpl rewrite fuel (r r' : receiving) x :
  fetch_loop clock_at fuel rewrite r = (r', x) →
  holds p0 impl (dumping rpl) (used r) → holds p0 impl (dumping rpl) (used r').
Proof.
  revert r. induction fuel as [|fuel IH]; intros r Hr Hh; [by injection Hr as <- _|].
  cbn [fetch_loop] in Hr. destruct (test_flag (rv_signal r)) as [set signal] eqn:Et.
  assert (rv_test r = (mk_receiving (rv_client r) (rv_connection r) signal (rv_packets r) (rv_app r), Ok set)) as Ht
    by (unfold rv_test; by rewrite Et).
  rewrite (run_bind _ _ _ _ _ Ht) in Hr. destruct set; [by injection Hr as <- _|].
  set (r0 := mk_receiving _ _ _ _ _) in Hr.
  destruct (rv_on_connection fetch_binlog_event r0) as [r1 portion] eqn:Ef. rewrite (run_bind _ _ _ _ _ Ef) in Hr.
  assert (holds p0 impl (dumping rpl) (used r1)) as Hh1.
  { unfold rv_on_connection, on_member in Ef. destruct (fetch_binlog_event _) as [wc y] eqn:E. injection Ef as <- _.
    cbn. destruct wc as [w c]. by eapply keeps_fetch. }
  destruct portion as [[[|b portion]|]|e]; [by injection Hr as <- _| |by injection Hr as <- _..].
  apply action_bind_inv in Hr as [(e & _ & [=])|(r2 & now & Hclock & Hr)]. unfold rv_clock in Hclock. injection Hclock as <- _.
  apply action_bind_inv in Hr as [(e & _ & He)|(r3 & [] & Hp & Hr)].
  - unfold rv_on_app, on_member in He. destruct (receive_packet _ _ _ _). by injection He as <- _.
  - unfold rv_on_app, on_member in Hp. destruct (receive_packet _ _ _ _). injection Hp as <- _. by eapply IH.
Qed.

Lemma receive_events_obeys p0 impl rpl fuel mode rewrite (r r' : receiving) x :
  receive_events clock_at fuel mode rewrite r = (r', x) →
  holds p0 impl (dumping rpl) (used r) → holds p0 impl (dumping rpl) (used r').
Proof.
  intros Hr Hh. unfold receive_events in Hr.
  destruct (fetch_loop clock_at fuel rewrite r) as [r1 y] eqn:Ef. rewrite (run_bind _ _ _ _ _ Ef) in Hr.
  apply (fetch_loop_obeys p0 impl rpl) in Ef; [|done]. destruct y as [[ended|]|e]; [|by injection Hr as <- _..].
  destruct (after_loop mode ended r1) as [r2 z] eqn:Ea. rewrite (run_bind _ _ _ _ _ Ea) in Hr.
  assert (used r2 = used r1) as Hu.
  { unfold after_loop in Ea. apply action_bind_inv in Ea as [(e & _ & Ht)|(r3 & set & Ht & Ea)];
      unfold rv_test in Ht; destruct (test_flag _); [done|]. injection Ht as <- _.
    destruct set; [by injection Ea as <- _|]. destruct ended; [by injection Ea as <- _..|].
    case_bool_decide; [by injection Ea as <- _|]. unfold rv_on_app, on_member in Ea. destruct (abandon_connection _).
    by injection Ea as <- _. }
  rewrite <-Hu in Ef. destruct z; by injection Hr as <- _.
Qed.

Lemma receive_obeys p0 fuel mode config server_id checksum rewrite (p p' : process) r :
  receive_binlog_events clock_at fuel mode config server_id checksum rewrite p = (p', r) → idle p0 (p_client p) →
  match r with Ok None => is_Some (accept_all p0 (p_client p').2) | _ => idle p0 (p_client p') end.
Proof.
  intros Hr Hi. unfold receive_binlog_events in Hr.
  destruct (open_connection_and_switch_to_replication _ _ _ _ _) as [[[w c] s] opened] eqn:Eo.
  destruct (open_obeys _ _ _ _ _ _ _ _ _ Eo Hi) as [Hc Hd]. cbn [fst] in Hc, Hd.
  apply clean_destroyed in Hc. cbn [fst snd] in Hc. destruct opened as [[]|e]; [|by injection Hr as <- <-..].
  destruct (Hd eq_refl) as (impl & rpl & Hh).
  match type of Hr with (let (_, _) := ?m in _) = _ => destruct m as [r2 x] eqn:Em end.
  assert (holds p0 impl (dumping rpl) (used r2)) as Hh2.
  { apply action_bind_inv in Em as [(e & _ & He)|(r3 & version & Hv & Em)].
    - unfold rv_on_connection, on_member in He. destruct (get_server_version _) as [wc y] eqn:Ev.
      injection He as <- _. destruct wc. eapply keeps_bind; [apply keeps_handle| |exact Ev|exact Hh].
      intros a. apply keeps_gets.
    - unfold rv_on_connection, on_member in Hv. destruct (get_server_version _) as [wc y] eqn:Ev. injection Hv as <- _.
      rewrite modify_bind in Em. by eapply receive_events_obeys. }
  unfold leave in Hr. injection Hr as <- <-. cbn [p_client].
  assert (idle p0 (destroy_connection (rv_connection r2) (rv_client r2))) as Hfin
    by (by apply (destroyed_obeys p0 impl (dumping rpl) (used r2))).
  destruct x as [[[]|]|e]; [done| |done]. destruct Hh2 as (Ha & _). by eexists.
Qed.

Lemma waits_keep n (p p' : process) r : wait_for_interruptable n p = (p', r) → p_client p' = p_client p.
Proof.
  assert (∀ (p p' : process) r, p_test p = (p', r) → p_client p' = p_client p) as Ht.
  { intros q q' x. unfold p_test. destruct (test_flag _). by intros [= <- _]. }
  assert (∀ n (p p' : process) r, sleep_iterations n p = (p', r) → p_client p' = p_client p) as Hs.
  { clear n p p' r. induction n as [|n IH]; intros p p' r Hr; [by injection Hr as <- _|]. cbn [sleep_iterations] in Hr.
    apply action_bind_inv in Hr as [(e & _ & He)|(p1 & set & He & Hr)]; apply Ht in He; [done|].
    destruct set; [by injection Hr as <- _|]. unfold sleep_a_second in Hr. rewrite modify_bind in Hr.
    apply IH in Hr. cbn in Hr. congruence. }
  unfold wait_for_interruptable. intros Hr.
  apply action_bind_inv in Hr as [(e & _ & He)|(p1 & [] & He & Hr)]; apply Hs in He; [done|].
  apply action_bind_inv in Hr as [(e & _ & Hx)|(p2 & set & Hx & Hr)]; apply Ht in Hx; [congruence|].
  injection Hr as <- _. congruence.
Qed.

Lemma pull_obeys p0 iterations fuel mode config (p p' : process) r :
  pull_loop clock_at iterations fuel mode config p = (p', r) → idle p0 (p_client p) →
  match r with Ok None => is_Some (accept_all p0 (p_client p').2) | _ => idle p0 (p_client p') end.
Proof.
  revert p. induction iterations as [|iterations IH]; intros p Hr Hi; cbn [pull_loop] in Hr.
  { injection Hr as <- <-. by eexists. }
  apply action_bind_inv in Hr as [(e & -> & He)|(p1 & set & Ht & Hr)];
    [unfold p_test in He; by destruct (test_flag _)|].
  assert (idle p0 (p_client p1)) as Hi1 by (unfold p_test in Ht; destruct (test_flag _); by injection Ht as <- _).
  destruct set; [by injection Hr as <- <-|].
  apply action_bind_inv in Hr as [(e & -> & He)|(p2 & awoke & Hw & Hr)]; [apply waits_keep in He; by rewrite He|].
  apply waits_keep in Hw. rewrite <-Hw in Hi1. destruct awoke; cbn [negb] in Hr; [|by injection Hr as <- <-].
  destruct (receive_configured clock_at fuel mode config p2) as [p3 x] eqn:Er.
  rewrite (run_bind _ _ _ _ _ Er) in Hr. apply (receive_obeys p0) in Er; [|done].
  destruct x as [[[]|]|e]; [by eapply IH|by injection Hr as <- <-..].
Qed.

Lemma stream_obeys p0 fuel mode config (p p' : process) r :
  stream clock_at fuel mode config p = (p', r) → idle p0 (p_client p) →
  match r with Ok None => is_Some (accept_all p0 (p_client p').2) | _ => idle p0 (p_client p') end.
Proof.
  unfold stream. intros Hr Hi. destruct (receive_configured clock_at fuel mode config p) as [p1 x] eqn:Er.
  rewrite (run_bind _ _ _ _ _ Er) in Hr. apply (receive_obeys p0) in Er; [|done].
  destruct x as [[[]|]|e]; [|by injection Hr as <- <-..].
  case_bool_decide; [by eapply pull_obeys|by injection Hr as <- <-].
Qed.

(** C8: whatever the client library answers, the program uses it by its rules, over all the
    connections of a run and whatever is thrown: options are set on a new handle only,
    queries are made on a connected handle with no dump and no result open, events are
    fetched from an open dump only, and when [main] ends every dump has been closed before
    its handle, every handle and every result has been released, and the library ended. *)
Theorem client_protocol fuel cmd_args read_config set_handlers (w : W) signal w' tr s' signal' out :
  main (B := B) clock_at fuel cmd_args read_config set_handlers (w, []) signal = ((w', tr), s', signal', out) →
  match out with
  | still_running => is_Some (accept_all before_library tr)
  | _ => accept_all before_library tr = Some before_library
  end.
Proof.
  intros Hm. assert (∀ (e : error), match outcome_of (Err e) with
    | still_running => is_Some (Some before_library) | _ => Some before_library = Some before_library end) as Herr
    by (intros e; cbn; by destruct (is_exception e)).
  unfold main in Hm. destruct (check_cmd_args cmd_args) as [[[mode path] value]|]; [|by injection Hm as _ <- _ _ <-].
  destruct (dispatch_stateless_command _ _ _) as [[ok|e]|]; [by injection Hm as _ <- _ _ <-..|].
  unfold run_streaming in Hm. destruct (read_config path) as [config|e]; [|injection Hm as _ <- _ _ <-; apply Herr].
  destruct set_handlers as [[]|e]; [|injection Hm as _ <- _ _ <-; apply Herr].
  destruct (open_storage streaming (sc_storage config)) as [s|e]; [|injection Hm as _ <- _ _ <-; apply Herr].
  cbn [mysql_library_init traced] in Hm. unfold record in Hm. destruct (mysql_library_init w) as [w1 []];
    [|by injection Hm as _ <- _ _ <-].
  destruct (stream clock_at fuel mode config _) as [p r] eqn:Es.
  apply (stream_obeys before_library) in Es; [|done]. destruct (p_client p) as [w2 tr2] eqn:Ep.
  assert (∀ r, (mysql_library_end (W := world) (w2, tr2), Some (destroy_storage (p_storage p)), p_signal p, outcome_of r) =
      ((w', tr), s', signal', out) → idle before_library (w2, tr2) → r ≠ Ok None →
      match out with
      | still_running => is_Some (accept_all before_library tr)
      | _ => accept_all before_library tr = Some before_library
      end) as Hend.
  { intros r1 [= _ <- _ _ <-] Hi Hne. rewrite (accept_snoc _ _ _ _ Hi). specialize (Herr out_of_range).
    destruct r1 as [[[]|]|e]; [done|done|]. cbn. by destruct (is_exception e). }
  destruct r as [[[]|]|e]; [by eapply Hend| |by eapply Hend].
  injection Hm as _ <- _ _ <-. exact Es.
Qed.
End obeying.

(** ** A run in the pull mode *)
Module ShutdownExamples.
Import IntervalList UuidModel MetadataExamples BackendExamples LogExamples DiskExamples StreamExamples AppExamples.
Import ScriptedClient MainExamples.

(** two packets are received, the connection is lost, and the signal comes during the sleep *)
Definition pulled : script * list call * option storage * option nat * outcome :=
  main ticks 10 pull_args (λ _, Ok pull_config) (Ok ()) (two_packets, []) (Some 6%nat).

Lemma pulled_run : pulled = (pulled.1.1.1, pulled.1.1.2, pulled.1.2, pulled.2).
Proof. by destruct pulled as [[[w s] k] o]. Qed.

Lemma shutdown_witness :
  pulled.2 ≠ still_running ∧
  (∀ path value, check_cmd_args pull_args = Some (mode_pull, path, value) →
     pulled.2 = exited EXIT_SUCCESS → pulled.1.2 = Some O).
Proof.
  apply (shutdown ticks 10 pull_args (λ _, Ok pull_config) (Ok ()) (two_packets, []) 6
    pulled.1.1.1 pulled.1.1.2 pulled.1.2 pulled.2); [exact pulled_run|lia].
Defined.

Definition pulling : process := (stream ticks 10 mode_pull pull_config
  (mk_process two_packets started (Some 6%nat) 0 0)).1.
Lemma signal_delay_witness :
  (p_packets pulling + p_slept pulling ≤ 6)%nat ∧ ∃ k', p_signal pulling = Some k' ∧ (k' ≤ 6)%nat.
Proof.
  destruct (signal_delay ticks 10 mode_pull pull_config (mk_process two_packets started (Some 6%nat) 0 0)
    pulling _ 6 (surjective_pairing _) eq_refl) as [Hle Hk].
  split; [exact Hle|exact Hk].
Defined.

(** it did receive and sleep *)
Example pulling_progress : p_packets pulling = 2%nat ∧ (0 < p_slept pulling)%nat.
Proof. split; [by vm_compute|]. apply Nat.ltb_lt. by vm_compute. Qed.

Lemma client_protocol_witness : accept_all before_library pulled.1.1.1.2 = Some before_library.
Proof.
  assert (main ticks 10 pull_args (λ _, Ok pull_config) (Ok ()) (two_packets, []) (Some 6%nat) =
    ((pulled.1.1.1.1, pulled.1.1.1.2), pulled.1.1.2, pulled.1.2, exited EXIT_SUCCESS)) as Hm.
  { change (pulled = ((pulled.1.1.1.1, pulled.1.1.1.2), pulled.1.1.2, pulled.1.2, exited EXIT_SUCCESS)).
    assert (pulled.2 = exited EXIT_SUCCESS) as <- by (by vm_compute).
    by destruct pulled as [[[[w tr] s] k] o]. }
  exact (client_protocol ticks 10 pull_args _ _ two_packets _ _ _ _ _ _ Hm).
Defined.
End ShutdownExamples.
